(* ===== verification/_CoqProject ===== *)
-Q . S2P
Prelude.v
RustStr.v
Async.v
Transport.v
Crypto.v
Base64.v
Permissions.v
Json.v
Session.v
Proto.v
Inbox.v
Terminal.v
Capture.v
FileTransfer.v
Rendezvous.v
Connection.v
Steady.v
ConnectRun.v
Exec.v
ExecStream.v
ExecRun.v
Lockfile.v
Daemon.v
PushRun.v
ShellRun.v
DaemonLoop.v
Serving.v
Answered.v
Recover.v
Retry.v
TextSession.v
Direct.v
Batch.v
Response.v
Cli.v
Wire.v
CliSpec.v
Main.v
EndToEnd.v
PeerToScreen.v
Conformance.v
