(* ===== verification/Prelude.v ===== *)
(** * A verification library for rustdesk-cli

    rustdesk-cli controls a remote machine through the RustDesk protocol.  A short-lived command
    line process talks to a daemon over a Unix socket; the daemon keeps one encrypted connection to
    the peer, which it makes through a rendezvous server and a relay, and runs every command on it.
    The sources are the Rust files under src/src/.

    ** The parts and the files that model them

    - The language.  [Prelude] (bytes, machine integers with their wrap-around, [Result], error
      chains, [chunks]), [RustStr] (the [str] methods the program uses, UTF-8 included), [Json]
      ([serde_json::Value] as an ordered association list).
    - Time and failure.  [Async]: a computation [M S A] takes the deadline of the innermost
      [tokio::time::timeout], the clock in milliseconds and a state, and is done, failed, cut off,
      blocked for ever ([Hang]), or out of its loop bound ([Spin]).  Dropping a future keeps the
      state it reached, so cancellation is visible.  The predicates [timely] (never past a
      deadline), [spinless] (no loop runs out of its bound), [instant], [takes], [shrinks], the
      weakest precondition [wp] (total correctness), [ends], [triple] (partial correctness), [stays]
      (kept however a computation ends) and [gives] (of the values alone) each have their closure
      lemmas, tactics and hint databases.
    - transport.rs: [Transport].  The BytesCodec framing over a byte stream whose bytes arrive at
      given times and whose writes follow a script of faults; the [Transport] class is the trait,
      [TransportOk] what its clients rely on, and [NetTransport] the abstract transport of whole
      messages it refines.  The second copy of the framing in rendezvous.rs is there too.
    - crypto.rs: [Crypto].  Password hash, key exchange and [EncryptedStream] with its nonces.
    - capture.rs and the two base64 codecs: [Base64], [Capture].
    - permissions.rs: [Permissions].  protocol.rs and session.rs: [Session].
    - The protobuf messages: [Proto] (data types, codec class); [Inbox] (the receive loops every
      component is made of, and lemmas that run them through the messages of a peer).
    - terminal.rs: [Terminal].  file_transfer.rs: [FileTransfer].
    - rendezvous.rs: [Rendezvous].  connection.rs: [Connection].
    - daemon.rs: [Exec] (remote execution, its output parser, the clipboard), [Lockfile] (the
      daemon's files, stale cleanup, spawning and the daemon's arguments), [Daemon] (reconnect
      schedule, session messages, push, shell, other commands, shutdown), [DaemonLoop]
      ([run_daemon]: start-up, the [select!] loop and its handlers), [Serving] (the loop over an
      agenda of clients, messages and ticks), [ExecStream] (what a streamed command tells its
      client).
    - Whole runs against servers and a peer given by their messages and the times of these:
      [ConnectRun] (connecting; [Steady]: a deadline that is not reached changes nothing), [ExecRun] (an executed command), [PushRun] (a push, with the
      receiver's side as its specification), [ShellRun] (an interactive shell), [Recover] (a lost
      connection), [Retry] (a command on a new connection).  [Answered]: what any request gets for an answer, and that it gets one.
    - text_session.rs: [TextSession].
    - main.rs: [Direct] (the configuration of direct connections, [direct_exec], [direct_push],
      and the interactive terminal of terminal.rs), [Batch] (regions, options and the parser of
      [do]), [Response] (every response, its printing, the steps of a batch), [Cli] (the parsed
      command line and [run], with [send_command] and [send_to_daemon_streaming]), [CliSpec] (what
      the process guarantees), [Main] ([main], [run_daemon_mode] and what [run] does with clap's
      answer; the life of a spawned daemon).
    - The two processes together: [Wire] (the lines on the socket, as laws of serde and a codec that
      satisfies them), [EndToEnd] (the daemon's handler serving the connection the process opens),
      [PeerToScreen] ([exec], [push] and [shell] from the peer's messages to the user's screen).
    - [Conformance] runs the repository's own unit tests on the definitions.

    Function and type names are the source's, with a prefix where two modules share one
    ([es_send] is [EncryptedStream::send], [begin_push] is [PushTransfer::begin], [CmdExec] is
    [SessionCommand::Exec]).  Third-party code is a class parameter with the laws of its
    documentation: [CryptoLib]/[CryptoLaws] (sha2, crypto_box, xsalsa20poly1305),
    [ProtoCodec]/[ProtoLaws] (prost), [Zstd], [ImageLib], [ServerKeyLib] (ed25519), [LockLib],
    [CommandLib], [ResponseLib], [JsonText], [ClapLib], [ProtocolJson] and [WireLib]/[WireLaws] (clap,
    serde_json, kill(2)).  Those with laws have a toy instance that satisfies them, on which the witnesses
    evaluate.

    ** What the theorems show

    - Wire: the framing refines the abstract transport for every client that calls it with or
      without timeouts, frames of every size come back, the limits are exact, and a cancelled
      receive loses its header; the stream decrypts exactly what was sent, heartbeats included, and
      never reuses a nonce; both ends derive the same key.
    - Connecting: the whole flow, from registration to login, establishes a connection on every
      route the rendezvous server can give, over a plain connection to the server or one secured with
      its key; the handshake logs in against any conforming peer and is bounded; the punch-hole
      exchange is bounded and gives the last answer; what the server key check accepts; where the flow can block for ever.
    - Commands: the session refines a one-line connection state machine and leaves no key or button
      pressed; sandbox decisions are characterised exactly; a pushed file arrives whole, from the
      agreed offset; terminal data round trips with compression; a remote command ends within its
      budget and its output and exit code are read back; a shell relays every line and every piece
      of output, in order and nothing else.
    - Daemon: an invariant of every state the event loop reaches; what it does with any agenda of
      clients, messages of its peer and ticks, up to a signal or the idle timeout; the life of a
      daemon from the arguments [spawn_daemon] gives it to its exit code; how it replaces a lost
      connection, and runs a command on one it had to make for it; the reconnect schedule;
      disconnecting; stale files; failures at start.  Every request but a push is answered
      once its reconnects end, and every request that ends has exactly one final response, preceded
      only by output or progress.
    - Command line: nothing is sent or dialled before its permission check passed; with [--json] one
      object is printed that agrees with the exit code; what each command does without a daemon; the
      batch parser decides its grammar, and batches read back what was typed; direct execution and
      text sessions end and return the output.
    - Both processes: status, displays and input commands; an executed command and a push from the
      peer's messages to the screen; a screenshot from the peer to the file; the shell command, which
      opens a terminal and closes it; a batch that is reported and not run.
    Some theorems state behaviour that differs from what the program means to do; PROJECT.json
    lists them as findings.

    ** Bounds

    Loops run on fuel read off the state: a receive loop gets one more round than the transport
    has frames to come ([t_pending]), a file loop one per byte left, the sentinel search one per
    byte; the [spinless] and [wp] theorems prove that the bound is never reached.  [run_daemon]
    takes the number of events it serves as a parameter: its invariant holds for every number,
    and [daemon_serves_agenda] and [spawned_daemon_serves] give a number that is enough.
    Integers keep their width where the code can overflow ([wrap], [swrap]); durations are
    milliseconds.

    The exchange on the daemon's socket reads one round more than the lines to come, and the
    batch parser takes one round per token.

    ** Not modelled

    The parsing of the command line by clap (a parameter of [main]; a command line is its parsed
    form, [Cli.Commands], with the values clap's parsers admit), diagnostics on stderr other than
    the messages and the push progress (its percentage is left out), generated protobuf code, the
    failure to register a signal handler.  The heartbeat tasks are modelled by their ticks: the
    daemon's are events that can come at any time; the rendezvous client's tick is not
    interleaved with the connection flow, which after the registration never reads the UDP socket
    the ticks are sent on.  The answers of a user and the lines of the terminal are inputs with
    their times.  A write takes no time and either writes everything or fails before it writes
    anything; of two events of a [select!] that are ready at the same moment the receive goes
    first (the code picks either), and the theorems about whole runs exclude such ties where the
    choice matters.  The constants of version.rs come from the build.

    ** What could follow

    Agendas whose clients use the peer (those commands have their theorems one by one, from any state
    of the daemon), the [connect] command waiting for the files of the daemon it spawns while that
    daemon starts, and a real protobuf codec in place of the parameter. *)

From Stdlib Require Import ZArith Lia.
From Stdlib Require Import Strings.Byte Strings.Ascii Strings.String.
From stdpp Require Import base list strings option numbers.

Set Default Proof Using "Type".

Declare Scope rd_scope.
Delimit Scope rd_scope with rd.

(** ** Bytes and machine integers *)

(** A [u8] value; the type is bounded by construction. *)
Abbreviation byte := Byte.byte.
Abbreviation bytes := (list Byte.byte).

(** [b as u32] / [b as usize]: the unsigned value of a byte. *)
Definition Z_of_byte (b : byte) : Z := Z.of_N (Byte.to_N b).

(** [x as u8]: the low eight bits of an unsigned integer. *)
Definition byte_of_Z (z : Z) : byte :=
  match Byte.of_N (Z.to_N (z mod 256)) with
  | Some b => b
  | None => x00
  end.

(** [x as uN] truncation and wrap-around at a given bit width. *)
Definition wrap (w z : Z) : Z := z mod 2 ^ w.

(** [x as iN]: two's complement reinterpretation at a given width. *)
Definition swrap (w z : Z) : Z := (z + 2 ^ (w - 1)) mod 2 ^ w - 2 ^ (w - 1).

Definition u32_max : Z := 2 ^ 32 - 1.
Definition i32_min : Z := - 2 ^ 31.
Definition i32_max : Z := 2 ^ 31 - 1.

#[global] Instance byte_eq_dec : EqDecision byte.
Proof. intros x y. exact (Byte.byte_eq_dec x y). Defined.

Lemma Z_of_byte_range b : (0 <= Z_of_byte b < 256)%Z.
Proof.
  unfold Z_of_byte. pose proof (Byte.to_N_bounded b) as H. lia.
Qed.

Lemma Z_of_byte_of_Z z : Z_of_byte (byte_of_Z z) = (z mod 256)%Z.
Proof.
  unfold Z_of_byte, byte_of_Z.
  pose proof (Z.mod_pos_bound z 256 ltac:(lia)) as Hb.
  destruct (Byte.of_N (Z.to_N (z mod 256))) as [b|] eqn:E.
  - apply Byte.to_of_N in E. rewrite E, Z2N.id; lia.
  - apply Byte.of_N_None_iff in E. lia.
Qed.

Lemma Z_of_byte_small z : (0 <= z < 256)%Z -> Z_of_byte (byte_of_Z z) = z.
Proof. intros. rewrite Z_of_byte_of_Z. by apply Z.mod_small. Qed.

Lemma Z_of_byte_inj b1 b2 : Z_of_byte b1 = Z_of_byte b2 -> b1 = b2.
Proof.
  unfold Z_of_byte. intros H%N2Z.inj.
  pose proof (Byte.of_to_N b1). pose proof (Byte.of_to_N b2). congruence.
Qed.

Lemma byte_of_Z_of_byte b : byte_of_Z (Z_of_byte b) = b.
Proof. apply Z_of_byte_inj, Z_of_byte_small, Z_of_byte_range. Qed.

(** ** Bit operations *)

(** Disjoint bits: [(n << k) | t] is an addition when [t] fits below bit [k]. *)
Lemma lor_shiftl_low n k t :
  (0 <= k)%Z -> (0 <= t < 2 ^ k)%Z -> Z.lor (Z.shiftl n k) t = (n * 2 ^ k + t)%Z.
Proof.
  intros Hk Ht. rewrite <- Z.shiftl_mul_pow2 by lia.
  rewrite <- (Z.add_lor_land (Z.shiftl n k) t).
  assert (Z.land (Z.shiftl n k) t = 0%Z) as ->; [|lia].
  apply Z.bits_inj'. intros i Hi. rewrite Z.land_spec, Z.shiftl_spec, Z.bits_0 by lia.
  destruct (Z.lt_ge_cases i k).
  - by rewrite (Z.testbit_neg_r n) by lia.
  - rewrite <- (Z.mod_small t (2 ^ k)), Z.mod_pow2_bits_high, andb_false_r by lia. done.
Qed.

Lemma land_low n k : (0 <= k)%Z -> Z.land n (Z.ones k) = (n mod 2 ^ k)%Z.
Proof. intros. by apply Z.land_ones. Qed.

(** ** Little-endian integers ([to_le_bytes] / [from_le_bytes]) *)

Fixpoint to_le_bytes (n : nat) (z : Z) : bytes :=
  match n with
  | O => []
  | S n' => byte_of_Z z :: to_le_bytes n' (z / 256)
  end.

Fixpoint from_le_bytes (l : bytes) : Z :=
  match l with
  | [] => 0
  | b :: l' => Z_of_byte b + 256 * from_le_bytes l'
  end.

Lemma length_to_le_bytes n z : length (to_le_bytes n z) = n.
Proof. revert z. induction n; intros; simpl; auto. Qed.

Lemma from_le_bytes_range l :
  (0 <= from_le_bytes l < 256 ^ Z.of_nat (length l))%Z.
Proof.
  induction l as [|b l IH]; [simpl; lia|].
  cbn [from_le_bytes length]. rewrite Nat2Z.inj_succ, Z.pow_succ_r by lia.
  pose proof (Z_of_byte_range b). nia.
Qed.

Lemma from_to_le_bytes n z :
  (0 <= z < 256 ^ Z.of_nat n)%Z -> from_le_bytes (to_le_bytes n z) = z.
Proof.
  revert z. induction n as [|n IH]; intros z Hz; [simpl in *; lia|].
  rewrite Nat2Z.inj_succ, Z.pow_succ_r in Hz by lia.
  cbn [to_le_bytes from_le_bytes].
  rewrite Z_of_byte_of_Z, IH.
  - pose proof (Z.div_mod z 256). lia.
  - split; [apply Z.div_pos; lia|apply Z.div_lt_upper_bound; lia].
Qed.

Lemma from_le_bytes_zeros n : from_le_bytes (repeat x00 n) = 0%Z.
Proof. induction n; simpl; [done|]. rewrite IHn. done. Qed.

Lemma from_le_bytes_app l1 l2 :
  from_le_bytes (l1 ++ l2) =
  (from_le_bytes l1 + 256 ^ Z.of_nat (length l1) * from_le_bytes l2)%Z.
Proof.
  induction l1 as [|b l1 IH]; [cbn [from_le_bytes app length]; change (Z.of_nat 0) with 0%Z; lia|].
  cbn [app from_le_bytes length]. rewrite IH, Nat2Z.inj_succ, Z.pow_succ_r by lia.
  lia.
Qed.

Lemma take_to_le_bytes k n z :
  (k <= n)%nat -> take k (to_le_bytes n z) = to_le_bytes k z.
Proof.
  revert n z. induction k as [|k IH]; intros [|n] z Hk; try done; [lia|].
  cbn [to_le_bytes take]. f_equal. apply IH. lia.
Qed.

(** ** Lists *)

Lemma foldl_app_concat {A} (b : list A) l : foldl (@app A) b l = b ++ concat l.
Proof. revert b. induction l as [|d l IH]; intros b; cbn; [by rewrite app_nil_r|by rewrite IH, app_assoc]. Qed.

(** ** Fallible results *)

(** Rust's [Result<A, E>]. *)
Inductive result (E A : Type) : Type :=
| Ok (a : A)
| Err (e : E).
Arguments Ok {E A} a.
Arguments Err {E A} e.

#[global] Instance result_ret E : MRet (result E) := fun A a => Ok a.
#[global] Instance result_bind E : MBind (result E) := fun A B f r =>
  match r with Ok a => f a | Err e => Err e end.
#[global] Instance result_fmap E : FMap (result E) := fun A B f r =>
  match r with Ok a => Ok (f a) | Err e => Err e end.

Definition is_ok {E A} (r : result E A) : bool :=
  match r with Ok _ => true | Err _ => false end.

(** [Result::ok]. *)
Definition ok {E A} (r : result E A) : option A :=
  match r with Ok a => Some a | Err _ => None end.

(** [Option::ok_or_else] / [Context::context] on an option. *)
Definition ok_or {E A} (o : option A) (e : E) : result E A :=
  match o with Some a => Ok a | None => Err e end.

(** [Result::map_err]. *)
Definition map_err {E F A} (f : E -> F) (r : result E A) : result F A :=
  match r with Ok a => Ok a | Err e => Err (f e) end.

(** An [anyhow::Error]: its context chain, outermost message first. *)
Definition Error : Type := list string.
Abbreviation Res := (result Error).

(** [anyhow!("..")] / [bail!("..")]: an error with a single message. *)
Definition anyhow (msg : string) : Error := [msg].

(** [.context(c)] on an error: one more message at the outside of the chain. *)
Definition add_context (c : string) (e : Error) : Error := c :: e.

(** [e.to_string()] and [format!("{e}")]: the outermost message. *)
Definition error_to_string (e : Error) : string :=
  match e with [] => EmptyString | m :: _ => m end.

(** [format!("{e:#}")]: the whole chain joined with [": "]. *)
Fixpoint error_render (e : Error) : string :=
  match e with
  | [] => EmptyString
  | [m] => m
  | m :: e' => String.append m (String.append ": " (error_render e'))
  end.

Lemma bind_ok_inv {E A B} (f : A -> result E B) (r : result E A) b :
  mbind f r = Ok b -> exists a, r = Ok a /\ f a = Ok b.
Proof. destruct r; simpl; [eauto|done]. Qed.

(** ** Lists *)

(** [slice.chunks(n)] for [n > 0], with the fuel that a list's own length always covers. *)
Fixpoint chunks_fuel {A} (fuel n : nat) (l : list A) : list (list A) :=
  match fuel with
  | O => []
  | S fuel' =>
    match l with
    | [] => []
    | _ => take n l :: chunks_fuel fuel' n (drop n l)
    end
  end.
Definition chunks {A} (n : nat) (l : list A) : list (list A) :=
  chunks_fuel (length l) n l.

Lemma chunks_fuel_enough {A} f1 f2 n (l : list A) :
  (0 < n)%nat -> (length l <= f1)%nat -> (length l <= f2)%nat ->
  chunks_fuel f1 n l = chunks_fuel f2 n l.
Proof.
  intros Hn. revert f2 l. induction f1 as [|f1 IH]; intros f2 l H1 H2.
  - destruct l; [|simpl in *; lia]. by destruct f2.
  - destruct l as [|x l]; [by destruct f2|].
    destruct f2 as [|f2]; [simpl in *; lia|].
    cbn [chunks_fuel]. f_equal.
    assert (length (drop n (x :: l)) <= length l)%nat
      by (rewrite length_drop; simpl; lia).
    simpl in H1, H2. apply IH; lia.
Qed.

Lemma chunks_app {A} n (l1 l2 : list A) :
  (0 < n)%nat -> length l1 = n -> chunks n (l1 ++ l2) = l1 :: chunks n l2.
Proof.
  intros Hn Hl. unfold chunks.
  destruct l1 as [|x l1]; [simpl in *; lia|].
  rewrite length_app. cbn [chunks_fuel app length Nat.add]. f_equal.
  - rewrite app_comm_cons, take_app_le, take_ge; auto; lia.
  - rewrite app_comm_cons, drop_app_ge, <- Hl, Nat.sub_diag, drop_0 by lia.
    apply chunks_fuel_enough; simpl in *; lia.
Qed.

Lemma chunks_small {A} n (l : list A) :
  l <> [] -> (length l <= n)%nat -> chunks n l = [l].
Proof.
  intros Hne Hl. unfold chunks. destruct l as [|x l]; [done|].
  cbn [chunks_fuel length]. rewrite take_ge, drop_ge by (simpl in *; lia).
  by destruct (length l).
Qed.

Lemma chunks_nil {A} n : chunks n ([] : list A) = [].
Proof. done. Qed.

(** Induction over a list in pieces of three. *)
Lemma list_ind3 {A} (P : list A -> Prop) :
  P [] -> (forall a, P [a]) -> (forall a b, P [a; b]) ->
  (forall a b c l, P l -> P (a :: b :: c :: l)) -> forall l, P l.
Proof.
  intros H0 H1 H2 H3.
  fix IH 1. intros [|a [|b [|c l]]]; [done|done|done|]. apply H3, IH.
Qed.

(** ** Automation *)

Create HintDb rd.

(** Case analysis on the scrutinee of a [match] or [if], keeping the equation, and cleaning up. *)
Ltac rd_case :=
  match goal with
  | |- context [match ?x with _ => _ end] => destruct x eqn:?; simplify_eq/=
  | H : context [match ?x with _ => _ end] |- _ => destruct x eqn:?; simplify_eq/=
  end.

(** Turns boolean comparisons on [Z] and [nat] into propositions. *)
Ltac rd_bool :=
  repeat match goal with
  | H : (_ && _)%bool = true |- _ => apply andb_true_iff in H; destruct H
  | H : (_ || _)%bool = false |- _ => apply orb_false_iff in H; destruct H
  | H : negb _ = true |- _ => apply negb_true_iff in H
  | H : negb _ = false |- _ => apply negb_false_iff in H
  | H : (_ <=? _)%Z = true |- _ => apply Z.leb_le in H
  | H : (_ <=? _)%Z = false |- _ => apply Z.leb_gt in H
  | H : (_ <? _)%Z = true |- _ => apply Z.ltb_lt in H
  | H : (_ <? _)%Z = false |- _ => apply Z.ltb_ge in H
  | H : (_ =? _)%Z = true |- _ => apply Z.eqb_eq in H
  | H : (_ =? _)%Z = false |- _ => apply Z.eqb_neq in H
  | H : (_ <=? _)%nat = true |- _ => apply Nat.leb_le in H
  | H : (_ <=? _)%nat = false |- _ => apply Nat.leb_gt in H
  | H : (_ <? _)%nat = true |- _ => apply Nat.ltb_lt in H
  | H : (_ <? _)%nat = false |- _ => apply Nat.ltb_ge in H
  | H : (_ =? _)%nat = true |- _ => apply Nat.eqb_eq in H
  | H : (_ =? _)%nat = false |- _ => apply Nat.eqb_neq in H
  | H : String.eqb _ _ = true |- _ => apply String.eqb_eq in H
  | H : String.eqb _ _ = false |- _ => apply String.eqb_neq in H
  end.
