(* ===== verification/RustStr.v ===== *)
(** * The parts of Rust's [str] / [String] API the program uses

    A [str] is its UTF-8 byte sequence, a [string].  Lengths, offsets and slices are in bytes,
    as in Rust; operations on [char]s go through [chars], which cuts at character boundaries. *)

From S2P Require Import Prelude.
From Stdlib Require Import ZArith Lia.
From Stdlib Require Import Strings.Byte Strings.Ascii Strings.String.
From stdpp Require Import base list strings option numbers pretty.

Local Open Scope string_scope.

(** ** Bytes and slices *)

Abbreviation as_bytes := String.list_byte_of_string.
Abbreviation from_bytes := String.string_of_list_byte.

Definition ascii_Z (c : ascii) : Z := Z_of_byte (byte_of_ascii c).

(** [&s[n..]] *)
Fixpoint str_drop (n : nat) (s : string) : string :=
  match n, s with
  | O, _ => s
  | S n', String _ s' => str_drop n' s'
  | S _, "" => ""
  end.

(** [&s[..n]] *)
Fixpoint str_take (n : nat) (s : string) : string :=
  match n, s with
  | S n', String c s' => String c (str_take n' s')
  | _, _ => ""
  end.

(** [&s[a..b]] *)
Definition str_slice (a b : nat) (s : string) : string := str_take (b - a) (str_drop a s).

Definition is_empty (s : string) : bool :=
  match s with "" => true | _ => false end.

(** ** Searching *)

(** [s.starts_with(pat)] *)
Definition starts_with (pat s : string) : bool := String.prefix pat s.

(** [s.find(pat)]: the byte offset of the first occurrence. *)
Fixpoint str_find (pat s : string) : option nat :=
  if starts_with pat s then Some O
  else match s with
       | "" => None
       | String _ s' => S <$> str_find pat s'
       end.

(** [s.contains(pat)] *)
Definition contains (pat s : string) : bool :=
  match str_find pat s with Some _ => true | None => false end.

(** [s.find(c)] for an ASCII character. *)
Definition find_char (c : ascii) (s : string) : option nat := str_find (String c "") s.

(** [s.rfind(c)] for an ASCII character. *)
Fixpoint rfind_char (c : ascii) (s : string) : option nat :=
  match s with
  | "" => None
  | String c' s' =>
    match rfind_char c s' with
    | Some n => Some (S n)
    | None => if Ascii.eqb c c' then Some O else None
    end
  end.

(** [s.ends_with(c)] *)
Fixpoint ends_with_char (c : ascii) (s : string) : bool :=
  match s with
  | "" => false
  | String c' "" => Ascii.eqb c c'
  | String _ s' => ends_with_char c s'
  end.

(** [s.matches(c).count()] *)
Fixpoint count_char (c : ascii) (s : string) : nat :=
  match s with
  | "" => O
  | String c' s' => (if Ascii.eqb c c' then S else id) (count_char c s')
  end.

(** ** Splitting and joining *)

(** [s.split(c)] *)
Fixpoint split_char (c : ascii) (s : string) : list string :=
  match s with
  | "" => [""]
  | String c' s' =>
    if Ascii.eqb c c' then "" :: split_char c s'
    else match split_char c s' with
         | [] => [String c' ""]
         | w :: ws => String c' w :: ws
         end
  end.

(** [s.rsplit_once(c)] *)
Definition rsplit_once (c : ascii) (s : string) : option (string * string) :=
  match rfind_char c s with
  | Some n => Some (str_take n s, str_drop (S n) s)
  | None => None
  end.

(** [parts.join(sep)] *)
Fixpoint join (sep : string) (l : list string) : string :=
  match l with
  | [] => ""
  | [x] => x
  | x :: l' => x ++ sep ++ join sep l'
  end.

(** [s.lines()]: split at [\n], drop the final empty piece, drop one [\r] before each [\n]. *)
Definition strip_cr (s : string) : string :=
  if ends_with_char "013" s then str_take (String.length s - 1) s else s.
Fixpoint lines_of (pieces : list string) : list string :=
  match pieces with
  | [] => []
  | [last] => if is_empty last then [] else [last]
  | p :: ps => strip_cr p :: lines_of ps
  end.
Definition lines (s : string) : list string := lines_of (split_char "010" s).

(** ** Characters *)

(** The length in bytes of a UTF-8 sequence, from its first byte. *)
Definition char_width (c : ascii) : nat :=
  let b := ascii_Z c in
  if (b <? 128)%Z then 1 else if (b <? 224)%Z then 2 else if (b <? 240)%Z then 3 else 4.

Fixpoint chars_fuel (fuel : nat) (s : string) : list string :=
  match fuel, s with
  | S fuel', String c _ => str_take (char_width c) s :: chars_fuel fuel' (str_drop (char_width c) s)
  | _, _ => []
  end.

(** [s.chars()], each character as its own UTF-8 string. *)
Definition chars (s : string) : list string := chars_fuel (String.length s) s.

(** [s.chars().count()] *)
Definition chars_count (s : string) : nat := length (chars s).

(** [char::is_whitespace]: the Unicode [White_Space] characters, by their UTF-8 encoding. *)
Definition is_whitespace (ch : string) : bool :=
  match map Z_of_byte (as_bytes ch) with
  | [b] => ((9 <=? b) && (b <=? 13) || (b =? 32))%Z
  | [b0; b1] => ((b0 =? 0xC2) && ((b1 =? 0x85) || (b1 =? 0xA0)))%Z
  | [b0; b1; b2] =>
    ((b0 =? 0xE1) && (b1 =? 0x9A) && (b2 =? 0x80)
     || (b0 =? 0xE2) && (b1 =? 0x80) &&
        ((0x80 <=? b2) && (b2 <=? 0x8A) || (b2 =? 0xA8) || (b2 =? 0xA9) || (b2 =? 0xAF))
     || (b0 =? 0xE2) && (b1 =? 0x81) && (b2 =? 0x9F)
     || (b0 =? 0xE3) && (b1 =? 0x80) && (b2 =? 0x80))%Z
  | _ => false
  end.

Fixpoint drop_while {A} (p : A -> bool) (l : list A) : list A :=
  match l with
  | [] => []
  | x :: l' => if p x then drop_while p l' else l
  end.

Fixpoint take_while {A} (p : A -> bool) (l : list A) : list A :=
  match l with
  | [] => []
  | x :: l' => if p x then x :: take_while p l' else []
  end.

Definition concat_str (l : list string) : string := foldr String.append "" l.

(** [s.trim()] *)
Definition trim (s : string) : string :=
  concat_str (rev (drop_while is_whitespace (rev (drop_while is_whitespace (chars s))))).

(** [s.trim_end_matches(set of ASCII characters)] *)
Definition trim_end_matches (set : list ascii) (s : string) : string :=
  string_of_list_ascii
    (rev (drop_while (fun c => existsb (Ascii.eqb c) set) (rev (list_ascii_of_string s)))).

(** ** ASCII case *)

Definition ascii_lower (c : ascii) : ascii :=
  let b := ascii_Z c in
  if ((65 <=? b) && (b <=? 90))%Z then ascii_of_byte (byte_of_Z (b + 32)) else c.

(** [s.to_ascii_lowercase()] *)
Fixpoint to_ascii_lowercase (s : string) : string :=
  match s with
  | "" => ""
  | String c s' => String (ascii_lower c) (to_ascii_lowercase s')
  end.

(** [a.eq_ignore_ascii_case(b)] *)
Definition eq_ignore_ascii_case (a b : string) : bool :=
  String.eqb (to_ascii_lowercase a) (to_ascii_lowercase b).

(** ** Numbers *)

(** [char::is_ascii_digit] *)
Definition is_ascii_digit (c : ascii) : bool :=
  let b := ascii_Z c in ((48 <=? b) && (b <=? 57))%Z.

Fixpoint digits_value (acc : Z) (s : string) : option Z :=
  match s with
  | "" => Some acc
  | String c s' =>
    if is_ascii_digit c then digits_value (10 * acc + (ascii_Z c - 48)) s' else None
  end.

Definition parse_digits (s : string) : option Z :=
  if is_empty s then None else digits_value 0 s.

(** [s.parse::<T>()] for an integer type with values [lo..=hi]: an optional sign ([-] only for a
    signed type), at least one digit, nothing else, and the value in range. *)
Definition parse_int (lo hi : Z) (s : string) : option Z :=
  let v := match s with
           | "" => None
           | String c s' =>
             if Ascii.eqb c "+" then parse_digits s'
             else if Ascii.eqb c "-" && (lo <? 0)%Z then Z.opp <$> parse_digits s'
             else parse_digits s
           end in
  match v with
  | Some z => if ((lo <=? z) && (z <=? hi))%Z then Some z else None
  | None => None
  end.

Definition parse_i32 : string -> option Z := parse_int i32_min i32_max.
Definition parse_u16 : string -> option Z := parse_int 0 (2 ^ 16 - 1).
Definition parse_u32 : string -> option Z := parse_int 0 u32_max.
Definition parse_u64 : string -> option Z := parse_int 0 (2 ^ 64 - 1).

(** [n.to_string()] / [{n}]: decimal digits with a leading [-] when negative. *)
Definition show_Z (z : Z) : string := pretty z.
Definition show_nat (n : nat) : string := pretty (N.of_nat n).
Definition show_bool (b : bool) : string := if b then "true" else "false".

Definition hex_digit (z : Z) : ascii :=
  ascii_of_byte (byte_of_Z (if (z <? 10)%Z then 48 + z else 87 + z)).

(** [{n:0wx}]: [w] lower-case hexadecimal digits (for values below [16^w]). *)
Fixpoint hex_pad (w : nat) (z : Z) : string :=
  match w with
  | O => ""
  | S w' => hex_pad w' (z / 16) ++ String (hex_digit (z mod 16)) ""
  end.

(** ** Lossy UTF-8 decoding ([String::from_utf8_lossy]) *)

Definition in_range (lo hi b : Z) : bool := ((lo <=? b) && (b <=? hi))%Z.
Definition is_cont (b : Z) : bool := in_range 0x80 0xBF b.

(** [safe_get]: the byte at an index, 0 past the end. *)
Definition byte_at (i : nat) (l : bytes) : Z :=
  match l !! i with Some b => Z_of_byte b | None => 0 end.

(** One step of the UTF-8 scanner: whether a well-formed sequence starts the input, and how many
    bytes belong to it (or to the maximal ill-formed prefix). *)
Definition utf8_step (l : bytes) : bool * nat :=
  let b0 := byte_at 0 l in
  let b1 := byte_at 1 l in
  if (b0 <? 128)%Z then (true, 1%nat)
  else if in_range 0xC2 0xDF b0 then
    if is_cont b1 then (true, 2%nat) else (false, 1%nat)
  else if in_range 0xE0 0xEF b0 then
    if ((b0 =? 0xE0)%Z && in_range 0xA0 0xBF b1 || in_range 0xE1 0xEC b0 && is_cont b1
        || (b0 =? 0xED)%Z && in_range 0x80 0x9F b1 || in_range 0xEE 0xEF b0 && is_cont b1)
    then if is_cont (byte_at 2 l) then (true, 3%nat) else (false, 2%nat)
    else (false, 1%nat)
  else if in_range 0xF0 0xF4 b0 then
    if ((b0 =? 0xF0)%Z && in_range 0x90 0xBF b1 || in_range 0xF1 0xF3 b0 && is_cont b1
        || (b0 =? 0xF4)%Z && in_range 0x80 0x8F b1)
    then if is_cont (byte_at 2 l)
         then if is_cont (byte_at 3 l) then (true, 4%nat) else (false, 3%nat)
         else (false, 2%nat)
    else (false, 1%nat)
  else (false, 1%nat).

Definition replacement : bytes := [xef; xbf; xbd].

Fixpoint lossy_fuel (fuel : nat) (l : bytes) : bytes :=
  match fuel, l with
  | S fuel', _ :: _ =>
    let '(valid, n) := utf8_step l in
    (if valid then take n l else replacement) ++ lossy_fuel fuel' (drop n l)
  | _, _ => []
  end.

Definition from_utf8_lossy (l : bytes) : string := from_bytes (lossy_fuel (length l) l).



#[global] Arguments String.append !_ _ : simpl nomatch.
Arguments starts_with : simpl never.

(** ** Facts *)

Lemma str_app_nil_r s : s ++ "" = s.
Proof. induction s; simpl; congruence. Qed.

Lemma str_app_assoc a b c : (a ++ b) ++ c = a ++ (b ++ c).
Proof. induction a; simpl; congruence. Qed.

Lemma str_length_app a b : String.length (a ++ b) = (String.length a + String.length b)%nat.
Proof. induction a; simpl; congruence. Qed.

Lemma str_take_drop n s : str_take n s ++ str_drop n s = s.
Proof. revert s. induction n; intros []; simpl; congruence. Qed.

Lemma str_take_app a b : str_take (String.length a) (a ++ b) = a.
Proof. induction a; simpl; [by destruct b|congruence]. Qed.

Lemma str_drop_app a b : str_drop (String.length a) (a ++ b) = b.
Proof. induction a; simpl; [by destruct b|done]. Qed.

Lemma str_drop_app_plus n a b : str_drop (String.length a + n) (a ++ b) = str_drop n b.
Proof. induction a; simpl; done. Qed.

Lemma str_take_app_plus n a b : str_take (String.length a + n) (a ++ b) = a ++ str_take n b.
Proof. induction a; simpl; congruence. Qed.

Lemma str_length_drop n s : String.length (str_drop n s) = (String.length s - n)%nat.
Proof. revert s. induction n; intros []; simpl; auto. Qed.

Lemma str_take_all s : str_take (String.length s) s = s.
Proof. induction s; simpl; congruence. Qed.

Lemma str_drop_all s : str_drop (String.length s) s = "".
Proof. by induction s. Qed.

Lemma starts_with_spec p s : starts_with p s = true <-> exists r, s = p ++ r.
Proof.
  unfold starts_with. split.
  - revert s. induction p as [|c p IH]; intros s Hp; [by exists s|].
    destruct s as [|d s]; simpl in Hp; [done|].
    destruct (Ascii.ascii_dec c d) as [->|]; [|done].
    destruct (IH _ Hp) as [r ->]. by exists r.
  - intros [r ->]. induction p as [|c p IH]; [by destruct r|].
    simpl. by destruct (Ascii.ascii_dec c c).
Qed.

Lemma starts_with_app p r : starts_with p (p ++ r) = true.
Proof. apply starts_with_spec. eauto. Qed.

(** [str_find] returns an occurrence ... *)
Lemma str_find_Some p s n :
  str_find p s = Some n ->
  exists r, s = str_take n s ++ p ++ r /\ str_drop n s = p ++ r.
Proof.
  revert n. induction s as [|c s IH]; intros n; simpl; destruct (starts_with _ _) eqn:E;
    intros Hn; simplify_eq/=.
  - apply starts_with_spec in E as [r Hr]. by exists r.
  - apply starts_with_spec in E as [r Hr]. by exists r.
  - apply fmap_Some in Hn as (m & Hm & ->). destruct (IH _ Hm) as (r & H1 & H2).
    exists r. simpl. split; [congruence|done].
Qed.

(** ... and no earlier position holds one. *)
Lemma str_find_least p s n m :
  str_find p s = Some n -> (m < n)%nat -> starts_with p (str_drop m s) = false.
Proof.
  revert n m. induction s as [|c s IH]; intros n m; simpl; destruct (starts_with _ _) eqn:E;
    intros Hn Hm; simplify_eq/=; try lia.
  apply fmap_Some in Hn as (k & Hk & ->).
  destruct m as [|m]; [done|]. simpl. apply (IH k); [done|lia].
Qed.

Lemma str_find_None p s m :
  str_find p s = None -> starts_with p (str_drop m s) = false.
Proof.
  revert m. induction s as [|c s IH]; intros m; simpl; destruct (starts_with _ _) eqn:E;
    intros Hn; simplify_eq/=.
  - by destruct m.
  - apply fmap_None in Hn. destruct m as [|m]; [done|]. simpl. by apply IH.
Qed.

(** An occurrence after a prefix in which none starts is the one found. *)
Lemma str_find_intro p a r :
  (forall m, (m < String.length a)%nat -> starts_with p (str_drop m (a ++ p ++ r)) = false) ->
  str_find p (a ++ p ++ r) = Some (String.length a).
Proof.
  induction a as [|c a IH]; intros H.
  - change ("" ++ p ++ r) with (p ++ r). destruct (p ++ r) eqn:E; simpl;
      rewrite <- E, starts_with_app; done.
  - pose proof (H 0%nat ltac:(simpl; lia)) as H0. simpl in H0 |- *. rewrite H0.
    rewrite IH; [done|]. intros m Hm. apply (H (S m)). simpl. lia.
Qed.

Lemma contains_spec p s : contains p s = true <-> exists a b, s = a ++ p ++ b.
Proof.
  unfold contains. split.
  - destruct (str_find p s) as [n|] eqn:E; [|done]. intros _.
    destruct (str_find_Some _ _ _ E) as (r & H & _). eauto.
  - intros (a & b & ->). destruct (str_find _ _) eqn:E; [done|].
    pose proof (str_find_None _ _ (String.length a) E) as H.
    by rewrite str_drop_app, starts_with_app in H.
Qed.

Lemma contains_app_r p a b : contains p b = true -> contains p (a ++ b) = true.
Proof.
  rewrite !contains_spec. intros (x & y & ->). exists (a ++ x), y. by rewrite str_app_assoc.
Qed.

(** Cutting into characters loses nothing. *)
Lemma concat_chars s : concat_str (chars s) = s.
Proof.
  unfold chars.
  assert (forall f s, (String.length s <= f)%nat -> concat_str (chars_fuel f s) = s) as H.
  { clear s. induction f as [|f IH]; intros s Hs; destruct s as [|c s]; simpl in *; try done; [lia|].
    assert (char_width c <> 0%nat) as Hw by (unfold char_width; repeat case_match; lia).
    destruct (char_width c) as [|w]; [done|]. simpl.
    rewrite IH by (rewrite str_length_drop; lia). f_equal. apply str_take_drop. }
  by apply H.
Qed.

Lemma char_width_pos c : (0 < char_width c)%nat.
Proof. unfold char_width; repeat case_match; lia. Qed.

(** A string has at most as many characters as bytes. *)
Lemma chars_count_le s : (chars_count s <= String.length s)%nat.
Proof.
  unfold chars_count, chars. generalize (String.length s) at 1 2. intros f. revert s.
  induction f as [|f IH]; intros [|c s]; simpl; try lia. specialize (IH (str_drop (char_width c) (String c s))). lia.
Qed.

(** ** Decimal printing and parsing *)

Lemma digits_value_app a s1 s2 :
  digits_value a (s1 ++ s2) = (digits_value a s1 ≫= fun v => digits_value v s2).
Proof.
  revert a. induction s1 as [|c s1 IH]; intros a; simpl; [done|].
  destruct (is_ascii_digit c); [apply IH|done].
Qed.

Lemma pretty_N_char_digit x : (x < 10)%N ->
  is_ascii_digit (pretty_N_char x) = true /\ (ascii_Z (pretty_N_char x) - 48)%Z = Z.of_N x.
Proof.
  intros Hx.
  assert (x = 0 \/ x = 1 \/ x = 2 \/ x = 3 \/ x = 4 \/ x = 5 \/ x = 6 \/ x = 7 \/ x = 8 \/ x = 9)%N
    as H by lia.
  destruct_or! H; subst; split; reflexivity.
Qed.

(** The digits [pretty_N_go] puts in front of [s] spell the number. *)
Lemma pretty_N_go_value x :
  exists d, (forall s, pretty_N_go x s = d ++ s) /\ digits_value 0 d = Some (Z.of_N x) /\
            (x <> 0%N -> exists c d', d = String c d' /\ is_ascii_digit c = true).
Proof.
  induction (N.lt_wf_0 x) as [x _ IH].
  destruct (decide (x = 0)%N) as [->|Hx].
  { exists "". split; [done|]. split; [done|]. intros []; done. }
  destruct (IH (x `div` 10)%N) as (d & Hd & Hv & Hne); [apply N.div_lt; lia|].
  destruct (pretty_N_char_digit (x `mod` 10)%N) as [Hdig Hval]; [apply N.mod_lt; lia|].
  exists (d ++ String (pretty_N_char (x `mod` 10)) ""). split_and!.
  - intros s. rewrite pretty_N_go_step, Hd, str_app_assoc by lia. done.
  - rewrite digits_value_app, Hv. simpl. rewrite Hdig, Hval. f_equal.
    pose proof (N.div_mod x 10). lia.
  - intros _. destruct (decide (x `div` 10 = 0)%N) as [E|E].
    + destruct d as [|c d']; [simpl; eauto|].
      rewrite E in Hd. specialize (Hd ""). rewrite pretty_N_go_0 in Hd. done.
    + destruct (Hne E) as (c & d' & -> & Hc). simpl. eauto.
Qed.

Lemma show_N_digits (n : N) :
  exists c d, pretty n = String c d /\ is_ascii_digit c = true /\
              digits_value 0 (String c d) = Some (Z.of_N n).
Proof.
  unfold pretty, pretty_N. case_decide as E; [subst; exists "0"%char, ""; done|].
  destruct (pretty_N_go_value n) as (d & Hd & Hv & Hne).
  destruct (Hne E) as (c & d' & -> & Hc). exists c, d'.
  rewrite Hd, str_app_nil_r. done.
Qed.

Lemma digit_not_sign c : is_ascii_digit c = true ->
  Ascii.eqb c "+" = false /\ Ascii.eqb c "-" = false.
Proof.
  intros H. split; apply Ascii.eqb_neq; intros ->; discriminate.
Qed.

Lemma range_check lo hi z :
  (lo <= z <= hi)%Z -> (if ((lo <=? z) && (z <=? hi))%Z then Some z else None) = Some z.
Proof.
  intros Hz. destruct (lo <=? z)%Z eqn:E1, (z <=? hi)%Z eqn:E2; rd_bool; try lia. done.
Qed.

(** Parsing a printed integer gives it back, at every signed or unsigned width. *)
Lemma parse_show_Z lo hi z :
  (lo <= z <= hi)%Z -> (lo <= 0)%Z -> parse_int lo hi (show_Z z) = Some z.
Proof.
  intros Hz Hlo. rewrite <- (range_check lo hi z) by done.
  change (show_Z z) with (pretty_Z z). unfold parse_int, pretty_Z.
  destruct z as [|p|p]; [done| |]; change (pretty p) with (pretty (N.pos p));
    destruct (show_N_digits (N.pos p)) as (c & d & -> & Hc & Hv); unfold parse_digits.
  - destruct (digit_not_sign c Hc) as [-> ->]. rewrite Hv. done.
  - cbn [String.append]. change (Ascii.eqb "-" "+") with false.
    change (Ascii.eqb "-" "-") with true. cbv iota.
    assert ((lo <? 0)%Z = true) as -> by (apply Z.ltb_lt; lia). rewrite Hv. done.
Qed.

Lemma parse_int_range lo hi s z : parse_int lo hi s = Some z -> (lo <= z <= hi)%Z.
Proof.
  unfold parse_int. intros H. repeat case_match; simplify_eq; rd_bool; lia.
Qed.

(** ** Splitting printed numbers *)

Lemma split_char_absent c a : count_char c a = O -> split_char c a = [a].
Proof.
  induction a as [|x a IH]; [done|]. cbn [count_char split_char]. destruct (Ascii.eqb c x); [done|].
  intros H. by rewrite IH.
Qed.

Lemma split_char_app c a b :
  count_char c a = O -> split_char c (a ++ String c b) = a :: split_char c b.
Proof.
  induction a as [|x a IH]; cbn [count_char String.append split_char]; [by rewrite Ascii.eqb_refl|].
  destruct (Ascii.eqb c x); [done|]. intros H. by rewrite IH.
Qed.

Lemma digits_no_char c acc s v :
  digits_value acc s = Some v -> is_ascii_digit c = false -> count_char c s = O.
Proof.
  revert acc. induction s as [|x s IH]; intros acc Hv Hc; [done|]. cbn [digits_value count_char] in *.
  destruct (is_ascii_digit x) eqn:Ex; [|done].
  destruct (Ascii.eqb_spec c x) as [->|_]; [congruence|]. by eapply IH.
Qed.

Lemma show_Z_no_char c z :
  is_ascii_digit c = false -> Ascii.eqb c "-" = false -> count_char c (show_Z z) = O.
Proof.
  intros Hc Hm. change (show_Z z) with (pretty_Z z). unfold pretty_Z.
  destruct z as [|p|p].
  - cbn. destruct (Ascii.eqb_spec c "0") as [->|_]; [done|done].
  - change (pretty p) with (pretty (N.pos p)). destruct (show_N_digits (N.pos p)) as (x & d & -> & _ & Hv).
    by eapply digits_no_char.
  - change (pretty p) with (pretty (N.pos p)). destruct (show_N_digits (N.pos p)) as (x & d & -> & _ & Hv).
    cbn [String.append]. change (count_char c (String "-" (String x d))) with
      ((if Ascii.eqb c "-" then S else id) (count_char c (String x d))). rewrite Hm. by eapply digits_no_char.
Qed.

Lemma rfind_count c s : count_char c s = O -> rfind_char c s = None.
Proof.
  induction s as [|x s IH]; [done|]. cbn [count_char rfind_char]. destruct (Ascii.eqb c x); [done|].
  intros H. by rewrite IH.
Qed.

(** ** Lossy decoding of ASCII *)

Definition is_ascii_byte (b : byte) : bool := (Z_of_byte b <? 128)%Z.

Lemma lossy_ascii l : forallb is_ascii_byte l = true -> from_utf8_lossy l = from_bytes l.
Proof.
  intros Hl. unfold from_utf8_lossy. f_equal.
  induction l as [|b l IH]; [done|]. simpl in Hl. apply andb_true_iff in Hl as [Hb Hl].
  cbn [lossy_fuel length].
  assert (utf8_step (b :: l) = (true, 1%nat)) as ->.
  { unfold utf8_step. change (byte_at 0 (b :: l)) with (Z_of_byte b).
    unfold is_ascii_byte in Hb. by rewrite Hb. }
  change (drop 1 (b :: l)) with l. rewrite IH by done. done.
Qed.

Lemma from_as_bytes s : from_bytes (as_bytes s) = s.
Proof. apply string_of_list_byte_of_string. Qed.

Lemma as_from_bytes l : as_bytes (from_bytes l) = l.
Proof. apply list_byte_of_string_of_list_byte. Qed.

Lemma as_bytes_app a b : as_bytes (a ++ b) = (as_bytes a ++ as_bytes b)%list.
Proof.
  unfold as_bytes. induction a as [|c a IH]; [done|]. simpl. by rewrite IH.
Qed.

Lemma length_as_bytes s : length (as_bytes s) = String.length s.
Proof. unfold as_bytes. induction s as [|c s IH]; [done|]. simpl. by rewrite IH. Qed.

#[export] Hint Rewrite str_app_nil_r str_take_app str_drop_app str_length_app str_take_all
  str_drop_all as_from_bytes from_as_bytes as_bytes_app length_as_bytes : rd.
