(* ===== verification/Async.v ===== *)
(** * A monad for the program's async code

    A computation runs against a state [S] (a connection, a daemon, ...), a clock in
    milliseconds, and the deadline of the innermost enclosing [tokio::time::timeout].  It can
    finish, fail with an error ([?]), be cut off by the deadline, or block for ever when there is
    no deadline.  Cancellation keeps the state reached so far, as dropping a future does. *)

From S2P Require Import Prelude.
From Stdlib Require Import ZArith Lia.
From Stdlib Require Import Strings.String.
From stdpp Require Import base list option numbers.

Local Open Scope Z_scope.

Inductive outcome (A : Type) : Type :=
| Done (a : A)      (** the future is ready with a value *)
| Fail (e : Error)  (** the future is ready with an [Err] *)
| Cut               (** the innermost deadline passed first *)
| Hang              (** nothing will ever wake the task *)
| Spin.             (** the iteration bound of a loop ran out *)
Arguments Done {A} a.
Arguments Fail {A} e.
Arguments Cut {A}.
Arguments Hang {A}.
Arguments Spin {A}.

Definition M (S A : Type) : Type := option Z -> Z -> S -> outcome A * Z * S.

Definition ret {S A} (a : A) : M S A := fun _ t s => (Done a, t, s).
Definition fail {S A} (e : Error) : M S A := fun _ t s => (Fail e, t, s).

(** Sequencing: [f(..).await?] followed by the rest of the body. *)
Definition bind {S A B} (m : M S A) (f : A -> M S B) : M S B := fun dl t s =>
  match m dl t s with
  | (Done a, t', s') => f a dl t' s'
  | (Fail e, t', s') => (Fail e, t', s')
  | (Cut, t', s') => (Cut, t', s')
  | (Hang, t', s') => (Hang, t', s')
  | (Spin, t', s') => (Spin, t', s')
  end.

Declare Scope async_scope.
Delimit Scope async_scope with async.
Notation "'let*' x ':=' m 'in' k" := (bind m (fun x => k))
  (at level 200, x name, m at level 100, k at level 200, right associativity) : async_scope.
Notation "'let*' ' p ':=' m 'in' k" := (bind m (fun x => match x with p => k end))
  (at level 200, p pattern, m at level 100, k at level 200, right associativity) : async_scope.
Notation "m ';;;' k" := (bind m (fun _ => k))
  (at level 199, k at level 200, right associativity) : async_scope.
Local Open Scope async_scope.

(** A pure [Result] with [?]. *)
Definition lift {S A} (r : Res A) : M S A :=
  match r with Ok a => ret a | Err e => fail e end.

(** [m.await] kept as a [Result] value instead of being propagated. *)
Definition try {S A} (m : M S A) : M S (Res A) := fun dl t s =>
  match m dl t s with
  | (Done a, t', s') => (Done (Ok a), t', s')
  | (Fail e, t', s') => (Done (Err e), t', s')
  | (Cut, t', s') => (Cut, t', s')
  | (Hang, t', s') => (Hang, t', s')
  | (Spin, t', s') => (Spin, t', s')
  end.

(** [m.await.context(c)] *)
Definition context {S A} (c : string) (m : M S A) : M S A := fun dl t s =>
  match m dl t s with
  | (Fail e, t', s') => (Fail (add_context c e), t', s')
  | r => r
  end.

Definition get {S} : M S S := fun _ t s => (Done s, t, s).
Definition put {S} (s' : S) : M S unit := fun _ t _ => (Done tt, t, s').
Definition modify {S} (f : S -> S) : M S unit := fun _ t s => (Done tt, t, f s).

(** [Instant::now()] *)
Definition now {S} : M S Z := fun _ t s => (Done t, t, s).

(** Block until an absolute time. *)
Definition wait_until {S} (at_ : Z) : M S unit := fun dl t s =>
  if at_ <=? t then (Done tt, t, s)
  else match dl with
       | Some d => if d <? at_ then (Cut, Z.max t d, s) else (Done tt, at_, s)
       | None => (Done tt, at_, s)
       end.

(** [tokio::time::sleep(d)] *)
Definition sleep {S} (d : Z) : M S unit := fun dl t s => wait_until (t + d) dl t s.

(** A future that is never ready. *)
Definition pending {S A} : M S A := fun dl t s =>
  match dl with
  | Some d => (Cut, Z.max t d, s)
  | None => (Hang, t, s)
  end.

(** [tokio::time::timeout(d, m)]: [None] is [Err(Elapsed)].  The future is polled before the
    timer, so a value that is ready at the deadline wins, and of two nested timeouts that expire
    together the inner one reports. *)
Definition timeout {S A} (d : Z) (m : M S A) : M S (option (Res A)) := fun dl t s =>
  let own := t + d in
  let eff := match dl with Some o => Z.min o own | None => own end in
  match m (Some eff) t s with
  | (Done a, t', s') => (Done (Some (Ok a)), t', s')
  | (Fail e, t', s') => (Done (Some (Err e)), t', s')
  | (Cut, t', s') => if own <=? eff then (Done None, t', s') else (Cut, t', s')
  | (Hang, t', s') => (Hang, t', s')
  | (Spin, t', s') => (Spin, t', s')
  end.

(** [timeout(d, m).await.map_err(|_| e)??] *)
Definition timeout_or {S A} (d : Z) (e : Error) (m : M S A) : M S A :=
  let* r := timeout d m in
  match r with
  | Some (Ok a) => ret a
  | Some (Err e') => fail e'
  | None => fail e
  end.

(** [loop { .. }] with an accumulator: [inl] continues, [inr] breaks with a value. *)
Fixpoint iter {S St A} (fuel : nat) (body : St -> M S (St + A)) (x : St) : M S A :=
  match fuel with
  | O => fun _ t s => (Spin, t, s)
  | Datatypes.S fuel' =>
    let* r := body x in
    match r with inl x' => iter fuel' body x' | inr a => ret a end
  end.

(** A loop whose iteration bound is read off the state when it starts. *)
Definition loop {S St A} (meas : S -> nat) (body : St -> M S (St + A)) (x : St) : M S A :=
  fun dl t s => iter (Datatypes.S (meas s)) body x dl t s.

(** Run a computation on a component of the state. *)
Definition zoom {S T A} (g : S -> T) (p : T -> S -> S) (m : M T A) : M S A := fun dl t s =>
  let '(o, t', x) := m dl t (g s) in (o, t', p x s).

(** Run on a value of its own, which is given back. *)
Definition locally {S X A} (x : X) (m : M X A) : M S (A * X) := fun dl t s =>
  match m dl t x with
  | (Done a, t', x') => (Done (a, x'), t', s)
  | (Fail e, t', _) => (Fail e, t', s)
  | (Cut, t', _) => (Cut, t', s)
  | (Hang, t', _) => (Hang, t', s)
  | (Spin, t', _) => (Spin, t', s)
  end.

(** Run with a local variable beside the state, and give its last value back. *)
Definition threaded {S X A} (x : X) (m : M (X * S) A) : M S (A * X) := fun dl t s =>
  match m dl t (x, s) with
  | (Done a, t', s') => (Done (a, s'.1), t', s'.2)
  | (Fail e, t', s') => (Fail e, t', s'.2)
  | (Cut, t', s') => (Cut, t', s'.2)
  | (Hang, t', s') => (Hang, t', s'.2)
  | (Spin, t', s') => (Spin, t', s'.2)
  end.

(** A guard whose [Drop] runs [c], which takes no time, however [m] ends. *)
Definition guarded {S A} (m : M S A) (c : M S unit) : M S A := fun dl t s =>
  let '(o, t', s') := m dl t s in (o, t', (c None t' s').2).

(** [let _ = m.await]: the result is dropped, and an error with it. *)
Definition quietly {S A} (m : M S A) : M S unit := bind (try m) (fun _ => ret tt).

(** [tokio::select!] between an event at the absolute time [at_] and [m], which is dropped when
    the event comes first: [None] is the event. *)
Definition race {S A} (at_ : Z) (m : M S A) : M S (option (Res A)) := fun dl t s =>
  timeout (Z.max 0 (at_ - t)) m dl t s.

(** Run without an enclosing deadline, from time [t]. *)
Definition run {S A} (m : M S A) (t : Z) (s : S) : outcome A * Z * S := m None t s.

Arguments ret {S A} a _ _ _ /.
Arguments fail {S A} e _ _ _ /.
Arguments lift {S A} !r _ _ _ /.
Arguments get {S} _ _ _ /.
Arguments put {S} s' _ _ _ /.
Arguments modify {S} f _ _ _ /.
Arguments now {S} _ _ _ /.

Lemma bind_assoc {S A B D} (m : M S A) (f : A -> M S B) (g : B -> M S D) dl t s :
  bind (bind m f) g dl t s = bind m (fun x => bind (f x) g) dl t s.
Proof. unfold bind. by destruct (m dl t s) as [[[a|e| | |] t'] s']. Qed.

(** With no deadline around it, a wait ends when it should. *)
Lemma wait_until_run {S} a t (s : S) : wait_until a None t s = (Done tt, Z.max a t, s).
Proof. unfold wait_until. destruct (Z.leb_spec a t); repeat f_equal; lia. Qed.
Lemma sleep_run {X} d dl t (s : X) : 0 <= d -> dl = None -> sleep d dl t s = (Done tt, t + d, s).
Proof.
  intros Hd ->. unfold sleep, wait_until. destruct (t + d <=? t) eqn:E; rd_bool; [|done].
  by replace (t + d) with t by lia.
Qed.

(** ** Time bounds

    [timely m]: under a deadline that has not passed, [m] never blocks for ever, never lets the
    clock run past the deadline, and is cut off exactly at it; the clock never goes back. *)

Definition timely {S A} (m : M S A) : Prop := forall d t s, t <= d ->
  match m (Some d) t s with
  | (Hang, _, _) => False
  | (Cut, t', _) => t' = d
  | (_, t', _) => t <= t' <= d
  end.

Ltac timely_start := unfold timely; intros d t s Ht.

Lemma timely_ret {S A} (a : A) : timely (@ret S A a).
Proof. timely_start. cbn. lia. Qed.

Lemma timely_fail {S A} e : timely (@fail S A e).
Proof. timely_start. cbn. lia. Qed.

Lemma timely_lift {S A} (r : Res A) : timely (@lift S A r).
Proof. destruct r; [apply timely_ret|apply timely_fail]. Qed.

Lemma timely_bind {S A B} (m : M S A) (f : A -> M S B) :
  timely m -> (forall a, timely (f a)) -> timely (bind m f).
Proof.
  intros Hm Hf. timely_start. unfold bind. specialize (Hm d t s Ht).
  destruct (m (Some d) t s) as [[[a|e| | |] t'] s'] eqn:E; try lia.
  specialize (Hf a d t' s' ltac:(lia)).
  destruct (f a (Some d) t' s') as [[[b|e| | |] t2] s2]; lia.
Qed.

Lemma timely_try {S A} (m : M S A) : timely m -> timely (try m).
Proof.
  intros Hm. timely_start. unfold try. specialize (Hm d t s Ht).
  by destruct (m (Some d) t s) as [[[a|e| | |] t'] s'].
Qed.

Lemma timely_context {S A} c (m : M S A) : timely m -> timely (context c m).
Proof.
  intros Hm. timely_start. unfold context. specialize (Hm d t s Ht).
  by destruct (m (Some d) t s) as [[[a|e| | |] t'] s'].
Qed.

Lemma timely_get {S} : timely (@get S).
Proof. timely_start. cbn. lia. Qed.
Lemma timely_put {S} (x : S) : timely (put x).
Proof. timely_start. cbn. lia. Qed.
Lemma timely_modify {S} (f : S -> S) : timely (modify f).
Proof. timely_start. cbn. lia. Qed.
Lemma timely_now {S} : timely (@now S).
Proof. timely_start. cbn. lia. Qed.

Lemma timely_wait_until {S} a : timely (@wait_until S a).
Proof.
  timely_start. unfold wait_until.
  destruct (a <=? t) eqn:E1; [cbn; rd_bool; lia|].
  destruct (d <? a) eqn:E2; rd_bool; lia.
Qed.

Lemma timely_sleep {S} a : timely (@sleep S a).
Proof. timely_start. apply (timely_wait_until (t + a) d t s Ht). Qed.

Lemma timely_pending {S A} : timely (@pending S A).
Proof. timely_start. cbn. lia. Qed.

Lemma timely_timeout {S A} d0 (m : M S A) : 0 <= d0 -> timely m -> timely (timeout d0 m).
Proof.
  intros Hd Hm. timely_start. unfold timeout.
  specialize (Hm (Z.min d (t + d0)) t s ltac:(lia)).
  destruct (m _ t s) as [[[a|e| | |] t'] s']; try lia.
  destruct (t + d0 <=? Z.min d (t + d0)) eqn:E; rd_bool; lia.
Qed.

Lemma timely_timeout_or {S A} d0 e (m : M S A) : 0 <= d0 -> timely m -> timely (timeout_or d0 e m).
Proof.
  intros Hd Hm. apply timely_bind; [by apply timely_timeout|].
  intros [[a|e']|]; [apply timely_ret|apply timely_fail|apply timely_fail].
Qed.

Lemma timely_iter {S St A} fuel (body : St -> M S (St + A)) x :
  (forall x, timely (body x)) -> timely (iter fuel body x).
Proof.
  intros Hb. revert x. induction fuel as [|fuel IH]; intros x; cbn [iter].
  - timely_start. cbn. lia.
  - apply timely_bind; [done|]. intros [x'|a]; [apply IH|apply timely_ret].
Qed.

Lemma timely_loop {S St A} meas (body : St -> M S (St + A)) x :
  (forall x, timely (body x)) -> timely (loop meas body x).
Proof. intros Hb. timely_start. by apply timely_iter. Qed.

Lemma timely_zoom {S T A} g p (m : M T A) : timely m -> timely (@zoom S T A g p m).
Proof.
  intros Hm. timely_start. unfold zoom. specialize (Hm d t (g s) Ht).
  by destruct (m (Some d) t (g s)) as [[o t'] x].
Qed.

Create HintDb timely.
#[export] Hint Resolve timely_ret timely_fail timely_lift timely_bind timely_try timely_context
  timely_get timely_put timely_modify timely_now timely_wait_until timely_sleep timely_pending
  timely_timeout timely_timeout_or timely_loop timely_zoom : timely.

(** Whatever the computation does, [timeout] on a timely one answers within its budget, starting
    at any time and with no deadline around it. *)
Lemma timeout_bounded {S A} d0 (m : M S A) t s :
  0 <= d0 -> timely m ->
  match run (timeout d0 m) t s with
  | (Hang, _, _) | (Cut, _, _) | (Fail _, _, _) => False
  | (Done None, t', _) => t' = t + d0
  | (_, t', _) => t <= t' <= t + d0
  end.
Proof.
  intros Hd Hm. unfold run, timeout. specialize (Hm (t + d0) t s ltac:(lia)).
  destruct (m _ t s) as [[[a|e| | |] t'] s']; try lia.
  destruct (t + d0 <=? t + d0) eqn:E; rd_bool; lia.
Qed.

(** ** Iteration bounds

    [spinless m]: no loop inside [m] runs out of its bound. *)

Definition spinless {S A} (m : M S A) : Prop := forall dl t s,
  match m dl t s with (Spin, _, _) => False | _ => True end.

Lemma spinless_ret {S A} (a : A) : spinless (@ret S A a).
Proof. done. Qed.
Lemma spinless_fail {S A} e : spinless (@fail S A e).
Proof. done. Qed.
Lemma spinless_lift {S A} (r : Res A) : spinless (@lift S A r).
Proof. by destruct r. Qed.

Lemma spinless_bind {S A B} (m : M S A) (f : A -> M S B) :
  spinless m -> (forall a, spinless (f a)) -> spinless (bind m f).
Proof.
  intros Hm Hf dl t s. unfold bind. specialize (Hm dl t s).
  destruct (m dl t s) as [[[a|e| | |] t'] s']; try done. apply Hf.
Qed.

Lemma spinless_try {S A} (m : M S A) : spinless m -> spinless (try m).
Proof.
  intros Hm dl t s. unfold try. specialize (Hm dl t s).
  by destruct (m dl t s) as [[[a|e| | |] t'] s'].
Qed.

Lemma spinless_context {S A} c (m : M S A) : spinless m -> spinless (context c m).
Proof.
  intros Hm dl t s. unfold context. specialize (Hm dl t s).
  by destruct (m dl t s) as [[[a|e| | |] t'] s'].
Qed.

Lemma spinless_get {S} : spinless (@get S).
Proof. done. Qed.
Lemma spinless_put {S} (x : S) : spinless (put x).
Proof. done. Qed.
Lemma spinless_modify {S} (f : S -> S) : spinless (modify f).
Proof. done. Qed.
Lemma spinless_now {S} : spinless (@now S).
Proof. done. Qed.
Lemma spinless_wait_until {S} a : spinless (@wait_until S a).
Proof. intros dl t s. unfold wait_until. by repeat case_match. Qed.
Lemma spinless_sleep {S} a : spinless (@sleep S a).
Proof. intros dl t s. apply spinless_wait_until. Qed.
Lemma spinless_pending {S A} : spinless (@pending S A).
Proof. by intros [d|] t s. Qed.

Lemma spinless_timeout {S A} d (m : M S A) : spinless m -> spinless (timeout d m).
Proof.
  intros Hm dl t s. unfold timeout.
  specialize (Hm (Some (match dl with Some o => Z.min o (t + d) | None => t + d end)) t s).
  destruct (m _ t s) as [[[a|e| | |] t'] s']; try done. by destruct (_ <=? _).
Qed.

Lemma spinless_timeout_or {S A} d e (m : M S A) : spinless m -> spinless (timeout_or d e m).
Proof.
  intros Hm. apply spinless_bind; [by apply spinless_timeout|]. by intros [[a|e']|].
Qed.

Lemma spinless_zoom {S T A} g p (m : M T A) : spinless m -> spinless (@zoom S T A g p m).
Proof.
  intros Hm dl t s. unfold zoom. specialize (Hm dl t (g s)).
  by destruct (m dl t (g s)) as [[o t'] x].
Qed.

(** A loop that uses up its measure at every iteration never runs out of its bound. *)
Lemma spinless_loop {S St A} (meas : S -> nat) (body : St -> M S (St + A)) x :
  (forall x, spinless (body x)) ->
  (forall x dl t s x' t' s', body x dl t s = (Done (inl x'), t', s') -> (meas s' < meas s)%nat) ->
  spinless (loop meas body x).
Proof.
  intros Hb Hdec dl t s. unfold loop.
  assert (forall fuel x t s, (meas s < fuel)%nat ->
    match iter fuel body x dl t s with (Spin, _, _) => False | _ => True end) as H.
  { clear x t s. induction fuel as [|fuel IH]; intros x t s Hf; [lia|].
    cbn [iter]. unfold bind. specialize (Hb x dl t s). specialize (Hdec x dl t s).
    destruct (body x dl t s) as [[[[x'|a]|e| | |] t'] s'] eqn:E; try done.
    apply IH. specialize (Hdec x' t' s' eq_refl). lia. }
  apply H. lia.
Qed.

Create HintDb spinless.
#[export] Hint Resolve spinless_ret spinless_fail spinless_lift spinless_bind spinless_try
  spinless_context spinless_get spinless_put spinless_modify spinless_now spinless_wait_until
  spinless_sleep spinless_pending spinless_timeout spinless_timeout_or spinless_zoom : spinless.

Lemma timeout_or_bounded {S A} d e (m : M S A) t s :
  0 <= d -> timely m -> spinless m ->
  match run (timeout_or d e m) t s with
  | (Done _, t', _) | (Fail _, t', _) => t <= t' <= t + d
  | _ => False
  end.
Proof.
  intros Hd Hm Hs. unfold run, timeout_or, bind.
  pose proof (timeout_bounded d m t s Hd Hm) as H1. unfold run in H1.
  pose proof (spinless_timeout d m Hs None t s) as H2.
  destruct (timeout d m None t s) as [[[[[a|e']|]|e'| | |] t'] s']; cbn; lia.
Qed.

(** A loop whose every round ends by an absolute time [D], and uses up its measure to go on, ends
    by [D]. *)
Lemma loop_until {S St A} (meas : S -> nat) (body : St -> M S (St + A)) D x t s :
  (forall x t s, t <= D ->
    match body x None t s with
    | (Done (inl _), t', s') => t <= t' <= D /\ (meas s' < meas s)%nat
    | (Done (inr _), t', _) | (Fail _, t', _) => t <= t' <= D
    | _ => False
    end) ->
  t <= D ->
  match loop meas body x None t s with
  | (Done _, t', _) | (Fail _, t', _) => t <= t' <= D
  | _ => False
  end.
Proof.
  intros Hb Ht. unfold loop.
  assert (forall fuel x t s, t <= D -> (meas s < fuel)%nat ->
    match iter fuel body x None t s with
    | (Done _, t', _) | (Fail _, t', _) => t <= t' <= D
    | _ => False end) as H.
  { clear x t s Ht. induction fuel as [|fuel IH]; intros x t s Ht Hf; [lia|].
    cbn [iter]. unfold bind. specialize (Hb x t s Ht).
    destruct (body x None t s) as [[[[x'|a]|e| | |] t'] s']; try done.
    destruct Hb as [Ht' Hm]. specialize (IH x' t' s' ltac:(lia) ltac:(lia)).
    destruct (iter fuel body x' None t' s') as [[[b|e| | |] t2] s2]; lia. }
  apply H; [done|lia].
Qed.

(** [instant m]: the clock does not move, and the result is a value or an error. *)
Definition instant {S A} (m : M S A) : Prop := forall dl t s,
  match m dl t s with (Done _, t', _) | (Fail _, t', _) => t' = t | _ => False end.

Lemma instant_ret {S A} (a : A) : instant (@ret S A a).
Proof. done. Qed.
Lemma instant_fail {S A} e : instant (@fail S A e).
Proof. done. Qed.
Lemma instant_lift {S A} (r : Res A) : instant (@lift S A r).
Proof. by destruct r. Qed.
Lemma instant_get {S} : instant (@get S).
Proof. done. Qed.
Lemma instant_now {S} : instant (@now S).
Proof. done. Qed.
Lemma instant_modify {S} (f : S -> S) : instant (modify f).
Proof. done. Qed.
Lemma instant_bind {S A B} (m : M S A) (f : A -> M S B) :
  instant m -> (forall a, instant (f a)) -> instant (bind m f).
Proof.
  intros Hm Hf dl t s. unfold bind. specialize (Hm dl t s).
  destruct (m dl t s) as [[[a|e| | |] t'] s']; try done. subst. apply Hf.
Qed.
Lemma instant_context {S A} c (m : M S A) : instant m -> instant (context c m).
Proof.
  intros Hm dl t s. unfold context. specialize (Hm dl t s).
  by destruct (m dl t s) as [[[a|e| | |] t'] s'].
Qed.
Lemma instant_zoom {S T A} g p (m : M T A) : instant m -> instant (@zoom S T A g p m).
Proof.
  intros Hm dl t s. unfold zoom. specialize (Hm dl t (g s)).
  by destruct (m dl t (g s)) as [[o t'] x].
Qed.

Create HintDb instant.
#[export] Hint Resolve instant_ret instant_fail instant_lift instant_get instant_now instant_modify
  instant_bind instant_context instant_zoom : instant.

(** ** Stepping through a computation *)

Lemma bind_done {S A B} (m : M S A) (f : A -> M S B) dl t s a t' s' :
  m dl t s = (Done a, t', s') -> bind m f dl t s = f a dl t' s'.
Proof. unfold bind. by intros ->. Qed.

Lemma bind_fail {S A B} (m : M S A) (f : A -> M S B) dl t s e t' s' :
  m dl t s = (Fail e, t', s') -> bind m f dl t s = (Fail e, t', s').
Proof. unfold bind. by intros ->. Qed.

Lemma bind_done_inv {S A B} (m : M S A) (f : A -> M S B) dl t s b t' s' :
  bind m f dl t s = (Done b, t', s') ->
  exists a t1 s1, m dl t s = (Done a, t1, s1) /\ f a dl t1 s1 = (Done b, t', s').
Proof.
  unfold bind. destruct (m dl t s) as [[[a|e| | |] t1] s1]; intros; simplify_eq; eauto.
Qed.

Lemma context_done_inv {S A} c (m : M S A) dl t s a t' s' :
  context c m dl t s = (Done a, t', s') -> m dl t s = (Done a, t', s').
Proof. unfold context. by destruct (m dl t s) as [[[b|e| | |] t1] s1]; intros; simplify_eq. Qed.

Lemma iter_S {S St A} fuel (body : St -> M S (St + A)) x dl t s :
  iter (Datatypes.S fuel) body x dl t s =
  bind (body x) (fun r => match r with inl x' => iter fuel body x' | inr a => ret a end) dl t s.
Proof. done. Qed.

(** A loop depends on its body pointwise. *)
Lemma loop_ext {S St A} meas (b1 b2 : St -> M S (St + A)) x dl t s :
  (forall x dl t s, b1 x dl t s = b2 x dl t s) -> loop meas b1 x dl t s = loop meas b2 x dl t s.
Proof.
  intros Hb. unfold loop. generalize (Datatypes.S (meas s)). intros fuel.
  revert x dl t s. induction fuel as [|fuel IH]; intros x dl t s; [done|].
  rewrite !iter_S. unfold bind. rewrite Hb.
  destruct (b2 x dl t s) as [[[[x'|a]|e| | |] t'] s']; done.
Qed.

Lemma timeout_or_done_inv {S A} d e (m : M S A) dl t s a t' s' :
  timeout_or d e m dl t s = (Done a, t', s') -> exists dl', m dl' t s = (Done a, t', s').
Proof.
  unfold timeout_or. intros E. apply bind_done_inv in E as (r & t1 & s1 & E1 & E2).
  unfold timeout in E1. eexists.
  destruct (m _ t s) as [[[b|e'| | |] t2] s2] eqn:Em; simplify_eq; cbn in E2; simplify_eq; eauto.
  destruct (_ <=? _); by simplify_eq.
Qed.

(** A loop whose every round uses up a measure has used it up when it ends. *)
Lemma loop_uses {S St A} (meas meas' : S -> nat) (body : St -> M S (St + A)) x dl t s a t' s' :
  (forall x t s r t' s', body x dl t s = (Done r, t', s') -> (meas s' < meas s)%nat) ->
  loop meas' body x dl t s = (Done a, t', s') -> (meas s' < meas s)%nat.
Proof.
  intros Hb. unfold loop. generalize (Datatypes.S (meas' s)). intros fuel.
  revert x t s. induction fuel as [|fuel IH]; intros x t s E; [done|].
  rewrite iter_S in E. apply bind_done_inv in E as ([x'|b] & t1 & s1 & E1 & E2).
  - apply Hb in E1. apply IH in E2. lia.
  - apply Hb in E1. cbn in E2. by simplify_eq.
Qed.

(** [takes d m]: with no deadline around it, [m] ends within [d]. *)
Definition takes {S A} (d : Z) (m : M S A) : Prop := forall t s,
  match run m t s with
  | (Done _, t', _) | (Fail _, t', _) => t <= t' <= t + d
  | _ => False
  end.

Lemma takes_instant {S A} (m : M S A) : instant m -> takes 0 m.
Proof.
  intros Hm t s. unfold run. specialize (Hm None t s). destruct (m None t s) as [[[a|e| | |] t'] s']; lia.
Qed.

Lemma takes_bind {S A B} d1 d2 (m : M S A) (f : A -> M S B) :
  0 <= d2 -> takes d1 m -> (forall a, takes d2 (f a)) -> takes (d1 + d2) (bind m f).
Proof.
  intros Hd Hm Hf t s. unfold run, bind. specialize (Hm t s). unfold run in Hm.
  destruct (m None t s) as [[[a|e| | |] t'] s']; try lia.
  specialize (Hf a t' s'). unfold run in Hf.
  destruct (f a None t' s') as [[[b|e| | |] t2] s2]; lia.
Qed.

Lemma takes_weaken {S A} d1 d2 (m : M S A) : d1 <= d2 -> takes d1 m -> takes d2 m.
Proof.
  intros Hd Hm t s. specialize (Hm t s). destruct (run m t s) as [[[a|e| | |] t'] s']; lia.
Qed.

(** ** Total correctness

    [wp m t s Q R]: started at time [t] with no deadline around it, [m] ends, with a value that
    satisfies [Q] or with an error that satisfies [R]. *)

Definition wp {S A} (m : M S A) (t : Z) (s : S) (Q : A -> Z -> S -> Prop) (R : Error -> Z -> S -> Prop) : Prop :=
  match run m t s with
  | (Done a, t', s') => Q a t' s'
  | (Fail e, t', s') => R e t' s'
  | _ => False
  end.

Section wp.
Context {S A B : Type}.
Implicit Types (m : M S A).

Lemma wp_ret (a : A) t (s : S) (Q : A -> Z -> S -> Prop) R : Q a t s -> wp (ret a) t s Q R.
Proof. done. Qed.
Lemma wp_fail e t (s : S) (Q : A -> Z -> S -> Prop) (R : Error -> Z -> S -> Prop) :
  R e t s -> wp (fail e) t s Q R.
Proof. done. Qed.

Lemma wp_bind m (f : A -> M S B) t s Q R :
  wp m t s (fun a t' s' => wp (f a) t' s' Q R) R -> wp (bind m f) t s Q R.
Proof.
  unfold wp, run, bind. destruct (m None t s) as [[[a|e| | |] t'] s']; done.
Qed.

Lemma wp_mono m t s (Q Q' : A -> Z -> S -> Prop) (R R' : Error -> Z -> S -> Prop) :
  wp m t s Q R -> (forall a t' s', Q a t' s' -> Q' a t' s') ->
  (forall e t' s', R e t' s' -> R' e t' s') -> wp m t s Q' R'.
Proof.
  unfold wp. intros Hm HQ HR. destruct (run m t s) as [[[a|e| | |] t'] s']; auto.
Qed.

Lemma wp_try m t s (Q : Res A -> Z -> S -> Prop) R :
  wp m t s (fun a => Q (Ok a)) (fun e => Q (Err e)) -> wp (try m) t s Q R.
Proof. unfold wp, run, try. destruct (m None t s) as [[[a|e| | |] t'] s']; done. Qed.

End wp.

Section wp_loop.
Context {S A : Type}.
(** A loop keeps an invariant while its measure goes down. *)
Lemma wp_loop {St} (meas : S -> nat) (body : St -> M S (St + A)) (Inv : St -> Z -> S -> Prop) x t s Q R :
  (forall x t s, Inv x t s ->
    wp (body x) t s (fun r t' s' => match r with
      | inl x' => Inv x' t' s' /\ (meas s' < meas s)%nat
      | inr a => Q a t' s' end) R) ->
  Inv x t s -> wp (loop meas body x) t s Q R.
Proof.
  intros Hb Hx. unfold wp, run, loop.
  assert (forall fuel x t s, Inv x t s -> (meas s < fuel)%nat -> wp (iter fuel body x) t s Q R) as H.
  { clear x t s Hx. induction fuel as [|fuel IH]; intros x t s Hx Hf; [lia|].
    cbn [iter]. apply wp_bind. eapply wp_mono; [by apply Hb| |auto].
    intros [x'|a] t' s'; [|done]. intros [Hx' Hm]. apply IH; [done|lia]. }
  apply H; [done|lia].
Qed.
End wp_loop.

Lemma wp_zoom {S T A} (g : S -> T) p (m : M T A) t s Q R :
  wp m t (g s) (fun a t' x => Q a t' (p x s)) (fun e t' x => R e t' (p x s)) -> wp (zoom g p m) t s Q R.
Proof. unfold wp, run, zoom. by destruct (m None t (g s)) as [[[a|e| | |] t'] x]. Qed.

Section wp_prim.
Context {S : Type}.
Lemma wp_get t s (Q : S -> Z -> S -> Prop) R : Q s t s -> wp get t s Q R.
Proof. done. Qed.
Lemma wp_modify f t s (Q : unit -> Z -> S -> Prop) R : Q tt t (f s) -> wp (modify f) t s Q R.
Proof. done. Qed.
Lemma wp_lift {A} (r : Res A) t s (Q : A -> Z -> S -> Prop) (R : Error -> Z -> S -> Prop) :
  (forall a, r = Ok a -> Q a t s) -> (forall e, r = Err e -> R e t s) -> wp (lift r) t s Q R.
Proof. destruct r; intros HQ HR; [by apply HQ|by apply HR]. Qed.
(** With no deadline around it, a wait ends. *)
Lemma wp_wait_until a t s (Q : unit -> Z -> S -> Prop) R :
  (forall t', Z.max a t = t' -> Q tt t' s) -> wp (wait_until a) t s Q R.
Proof. intros HQ. unfold wp, run, wait_until. destruct (Z.leb_spec a t); apply HQ; lia. Qed.
End wp_prim.

(** ** Measures that never grow, however a computation ends *)

Definition shrinks {S A} (meas : S -> nat) (m : M S A) : Prop :=
  forall dl t s, (meas (m dl t s).2 <= meas s)%nat.

Section shrinks.
Context {S : Type} (meas : S -> nat).

Lemma shrinks_ret {A} (a : A) : shrinks meas (ret a).
Proof. intros dl t s. done. Qed.
Lemma shrinks_fail {A} e : shrinks meas (@fail S A e).
Proof. intros dl t s. done. Qed.
Lemma shrinks_lift {A} (r : Res A) : shrinks meas (lift r).
Proof. destruct r; intros dl t s; cbn; lia. Qed.
Lemma shrinks_wait_until a : shrinks meas (wait_until a).
Proof. intros dl t s. unfold wait_until. by repeat case_match. Qed.
Lemma shrinks_pending {A} : shrinks meas (@pending S A).
Proof. by intros [d|] t s. Qed.
Lemma shrinks_bind {A B} (m : M S A) (f : A -> M S B) :
  shrinks meas m -> (forall a, shrinks meas (f a)) -> shrinks meas (bind m f).
Proof.
  intros Hm Hf dl t s. unfold bind. specialize (Hm dl t s).
  destruct (m dl t s) as [[[a|e| | |] t'] s']; cbn in *; try done.
  specialize (Hf a dl t' s'). lia.
Qed.
Lemma shrinks_try {A} (m : M S A) : shrinks meas m -> shrinks meas (try m).
Proof.
  intros Hm dl t s. unfold try. specialize (Hm dl t s).
  by destruct (m dl t s) as [[[a|e| | |] t'] s'].
Qed.
Lemma shrinks_context {A} c (m : M S A) : shrinks meas m -> shrinks meas (context c m).
Proof.
  intros Hm dl t s. unfold context. specialize (Hm dl t s).
  by destruct (m dl t s) as [[[a|e| | |] t'] s'].
Qed.
Lemma shrinks_timeout {A} d (m : M S A) : shrinks meas m -> shrinks meas (timeout d m).
Proof.
  intros Hm dl t s. unfold timeout. set (dl' := Some _). specialize (Hm dl' t s).
  destruct (m dl' t s) as [[[a|e| | |] t'] s']; try done. by destruct (_ <=? _).
Qed.
Lemma shrinks_timeout_or {A} d e (m : M S A) : shrinks meas m -> shrinks meas (timeout_or d e m).
Proof. intros Hm. apply shrinks_bind; [by apply shrinks_timeout|]. intros [[a|e']|]; intros dl t s; done. Qed.
Lemma shrinks_loop {St A} meas' (body : St -> M S (St + A)) x :
  (forall x, shrinks meas (body x)) -> shrinks meas (loop meas' body x).
Proof.
  intros Hb dl t s. unfold loop. generalize (Datatypes.S (meas' s)). intros fuel.
  revert x t s. induction fuel as [|fuel IH]; intros x t s; [done|].
  rewrite iter_S. unfold bind. specialize (Hb x dl t s).
  destruct (body x dl t s) as [[[[x'|a]|e| | |] t'] s']; cbn in *; try done.
  specialize (IH x' t' s'). lia.
Qed.
End shrinks.

Lemma shrinks_zoom {S T A} (meas : S -> nat) (meas' : T -> nat) g p (m : M T A) :
  shrinks meas' m -> (forall x s, (meas' x <= meas' (g s) -> meas (p x s) <= meas s)%nat) ->
  shrinks meas (zoom g p m).
Proof.
  intros Hm Hp dl t s. unfold zoom. specialize (Hm dl t (g s)).
  destruct (m dl t (g s)) as [[o t'] x]. by apply Hp.
Qed.

Create HintDb shrinks.
#[export] Hint Resolve shrinks_ret shrinks_fail shrinks_lift shrinks_wait_until shrinks_pending
  shrinks_try shrinks_context shrinks_timeout shrinks_timeout_or : shrinks.

(** The result of a [timeout] around a bounded computation. *)
Lemma wp_timeout {S A} d (m : M S A) t s (Q : option (Res A) -> Z -> S -> Prop) R :
  0 <= d -> timely m -> spinless m ->
  (forall a t' s', t <= t' <= t + d -> m (Some (t + d)) t s = (Done a, t', s') -> Q (Some (Ok a)) t' s') ->
  (forall e t' s', t <= t' <= t + d -> m (Some (t + d)) t s = (Fail e, t', s') -> Q (Some (Err e)) t' s') ->
  (forall s', m (Some (t + d)) t s = (Cut, t + d, s') -> Q None (t + d) s') ->
  wp (timeout d m) t s Q R.
Proof.
  intros Hd Ht Hs Hok Herr Hcut. unfold wp, run, timeout.
  specialize (Ht (t + d) t s ltac:(lia)). specialize (Hs (Some (t + d)) t s).
  destruct (m (Some (t + d)) t s) as [[[a|e| | |] t'] s'] eqn:E; try done.
  - by apply Hok.
  - by apply Herr.
  - subst. rewrite Z.leb_refl. by apply Hcut.
Qed.

(** ** Partial correctness

    [triple I m Q E]: from a state with [I], a value comes with [Q] and an error with [E]. *)

Definition triple {S A} (I : S -> Prop) (m : M S A) (Q : A -> S -> Prop) (E : S -> Prop) : Prop :=
  forall dl t s, I s ->
  match m dl t s with
  | (Done a, _, s') => Q a s'
  | (Fail _, _, s') => E s'
  | _ => True
  end.

Section triple.
Context {S : Type}.
Implicit Types (I E : S -> Prop).

Lemma triple_ret {A} (a : A) I (Q : A -> S -> Prop) E : (forall s, I s -> Q a s) -> triple I (ret a) Q E.
Proof. intros HQ dl t s. apply HQ. Qed.
Lemma triple_fail {A} e I (Q : A -> S -> Prop) E : (forall s, I s -> E s) -> triple I (fail e) Q E.
Proof. intros HE dl t s. apply HE. Qed.
Lemma triple_lift {A} (r : Res A) I (Q : A -> S -> Prop) E :
  (forall a s, I s -> Q a s) -> (forall s, I s -> E s) -> triple I (lift r) Q E.
Proof. intros HQ HE dl t s Hs. destruct r; cbn; auto. Qed.
Lemma triple_get I (Q : S -> S -> Prop) E : (forall s, I s -> Q s s) -> triple I get Q E.
Proof. intros HQ dl t s. apply HQ. Qed.
Lemma triple_now I (Q : Z -> S -> Prop) E : (forall t s, I s -> Q t s) -> triple I now Q E.
Proof. intros HQ dl t s. apply HQ. Qed.
Lemma triple_modify f I (Q : unit -> S -> Prop) E : (forall s, I s -> Q tt (f s)) -> triple I (modify f) Q E.
Proof. intros HQ dl t s. apply HQ. Qed.
Lemma triple_wait_until a I E : triple I (wait_until a) (fun _ => I) E.
Proof. intros dl t s Hs. unfold wait_until. repeat case_match; simplify_eq; done. Qed.
Lemma triple_pending {A} I (Q : A -> S -> Prop) E : triple I pending Q E.
Proof. intros [d|] t s Hs; done. Qed.

Lemma triple_bind {A B} (m : M S A) (f : A -> M S B) I Q1 Q E :
  triple I m Q1 E -> (forall a, triple (Q1 a) (f a) Q E) -> triple I (bind m f) Q E.
Proof.
  intros Hm Hf dl t s Hs. unfold bind. specialize (Hm dl t s Hs).
  destruct (m dl t s) as [[[a|e| | |] t'] s']; try done. by apply Hf.
Qed.
Lemma triple_try {A} (m : M S A) I (Q : Res A -> S -> Prop) E :
  triple I m (fun a => Q (Ok a)) (fun s => forall e, Q (Err e) s) -> triple I (try m) Q E.
Proof.
  intros Hm dl t s Hs. unfold try. specialize (Hm dl t s Hs).
  destruct (m dl t s) as [[[a|e| | |] t'] s']; done.
Qed.
Lemma triple_quietly {A} (m : M S A) I E : triple I m (fun _ => I) I -> triple I (quietly m) (fun _ => I) E.
Proof.
  intros Hm. eapply triple_bind.
  - apply (triple_try _ _ (fun _ => I)). intros dl t s Hs. specialize (Hm dl t s Hs).
    by destruct (m dl t s) as [[[a|e| | |] t'] s'].
  - intros r. apply triple_ret. done.
Qed.
Lemma triple_context {A} c (m : M S A) I Q E : triple I m Q E -> triple I (context c m) Q E.
Proof.
  intros Hm dl t s Hs. unfold context. specialize (Hm dl t s Hs).
  destruct (m dl t s) as [[[a|e| | |] t'] s']; done.
Qed.
Lemma triple_mono {A} (m : M S A) (I I' : S -> Prop) (Q Q' : A -> S -> Prop) (E E' : S -> Prop) :
  triple I m Q E -> (forall s, I' s -> I s) -> (forall a s, Q a s -> Q' a s) -> (forall s, E s -> E' s) ->
  triple I' m Q' E'.
Proof.
  intros Hm HI HQ HE dl t s Hs. specialize (Hm dl t s (HI s Hs)).
  destruct (m dl t s) as [[[a|e| | |] t'] s']; auto.
Qed.
Lemma triple_locally {X A} (x : X) (m : M X A) I (Q : A * X -> S -> Prop) E :
  (forall r s, I s -> Q r s) -> (forall s, I s -> E s) -> triple I (locally x m) Q E.
Proof.
  intros HQ HE dl t s Hs. unfold locally. destruct (m dl t x) as [[[a|e| | |] t'] x']; auto.
Qed.
End triple.

(** A computation on a part of the state, of which nothing is assumed. *)
Lemma triple_zoom {S T A} (g : S -> T) p (m : M T A) (I : S -> Prop) (Q : A -> S -> Prop) (E : S -> Prop) :
  (forall a x s, I s -> Q a (p x s)) -> (forall x s, I s -> E (p x s)) -> triple I (zoom g p m) Q E.
Proof.
  intros HQ HE dl t s Hs. unfold zoom. destruct (m dl t (g s)) as [[[a|e| | |] t'] x]; auto.
Qed.

(** ... or of which the part's own property is kept. *)
Lemma triple_zoom_keeps {S T A} (g : S -> T) p (m : M T A) (J : S -> T -> Prop) (I : S -> Prop) (Q : A -> S -> Prop) (E : S -> Prop) :
  (forall s, I s -> J s (g s) /\ triple (J s) m (fun _ => J s) (J s)) ->
  (forall a x s, I s -> J s x -> Q a (p x s)) -> (forall x s, I s -> J s x -> E (p x s)) ->
  triple I (zoom g p m) Q E.
Proof.
  intros HJ HQ HE dl t s Hs. unfold zoom. destruct (HJ s Hs) as [Hg Hm]. specialize (Hm dl t (g s) Hg).
  destruct (m dl t (g s)) as [[[a|e| | |] t'] x]; auto.
Qed.

Lemma triple_loop {S St A} meas (body : St -> M S (St + A)) x (I : S -> Prop) :
  (forall x, triple I (body x) (fun _ => I) I) -> triple I (loop meas body x) (fun _ => I) I.
Proof.
  intros Hb dl t s. unfold loop. generalize (Datatypes.S (meas s)). intros fuel.
  revert x t s. induction fuel as [|fuel IH]; intros x t s Hs; [done|].
  rewrite iter_S. unfold bind. specialize (Hb x dl t s Hs).
  destruct (body x dl t s) as [[[[x'|a]|e| | |] t'] s']; try done. by apply IH.
Qed.

Lemma triple_exists {S A X} (P : X -> S -> Prop) (m : M S A) (Q : A -> S -> Prop) (E : S -> Prop) :
  (forall x, triple (P x) m Q E) -> triple (fun s => exists x, P x s) m Q E.
Proof. intros Hm dl t s [x Hx]. by apply (Hm x). Qed.
(** A loop whose invariant also speaks about the variable it carries. *)
Lemma triple_loop_inv {S St A} meas (body : St -> M S (St + A)) x (Inv : St -> S -> Prop) (Q : A -> S -> Prop)
    (E : S -> Prop) :
  (forall x, triple (Inv x) (body x) (fun r s => match r with inl x' => Inv x' s | inr a => Q a s end) E) ->
  triple (Inv x) (loop meas body x) Q E.
Proof.
  intros Hb dl t s. unfold loop. generalize (Datatypes.S (meas s)). intros fuel.
  revert x t s. induction fuel as [|fuel IH]; intros x t s Hs; [done|].
  rewrite iter_S. unfold bind. specialize (Hb x dl t s Hs).
  destruct (body x dl t s) as [[[[x'|a]|e| | |] t'] s']; try done. by apply IH.
Qed.

Lemma triple_timeout_or {S A} d e (m : M S A) (I : S -> Prop) (Q : A -> S -> Prop) :
  triple I m Q (fun _ => True) -> triple I (timeout_or d e m) Q (fun _ => True).
Proof.
  intros Hm dl t s Hs. unfold timeout_or, bind, timeout. set (dl' := Some _). specialize (Hm dl' t s Hs).
  destruct (m dl' t s) as [[[a|e'| | |] t'] s']; try done. by destruct (_ <=? _).
Qed.

Lemma triple_threaded {S X A} (x : X) (m : M (X * S) A) (I : S -> Prop) :
  triple (fun st => I st.2) m (fun _ st => I st.2) (fun st => I st.2) ->
  triple I (threaded x m) (fun _ => I) I.
Proof.
  intros Hm dl t s Hs. unfold threaded. specialize (Hm dl t (x, s) Hs).
  destruct (m dl t (x, s)) as [[[a|e| | |] t'] s']; done.
Qed.

Lemma triple_race_zoom {S T A} at_ (g : S -> T) p (m : M T A) (I E : S -> Prop) :
  (forall x s, I s -> I (p x s)) -> triple I (race at_ (zoom g p m)) (fun _ => I) E.
Proof.
  intros Hp dl t s Hs. unfold race, timeout. set (dl' := Some _).
  unfold zoom. destruct (m dl' t (g s)) as [[[a|e| | |] t'] x]; auto.
  destruct (_ <=? _); [by apply Hp|done].
Qed.

(** Structural closure of the two bounds; unfold the computation first. *)
Ltac timely_tac :=
  repeat first [solve [auto 3 with timely] | apply timely_bind; intros | apply timely_context
               | apply timely_timeout; [lia|] | apply timely_timeout_or; [lia|]
               | apply timely_loop; intros | apply timely_try | apply timely_zoom | case_match].
Ltac spinless_tac :=
  repeat first [solve [auto 3 with spinless] | apply spinless_bind; intros | apply spinless_context
               | apply spinless_timeout | apply spinless_timeout_or | apply spinless_try
               | apply spinless_zoom | case_match].

(** ** What a computation keeps, however it ends *)

Definition stays {S A} (J : S -> Prop) (m : M S A) : Prop := forall dl t s, J s -> J (m dl t s).2.

Section stays.
Context {S : Type} (J : S -> Prop).

Lemma stays_ret {A} (a : A) : stays J (ret a).
Proof. by intros dl t s. Qed.
Lemma stays_fail {A} e : stays J (@fail S A e).
Proof. by intros dl t s. Qed.
Lemma stays_lift {A} (r : Res A) : stays J (lift r).
Proof. by destruct r; intros dl t s. Qed.
Lemma stays_get : stays J get.
Proof. by intros dl t s. Qed.
Lemma stays_now : stays J now.
Proof. by intros dl t s. Qed.
Lemma stays_pending {A} : stays J (@pending S A).
Proof. by intros [d|] t s. Qed.
Lemma stays_wait_until a : stays J (wait_until a).
Proof. intros dl t s Hs. unfold wait_until. by repeat case_match. Qed.
Lemma stays_modify f : (forall s, J s -> J (f s)) -> stays J (modify f).
Proof. intros Hf dl t s. apply Hf. Qed.
Lemma stays_bind {A B} (m : M S A) (f : A -> M S B) : stays J m -> (forall a, stays J (f a)) -> stays J (bind m f).
Proof.
  intros Hm Hf dl t s Hs. unfold bind. specialize (Hm dl t s Hs).
  destruct (m dl t s) as [[[a|e| | |] t'] s']; try done. by apply Hf.
Qed.
Lemma stays_try {A} (m : M S A) : stays J m -> stays J (try m).
Proof.
  intros Hm dl t s Hs. unfold try. specialize (Hm dl t s Hs). by destruct (m dl t s) as [[[a|e| | |] t'] s'].
Qed.
Lemma stays_zoom {X A} (g : S -> X) p (m : M X A) : (forall x s, J s -> J (p x s)) -> stays J (zoom g p m).
Proof. intros Hp dl t s Hs. unfold zoom. destruct (m dl t (g s)) as [[o t'] x]. by apply Hp. Qed.
Lemma stays_context {A} c (m : M S A) : stays J m -> stays J (context c m).
Proof.
  intros Hm dl t s Hs. unfold context. specialize (Hm dl t s Hs). by destruct (m dl t s) as [[[a|e| | |] t'] s'].
Qed.
Lemma stays_quietly {A} (m : M S A) : stays J m -> stays J (quietly m).
Proof. intros Hm. apply stays_bind; [by apply stays_try|]. intros r. apply stays_ret. Qed.
Lemma stays_timeout {A} d (m : M S A) : stays J m -> stays J (timeout d m).
Proof.
  intros Hm dl t s Hs. unfold timeout. set (dl' := Some _). specialize (Hm dl' t s Hs).
  destruct (m dl' t s) as [[[a|e| | |] t'] s']; try done. by destruct (_ <=? _).
Qed.
Lemma stays_timeout_or {A} d e (m : M S A) : stays J m -> stays J (timeout_or d e m).
Proof.
  intros Hm. apply stays_bind; [by apply stays_timeout|].
  intros [[a|e']|]; [apply stays_ret|apply stays_fail|apply stays_fail].
Qed.
Lemma stays_race {A} at_ (m : M S A) : stays J m -> stays J (race at_ m).
Proof. intros Hm dl t s Hs. by apply stays_timeout. Qed.
Lemma stays_locally {X A} (x : X) (m : M X A) : stays J (locally x m).
Proof. intros dl t s Hs. unfold locally. by destruct (m dl t x) as [[[a|e| | |] t'] x']. Qed.
Lemma stays_iter {St A} fuel (body : St -> M S (St + A)) x : (forall x, stays J (body x)) -> stays J (iter fuel body x).
Proof.
  intros Hb. revert x. induction fuel as [|fuel IH]; intros x; [by intros dl t s|].
  cbn [iter]. apply stays_bind; [done|]. intros [x'|a]; [apply IH|apply stays_ret].
Qed.
Lemma stays_loop {St A} meas (body : St -> M S (St + A)) x : (forall x, stays J (body x)) -> stays J (loop meas body x).
Proof. intros Hb dl t s. by apply stays_iter. Qed.
Lemma stays_triple {A} (m : M S A) : stays J m -> triple J m (fun _ => J) J.
Proof. intros Hm dl t s Hs. specialize (Hm dl t s Hs). by destruct (m dl t s) as [[[a|e| | |] t'] s']. Qed.
End stays.

(** A [timeout] gives no error of its own. *)
Lemma stays_triple_timeout {S A} (J E : S -> Prop) d (m : M S A) :
  stays J m -> triple J (timeout d m) (fun _ => J) E.
Proof.
  intros Hm dl t s Hs. unfold timeout. set (dl' := Some _). specialize (Hm dl' t s Hs).
  destruct (m dl' t s) as [[[a|e| | |] t'] s']; try done. by destruct (_ <=? _).
Qed.

(** On a part of the state, of which the part's own property is kept. *)
Lemma stays_zoom_part {S T A} (J : S -> Prop) (J' : T -> Prop) (g : S -> T) p (m : M T A) :
  (forall s, J s -> J' (g s)) -> stays J' m -> (forall x s, J s -> J' x -> J (p x s)) -> stays J (zoom g p m).
Proof.
  intros Hg Hm Hp dl t s Hs. unfold zoom. specialize (Hm dl t (g s) (Hg s Hs)).
  destruct (m dl t (g s)) as [[o t'] x]. by apply Hp.
Qed.
(** Beside a local variable. *)
Lemma stays_threaded {S X A} (J : S -> Prop) (x : X) (m : M (X * S) A) :
  stays (fun st => J st.2) m -> stays J (threaded x m).
Proof.
  intros Hm dl t s Hs. unfold threaded. specialize (Hm dl t (x, s) Hs).
  by destruct (m dl t (x, s)) as [[[a|e| | |] t'] s'].
Qed.

Create HintDb stays.
#[export] Hint Resolve stays_ret stays_fail stays_lift stays_get stays_now stays_pending stays_wait_until
  stays_modify : stays.
Ltac stays_tac :=
  repeat first [solve [auto with stays] | apply stays_bind; intros | apply stays_try | apply stays_context
               | apply stays_quietly | apply stays_timeout | apply stays_timeout_or | apply stays_zoom
               | apply stays_iter; intros | apply stays_loop; intros | apply stays_threaded
               | apply stays_modify; intros | case_match].

(** ** What values a computation gives, whatever the state *)

Definition gives {S A} (P : A -> Prop) (m : M S A) : Prop := forall dl t s a t' s', m dl t s = (Done a, t', s') -> P a.

Section gives.
Context {S A : Type} (P : A -> Prop).

Lemma gives_ret (a : A) : P a -> gives P (@ret S A a).
Proof. by intros Ha dl t s b t' s' [= <- _ _]. Qed.
Lemma gives_fail e : gives P (@fail S A e).
Proof. by intros dl t s b t' s' [=]. Qed.
Lemma gives_bind {B} (P1 : B -> Prop) (m : M S B) (f : B -> M S A) :
  gives P1 m -> (forall b, P1 b -> gives P (f b)) -> gives P (bind m f).
Proof.
  intros Hm Hf dl t s a t' s' E. apply bind_done_inv in E as (b & t1 & s1 & E1 & E2).
  apply Hm in E1. by apply (Hf b E1) in E2.
Qed.
(** Only the last step counts. *)
Lemma gives_then {B} (m : M S B) (f : B -> M S A) : (forall b, gives P (f b)) -> gives P (bind m f).
Proof. intros Hf. apply (gives_bind (fun _ => True)); [done|]. intros b _. apply Hf. Qed.
Lemma gives_loop {St} meas (body : St -> M S (St + A)) x :
  (forall x, gives (fun r => match r with inl _ => True | inr a => P a end) (body x)) -> gives P (loop meas body x).
Proof.
  intros Hb dl t s a t' s'. unfold loop. generalize (Datatypes.S (meas s)). intros fuel.
  revert x t s. induction fuel as [|fuel IH]; intros x t s E; [done|].
  rewrite iter_S in E. apply bind_done_inv in E as (r & t1 & s1 & E1 & E2). apply Hb in E1.
  destruct r as [x'|b]; [by apply IH in E2|]. cbn in E2. by simplify_eq.
Qed.
Lemma gives_zoom {X} (g : X -> S) p (m : M S A) : gives P m -> gives P (zoom g p m).
Proof.
  intros Hm dl t s a t' s' E. unfold zoom in E. destruct (m dl t (g s)) as [[o t1] x] eqn:E1.
  injection E as -> -> _. by apply Hm in E1.
Qed.
End gives.

(** A computation that keeps [J] and gives values with [P]. *)
Lemma stays_gives {S A} (J : S -> Prop) (P : A -> Prop) (m : M S A) :
  stays J m -> gives P m -> triple J m (fun a s => J s /\ P a) J.
Proof.
  intros Hm Hg dl t s Hs. specialize (Hm dl t s Hs). specialize (Hg dl t s).
  destruct (m dl t s) as [[[a|e| | |] t'] s']; try done. split; [done|by eapply Hg].
Qed.

(** ** Computations that end

    [ends m]: with no deadline around it, [m] comes to a value or an error from any state. *)

Definition ends {S A} (m : M S A) : Prop := forall t s, wp m t s (fun _ _ _ => True) (fun _ _ _ => True).

Lemma ends_ret {S A} (a : A) : ends (@ret S A a).
Proof. done. Qed.
Lemma ends_fail {S A} e : ends (@fail S A e).
Proof. done. Qed.
Lemma ends_instant {S A} (m : M S A) : instant m -> ends m.
Proof. intros Hm t s. unfold wp, run. specialize (Hm None t s). by destruct (m None t s) as [[[a|e| | |] t'] s']. Qed.
Lemma ends_bind {S A B} (m : M S A) (f : A -> M S B) : ends m -> (forall a, ends (f a)) -> ends (bind m f).
Proof. intros Hm Hf t s. apply wp_bind. eapply wp_mono; [apply Hm| |done]. intros a t' s' _. apply Hf. Qed.
Lemma ends_try {S A} (m : M S A) : ends m -> ends (try m).
Proof. intros Hm t s. apply wp_try. eapply wp_mono; [apply Hm|done..]. Qed.
Lemma ends_quietly {S A} (m : M S A) : ends m -> ends (quietly m).
Proof. intros Hm. apply ends_bind; [by apply ends_try|]. intros r. apply ends_ret. Qed.
Lemma ends_context {S A} c (m : M S A) : ends m -> ends (context c m).
Proof.
  intros Hm t s. unfold wp, run, context. specialize (Hm t s). unfold wp, run in Hm.
  by destruct (m None t s) as [[[a|e| | |] t'] s'].
Qed.
Lemma ends_zoom {S T A} (g : S -> T) p (m : M T A) : ends m -> ends (zoom g p m).
Proof. intros Hm t s. apply wp_zoom. eapply wp_mono; [apply Hm|done..]. Qed.
Lemma ends_wait_until {S} a : ends (@wait_until S a).
Proof. intros t s. by apply wp_wait_until. Qed.
Lemma ends_timeout_or {S A} d e (m : M S A) : 0 <= d -> timely m -> spinless m -> ends (timeout_or d e m).
Proof.
  intros Hd Ht Hs. apply ends_bind; [intros t s; by apply wp_timeout|]. intros [[a|e']|]; done.
Qed.

Create HintDb ends.
#[export] Hint Resolve ends_ret ends_fail ends_wait_until ends_try ends_quietly ends_context ends_zoom : ends.
#[export] Hint Extern 5 (ends _) => (apply ends_instant; solve [auto with instant]) : ends.
Ltac ends_tac :=
  repeat first [solve [auto with ends] | apply ends_bind; intros | apply ends_zoom | apply ends_try | apply ends_context
               | apply ends_quietly | case_match].
