(* ===== verification/Transport.v ===== *)
(** * Message transport (src/transport.rs and the framing helpers of src/rendezvous.rs)

    [ByteStream] is the TCP stream below the framing: bytes that arrive over time, and bytes
    written.  [framed_send] / [framed_recv] are RustDesk's BytesCodec.  [NetTransport] is the
    abstract contract of a transport, whole messages in and out, which the framing implements. *)

From S2P Require Import Prelude RustStr Async.
From Stdlib Require Import ZArith Lia.
From Stdlib Require Import Strings.Byte Strings.String.
From stdpp Require Import base list option numbers.

Local Open Scope Z_scope.
Local Open Scope async_scope.

(** ** The byte stream below the framing *)

(** What happens after the bytes that will ever arrive: nothing, or end of stream / an error that
    every later read reports. *)
Inductive StreamEnd : Type :=
| Never
| ClosedAt (t : Z) (e : Error).

Record ByteStream : Type := mkByteStream {
  bs_in : list (Z * byte);          (* bytes to come, with their arrival times *)
  bs_end : StreamEnd;
  bs_out : bytes;                   (* bytes written so far *)
  bs_faults : list (option Error);  (* outcome of the coming write / flush / shutdown calls *)
  bs_shut : bool
}.

(** One write-side system call: the next scripted outcome, success when the script is over. *)
Definition io_step : M ByteStream unit := fun dl t s =>
  match bs_faults s with
  | Some e :: fs => (Fail e, t, mkByteStream (bs_in s) (bs_end s) (bs_out s) fs (bs_shut s))
  | None :: fs => (Done tt, t, mkByteStream (bs_in s) (bs_end s) (bs_out s) fs (bs_shut s))
  | [] => (Done tt, t, s)
  end.

(** [AsyncWriteExt::write_all] *)
Definition write_all (b : bytes) : M ByteStream unit :=
  io_step ;;;
  modify (fun s => mkByteStream (bs_in s) (bs_end s) (bs_out s ++ b) (bs_faults s) (bs_shut s)).

(** [AsyncWriteExt::flush] *)
Definition flush : M ByteStream unit := io_step.

(** [AsyncWriteExt::shutdown] *)
Definition shutdown : M ByteStream unit :=
  io_step ;;;
  modify (fun s => mkByteStream (bs_in s) (bs_end s) (bs_out s) (bs_faults s) true).

(** The next byte, once it has arrived. *)
Definition read_byte : M ByteStream byte := fun dl t s =>
  match bs_in s with
  | (at_, b) :: rest =>
    (wait_until at_ ;;;
     modify (fun s => mkByteStream rest (bs_end s) (bs_out s) (bs_faults s) (bs_shut s)) ;;;
     ret b) dl t s
  | [] =>
    match bs_end s with
    | ClosedAt at_ e => (wait_until at_ ;;; fail e) dl t s
    | Never => pending dl t s
    end
  end.

(** [AsyncReadExt::read_exact] into a buffer of [n] bytes. *)
Fixpoint read_exact (n : nat) : M ByteStream bytes :=
  match n with
  | O => ret []
  | S n' => let* b := read_byte in let* l := read_exact n' in ret (b :: l)
  end.

(** ** BytesCodec framing *)

(** [FramedTransport::send] *)
Definition framed_send (msg : bytes) : M ByteStream unit :=
  let len := Z.of_nat (length msg) in
  (if len <=? 0x3F then
     let b := Z.lor (wrap 8 (Z.shiftl (wrap 8 len) 2)) 0 in
     write_all [byte_of_Z b]
   else if len <=? 0x3FFF then
     let val := Z.lor (wrap 16 (Z.shiftl (wrap 16 len) 2)) 1 in
     write_all (to_le_bytes 2 val)
   else if len <=? 0x3FFFFF then
     let val := Z.lor (wrap 32 (Z.shiftl (wrap 32 len) 2)) 2 in
     write_all (take 3 (to_le_bytes 4 val))
   else if len <=? 0x3FFFFFFF then
     let val := Z.lor (wrap 32 (Z.shiftl (wrap 32 len) 2)) 3 in
     write_all (to_le_bytes 4 val)
   else
     fail (anyhow ("payload too large for BytesCodec: " ++ show_Z len ++ " bytes")%string)) ;;;
  write_all msg ;;;
  flush.

(** [FramedTransport::recv] *)
Definition framed_recv : M ByteStream bytes :=
  let* first := read_exact 1 in
  let tag := Z.land (from_le_bytes first) 3 in
  let header_len := tag + 1 in
  let* more := (if 1 <? header_len then read_exact (Z.to_nat (header_len - 1)) else ret []) in
  let raw := first ++ more ++ repeat x00 (3 - length more) in
  let combined := from_le_bytes raw in
  let payload_len := Z.shiftr combined 2 in
  if 64 * 1024 * 1024 <? payload_len then
    fail (anyhow ("payload length " ++ show_Z payload_len ++ " exceeds 64 MiB safety limit")%string)
  else
    read_exact (Z.to_nat payload_len).

(** [FramedTransport::close] *)
Definition framed_close : M ByteStream unit := shutdown.

(** [bytescodec_send] *)
Definition bytescodec_send (msg : bytes) : M ByteStream unit :=
  let len := Z.of_nat (length msg) in
  (if len <=? 0x3F then
     write_all [byte_of_Z (Z.lor (wrap 8 (Z.shiftl (wrap 8 len) 2)) 0)]
   else if len <=? 0x3FFF then
     write_all (to_le_bytes 2 (Z.lor (wrap 16 (Z.shiftl (wrap 16 len) 2)) 1))
   else if len <=? 0x3FFFFF then
     write_all (take 3 (to_le_bytes 4 (Z.lor (wrap 32 (Z.shiftl (wrap 32 len) 2)) 2)))
   else if len <=? 0x3FFFFFFF then
     write_all (to_le_bytes 4 (Z.lor (wrap 32 (Z.shiftl (wrap 32 len) 2)) 3))
   else
     fail (anyhow ("bytescodec_send: payload too large: " ++ show_Z len ++ " bytes")%string)) ;;;
  write_all msg ;;;
  flush.

(** [bytescodec_recv] *)
Definition bytescodec_recv : M ByteStream bytes :=
  let* first := read_exact 1 in
  let tag := Z.land (from_le_bytes first) 3 in
  let header_len := tag + 1 in
  let* more := (if 1 <? header_len then read_exact (Z.to_nat (header_len - 1)) else ret []) in
  let combined := from_le_bytes (first ++ more ++ repeat x00 (3 - length more)) in
  let payload_len := Z.shiftr combined 2 in
  if 64 * 1024 * 1024 <? payload_len then
    fail (anyhow ("bytescodec_recv: payload " ++ show_Z payload_len ++ " exceeds 64 MiB limit")%string)
  else
    read_exact (Z.to_nat payload_len).

(** ** The transport interface *)

(** The [Transport] trait (without its constructor), with a bound on how many more messages can
    be received, which the loops of the clients use as their iteration bound. *)
Class Transport (T : Type) : Type := {
  t_send : bytes -> M T unit;
  t_recv : M T bytes;
  t_close : M T unit;
  t_pending : T -> nat
}.

(** What a client may rely on, whatever the peer does. *)
Class TransportOk (T : Type) `{Transport T} : Prop := {
  send_timely : forall b, timely (t_send b);
  recv_timely : timely t_recv;
  close_timely : timely t_close;
  send_spinless : forall b, spinless (t_send b);
  recv_spinless : spinless t_recv;
  close_spinless : spinless t_close;
  recv_uses : forall dl t s b t' s',
    t_recv dl t s = (Done b, t', s') -> (t_pending s' < t_pending s)%nat;
  send_keeps : forall b dl t s, t_pending (snd (t_send b dl t s)) = t_pending s;
  recv_shrinks : shrinks t_pending t_recv
}.
#[export] Hint Resolve send_timely recv_timely close_timely : timely.
#[export] Hint Resolve send_spinless recv_spinless close_spinless : spinless.

(** [TcpTransport]: the framing over a TCP stream. *)
#[export] Instance TcpTransport : Transport ByteStream := {
  t_send := framed_send;
  t_recv := framed_recv;
  t_close := framed_close;
  t_pending := fun s => length (bs_in s)
}.

(** ** The abstract transport: whole messages *)

Record NetTransport : Type := mkNet {
  net_in : list (Z * Res bytes);     (* messages to come, with their arrival times *)
  net_end : StreamEnd;
  net_out : list bytes;              (* messages sent so far *)
  net_faults : list (option Error);  (* outcome of the coming send / close calls *)
  net_shut : bool
}.

Definition net_step : M NetTransport unit := fun dl t s =>
  match net_faults s with
  | Some e :: fs => (Fail e, t, mkNet (net_in s) (net_end s) (net_out s) fs (net_shut s))
  | None :: fs => (Done tt, t, mkNet (net_in s) (net_end s) (net_out s) fs (net_shut s))
  | [] => (Done tt, t, s)
  end.

Definition net_send (b : bytes) : M NetTransport unit :=
  if Z.of_nat (length b) <=? 0x3FFFFFFF then
    net_step ;;;
    modify (fun s => mkNet (net_in s) (net_end s) (net_out s ++ [b]) (net_faults s) (net_shut s))
  else
    fail (anyhow ("payload too large for BytesCodec: " ++ show_Z (Z.of_nat (length b)) ++ " bytes")%string).

Definition net_recv : M NetTransport bytes := fun dl t s =>
  match net_in s with
  | (at_, r) :: rest =>
    (wait_until at_ ;;;
     modify (fun s => mkNet rest (net_end s) (net_out s) (net_faults s) (net_shut s)) ;;;
     lift r) dl t s
  | [] =>
    match net_end s with
    | ClosedAt at_ e => (wait_until at_ ;;; fail e) dl t s
    | Never => pending dl t s
    end
  end.

Definition net_close : M NetTransport unit :=
  net_step ;;;
  modify (fun s => mkNet (net_in s) (net_end s) (net_out s) (net_faults s) true).

#[export] Instance NetTransport_transport : Transport NetTransport := {
  t_send := net_send;
  t_recv := net_recv;
  t_close := net_close;
  t_pending := fun s => length (net_in s)
}.

(** ** Time and iteration bounds of both transports *)

Lemma io_step_timely : timely io_step.
Proof. timely_start. unfold io_step. repeat case_match; simplify_eq; lia. Qed.
Lemma io_step_spinless : spinless io_step.
Proof. intros dl t s. unfold io_step. by destruct (bs_faults s) as [|[e|] fs]. Qed.

Lemma read_byte_timely : timely read_byte.
Proof.
  timely_start. unfold read_byte. destruct (bs_in s) as [|[a b] rest].
  - destruct (bs_end s); [by apply timely_pending|].
    by apply timely_bind; auto with timely.
  - apply timely_bind; eauto with timely.
Qed.
Lemma read_byte_spinless : spinless read_byte.
Proof.
  intros dl t s. unfold read_byte. destruct (bs_in s) as [|[a b] rest].
  - destruct (bs_end s); [by apply spinless_pending|].
    by apply spinless_bind; auto with spinless.
  - apply spinless_bind; eauto with spinless.
Qed.

Lemma read_exact_timely n : timely (read_exact n).
Proof. induction n; simpl; eauto using read_byte_timely with timely. Qed.
Lemma read_exact_spinless n : spinless (read_exact n).
Proof. induction n; simpl; eauto using read_byte_spinless with spinless. Qed.

Lemma write_all_timely b : timely (write_all b).
Proof. unfold write_all. eauto using io_step_timely with timely. Qed.
Lemma write_all_spinless b : spinless (write_all b).
Proof. unfold write_all. eauto using io_step_spinless with spinless. Qed.

#[local] Hint Resolve io_step_timely read_exact_timely write_all_timely : timely.
#[local] Hint Resolve io_step_spinless read_exact_spinless write_all_spinless : spinless.

Lemma read_byte_uses dl t s b t' s' :
  read_byte dl t s = (Done b, t', s') -> (length (bs_in s') < length (bs_in s))%nat.
Proof.
  unfold read_byte. destruct (bs_in s) as [|[a c] rest] eqn:E.
  - destruct (bs_end s); [unfold pending; by destruct dl|].
    intros H. apply bind_done_inv in H as (? & ? & ? & _ & H). done.
  - intros H. apply bind_done_inv in H as (? & ? & ? & Hw & H). cbn in H. simplify_eq. simpl. lia.
Qed.

Lemma read_exact_uses n dl t s b t' s' :
  read_exact n dl t s = (Done b, t', s') -> (length (bs_in s') + n <= length (bs_in s))%nat.
Proof.
  revert dl t s b t' s'. induction n as [|n IH]; intros dl t s b t' s' H; simpl in H.
  - unfold ret in H. simplify_eq. lia.
  - apply bind_done_inv in H as (? & ? & ? & H1%read_byte_uses & H).
    apply bind_done_inv in H as (? & ? & ? & H2%IH & H). unfold ret in H. simplify_eq. lia.
Qed.

Lemma read_exact_shrinks n : shrinks (fun s => length (bs_in s)) (read_exact n).
Proof.
  induction n as [|n IH]; cbn [read_exact]; [apply shrinks_ret|].
  apply shrinks_bind; [|intros b; apply shrinks_bind; auto with shrinks].
  intros dl t s. unfold read_byte. destruct (bs_in s) as [|[a r] rest] eqn:E; unfold pending, bind, wait_until.
  - destruct (bs_end s), dl; cbn; repeat case_match; simplify_eq; cbn; rewrite ?E; cbn; lia.
  - destruct (a <=? t); [cbn; lia|]. destruct dl as [d|]; [destruct (d <? a)|]; cbn; rewrite ?E; cbn; lia.
Qed.

Lemma io_step_in dl t s : bs_in (snd (io_step dl t s)) = bs_in s.
Proof. unfold io_step. by destruct (bs_faults s) as [|[e|] fs]. Qed.

Lemma write_all_in b dl t s : bs_in (snd (write_all b dl t s)) = bs_in s.
Proof.
  unfold write_all, bind. pose proof (io_step_in dl t s) as H.
  by destruct (io_step dl t s) as [[[[]|e| | |] t'] s'].
Qed.

(** Writing leaves the bytes to come alone. *)
Lemma bind_in {A B} (m : M ByteStream A) (f : A -> M ByteStream B) :
  (forall dl t s, bs_in (snd (m dl t s)) = bs_in s) ->
  (forall a dl t s, bs_in (snd (f a dl t s)) = bs_in s) ->
  forall dl t s, bs_in (snd (bind m f dl t s)) = bs_in s.
Proof.
  intros Hm Hf dl t s. unfold bind. specialize (Hm dl t s).
  destruct (m dl t s) as [[[a|e| | |] t'] s']; simpl in *; auto. by rewrite Hf.
Qed.

#[export] Instance TcpTransport_ok : TransportOk ByteStream.
Proof.
  constructor; cbn.
  - intros b. unfold framed_send, flush.
    timely_tac.
  - unfold framed_recv. timely_tac.
  - unfold framed_close, shutdown. auto with timely.
  - intros b. unfold framed_send, flush.
    spinless_tac.
  - unfold framed_recv.
    spinless_tac.
  - unfold framed_close, shutdown. auto with spinless.
  - intros dl t s b t' s' H. unfold framed_recv in H.
    apply bind_done_inv in H as (? & ? & ? & H1%read_exact_uses & H).
    apply bind_done_inv in H as (? & ? & ? & H2 & H).
    assert (length (bs_in x4) <= length (bs_in x1))%nat.
    { destruct (1 <? _); [apply read_exact_uses in H2; lia|]. simpl in H2. simplify_eq. lia. }
    case_match; [done|]. apply read_exact_uses in H. lia.
  - intros b dl t s. f_equal. revert dl t s. unfold framed_send, flush.
    apply bind_in; [repeat case_match; intros; rewrite ?write_all_in; done|].
    intros _. apply bind_in; [apply write_all_in|]. intros _. apply io_step_in.
  - unfold framed_recv. apply shrinks_bind; [apply read_exact_shrinks|]. intros first.
    apply shrinks_bind; [destruct (1 <? _); auto using read_exact_shrinks with shrinks|]. intros more.
    destruct (_ <? _); auto using read_exact_shrinks with shrinks.
Qed.

#[export] Instance NetTransport_ok : TransportOk NetTransport.
Proof.
  assert (timely net_step) as H1.
  { timely_start. unfold net_step. repeat case_match; simplify_eq; lia. }
  assert (spinless net_step) as H2.
  { intros dl t s. unfold net_step. by destruct (net_faults s) as [|[e|] fs]. }
  constructor; cbn.
  - intros b. unfold net_send. case_match; eauto with timely.
  - timely_start. unfold net_recv. destruct (net_in s) as [|[a r] rest].
    + destruct (net_end s); [by apply timely_pending|]. by apply timely_bind; auto with timely.
    + apply timely_bind; eauto with timely.
  - unfold net_close. eauto with timely.
  - intros b. unfold net_send. case_match; eauto with spinless.
  - intros dl t s. unfold net_recv. destruct (net_in s) as [|[a r] rest].
    + destruct (net_end s); [by apply spinless_pending|]. by apply spinless_bind; auto with spinless.
    + apply spinless_bind; eauto with spinless.
  - unfold net_close. eauto with spinless.
  - intros dl t s b t' s'. unfold net_recv. destruct (net_in s) as [|[a r] rest] eqn:E.
    + destruct (net_end s); [unfold pending; by destruct dl|].
      intros H. apply bind_done_inv in H as (? & ? & ? & _ & H). done.
    + intros H. apply bind_done_inv in H as (? & ? & ? & Hw & H).
      destruct r; cbn in H; simplify_eq; simpl; lia.
  - intros b dl t s. unfold net_send. case_match; [|done]. unfold bind, net_step.
    by destruct (net_faults s) as [|[e|] fs].
  - intros dl t s. unfold net_recv. destruct (net_in s) as [|[a r] rest] eqn:E; unfold pending, bind, wait_until.
    + rewrite <- E. destruct (net_end s), dl; cbn; repeat case_match; simplify_eq; cbn; lia.
    + destruct (a <=? t); [destruct r; cbn; lia|]. destruct dl as [d|]; [destruct (d <? a)|];
        destruct r; cbn; rewrite ?E; cbn; lia.
Qed.

(** ** What the framing puts on the wire *)

Definition max_frame : Z := 0x3FFFFFFF.
Definition safety_limit : Z := 64 * 1024 * 1024.

(** The number of header bytes for a payload length. *)
Definition header_size (len : Z) : nat :=
  if len <=? 0x3F then 1 else if len <=? 0x3FFF then 2 else if len <=? 0x3FFFFF then 3 else 4.

(** The header as an integer: the length in the high bits, the header size minus one in the low
    two; written little-endian. *)
Definition header_value (len : Z) : Z := 4 * len + (Z.of_nat (header_size len) - 1).
Definition frame_bytes (p : bytes) : bytes :=
  let len := Z.of_nat (length p) in to_le_bytes (header_size len) (header_value len) ++ p.

Definition with_in (l : list (Z * byte)) (s : ByteStream) : ByteStream :=
  mkByteStream l (bs_end s) (bs_out s) (bs_faults s) (bs_shut s).
Definition with_out (o : bytes) (s : ByteStream) : ByteStream :=
  mkByteStream (bs_in s) (bs_end s) o (bs_faults s) (bs_shut s).

Lemma header_size_range len : (1 <= header_size len <= 4)%nat.
Proof. unfold header_size. repeat case_match; lia. Qed.

Lemma header_value_range len :
  0 <= len <= max_frame -> 0 <= header_value len < 256 ^ Z.of_nat (header_size len).
Proof.
  unfold header_value, header_size, max_frame. intros H.
  repeat case_match; rd_bool; change (256 ^ Z.of_nat 1) with 256;
    change (256 ^ Z.of_nat 2) with 65536; change (256 ^ Z.of_nat 3) with 16777216;
    change (256 ^ Z.of_nat 4) with 4294967296; lia.
Qed.

(** [((len as uW) << 2) | tag] does not lose bits when the length fits below bit [W - 2]. *)
Lemma header_word w len tag :
  2 <= w -> 0 <= len < 2 ^ (w - 2) -> 0 <= tag < 4 ->
  Z.lor (wrap w (Z.shiftl (wrap w len) 2)) tag = 4 * len + tag.
Proof.
  intros Hw Hl Ht. unfold wrap.
  assert (2 ^ w = 4 * 2 ^ (w - 2)) as E.
  { replace w with (2 + (w - 2)) at 1 by lia. rewrite Z.pow_add_r by lia. lia. }
  assert (0 < 2 ^ (w - 2)) by lia.
  rewrite (Z.mod_small len), (Z.mod_small (Z.shiftl len 2)).
  - rewrite lor_shiftl_low by lia. lia.
  - rewrite Z.shiftl_mul_pow2 by lia. lia.
  - lia.
Qed.

Lemma io_step_nofault dl t s : bs_faults s = [] -> io_step dl t s = (Done tt, t, s).
Proof. unfold io_step. by intros ->. Qed.

Lemma write_all_nofault b dl t s :
  bs_faults s = [] -> write_all b dl t s = (Done tt, t, with_out (bs_out s ++ b) s).
Proof. intros H. unfold write_all, bind. rewrite io_step_nofault by done. done. Qed.

Lemma framed_send_ok p dl t s :
  bs_faults s = [] -> Z.of_nat (length p) <= max_frame ->
  framed_send p dl t s = (Done tt, t, with_out (bs_out s ++ frame_bytes p) s).
Proof.
  intros Hf Hl. unfold framed_send, frame_bytes, max_frame in *.
  set (len := Z.of_nat (length p)) in *. assert (0 <= len) by lia.
  assert (forall h s0, bs_faults s0 = [] -> bind (write_all h) (fun _ => bind (write_all p) (fun _ => flush)) dl t s0
            = (Done tt, t, with_out (bs_out s0 ++ h ++ p) s0)) as Hw.
  { intros h s0 H0. unfold bind at 1. rewrite write_all_nofault by done.
    unfold bind. rewrite write_all_nofault by done. unfold flush. rewrite io_step_nofault by done.
    unfold with_out; simpl. by rewrite <- (assoc_L (++)). }
  unfold header_value, header_size.
  destruct (len <=? 0x3F) eqn:E1; [|destruct (len <=? 0x3FFF) eqn:E2;
    [|destruct (len <=? 0x3FFFFF) eqn:E3; [|destruct (len <=? 0x3FFFFFFF) eqn:E4]]];
    rd_bool; try lia; rewrite ?header_word by lia; cbv zeta; rewrite Hw by done;
    repeat f_equal.
Qed.

Lemma framed_send_too_large p dl t s :
  max_frame < Z.of_nat (length p) ->
  exists e, framed_send p dl t s = (Fail e, t, s).
Proof.
  intros Hl. unfold framed_send, max_frame in *.
  repeat (case_match; rd_bool; [lia|]). eexists. reflexivity.
Qed.

(** ** Reading *)

Lemma wait_until_past {S} a dl t (s : S) : a <= t -> wait_until a dl t s = (Done tt, t, s).
Proof. intros. unfold wait_until. by rewrite (proj2 (Z.leb_le _ _)). Qed.

(** With no deadline, [read_exact] collects bytes whenever they arrive. *)
Lemma read_exact_nodl arr rest t s :
  bs_in s = arr ++ rest ->
  exists t', read_exact (length arr) None t s = (Done (map snd arr), t', with_in rest s).
Proof.
  revert t s. induction arr as [|[a b] arr IH]; intros t s Hin.
  - exists t. simpl. unfold ret. do 2 f_equal. simpl in Hin. by rewrite <- Hin; destruct s.
  - cbn [length read_exact map snd].
    assert (exists t1, read_byte None t s = (Done b, t1, with_in (arr ++ rest) s)) as [t1 H1].
    { unfold read_byte. rewrite Hin. simpl. unfold bind, wait_until.
      destruct (a <=? t); eexists; reflexivity. }
    destruct (IH t1 (with_in (arr ++ rest) s) eq_refl) as [t2 H2].
    exists t2. unfold bind. rewrite H1, H2. done.
Qed.

(** Bytes that are all there are read at once, under any deadline. *)
Lemma read_exact_now a l rest dl t s :
  a <= t -> bs_in s = map (pair a) l ++ rest ->
  read_exact (length l) dl t s = (Done l, t, with_in rest s).
Proof.
  intros Ha. revert s. induction l as [|b l IH]; intros s Hin.
  - simpl. do 2 f_equal. simpl in Hin. by rewrite <- Hin; destruct s.
  - cbn [length read_exact]. unfold bind.
    assert (read_byte dl t s = (Done b, t, with_in (map (pair a) l ++ rest) s)) as ->.
    { unfold read_byte. rewrite Hin. simpl. unfold bind. rewrite wait_until_past by done. done. }
    rewrite IH by done. done.
Qed.

(** How [framed_recv] understands a header, given how to read exact amounts. *)
Lemma header_tag len :
  0 <= len <= max_frame ->
  Z.land (from_le_bytes [byte_of_Z (header_value len)]) 3 = Z.of_nat (header_size len) - 1.
Proof.
  intros Hl. cbn [from_le_bytes]. rewrite Z_of_byte_of_Z. change 3 with (Z.ones 2).
  rewrite land_low by lia. change (2 ^ 2) with 4.
  pose proof (header_size_range len). unfold header_value.
  Z.div_mod_to_equations. lia.
Qed.

Lemma header_payload len k :
  0 <= len <= max_frame ->
  Z.shiftr (from_le_bytes (to_le_bytes (header_size len) (header_value len) ++ repeat x00 k)) 2
  = len.
Proof.
  intros Hl. rewrite from_le_bytes_app, from_le_bytes_zeros, from_to_le_bytes
    by (by apply header_value_range).
  rewrite Z.shiftr_div_pow2 by lia. change (2 ^ 2) with 4.
  pose proof (header_size_range len). unfold header_value.
  Z.div_mod_to_equations. lia.
Qed.

(** The parse of a header that is on the wire, with the reads abstracted: [R n l t s s'] says that
    reading [n] bytes in [s] gives [l] and leaves [s']. *)
Lemma framed_recv_header dl t0 t1 t2 s s1 s2 len :
  0 <= len <= max_frame ->
  let h := to_le_bytes (header_size len) (header_value len) in
  read_exact 1 dl t0 s = (Done (take 1 h), t1, s1) ->
  read_exact (header_size len - 1) dl t1 s1 = (Done (drop 1 h), t2, s2) ->
  framed_recv dl t0 s =
  (if safety_limit <? len
   then (Fail (anyhow ("payload length " ++ show_Z len ++ " exceeds 64 MiB safety limit")%string), t2, s2)
   else read_exact (Z.to_nat len) dl t2 s2).
Proof.
  intros Hl h H1 H2. pose proof (header_size_range len) as Hr.
  assert (take 1 h = [byte_of_Z (header_value len)]) as Ht.
  { unfold h. rewrite take_to_le_bytes by lia. done. }
  unfold framed_recv, bind at 1. rewrite H1, Ht. cbv beta iota zeta.
  rewrite header_tag by done.
  replace (Z.of_nat (header_size len) - 1 + 1 - 1) with (Z.of_nat (header_size len - 1)) by lia.
  rewrite Nat2Z.id.
  assert ((if 1 <? Z.of_nat (header_size len) - 1 + 1
           then read_exact (header_size len - 1) else ret []) dl t1 s1
          = (Done (drop 1 h), t2, s2)) as Hm.
  { destruct (1 <? _) eqn:E; rd_bool; [done|].
    assert (header_size len = 1%nat) as E1 by lia. rewrite E1 in H2. simpl in H2.
    rewrite <- H2. done. }
  erewrite bind_done by exact Hm. rewrite <- Ht, (assoc_L (++)), take_drop.
  unfold h. rewrite header_payload by done. unfold safety_limit.
  by destruct (_ <? len).
Qed.

Definition wire_header (p : bytes) : bytes :=
  let len := Z.of_nat (length p) in to_le_bytes (header_size len) (header_value len).

Lemma frame_bytes_split p :
  frame_bytes p = take 1 (wire_header p) ++ drop 1 (wire_header p) ++ p.
Proof. unfold frame_bytes, wire_header. by rewrite (assoc_L (++)), take_drop. Qed.

Lemma length_wire_header p : length (wire_header p) = header_size (Z.of_nat (length p)).
Proof. apply length_to_le_bytes. Qed.


(** ** Receiving a frame *)

Lemma first_byte p : exists b, take 1 (wire_header p) = [b].
Proof.
  pose proof (header_size_range (Z.of_nat (length p))) as Hr. pose proof (length_wire_header p) as Hl.
  destruct (wire_header p) as [|b h]; [simpl in Hl; lia|]. by exists b.
Qed.

(** Frames that arrive in any number of pieces are put together again. *)
Lemma framed_recv_arrivals p arr rest t s :
  Z.of_nat (length p) <= safety_limit ->
  map snd arr = frame_bytes p -> bs_in s = arr ++ rest ->
  exists t', framed_recv None t s = (Done p, t', with_in rest s).
Proof.
  intros Hl Harr Hin. rewrite frame_bytes_split in Harr.
  apply map_eq_app in Harr as (a1 & a23 & -> & E1 & Harr).
  apply map_eq_app in Harr as (a2 & a3 & -> & E2 & E3).
  pose proof (header_size_range (Z.of_nat (length p))) as Hr.
  pose proof (length_wire_header p) as Hh.
  assert (length a1 = 1%nat) as L1 by (rewrite <- (length_map snd), E1, length_take; lia).
  assert (length a2 = header_size (Z.of_nat (length p)) - 1)%nat as L2
    by (rewrite <- (length_map snd), E2, length_drop; lia).
  rewrite <- !(assoc_L (++)) in Hin.
  destruct (read_exact_nodl a1 (a2 ++ a3 ++ rest) t s Hin) as [t1 R1]. rewrite L1, E1 in R1.
  destruct (read_exact_nodl a2 (a3 ++ rest) t1 (with_in (a2 ++ a3 ++ rest) s) eq_refl) as [t2 R2].
  rewrite L2, E2 in R2.
  destruct (read_exact_nodl a3 rest t2 (with_in (a3 ++ rest) s) eq_refl) as [t3 R3].
  rewrite <- (length_map snd a3), E3 in R3.
  exists t3. erewrite (framed_recv_header None t t1 t2 s _ _ (Z.of_nat (length p)));
    [|unfold max_frame, safety_limit in *; lia|exact R1|exact R2].
  destruct (safety_limit <? _) eqn:E; rd_bool; [lia|]. by rewrite Nat2Z.id.
Qed.

(** A frame whose bytes all arrive at time [a]. *)
Lemma framed_recv_wait a p rest dl t s :
  Z.of_nat (length p) <= safety_limit ->
  bs_in s = map (pair a) (frame_bytes p) ++ rest ->
  framed_recv dl t s = bind (wait_until a) (fun _ _ t' s' => (Done p, t', with_in rest s')) dl t s.
Proof.
  intros Hl Hin. rewrite frame_bytes_split, !map_app, <- !(assoc_L (++)) in Hin.
  destruct (first_byte p) as [b Hb]. rewrite Hb in Hin. simpl in Hin.
  unfold bind. destruct (wait_until a dl t s) as [[[[]|e| | |] t'] s'] eqn:W.
  - assert (a <= t' /\ s' = s) as [Ha ->].
    { unfold wait_until in W. repeat case_match; simplify_eq; rd_bool; split; try done; lia. }
    pose proof (length_wire_header p) as Hh.
    pose proof (header_size_range (Z.of_nat (length p))) as Hr.
    set (r2 := map (pair a) (drop 1 (wire_header p)) ++ map (pair a) p ++ rest) in *.
    assert (read_exact 1 dl t s = (Done (take 1 (wire_header p)), t', with_in r2 s)) as R1.
    { rewrite Hb. cbn [read_exact]. unfold bind, read_byte. rewrite Hin. unfold bind. by rewrite W. }
    pose proof (read_exact_now a (drop 1 (wire_header p)) (map (pair a) p ++ rest) dl t'
                  (with_in r2 s) Ha eq_refl) as R2.
    rewrite length_drop, Hh in R2.
    erewrite (framed_recv_header dl t t' t' s _ _ (Z.of_nat (length p))); [|unfold max_frame, safety_limit in *; lia|exact R1|exact R2].
    destruct (safety_limit <? _) eqn:E; rd_bool; [lia|]. rewrite Nat2Z.id.
    erewrite read_exact_now; [|exact Ha|reflexivity]. done.
  - unfold wait_until in W. repeat case_match; simplify_eq.
  - unfold framed_recv. cbn [read_exact]. unfold bind, read_byte. rewrite Hin. unfold bind. by rewrite W.
  - unfold wait_until in W. repeat case_match; simplify_eq.
  - unfold wait_until in W. repeat case_match; simplify_eq.
Qed.

(** ** Clients of a transport

    A client is a tree of transport calls, each under its own timeout or none, that may choose
    what to do next from what it has seen. *)

Inductive tcall : Type :=
| CSend (b : bytes)
| CRecv
| CClose.

Inductive client (A : Type) : Type :=
| CRet (a : A)
| CCall (limit : option Z) (c : tcall) (k : option (Res bytes) -> client A).
Arguments CRet {A} a.
Arguments CCall {A} limit c k.

Definition do_call {T} `{Transport T} (c : tcall) : M T bytes :=
  match c with
  | CSend b => t_send b ;;; ret []
  | CRecv => t_recv
  | CClose => t_close ;;; ret []
  end.

Definition limited {S A} (limit : option Z) (m : M S A) : M S (option (Res A)) :=
  match limit with
  | Some d => timeout d m
  | None => let* r := try m in ret (Some r)
  end.

Fixpoint run_client {T A} `{Transport T} (p : client A) : M T A :=
  match p with
  | CRet a => ret a
  | CCall limit c k => let* r := limited limit (do_call c) in run_client (k r)
  end.

(** A byte stream that carries the messages of an abstract transport, each frame arriving whole
    at its message's time. *)
Inductive carries : list (Z * byte) -> list (Z * Res bytes) -> Prop :=
| carries_nil : carries [] []
| carries_cons a p l m :
    Z.of_nat (length p) <= safety_limit -> carries l m ->
    carries (map (pair a) (frame_bytes p) ++ l) ((a, Ok p) :: m).

Record implements (s : ByteStream) (n : NetTransport) : Prop := {
  imp_in : carries (bs_in s) (net_in n);
  imp_end : bs_end s = net_end n;
  imp_out : bs_out s = concat (map frame_bytes (net_out n));
  imp_faults : bs_faults s = [] /\ net_faults n = [];
  imp_shut : bs_shut s = net_shut n
}.

(** Same outcome, same clock, related states. *)
Definition agree {S N A} (R : S -> N -> Prop) (x : outcome A * Z * S) (y : outcome A * Z * N) : Prop :=
  x.1.1 = y.1.1 /\ x.1.2 = y.1.2 /\ R x.2 y.2.
Definition simulates {S N A} (R : S -> N -> Prop) (m : M S A) (m' : M N A) : Prop :=
  forall dl t s n, R s n -> agree R (m dl t s) (m' dl t n).

Section simulation.
Context {S N : Type} (R : S -> N -> Prop).

Lemma simulates_ret {A} (a : A) : simulates R (ret a) (ret a).
Proof. by intros dl t s n HR. Qed.

Lemma simulates_bind {A B} (m : M S A) (m' : M N A) (f : A -> M S B) (f' : A -> M N B) :
  simulates R m m' -> (forall a, simulates R (f a) (f' a)) -> simulates R (bind m f) (bind m' f').
Proof.
  intros Hm Hf dl t s n HR. specialize (Hm dl t s n HR) as (E1 & E2 & HR'). unfold bind.
  destruct (m dl t s) as [[o t1] s1], (m' dl t n) as [[o' t1'] n1]. simpl in *. subst.
  destruct o'; try done. by apply Hf.
Qed.

Lemma simulates_limited {A} l (m : M S A) (m' : M N A) :
  simulates R m m' -> simulates R (limited l m) (limited l m').
Proof.
  intros Hm dl t s n HR. destruct l as [d|]; simpl; unfold timeout, bind, try.
  - specialize (Hm (Some (match dl with Some o => Z.min o (t + d) | None => t + d end)) t s n HR)
      as (E1 & E2 & HR').
    destruct (m _ t s) as [[o t1] s1], (m' _ t n) as [[o' t1'] n1]. simpl in *. subst.
    destruct o'; try done. by destruct (_ <=? _).
  - specialize (Hm dl t s n HR) as (E1 & E2 & HR').
    destruct (m _ t s) as [[o t1] s1], (m' _ t n) as [[o' t1'] n1]. simpl in *. subst.
    by destruct o'.
Qed.
End simulation.

Lemma carries_inv_nil l : carries l [] -> l = [].
Proof. by inversion 1. Qed.

Lemma send_simulates b : simulates implements (framed_send b) (net_send b).
Proof.
  intros dl t s n HR. destruct HR as [Hi He Ho [Hf Hg] Hs].
  destruct (decide (Z.of_nat (length b) <= max_frame)) as [Hl|Hl].
  - rewrite framed_send_ok by done. unfold net_send.
    rewrite (proj2 (Z.leb_le _ _)) by done. unfold bind, net_step. rewrite Hg. simpl.
    split_and!; [done|done|]. constructor; simpl; try done.
    by rewrite map_app, concat_app, Ho; simpl; rewrite app_nil_r.
  - assert (max_frame < Z.of_nat (length b)) as Hl' by lia. unfold max_frame in Hl'.
    unfold framed_send, net_send.
    repeat (rewrite (proj2 (Z.leb_gt _ _)) by lia). split_and!; [done|done|]. by constructor.
Qed.

Lemma recv_simulates : simulates implements framed_recv net_recv.
Proof.
  intros dl t s n HR. pose proof HR as [Hi He Ho [Hf Hg] Hs].
  unfold net_recv. destruct (net_in n) as [|[a r] rest] eqn:En.
  - apply carries_inv_nil in Hi. unfold framed_recv. cbn [read_exact]. unfold bind, read_byte.
    rewrite Hi, He. destruct (net_end n) as [|a e].
    + unfold pending. by destruct dl.
    + unfold bind, wait_until. by repeat (case_match; simplify_eq/=).
  - inversion Hi as [|a' p l m Hl Hc E1 E2]; subst. symmetry in E1.
    rewrite (framed_recv_wait a p l) by done. unfold bind.
    assert (simulates implements (wait_until a) (wait_until a)) as Hw.
    { intros dl' t' s' n' HR'. unfold wait_until. by repeat case_match. }
    destruct (Hw dl t s n HR) as (W1 & W2 & W3).
    destruct (wait_until a dl t s) as [[o t1] s1] eqn:Ws, (wait_until a dl t n) as [[o' t1'] n1] eqn:Wn.
    simpl in *. subst. destruct o'; try done. split_and!; [done|done|].
    assert (n1 = n) as -> by (unfold wait_until in Wn; repeat case_match; simplify_eq; done).
    destruct W3. constructor; simpl; done.
Qed.

Lemma close_simulates : simulates implements framed_close net_close.
Proof.
  intros dl t s n HR. destruct HR as [Hi He Ho [Hf Hg] Hs].
  unfold framed_close, shutdown, net_close, bind. rewrite io_step_nofault by done.
  unfold net_step. rewrite Hg. simpl. split_and!; [done|done|]. by constructor.
Qed.

Lemma call_simulates c : simulates implements (do_call c) (do_call c).
Proof.
  destruct c; simpl; auto using simulates_bind, simulates_ret, send_simulates, recv_simulates,
    close_simulates.
Qed.

(** ** The properties of the transport *)

(** C2: the framed transport refines the abstract message transport.  Any client, adaptive and
    with any timeouts around its calls, that runs over a byte stream carrying some messages (each
    frame arriving whole) sees the same results at the same times as over the abstract transport
    with those messages, and leaves the two related: in particular, what it wrote is the
    concatenation of the frames of the messages it sent, in order. *)
Theorem tcp_refines_net {A} (p : client A) dl t s n :
  implements s n -> agree implements (run_client p dl t s) (run_client p dl t n).
Proof.
  revert dl t s n. induction p as [a|limit c k IH]; intros dl t s n; cbn [run_client].
  - by apply simulates_ret.
  - apply simulates_bind; [apply simulates_limited, call_simulates|]. intros r ? ? ? ?. apply IH.
Qed.

Lemma tcp_refines_net_witness :
  let msg := [x01; x02; x03] in
  let s := mkByteStream (map (pair 30) (frame_bytes msg) ++ map (pair 50) (frame_bytes msg))
             Never [] [] false in
  let n := mkNet [(30, Ok msg); (50, Ok msg)] Never [] [] false in
  let p := CCall (Some 10) CRecv (fun _ => CCall None (CSend msg) (fun _ =>
           CCall (Some 40) CRecv (fun r => CRet r))) in
  implements s n /\ agree implements (run_client p None 0 s) (run_client p None 0 n) /\
  (run_client p None 0 s).1 = (Done (Some (Ok msg)), 30).
Proof.
  intros msg s n p.
  assert (implements s n) as H.
  { constructor; try done.
    apply (carries_cons 30 msg); [vm_compute; congruence|].
    apply (carries_cons 50 msg []); [vm_compute; congruence|constructor]. }
  split_and!; [exact H|exact (tcp_refines_net p None 0 s n H)|vm_compute; reflexivity].
Defined.

(** Send / receive round trip at the byte level.  What [framed_send] writes for a payload of
    at most 64 MiB, delivered in any pieces at any times with anything behind it, is received as
    exactly that payload, and the receiver is left at the byte after the frame. *)
Theorem framed_roundtrip p t0 s0 arr rest t r :
  bs_faults s0 = [] -> bs_out s0 = [] -> Z.of_nat (length p) <= 64 * 1024 * 1024 ->
  map snd arr = bs_out (run (framed_send p) t0 s0).2 -> bs_in r = arr ++ rest ->
  exists t', run framed_recv t r = (Done p, t', with_in rest r).
Proof.
  intros Hf Ho Hl Harr Hin. unfold run in *.
  rewrite framed_send_ok in Harr by (done || (unfold max_frame; lia)). simpl in Harr. rewrite Ho in Harr.
  by apply (framed_recv_arrivals p arr rest).
Qed.

Lemma framed_roundtrip_witness :
  let p := repeat x41 100 in
  let s0 := mkByteStream [] Never [] [] false in
  let arr := imap (fun i b => (Z.of_nat i, b)) (bs_out (run (framed_send p) 0 s0).2) in
  let r := mkByteStream (arr ++ [(500, x00)]) Never [] [] false in
  exists t', run framed_recv 7 r = (Done p, t', with_in [(500, x00)] r).
Proof.
  intros p s0 arr r.
  apply (framed_roundtrip p 0 s0 arr [(500, x00)] 7 r); vm_compute; congruence.
Defined.

(** The size limits of the two directions.  A payload over 2^30 - 1 bytes is refused by
    [framed_send] before anything is written; one above 64 MiB and within that bound is sent as a
    complete frame, which the receiving side always refuses after reading the header alone. *)
Theorem framed_size_limits p dl t s :
  bs_faults s = [] ->
  let len := Z.of_nat (length p) in
  (max_frame < len -> exists e, framed_send p dl t s = (Fail e, t, s)) /\
  (safety_limit < len <= max_frame ->
   framed_send p dl t s = (Done tt, t, with_out (bs_out s ++ frame_bytes p) s) /\
   forall a rest dl' t' r, a <= t' -> bs_in r = map (pair a) (frame_bytes p) ++ rest ->
     framed_recv dl' t' r =
     (Fail ["payload length " ++ show_Z len ++ " exceeds 64 MiB safety limit"]%string, t',
      with_in (map (pair a) p ++ rest) r)).
Proof.
  intros Hf len. split; [apply framed_send_too_large|].
  intros Hl. split; [apply framed_send_ok; [done|lia]|].
  intros a rest dl' t' r Ha Hin.
  rewrite frame_bytes_split, !map_app, <- !(assoc_L (++)) in Hin.
  pose proof (length_wire_header p) as Hh. fold len in Hh.
  pose proof (header_size_range len) as Hr.
  pose proof (read_exact_now a _ _ dl' t' r Ha Hin) as R1.
  rewrite length_take, Hh, Nat.min_l in R1 by lia.
  set (r2 := map (pair a) (drop 1 (wire_header p)) ++ map (pair a) p ++ rest) in *.
  pose proof (read_exact_now a (drop 1 (wire_header p)) (map (pair a) p ++ rest) dl' t'
                (with_in r2 r) Ha eq_refl) as R2.
  rewrite length_drop, Hh in R2.
  erewrite (framed_recv_header dl' t' t' t' r _ _ len); [|lia|exact R1|exact R2].
  destruct (safety_limit <? len) eqn:E; rd_bool; [|lia]. done.
Qed.

Lemma framed_size_limits_witness :
  let p := repeat x00 (Z.to_nat (safety_limit + 1)) in
  let s := mkByteStream [] Never [] [] false in
  (framed_send p None 0 s).1 = (Done tt, 0).
Proof.
  intros p s. destruct (framed_size_limits p None 0 s eq_refl) as [_ H].
  destruct H as [H _].
  { unfold p. rewrite repeat_length. rewrite Z2Nat.id by (unfold safety_limit; lia).
    unfold safety_limit, max_frame. lia. }
  by rewrite H.
Defined.

(** Receiving is not safe to cancel inside a frame.  When only the first byte of a frame has
    arrived by the time limit of a [timeout] (the daemon races [recv] against its other events the
    same way), the receive is abandoned with that byte consumed: the stream goes on in the middle
    of the frame. *)
Theorem recv_cancel_loses_header t d a b later s :
  t <= t + d -> a <= t + d -> bs_in s = (a, b) :: later -> later <> [] ->
  Z.land (Z_of_byte b) 3 <> 0 ->
  Forall (fun x => t + d < x.1) later ->
  run (timeout d framed_recv) t s = (Done None, t + d, with_in later s).
Proof.
  intros Hd Ha Hin Hne Hb Hlate. destruct later as [|[a2 b2] later]; [done|].
  apply Forall_inv in Hlate. simpl in Hlate.
  unfold run, timeout, framed_recv. cbn [read_exact]. unfold bind, read_byte. rewrite Hin.
  assert (exists t1, t1 <= t + d /\ @wait_until ByteStream a (Some (t + d)) t s = (Done tt, t1, s)) as (t1 & Ht1 & W).
  { unfold wait_until. destruct (a <=? t) eqn:E; rd_bool; [by exists t|].
    destruct (t + d <? a) eqn:E2; rd_bool; [lia|]. by exists a. }
  unfold bind. rewrite W. cbn [from_le_bytes modify ret].
  pose proof (Z.land_nonneg (Z_of_byte b + 256 * 0) 3) as Hn.
  rewrite Z.mul_0_r, Z.add_0_r in *.
  destruct (1 <? Z.land (Z_of_byte b) 3 + 1) eqn:E; rd_bool; [|lia].
  destruct (Z.to_nat _) as [|k] eqn:Ek; [lia|]. cbn [read_exact]. unfold bind, read_byte. simpl.
  unfold bind, wait_until. rewrite (proj2 (Z.leb_gt _ _)), (proj2 (Z.ltb_lt _ _)) by lia.
  rewrite Z.max_r by lia. rewrite Z.leb_refl. done.
Qed.

(** The bytes of a 256-byte message whose first byte comes 5 ms before the rest: the cancelled
    receive and the next one return a message that was never sent. *)
Lemma recv_cancel_loses_header_witness :
  let later := map (pair 20) (drop 1 (frame_bytes (repeat x04 256))) in
  let s := mkByteStream ((5, x01) :: later) Never [] [] false in
  take 1 (frame_bytes (repeat x04 256)) = [x01] /\
  run (timeout 10 framed_recv) 0 s = (Done None, 10, with_in later s) /\
  (run framed_recv 10 (with_in later s)).1 = (Done [x04], 20).
Proof.
  intros later s. split; [reflexivity|]. split; [|vm_compute; reflexivity].
  apply (recv_cancel_loses_header 0 10 5 x01 later s); try (vm_compute; congruence).
  apply Forall_map, Forall_true. intros x. simpl. lia.
Defined.

(** The two copies of the framing agree.  The framing helpers of the rendezvous client write
    the same bytes, consume the same bytes, take the same time and succeed on the same inputs with
    the same values as the connection's transport; only the text of an error may differ. *)
Theorem bytescodec_equiv (msg : bytes) dl t s :
  let same {A} (x y : outcome A * Z * ByteStream) :=
    x.1.2 = y.1.2 /\ x.2 = y.2 /\
    (x.1.1 = y.1.1 \/ exists e e', x.1.1 = Fail e /\ y.1.1 = Fail e') in
  same (bytescodec_send msg dl t s) (framed_send msg dl t s) /\
  same (bytescodec_recv dl t s) (framed_recv dl t s).
Proof.
  intros same. split.
  - unfold same, bytescodec_send, framed_send. cbv zeta.
    repeat (case_match; [by auto|]). simpl. eauto 7.
  - unfold same, bytescodec_recv, framed_recv, bind.
    destruct (read_exact 1 dl t s) as [[[b|e| | |] t1] s1]; simpl; auto.
    match goal with |- context [(if ?c then ?x else ?y) dl t1 s1] =>
      destruct ((if c then x else y) dl t1 s1) as [[[c2|e| | |] t2] s2] end; simpl; auto.
    cbv zeta. destruct (_ <? _); simpl; eauto 7.
Qed.
