(* ===== verification/Crypto.v ===== *)
(** * Authentication hash, key exchange and the encrypted stream (src/crypto.rs)

    The primitives (SHA-256, secretbox, crypto_box, the Ed25519 to Curve25519 map) are a class of
    operations, [CryptoLib]; what the program relies on about them is [CryptoLaws].  Random values
    are arguments. *)

From Stdlib Require Import ZArith Lia.
From Stdlib Require Import Strings.Byte Strings.String.
From stdpp Require Import base list option numbers.
From S2P Require Import Prelude RustStr Async Transport.

Local Open Scope Z_scope.
Local Open Scope async_scope.

(** ** The primitives *)

Class CryptoLib : Type := {
  sha256 : bytes -> bytes;
  (* XSalsa20Poly1305 encrypt / decrypt: key, nonce, text *)
  secretbox_seal : bytes -> bytes -> bytes -> option bytes;
  secretbox_open : bytes -> bytes -> bytes -> option bytes;
  (* VerifyingKey::from_bytes followed by to_montgomery *)
  ed25519_to_montgomery : bytes -> option bytes;
  (* Curve25519 public key of a secret key *)
  box_public : bytes -> bytes;
  (* SalsaBox::new(pk, sk).encrypt(nonce, text) / decrypt *)
  box_seal : bytes -> bytes -> bytes -> bytes -> option bytes;
  box_open : bytes -> bytes -> bytes -> bytes -> option bytes
}.

(** The documented behaviour of the primitives: decryption undoes encryption under the same key
    and nonce, encryption accepts any message of a transportable size and adds a 16-byte tag, and
    a crypto_box opens with the other side's keys. *)
Class CryptoLaws (C : CryptoLib) : Prop := {
  open_seal : forall k n p c, secretbox_seal k n p = Some c -> secretbox_open k n c = Some p;
  seal_length : forall k n p c,
    secretbox_seal k n p = Some c -> length c = (length p + 16)%nat;
  seal_total : forall k n p, Z.of_nat (length p) < 2 ^ 32 -> is_Some (secretbox_seal k n p);
  box_open_seal : forall sk1 sk2 n p c,
    box_seal (box_public sk2) sk1 n p = Some c -> box_open (box_public sk1) sk2 n c = Some p;
  box_seal_total : forall pk sk n p, Z.of_nat (length p) < 2 ^ 32 -> is_Some (box_seal pk sk n p)
}.

(** ** Password hashing *)

Definition password_hash `{CryptoLib} (password : string) (salt challenge : bytes) : bytes :=
  let stage1 := sha256 (as_bytes password ++ salt) in
  sha256 (stage1 ++ challenge).

(** ** Key exchange *)

Record KeyExchangeResult : Type := mkKeyExchangeResult {
  ephemeral_pk : bytes;
  sealed_key : bytes;
  session_key : bytes
}.

Definition zero_nonce : bytes := repeat x00 24.

(** [ephemeral_sk] and [key] are the two values drawn from [OsRng]. *)
Definition key_exchange_with_box_pk `{CryptoLib} (ephemeral_sk key their_box_pk : bytes)
    : Res KeyExchangeResult :=
  match box_seal their_box_pk ephemeral_sk zero_nonce key with
  | Some sealed => Ok (mkKeyExchangeResult (box_public ephemeral_sk) sealed key)
  | None => Err (anyhow "Failed to seal session key: aead::Error")
  end.

Definition key_exchange `{CryptoLib} (ephemeral_sk key server_ed25519_pk : bytes)
    : Res KeyExchangeResult :=
  match ed25519_to_montgomery server_ed25519_pk with
  | Some their_box_pk => key_exchange_with_box_pk ephemeral_sk key their_box_pk
  | None => Err (add_context "Invalid Ed25519 public key" (anyhow "signature error"))
  end.

Definition key_exchange_curve25519 `{CryptoLib} (ephemeral_sk key their_pk_bytes : bytes)
    : Res KeyExchangeResult :=
  key_exchange_with_box_pk ephemeral_sk key their_pk_bytes.

(** ** The encrypted stream *)

Record EncryptedStream (T : Type) : Type := mkEncryptedStream {
  es_inner : T;
  es_key : bytes;
  send_seq : Z;
  recv_seq : Z;
  last_recv_at : Z
}.
Arguments mkEncryptedStream {T} _ _ _ _ _.
Arguments es_inner {T} _.
Arguments es_key {T} _.
Arguments send_seq {T} _.
Arguments recv_seq {T} _.
Arguments last_recv_at {T} _.

Definition set_inner {T} (x : T) (s : EncryptedStream T) : EncryptedStream T :=
  mkEncryptedStream x (es_key s) (send_seq s) (recv_seq s) (last_recv_at s).
Definition set_send_seq {T} (n : Z) (s : EncryptedStream T) : EncryptedStream T :=
  mkEncryptedStream (es_inner s) (es_key s) n (recv_seq s) (last_recv_at s).
Definition set_recv_seq {T} (n : Z) (s : EncryptedStream T) : EncryptedStream T :=
  mkEncryptedStream (es_inner s) (es_key s) (send_seq s) n (last_recv_at s).
Definition set_last_recv {T} (t : Z) (s : EncryptedStream T) : EncryptedStream T :=
  mkEncryptedStream (es_inner s) (es_key s) (send_seq s) (recv_seq s) t.

(** [EncryptedStream::new], at time [now]. *)
Definition es_new {T} (transport : T) (key : bytes) (now : Z) : EncryptedStream T :=
  mkEncryptedStream transport key 0 0 now.

(** [make_nonce] *)
Definition make_nonce (seq : Z) : bytes := to_le_bytes 8 seq ++ repeat x00 16.
Arguments make_nonce : simpl never.
#[global] Arguments wrap : simpl never.

Section stream.
Context {T : Type} `{Transport T} `{CryptoLib}.

(** [EncryptedStream::send] *)
Definition es_send (plaintext : bytes) : M (EncryptedStream T) unit :=
  modify (fun s => set_send_seq (wrap 64 (send_seq s + 1)) s) ;;;
  let* s := get in
  let nonce := make_nonce (send_seq s) in
  match secretbox_seal (es_key s) nonce plaintext with
  | Some ciphertext => zoom es_inner set_inner (t_send ciphertext)
  | None => fail (anyhow "Encryption failed: aead::Error")
  end.

(** [EncryptedStream::send_heartbeat] *)
Definition send_heartbeat : M (EncryptedStream T) unit := zoom es_inner set_inner (t_send []).

(** [EncryptedStream::recv] *)
Definition es_recv : M (EncryptedStream T) bytes :=
  let* ciphertext := zoom es_inner set_inner t_recv in
  let* t := now in
  modify (set_last_recv t) ;;;
  match ciphertext with
  | [] => ret []
  | _ =>
    modify (fun s => set_recv_seq (wrap 64 (recv_seq s + 1)) s) ;;;
    let* s := get in
    let nonce := make_nonce (recv_seq s) in
    match secretbox_open (es_key s) nonce ciphertext with
    | Some p => ret p
    | None => fail (anyhow "Decryption failed: invalid ciphertext or wrong key")
    end
  end.

(** [EncryptedStream::recv_idle_for] *)
Definition recv_idle_for : M (EncryptedStream T) Z :=
  let* s := get in let* t := now in ret (t - last_recv_at s).

(** [EncryptedStream::close] *)
Definition es_close : M (EncryptedStream T) unit := zoom es_inner set_inner t_close.

(** How many more frames can be received. *)
Definition es_pending (s : EncryptedStream T) : nat := t_pending (es_inner s).
End stream.

(** What the two ends exchange: a message or a heartbeat. *)
Definition es_send_item `{CryptoLib} {T} `{Transport T} (i : option bytes) : M (EncryptedStream T) unit :=
  match i with Some p => es_send p | None => send_heartbeat end.
Fixpoint es_send_all `{CryptoLib} {T} `{Transport T} (l : list (option bytes)) : M (EncryptedStream T) unit :=
  match l with [] => ret tt | i :: l' => es_send_item i ;;; es_send_all l' end.
Fixpoint es_recv_n `{CryptoLib} {T} `{Transport T} (n : nat) : M (EncryptedStream T) (list bytes) :=
  match n with
  | O => ret []
  | S n' => let* p := es_recv in let* ps := es_recv_n n' in ret (p :: ps)
  end.

(** ** Bounds *)

Section bounds.
Context {T : Type} `{Transport T} {TOK : TransportOk T} `{CryptoLib}.

Lemma es_send_timely p : timely (es_send p).
Proof. unfold es_send. timely_tac. Qed.
Lemma es_send_spinless p : spinless (es_send p).
Proof. unfold es_send. spinless_tac. Qed.
Lemma heartbeat_timely : timely send_heartbeat.
Proof. unfold send_heartbeat. timely_tac. Qed.
Lemma heartbeat_spinless : spinless send_heartbeat.
Proof. unfold send_heartbeat. spinless_tac. Qed.
Lemma es_recv_timely : timely es_recv.
Proof. unfold es_recv. timely_tac. Qed.
Lemma es_recv_spinless : spinless es_recv.
Proof. unfold es_recv. spinless_tac. Qed.
Lemma es_close_timely : timely es_close.
Proof. unfold es_close. timely_tac. Qed.
Lemma es_close_spinless : spinless es_close.
Proof. unfold es_close. spinless_tac. Qed.

Lemma es_send_keeps p dl t s : es_pending (es_send p dl t s).2 = es_pending s.
Proof.
  unfold es_send, es_pending, bind. cbn.
  destruct (secretbox_seal _ _ _) as [c|]; [|done]. unfold zoom. cbn.
  pose proof (send_keeps c dl t (es_inner s)) as E.
  by destruct (t_send c dl t (es_inner s)) as [[o t'] x].
Qed.

Lemma es_recv_shrinks : shrinks es_pending es_recv.
Proof.
  unfold es_recv. apply shrinks_bind.
  - eapply shrinks_zoom; [apply recv_shrinks|]. done.
  - intros c dl t s. unfold bind. cbn. destruct c as [|c0 c]; [done|]. cbn.
    by destruct (secretbox_open _ _ _).
Qed.

Lemma es_recv_uses dl t s b t' s' :
  es_recv dl t s = (Done b, t', s') -> (es_pending s' < es_pending s)%nat.
Proof.
  unfold es_recv, es_pending. intros E. apply bind_done_inv in E as (c & t1 & s1 & E1 & E).
  unfold zoom in E1. destruct (t_recv dl t (es_inner s)) as [[o t2] x] eqn:R. simplify_eq/=.
  apply recv_uses in R. destruct c as [|c0 c]; cbn in E; simplify_eq/=; [done|].
  unfold bind in E. cbn in E. destruct (secretbox_open _ _ _); cbn in E; by simplify_eq/=.
Qed.
End bounds.

(** The abstract transport sends at once. *)
Lemma net_send_instant b : instant (net_send b).
Proof.
  intros dl t s. unfold net_send. destruct (_ <=? _); [|done]. unfold bind, net_step.
  by destruct (net_faults s) as [|[e|] fs].
Qed.
Lemma es_send_instant `{CryptoLib} p : instant (@es_send NetTransport _ _ p).
Proof.
  unfold es_send. apply instant_bind; [auto with instant|]. intros _.
  apply instant_bind; [auto with instant|]. intros s.
  destruct (secretbox_seal _ _ _); [|auto with instant].
  apply instant_zoom, net_send_instant.
Qed.
Lemma es_close_instant : instant (@es_close NetTransport _).
Proof.
  intros dl t s. unfold es_close, zoom, t_close, NetTransport_transport, net_close, net_step, bind.
  by destruct (net_faults (es_inner s)) as [|[e|] fs].
Qed.
#[export] Hint Resolve net_send_instant es_send_instant es_close_instant : instant.

#[export] Hint Resolve es_send_timely heartbeat_timely es_recv_timely es_close_timely : timely.
#[export] Hint Resolve es_send_spinless heartbeat_spinless es_recv_spinless es_close_spinless : spinless.

(** ** A toy instance of the primitives

    For evaluating the model only: the "cipher" is the plain text with a tag of 16 zero bytes. *)

Definition toy_open (_ _ c : bytes) : option bytes :=
  if decide (16 <= length c /\ drop (length c - 16) c = repeat x00 16)%nat
  then Some (take (length c - 16) c) else None.
Definition toy_crypto : CryptoLib := {|
  sha256 := fun b => take 32 (b ++ repeat x00 32);
  secretbox_seal := fun _ _ p => Some (p ++ repeat x00 16);
  secretbox_open := toy_open;
  ed25519_to_montgomery := fun pk => if decide (pk = repeat x00 32) then None else Some pk;
  box_public := fun sk => sk;
  box_seal := fun _ _ _ p => Some (p ++ repeat x00 16);
  box_open := fun _ sk n c => toy_open sk n c
|}.

Lemma toy_open_seal k n p : toy_open k n (p ++ repeat x00 16) = Some p.
Proof.
  unfold toy_open. rewrite length_app, repeat_length, Nat.add_sub.
  rewrite drop_app_length, take_app_length. by rewrite decide_True by (split; [lia|done]).
Qed.

Lemma toy_crypto_laws : CryptoLaws toy_crypto.
Proof.
  constructor; simpl; intros; simplify_eq; eauto using toy_open_seal.
  by rewrite length_app.
Qed.

(** ** The two ends of a stream *)

(** The nonce determines the sequence number. *)
Lemma make_nonce_inj m n :
  0 <= m < 2 ^ 64 -> 0 <= n < 2 ^ 64 -> make_nonce m = make_nonce n -> m = n.
Proof.
  unfold make_nonce. intros Hm Hn E.
  apply app_inj_1 in E as [E _]; [|by rewrite !length_to_le_bytes].
  apply (f_equal from_le_bytes) in E. change (2 ^ 64) with (256 ^ Z.of_nat 8) in *.
  by rewrite !from_to_le_bytes in E.
Qed.

(** The frames [es_send_all] puts on an abstract transport. *)
Fixpoint sealed_frames `{CryptoLib} (key : bytes) (seq : Z) (l : list (option bytes)) : list bytes :=
  match l with
  | [] => []
  | None :: l' => [] :: sealed_frames key seq l'
  | Some p :: l' =>
    default [] (secretbox_seal key (make_nonce (wrap 64 (seq + 1))) p)
    :: sealed_frames key (wrap 64 (seq + 1)) l'
  end.
Fixpoint seq_after (seq : Z) (l : list (option bytes)) : Z :=
  match l with
  | [] => seq
  | None :: l' => seq_after seq l'
  | Some _ :: l' => seq_after (wrap 64 (seq + 1)) l'
  end.
Definition sendable (i : option bytes) : Prop :=
  match i with Some p => Z.of_nat (length p) + 16 <= max_frame | None => True end.
Definition item_text (i : option bytes) : bytes := default [] i.

Definition net_sent (l : list bytes) (n : NetTransport) : NetTransport :=
  mkNet (net_in n) (net_end n) (net_out n ++ l) (net_faults n) (net_shut n).
Definition net_left (l : list (Z * Res bytes)) (n : NetTransport) : NetTransport :=
  mkNet l (net_end n) (net_out n) (net_faults n) (net_shut n).

Section ends.
Context (C : CryptoLib) {L : CryptoLaws C}.

Lemma net_send_ok c dl t n :
  net_faults n = [] -> Z.of_nat (length c) <= max_frame ->
  net_send c dl t n = (Done tt, t, net_sent [c] n).
Proof.
  intros Hf Hl. unfold net_send, max_frame in *. rewrite (proj2 (Z.leb_le _ _)) by done.
  unfold bind, net_step. rewrite Hf. unfold net_sent. cbn. by rewrite Hf.
Qed.

Lemma es_send_item_run i dl t s :
  net_faults (es_inner s) = [] -> sendable i ->
  es_send_item i dl t s =
  (Done tt, t, set_inner (net_sent (sealed_frames (es_key s) (send_seq s) [i]) (es_inner s))
                 (set_send_seq (seq_after (send_seq s) [i]) s)).
Proof.
  intros Hf Hs. destruct i as [p|]; simpl in *.
  - unfold es_send, bind. cbn.
    destruct (seal_total (es_key s) (make_nonce (wrap 64 (send_seq s + 1))) p) as [c Hc];
      [unfold max_frame in Hs; lia|].
    rewrite Hc. unfold zoom. cbn.
    rewrite net_send_ok; [done|done|]. rewrite (seal_length _ _ _ _ Hc). lia.
  - unfold send_heartbeat, zoom. cbn. rewrite net_send_ok; [|done|unfold max_frame; simpl; lia].
    by destruct s.
Qed.

Lemma es_send_all_run l dl t s :
  net_faults (es_inner s) = [] -> Forall sendable l ->
  es_send_all l dl t s =
  (Done tt, t, set_inner (net_sent (sealed_frames (es_key s) (send_seq s) l) (es_inner s))
                 (set_send_seq (seq_after (send_seq s) l) s)).
Proof.
  revert s. induction l as [|i l IH]; intros s Hf Hl.
  - destruct s as [[] ????]. simpl. unfold net_sent, set_inner. simpl. by rewrite app_nil_r.
  - apply Forall_cons_1 in Hl as [Hi Hl]. cbn [es_send_all]. unfold bind.
    rewrite es_send_item_run by done. rewrite IH by done.
    destruct i; cbn; unfold set_inner, net_sent, set_send_seq; cbn; by rewrite <- (assoc_L (++)).
Qed.

(** Receiving one frame sealed by the other end. *)
Lemma es_recv_item_run i rest a t s :
  sendable i ->
  net_in (es_inner s) = map (fun c => (a, Ok c)) (sealed_frames (es_key s) (recv_seq s) [i]) ++ rest ->
  exists t' s', es_recv None t s = (Done (item_text i), t', s') /\
    es_key s' = es_key s /\ send_seq s' = send_seq s /\ last_recv_at s' = t' /\
    es_inner s' = net_left rest (es_inner s) /\ recv_seq s' = seq_after (recv_seq s) [i].
Proof.
  intros Hs Hin.
  assert (exists c, net_in (es_inner s) = (a, Ok c) :: rest /\
            sealed_frames (es_key s) (recv_seq s) [i] = [c]) as (c & Hin' & Hc).
  { destruct i; simpl in Hin |- *; eauto. }
  assert (exists t', t_recv None t (es_inner s) = (Done c, t', net_left rest (es_inner s)))
    as [t' Hr].
  { cbn. unfold net_recv. rewrite Hin'. unfold bind, wait_until.
    destruct (a <=? t); eexists; reflexivity. }
  exists t'. unfold es_recv. rewrite (bind_done _ _ _ _ _ c t' (set_inner (net_left rest (es_inner s)) s))
    by (unfold zoom; by rewrite Hr).
  destruct i as [p|]; simpl in Hc; simplify_eq.
  - simpl in Hs. destruct (seal_total (es_key s) (make_nonce (wrap 64 (recv_seq s + 1))) p)
      as [c Hc]; [unfold max_frame in Hs; lia|].
    pose proof (seal_length _ _ _ _ Hc) as Hlen. rewrite Hc. cbn [default from_option id].
    destruct c as [|c0 c]; [simpl in Hlen; lia|]. unfold bind. cbn [now modify get].
    cbn. rewrite (open_seal _ _ _ _ Hc). eexists. done.
  - eexists. done.
Qed.

Lemma es_recv_n_run l arr rest t s :
  Forall sendable l ->
  net_in (es_inner s) = arr ++ rest ->
  map snd arr = map Ok (sealed_frames (es_key s) (recv_seq s) l) ->
  exists t' s', es_recv_n (length l) None t s = (Done (map item_text l), t', s') /\
    recv_seq s' = seq_after (recv_seq s) l /\ es_key s' = es_key s /\
    send_seq s' = send_seq s /\ es_inner s' = net_left rest (es_inner s).
Proof.
  revert arr t s. induction l as [|i l IH]; intros arr t s Hl Hin Harr.
  - destruct arr; [|done]. exists t, s. simpl. split_and!; try done.
    destruct s as [[] ????]; simpl in *. by subst.
  - apply Forall_cons_1 in Hl as [Hi Hl].
    assert (exists f, sealed_frames (es_key s) (recv_seq s) (i :: l) =
              f :: sealed_frames (es_key s) (seq_after (recv_seq s) [i]) l /\
              sealed_frames (es_key s) (recv_seq s) [i] = [f]) as (f & Hf & Hf1).
    { destruct i; simpl; eauto. }
    rewrite Hf in Harr. destruct arr as [|[a r] arr]; [done|]. simpl in Harr.
    injection Harr as -> Harr.
    destruct (es_recv_item_run i (arr ++ rest) a t s Hi) as (t1 & s1 & R & K & Q & _ & I & N).
    { by rewrite Hf1, Hin. }
    destruct (IH arr t1 s1 Hl) as (t2 & s2 & R2 & N2 & K2 & Q2 & I2).
    { by rewrite I. } { by rewrite K, N. }
    exists t2, s2. cbn [es_recv_n length]. unfold bind. rewrite R, R2.
    split_and!; [done| |congruence|congruence|].
    + rewrite N2, N. by destruct i.
    + rewrite I2, I. done.
Qed.
End ends.

(** ** Items arriving over time

    [delivers C l s]: the frames on their way to [s] are the items [l], each at its arrival time,
    sealed by a peer in step with [s]. *)

Fixpoint sealed_arrivals `{CryptoLib} (key : bytes) (seq : Z) (l : list (Z * option bytes))
    : list (Z * Res bytes) :=
  match l with
  | [] => []
  | (a, i) :: l' =>
    map (fun c => (a, Ok c)) (sealed_frames key seq [i]) ++ sealed_arrivals key (seq_after seq [i]) l'
  end.
Definition delivers (C : CryptoLib) (l : list (Z * option bytes)) (s : EncryptedStream NetTransport)
    : Prop :=
  net_in (es_inner s) = sealed_arrivals (es_key s) (recv_seq s) l /\ Forall (fun x => sendable x.2) l.

(** Receiving the next item: wait for it, then the stream after it. *)
Definition after_recv (C : CryptoLib) (i : option bytes) (l : list (Z * option bytes)) (t : Z)
    (s : EncryptedStream NetTransport) : EncryptedStream NetTransport :=
  let seq' := seq_after (recv_seq s) [i] in
  mkEncryptedStream (net_left (sealed_arrivals (es_key s) seq' l) (es_inner s))
    (es_key s) (send_seq s) seq' t.

Section delivery.
Context (C : CryptoLib) {L : CryptoLaws C}.

Lemma delivers_after i l t s :
  Forall (fun x => sendable x.2) l -> delivers C l (after_recv C i l t s).
Proof. done. Qed.

Lemma es_recv_wait a i l dl t s :
  delivers C ((a, i) :: l) s ->
  es_recv dl t s = bind (wait_until a) (fun _ _ t' s' => (Done (item_text i), t', after_recv C i l t' s')) dl t s.
Proof.
  intros [Hin Hs]. apply Forall_cons_1 in Hs as [Hi Hs]. simpl in Hi.
  assert (exists c, sealed_frames (es_key s) (recv_seq s) [i] = [c] /\
            net_in (es_inner s) = (a, Ok c) :: sealed_arrivals (es_key s) (seq_after (recv_seq s) [i]) l)
    as (c & Hc & Hin').
  { destruct i; simpl in Hin |- *; eauto. }
  unfold es_recv, bind, zoom. cbn [t_recv NetTransport_transport]. unfold net_recv.
  rewrite Hin'. unfold bind.
  assert (forall X (x : X), exists o t', @wait_until X a dl t x = (o, t', x) /\
    @wait_until (EncryptedStream NetTransport) a dl t s = (o, t', s)) as Hw.
  { intros X x. unfold wait_until. repeat case_match; eauto. }
  destruct (Hw _ (es_inner s)) as (o & t' & W1 & W2). rewrite W1, W2.
  destruct o as [[]|e| | |]; cbn; try (by destruct s).
  destruct i as [p|]; simpl in Hc; simplify_eq.
  - simpl in Hi. destruct (seal_total (es_key s) (make_nonce (wrap 64 (recv_seq s + 1))) p)
      as [c Hc]; [unfold max_frame in Hi; lia|].
    pose proof (seal_length _ _ _ _ Hc) as Hlen. rewrite Hc. cbn [default from_option id].
    destruct c as [|c0 c]; [simpl in Hlen; lia|]. cbn.
    rewrite (open_seal _ _ _ _ Hc). done.
  - done.
Qed.

Lemma es_send_run p dl t s :
  net_faults (es_inner s) = [] -> Z.of_nat (length p) + 16 <= max_frame ->
  es_send p dl t s =
  (Done tt, t, set_inner (net_sent (sealed_frames (es_key s) (send_seq s) [Some p]) (es_inner s))
                 (set_send_seq (wrap 64 (send_seq s + 1)) s)).
Proof. intros Hf Hl. apply (es_send_item_run C (Some p) dl t s Hf Hl). Qed.
End delivery.

(** The messages among the items, and the nonces of [k] messages sent after number [n]. *)
Definition messages (l : list (option bytes)) : list bytes := omap id l.
Definition nonces_from (n : Z) (k : nat) : list bytes :=
  map (fun i => make_nonce (n + 1 + Z.of_nat i)) (seq 0 k).
Definition nonempty (b : bytes) : bool := match b with [] => false | _ => true end.

Lemma nonces_from_S n k : nonces_from n (S k) = make_nonce (n + 1) :: nonces_from (n + 1) k.
Proof.
  unfold nonces_from. cbn [seq map]. f_equal; [f_equal; lia|].
  rewrite <- seq_shift, map_map. apply map_ext. intros i. f_equal. lia.
Qed.

Lemma nonces_from_NoDup n k :
  0 <= n -> n + Z.of_nat k < 2 ^ 64 -> NoDup (nonces_from n k).
Proof.
  intros H0 Hk. unfold nonces_from. apply NoDup_ListNoDup, NoDup_map_NoDup_ForallPairs.
  - intros i j Hi Hj E. apply in_seq in Hi, Hj. apply make_nonce_inj in E; lia.
  - apply seq_NoDup.
Qed.

(** The frames that carry messages, and the nonces that seal them. *)
Lemma sealed_frames_nonces (C : CryptoLib) {L : CryptoLaws C} key n l :
  0 <= n -> n + Z.of_nat (length (messages l)) < 2 ^ 64 -> Forall sendable l ->
  zip_with (fun nonce p => secretbox_seal key nonce p) (nonces_from n (length (messages l))) (messages l)
  = map Some (List.filter nonempty (sealed_frames key n l)) /\
  seq_after n l = n + Z.of_nat (length (messages l)).
Proof.
  revert n. induction l as [|i l IH]; intros n H0 Hn Hl; [simpl; split; [done|lia]|].
  apply Forall_cons_1 in Hl as [Hi Hl]. destruct i as [p|].
  - change (messages (Some p :: l)) with (p :: messages l) in *. cbn [length] in *.
    cbn [sealed_frames seq_after]. unfold wrap. rewrite Z.mod_small by lia.
    destruct (seal_total key (make_nonce (n + 1)) p) as [c Hc]; [simpl in Hi; unfold max_frame in Hi; lia|].
    pose proof (seal_length _ _ _ _ Hc) as Hlen.
    destruct (IH (n + 1)) as [IH1 IH2]; [lia|lia|done|].
    rewrite nonces_from_S. cbn [zip_with]. rewrite Hc, IH1, IH2.
    destruct c as [|c0 c]; [simpl in Hlen; lia|]. split; [done|lia].
  - apply IH; done.
Qed.

(** ** The properties of the encrypted stream *)

(** C16: two ends with the same key stay in step.  Whatever messages and heartbeats one end sends
    (each within the frame limit), the other end, receiving them in order at any times, returns
    exactly those messages, a heartbeat as the empty message; afterwards the receiver's counter
    equals the sender's again, and nothing else of the receiver's queue is consumed. *)
Theorem encrypted_stream_roundtrip (C : CryptoLib) (L : CryptoLaws C) l dl t a
    (b : EncryptedStream NetTransport) arr rest tb :
  net_faults (es_inner a) = [] -> net_out (es_inner a) = [] -> Forall sendable l ->
  es_key b = es_key a -> recv_seq b = send_seq a ->
  let x := es_send_all l dl t a in let a' := x.2 in
  map snd arr = map Ok (net_out (es_inner a')) -> net_in (es_inner b) = arr ++ rest ->
  x.1.1 = Done tt /\
  exists tb' b', es_recv_n (length l) None tb b = (Done (map item_text l), tb', b') /\
    recv_seq b' = send_seq a' /\ net_in (es_inner b') = rest.
Proof.
  intros Hf Ho Hl Hk Hq x a'. subst a' x. rewrite es_send_all_run by done.
  cbn [fst snd es_inner set_inner net_out net_sent]. rewrite Ho. simpl app. intros Harr Hin. split; [done|].
  rewrite <- Hk, <- Hq in Harr.
  destruct (es_recv_n_run C l arr rest tb b Hl Hin Harr) as (t' & b' & R & N & _ & _ & I).
  exists t', b'. split_and!; [done| |by rewrite I]. rewrite N, Hq. done.
Qed.

Lemma encrypted_stream_roundtrip_witness :
  let l := [None; Some [x01; x02]; None; Some []] in
  let a := es_new (mkNet [] Never [] [] false) (repeat x2a 32) 0 in
  let out := [[]; [x01; x02] ++ repeat x00 16; []; repeat x00 16] in
  let arr := imap (fun i c => (Z.of_nat i * 10, Ok c)) out in
  let b := es_new (mkNet (arr ++ [(99, Ok [x07])]) Never [] [] false) (repeat x2a 32) 0 in
  (exists tb' b', @es_recv_n toy_crypto _ _ 4 None 0 b = (Done [[]; [x01; x02]; []; []], tb', b') /\
    recv_seq b' = 2 /\ net_in (es_inner b') = [(99, Ok [x07])]).
Proof.
  intros l a out arr b.
  assert (Forall sendable l) as Hs by (repeat constructor; vm_compute; congruence).
  destruct (encrypted_stream_roundtrip toy_crypto toy_crypto_laws l None 0 a b arr [(99, Ok [x07])] 0
    eq_refl eq_refl Hs eq_refl eq_refl ltac:(vm_compute; reflexivity) eq_refl)
    as (_ & tb' & b' & H1 & H2 & H3).
  exists tb', b'. split; [exact H1|]. split; [rewrite H2; vm_compute; reflexivity|exact H3].
Defined.

(** C17: no nonce is used twice in one direction.  Starting from counter [n], any sequence of sends
    and heartbeats with fewer than 2^64 - n messages seals its messages, in order, under pairwise
    distinct 24-byte nonces, heartbeats leave the counter alone, and the counter ends at [n] plus
    the number of messages. *)
Theorem send_nonces_fresh (C : CryptoLib) (L : CryptoLaws C) l dl t s :
  net_faults (es_inner s) = [] -> net_out (es_inner s) = [] -> Forall sendable l ->
  0 <= send_seq s -> send_seq s + Z.of_nat (length (messages l)) < 2 ^ 64 ->
  let s' := (es_send_all l dl t s).2 in
  send_seq s' = send_seq s + Z.of_nat (length (messages l)) /\
  exists nonces, NoDup nonces /\ Forall (fun n => length n = 24%nat) nonces /\
    zip_with (secretbox_seal (es_key s)) nonces (messages l)
    = map Some (List.filter nonempty (net_out (es_inner s'))) /\
    length nonces = length (messages l).
Proof.
  intros Hf Ho Hl H0 Hn s'. subst s'. rewrite es_send_all_run by done. cbn. rewrite Ho. simpl app.
  destruct (sealed_frames_nonces C (es_key s) (send_seq s) l H0 Hn Hl) as [H1 H2].
  split; [done|]. exists (nonces_from (send_seq s) (length (messages l))). split_and!.
  - by apply nonces_from_NoDup.
  - unfold nonces_from. apply Forall_map, Forall_true. intros i. unfold make_nonce.
    by rewrite length_app, length_to_le_bytes, repeat_length.
  - done.
  - unfold nonces_from. by rewrite length_map, length_seq.
Qed.

Lemma send_nonces_fresh_witness :
  let l := [Some [x01]; None; Some [x02]] in
  let s := es_new (mkNet [] Never [] [] false) (repeat x2a 32) 0 in
  send_seq (@es_send_all toy_crypto _ _ l None 0 s).2 = 2.
Proof.
  intros l s.
  assert (Forall sendable l) as Hs by (repeat constructor; vm_compute; congruence).
  destruct (send_nonces_fresh toy_crypto toy_crypto_laws l None 0 s eq_refl eq_refl Hs
    ltac:(vm_compute; congruence) ltac:(vm_compute; reflexivity)) as [H _].
  rewrite H. vm_compute. reflexivity.
Defined.

(** Both ends of a key exchange hold the same session key.  The exchange with a peer's
    Curve25519 key succeeds for a 32-byte key, and the peer, from the two values it is sent and its
    own secret key alone, opens the sealed value to the session key the client keeps; the exchange
    with an Ed25519 key does the same for the converted key, and fails only when the key is not a
    point. *)
Theorem key_exchange_agrees (C : CryptoLib) (L : CryptoLaws C) eph key peer_sk ed_pk :
  length key = 32%nat ->
  (exists r, key_exchange_curve25519 eph key (box_public peer_sk) = Ok r /\
     session_key r = key /\ box_open (ephemeral_pk r) peer_sk zero_nonce (sealed_key r) = Some key) /\
  match ed25519_to_montgomery ed_pk with
  | None => is_ok (key_exchange eph key ed_pk) = false
  | Some pk => pk = box_public peer_sk ->
    exists r, key_exchange eph key ed_pk = Ok r /\ session_key r = key /\
      box_open (ephemeral_pk r) peer_sk zero_nonce (sealed_key r) = Some key
  end.
Proof.
  intros Hlen.
  assert (exists r, key_exchange_with_box_pk eph key (box_public peer_sk) = Ok r /\
     session_key r = key /\ box_open (ephemeral_pk r) peer_sk zero_nonce (sealed_key r) = Some key) as H.
  { unfold key_exchange_with_box_pk.
    destruct (box_seal_total (box_public peer_sk) eph zero_nonce key) as [c Hc]; [lia|].
    rewrite Hc. eexists. split_and!; [done|done|]. by apply box_open_seal. }
  split; [exact H|]. unfold key_exchange.
  destruct (ed25519_to_montgomery ed_pk); [by intros ->|done].
Qed.

Lemma key_exchange_agrees_witness :
  length (repeat x09 32) = 32%nat /\
  exists r, @key_exchange_curve25519 toy_crypto [x01] (repeat x09 32) [x02] = Ok r /\
    session_key r = repeat x09 32.
Proof.
  split; [reflexivity|].
  destruct (key_exchange_agrees toy_crypto toy_crypto_laws [x01] (repeat x09 32) [x02] [x03] eq_refl)
    as [(r & H1 & H2 & _) _]. exists r. split; [exact H1|exact H2].
Defined.
