(* ===== verification/Base64.v ===== *)
(** * The two hand-written base64 codecs (src/capture.rs, src/connection.rs)

    [Capture] is the encoder and decoder that carry screenshots through the daemon's JSON
    responses; [ServerKey] is the lenient decoder for server keys. *)

From Stdlib Require Import ZArith Lia.
From Stdlib Require Import Strings.Byte Strings.Ascii Strings.String.
From stdpp Require Import base list option numbers.
From S2P Require Import Prelude RustStr.

Local Open Scope Z_scope.

(** The nested function [val], the same text in both files. *)
Definition b64_val (c : byte) : Res Z :=
  let z := Z_of_byte c in
  if (65 <=? z) && (z <=? 90) then Ok (z - 65)
  else if (97 <=? z) && (z <=? 122) then Ok (z - 97 + 26)
  else if (48 <=? z) && (z <=? 57) then Ok (z - 48 + 52)
  else if z =? 43 then Ok 62
  else if z =? 47 then Ok 63
  else Err (anyhow ("invalid base64 character: "
    ++ (if (z <? 128)%Z then from_bytes [c]
        else from_bytes [byte_of_Z (0xC0 + z / 64)%Z; byte_of_Z (0x80 + z mod 64)%Z]))%string).

Definition ALPHABET : bytes :=
  as_bytes "ABCDEFGHIJKLMNOPQRSTUVWXYZabcdefghijklmnopqrstuvwxyz0123456789+/".
Definition alphabet_at (i : Z) : byte := default x00 (ALPHABET !! Z.to_nat i).
Definition pad_byte : byte := x3d.

(** The body of the encoder's loop, for one chunk of one to three bytes. *)
Definition encode_chunk (chunk : bytes) : bytes :=
  let b0 := byte_at 0 chunk in
  let b1 := byte_at 1 chunk in
  let b2 := byte_at 2 chunk in
  [alphabet_at (Z.shiftr b0 2);
   alphabet_at (Z.lor (Z.shiftl (Z.land b0 0x03) 4) (Z.shiftr b1 4));
   (if 1 <? Z.of_nat (length chunk)
    then alphabet_at (Z.lor (Z.shiftl (Z.land b1 0x0f) 2) (Z.shiftr b2 6)) else pad_byte);
   (if 2 <? Z.of_nat (length chunk) then alphabet_at (Z.land b2 0x3f) else pad_byte)].

(** [capture::base64_encode] *)
Definition base64_encode (input : bytes) : string :=
  from_bytes (concat (map encode_chunk (chunks 3 input))).

Module Capture.

(** The body of the decoder's loop; a chunk has four bytes because the length was checked. *)
Definition decode_chunk (chunk : bytes) : Res bytes :=
  match chunk with
  | [k0; k1; k2; k3] =>
    let pad := length (take_while (fun b => bool_decide (b = pad_byte)) (rev chunk)) in
    c0 ← b64_val k0;
    c1 ← b64_val k1;
    c2 ← (if bool_decide (k2 = pad_byte) then Ok 0 else b64_val k2);
    c3 ← (if bool_decide (k3 = pad_byte) then Ok 0 else b64_val k3);
    let n := Z.lor (Z.lor (Z.lor (Z.shiftl c0 18) (Z.shiftl c1 12)) (Z.shiftl c2 6)) c3 in
    Ok ([byte_of_Z (Z.land (Z.shiftr n 16) 0xff)]
        ++ (if (pad <? 2)%nat then [byte_of_Z (Z.land (Z.shiftr n 8) 0xff)] else [])
        ++ (if (pad <? 1)%nat then [byte_of_Z (Z.land n 0xff)] else []))
  | _ => Err (anyhow "index out of bounds")
  end.

Fixpoint decode_chunks (l : list bytes) : Res bytes :=
  match l with
  | [] => Ok []
  | chunk :: l' => o ← decode_chunk chunk; o' ← decode_chunks l'; Ok (o ++ o')
  end.

(** [capture::base64_decode] *)
Definition base64_decode (input : string) : Res bytes :=
  let b := as_bytes input in
  if negb (length b mod 4 =? 0)%nat then Err (anyhow "invalid base64 length")
  else decode_chunks (chunks 4 b).

End Capture.

Module ServerKey.

(** The inner loop: [buf |= (val(b)? as u32) << (18 - 6 * i)]. *)
Fixpoint fill_buf (i : nat) (chunk : bytes) (buf : Z) : Res Z :=
  match chunk with
  | [] => Ok buf
  | b :: chunk' => v ← b64_val b; fill_buf (S i) chunk' (Z.lor buf (Z.shiftl v (18 - 6 * Z.of_nat i)))
  end.

Definition decode_chunk (chunk : bytes) : Res bytes :=
  buf ← fill_buf 0 chunk 0;
  let len := length chunk in
  Ok ([byte_of_Z (Z.shiftr buf 16)]
      ++ (if (2 <? len)%nat then [byte_of_Z (Z.shiftr buf 8)] else [])
      ++ (if (3 <? len)%nat then [byte_of_Z buf] else [])).

Fixpoint decode_chunks (l : list bytes) : Res bytes :=
  match l with
  | [] => Ok []
  | chunk :: l' => o ← decode_chunk chunk; o' ← decode_chunks l'; Ok (o ++ o')
  end.

(** [connection::base64_decode] *)
Definition base64_decode (input : string) : Res bytes :=
  let input := trim_end_matches ["="%char] input in
  decode_chunks (chunks 4 (as_bytes input)).

(** [connection::decode_server_key] *)
Definition decode_server_key (base64_key : string) : Res bytes :=
  b ← map_err (add_context "invalid base64 server key") (base64_decode base64_key);
  if (length b =? 32)%nat then Ok b
  else Err (anyhow ("server key is " ++ show_nat (length b) ++ " bytes, expected 32")%string).

End ServerKey.

(** ** One chunk *)

Lemma b64_val_alphabet i : 0 <= i < 64 -> b64_val (alphabet_at i) = Ok i.
Proof.
  intros Hi.
  assert (forallb (fun k => match b64_val (alphabet_at (Z.of_nat k)) with
                            | Ok v => v =? Z.of_nat k | Err _ => false end) (seq 0 64) = true) as H
    by (vm_compute; reflexivity).
  rewrite forallb_forall in H. specialize (H (Z.to_nat i)).
  rewrite Z2Nat.id in H by lia. rewrite in_seq in H. specialize (H ltac:(lia)).
  destruct (b64_val (alphabet_at i)); rd_bool; [by subst|done].
Qed.

Lemma alphabet_not_pad i : 0 <= i < 64 -> alphabet_at i <> pad_byte.
Proof. intros Hi E. pose proof (b64_val_alphabet i Hi) as H. rewrite E in H. by vm_compute in H. Qed.

(** The four six-bit values of three bytes, and back. *)
Definition sextets (b0 b1 b2 : Z) : Z * Z * Z * Z :=
  (b0 / 4, 16 * (b0 mod 4) + b1 / 16, 4 * (b1 mod 16) + b2 / 64, b2 mod 64).
Definition is_byte (z : Z) : Prop := 0 <= z < 256.

Lemma land_mod z k m : 0 <= k -> m = 2 ^ k - 1 -> Z.land z m = z mod 2 ^ k.
Proof. intros Hk ->. rewrite <- land_low by done. f_equal. rewrite Z.ones_equiv. lia. Qed.

Lemma lor_add a k t : 0 <= k -> 0 <= t < 2 ^ k -> Z.lor (Z.shiftl a k) t = 2 ^ k * a + t.
Proof. intros. rewrite lor_shiftl_low by done. lia. Qed.

Lemma sextets_encode b0 b1 b2 :
  is_byte b0 -> is_byte b1 -> is_byte b2 ->
  Z.shiftr b0 2 = b0 / 4 /\
  Z.lor (Z.shiftl (Z.land b0 0x03) 4) (Z.shiftr b1 4) = 16 * (b0 mod 4) + b1 / 16 /\
  Z.lor (Z.shiftl (Z.land b1 0x0f) 2) (Z.shiftr b2 6) = 4 * (b1 mod 16) + b2 / 64 /\
  Z.land b2 0x3f = b2 mod 64.
Proof.
  unfold is_byte. intros H0 H1 H2. rewrite !Z.shiftr_div_pow2 by lia.
  rewrite (land_mod b0 2), (land_mod b1 4), (land_mod b2 6) by lia.
  rewrite !lor_add; [done| | | |]; try lia;
    change (2 ^ 6) with 64; change (2 ^ 4) with 16; change (2 ^ 2) with 4;
    Z.div_mod_to_equations; lia.
Qed.

Lemma sextets_range b0 b1 b2 :
  is_byte b0 -> is_byte b1 -> is_byte b2 ->
  let '(c0, c1, c2, c3) := sextets b0 b1 b2 in
  0 <= c0 < 64 /\ 0 <= c1 < 64 /\ 0 <= c2 < 64 /\ 0 <= c3 < 64.
Proof. unfold is_byte, sextets. intros. Z.div_mod_to_equations. lia. Qed.

(** Joining four six-bit values is a base-64 number, whichever way the [|] is grouped. *)
Lemma lor_join c0 c1 c2 c3 :
  0 <= c0 < 64 -> 0 <= c1 < 64 -> 0 <= c2 < 64 -> 0 <= c3 < 64 ->
  Z.lor (Z.lor (Z.lor (Z.shiftl c0 18) (Z.shiftl c1 12)) (Z.shiftl c2 6)) c3
  = 262144 * c0 + 4096 * c1 + 64 * c2 + c3.
Proof.
  intros.
  rewrite (lor_shiftl_low c0 18 (Z.shiftl c1 12)) by (rewrite ?Z.shiftl_mul_pow2; lia).
  replace (c0 * 2 ^ 18 + Z.shiftl c1 12) with (Z.shiftl (64 * c0 + c1) 12)
    by (rewrite !Z.shiftl_mul_pow2; lia).
  rewrite (lor_shiftl_low (64 * c0 + c1) 12 (Z.shiftl c2 6)) by (rewrite ?Z.shiftl_mul_pow2; lia).
  replace ((64 * c0 + c1) * 2 ^ 12 + Z.shiftl c2 6) with (Z.shiftl (64 * (64 * c0 + c1) + c2) 6)
    by (rewrite !Z.shiftl_mul_pow2; lia).
  rewrite lor_shiftl_low by lia. lia.
Qed.

Lemma join_sextets b0 b1 b2 :
  is_byte b0 -> is_byte b1 -> is_byte b2 ->
  let '(c0, c1, c2, c3) := sextets b0 b1 b2 in
  262144 * c0 + 4096 * c1 + 64 * c2 + c3 = 65536 * b0 + 256 * b1 + b2.
Proof. unfold is_byte, sextets. intros. Z.div_mod_to_equations. lia. Qed.

(** The three bytes of a 24-bit number. *)
Lemma byte_of_24 b0 b1 b2 :
  is_byte b0 -> is_byte b1 -> is_byte b2 ->
  let n := 65536 * b0 + 256 * b1 + b2 in
  byte_of_Z (Z.shiftr n 16) = byte_of_Z b0 /\ byte_of_Z (Z.shiftr n 8) = byte_of_Z b1 /\
  byte_of_Z n = byte_of_Z b2.
Proof.
  intros H0 H1 H2 n. unfold is_byte in *. rewrite !Z.shiftr_div_pow2 by lia.
  change (2 ^ 16) with 65536. change (2 ^ 8) with 256.
  split_and!; apply Z_of_byte_inj; rewrite !Z_of_byte_of_Z; unfold n;
    Z.div_mod_to_equations; lia.
Qed.

Lemma byte_of_land z : byte_of_Z (Z.land z 0xff) = byte_of_Z z.
Proof.
  apply Z_of_byte_inj. rewrite !Z_of_byte_of_Z, (land_mod z 8) by lia.
  change (2 ^ 8) with 256. by rewrite Zmod_mod.
Qed.

(** Decoding the encoding of a chunk, three, two or one bytes long. *)
Ltac chunk_ifs :=
  change (1 <? Z.of_nat 1) with false; change (2 <? Z.of_nat 1) with false;
  change (1 <? Z.of_nat 2) with true; change (2 <? Z.of_nat 2) with false;
  change (1 <? Z.of_nat 3) with true; change (2 <? Z.of_nat 3) with true; cbv iota.

Lemma encode_chunk_eq b0 b1 b2 (chunk : bytes) :
  byte_at 0 chunk = b0 -> byte_at 1 chunk = b1 -> byte_at 2 chunk = b2 ->
  is_byte b0 -> is_byte b1 -> is_byte b2 ->
  let '(c0, c1, c2, c3) := sextets b0 b1 b2 in
  encode_chunk chunk =
  [alphabet_at c0; alphabet_at c1;
   (if 1 <? Z.of_nat (length chunk) then alphabet_at c2 else pad_byte);
   (if 2 <? Z.of_nat (length chunk) then alphabet_at c3 else pad_byte)].
Proof.
  intros E0 E1 E2 H0 H1 H2. unfold sextets, encode_chunk. rewrite E0, E1, E2.
  destruct (sextets_encode b0 b1 b2 H0 H1 H2) as (-> & -> & -> & ->). done.
Qed.

Lemma bool_decide_pad i : 0 <= i < 64 -> bool_decide (alphabet_at i = pad_byte) = false.
Proof. intros. by apply bool_decide_eq_false, alphabet_not_pad. Qed.

(** The chunks the encoder makes: [chunk] has one to three bytes [b0], [b1], [b2]. *)
Inductive enc_chunk : bytes -> Z -> Z -> Z -> Prop :=
| enc1 a : enc_chunk [a] (Z_of_byte a) 0 0
| enc2 a b : enc_chunk [a; b] (Z_of_byte a) (Z_of_byte b) 0
| enc3 a b c : enc_chunk [a; b; c] (Z_of_byte a) (Z_of_byte b) (Z_of_byte c).

Lemma enc_chunk_bytes chunk b0 b1 b2 :
  enc_chunk chunk b0 b1 b2 -> is_byte b0 /\ is_byte b1 /\ is_byte b2.
Proof. unfold is_byte. destruct 1; repeat split; try lia; apply Z_of_byte_range. Qed.

(** What a chunk decodes from: its six-bit values, the missing ones being zero. *)
Lemma enc_chunk_sextets chunk b0 b1 b2 c0 c1 c2 c3 :
  enc_chunk chunk b0 b1 b2 -> sextets b0 b1 b2 = (c0, c1, c2, c3) ->
  encode_chunk chunk =
    [alphabet_at c0; alphabet_at c1;
     (if 1 <? Z.of_nat (length chunk) then alphabet_at c2 else pad_byte);
     (if 2 <? Z.of_nat (length chunk) then alphabet_at c3 else pad_byte)] /\
  (0 <= c0 < 64 /\ 0 <= c1 < 64 /\ 0 <= c2 < 64 /\ 0 <= c3 < 64) /\
  262144 * c0 + 4096 * c1 + 64 * c2 + c3 = 65536 * b0 + 256 * b1 + b2 /\
  ((length chunk < 2)%nat -> c2 = 0) /\ ((length chunk < 3)%nat -> c3 = 0).
Proof.
  intros Hc Es. destruct (enc_chunk_bytes _ _ _ _ Hc) as (H0 & H1 & H2).
  pose proof (encode_chunk_eq b0 b1 b2 chunk) as He.
  pose proof (sextets_range b0 b1 b2 H0 H1 H2) as Hr.
  pose proof (join_sextets b0 b1 b2 H0 H1 H2) as Hj.
  rewrite Es in He, Hr, Hj. split_and!; try lia; try (by destruct Hc; apply He).
  - destruct Hc; simpl; try lia; intros _; unfold sextets in Es; by injection Es as <- <- <- <-.
  - destruct Hc; simpl; try lia; intros _; unfold sextets in Es; by injection Es as <- <- <- <-.
Qed.

Lemma capture_decode_encode chunk b0 b1 b2 :
  enc_chunk chunk b0 b1 b2 -> Capture.decode_chunk (encode_chunk chunk) = Ok chunk.
Proof.
  intros Hc. destruct (sextets b0 b1 b2) as [[[c0 c1] c2] c3] eqn:Es.
  destruct (enc_chunk_sextets _ _ _ _ _ _ _ _ Hc Es) as (-> & (R0 & R1 & R2 & R3) & Hj & Z2 & Z3).
  destruct (enc_chunk_bytes _ _ _ _ Hc) as (H0 & H1 & H2).
  destruct (byte_of_24 b0 b1 b2 H0 H1 H2) as (B0 & B1 & B2).
  destruct Hc; cbn [length] in *; unfold Capture.decode_chunk; cbn [rev app take_while];
    chunk_ifs;
    rewrite ?(bool_decide_true (pad_byte = pad_byte)), ?bool_decide_pad by done;
    rewrite ?b64_val_alphabet by done; unfold mbind, result_bind;
    rewrite ?Z2, ?Z3 in * by lia; rewrite lor_join, Hj, !byte_of_land, ?B0, ?B1, ?B2 by lia;
    rewrite ?byte_of_Z_of_byte; done.
Qed.

Lemma key_decode_encode chunk b0 b1 b2 :
  enc_chunk chunk b0 b1 b2 ->
  ServerKey.decode_chunk (take (length chunk + 1) (encode_chunk chunk)) = Ok chunk.
Proof.
  intros Hc. destruct (sextets b0 b1 b2) as [[[c0 c1] c2] c3] eqn:Es.
  destruct (enc_chunk_sextets _ _ _ _ _ _ _ _ Hc Es) as (-> & (R0 & R1 & R2 & R3) & Hj & Z2 & Z3).
  destruct (enc_chunk_bytes _ _ _ _ Hc) as (H0 & H1 & H2).
  destruct (byte_of_24 b0 b1 b2 H0 H1 H2) as (B0 & B1 & B2).
  destruct Hc; cbn [length Nat.add take] in *; unfold ServerKey.decode_chunk; chunk_ifs;
    cbn [ServerKey.fill_buf];
    rewrite ?b64_val_alphabet by done; unfold mbind, result_bind; cbn [length];
    change (18 - 6 * Z.of_nat 0) with 18; change (18 - 6 * Z.of_nat 1) with 12;
    change (18 - 6 * Z.of_nat 2) with 6; change (18 - 6 * Z.of_nat 3) with 0;
    rewrite Z.lor_0_l, ?Z.shiftl_0_r.
  - assert (Z.lor (Z.shiftl c0 18) (Z.shiftl c1 12) = 65536 * Z_of_byte a + 256 * 0 + 0) as ->.
    { rewrite <- Hj, Z2, Z3 by lia. rewrite lor_shiftl_low by (rewrite ?Z.shiftl_mul_pow2; lia).
      rewrite Z.shiftl_mul_pow2; lia. }
    rewrite B0. cbn. by rewrite byte_of_Z_of_byte.
  - assert (Z.lor (Z.lor (Z.shiftl c0 18) (Z.shiftl c1 12)) (Z.shiftl c2 6)
            = 65536 * Z_of_byte a + 256 * Z_of_byte b + 0) as ->.
    { rewrite <- Hj, <- (lor_join c0 c1 c2 c3) by done. by rewrite Z3, Z.lor_0_r by lia. }
    rewrite B0, B1. cbn. by rewrite !byte_of_Z_of_byte.
  - rewrite lor_join, Hj, B0, B1, B2 by done. cbn. by rewrite !byte_of_Z_of_byte.
Qed.

(** ** Whole inputs *)

Lemma encode_chunk_length chunk : length (encode_chunk chunk) = 4%nat.
Proof. done. Qed.

Lemma encode_cons a b c l :
  concat (map encode_chunk (chunks 3 (a :: b :: c :: l))) =
  encode_chunk [a; b; c] ++ concat (map encode_chunk (chunks 3 l)).
Proof.
  change (a :: b :: c :: l) with ([a; b; c] ++ l).
  by rewrite chunks_app by (done || lia).
Qed.

Lemma capture_decode_all l :
  Capture.decode_chunks (chunks 4 (concat (map encode_chunk (chunks 3 l)))) = Ok l.
Proof.
  induction l as [|a|a b|a b c l IH] using list_ind3.
  - done.
  - change (concat _) with (encode_chunk [a] ++ []).
    rewrite chunks_app, chunks_nil by (done || lia). cbn [Capture.decode_chunks].
    by rewrite (capture_decode_encode _ _ _ _ (enc1 a)).
  - change (concat _) with (encode_chunk [a; b] ++ []).
    rewrite chunks_app, chunks_nil by (done || lia). cbn [Capture.decode_chunks].
    by rewrite (capture_decode_encode _ _ _ _ (enc2 a b)).
  - rewrite encode_cons, chunks_app by (done || lia). cbn [Capture.decode_chunks].
    rewrite (capture_decode_encode _ _ _ _ (enc3 a b c)). unfold mbind, result_bind. by rewrite IH.
Qed.

Lemma encode_length_mod l :
  (length (concat (map encode_chunk (chunks 3 l))) mod 4 = 0)%nat.
Proof.
  induction l as [|a|a b|a b c l IH] using list_ind3; [done|done|done|].
  rewrite encode_cons, length_app, encode_chunk_length.
  rewrite <- Nat.Div0.add_mod_idemp_r, IH. done.
Qed.

(** ** The lenient decoder *)

(** The encoding without its padding. *)
Definition unpadded (l : bytes) : bytes :=
  concat (map (fun chunk => take (length chunk + 1) (encode_chunk chunk)) (chunks 3 l)).

Lemma unpadded_cons a b c l :
  unpadded (a :: b :: c :: l) = encode_chunk [a; b; c] ++ unpadded l.
Proof.
  unfold unpadded. change (a :: b :: c :: l) with ([a; b; c] ++ l).
  by rewrite chunks_app by (done || lia).
Qed.

Lemma unpadded_chunk_pad_free chunk b0 b1 b2 :
  enc_chunk chunk b0 b1 b2 ->
  Forall (fun k => k <> pad_byte) (take (length chunk + 1) (encode_chunk chunk)) /\
  encode_chunk chunk = take (length chunk + 1) (encode_chunk chunk) ++ repeat pad_byte (3 - length chunk).
Proof.
  intros Hc. destruct (sextets b0 b1 b2) as [[[c0 c1] c2] c3] eqn:Es.
  destruct (enc_chunk_sextets _ _ _ _ _ _ _ _ Hc Es) as (-> & (R0 & R1 & R2 & R3) & _).
  destruct Hc; cbn [length]; chunk_ifs; cbn [take Nat.add];
    (split; [repeat constructor; by apply alphabet_not_pad|done]).
Qed.

Lemma unpadded_spec l :
  Forall (fun k => k <> pad_byte) (unpadded l) /\
  exists k, concat (map encode_chunk (chunks 3 l)) = unpadded l ++ repeat pad_byte k.
Proof.
  induction l as [|a|a b|a b c l [IH1 [k IH2]]] using list_ind3.
  - split; [constructor|by exists 0%nat].
  - destruct (unpadded_chunk_pad_free _ _ _ _ (enc1 a)) as [H1 H2]. unfold unpadded.
    rewrite chunks_small by (done || simpl; lia). cbn [map concat]. rewrite !app_nil_r.
    split; [done|]. by exists 2%nat.
  - destruct (unpadded_chunk_pad_free _ _ _ _ (enc2 a b)) as [H1 H2]. unfold unpadded.
    rewrite chunks_small by (done || simpl; lia). cbn [map concat]. rewrite !app_nil_r.
    split; [done|]. by exists 1%nat.
  - destruct (unpadded_chunk_pad_free _ _ _ _ (enc3 a b c)) as [H1 _].
    rewrite unpadded_cons, encode_cons. split; [by apply Forall_app|].
    exists k. by rewrite IH2, (assoc_L (++)).
Qed.

Lemma drop_while_stop {A} (p : A -> bool) l r :
  forallb p l = true -> (match r with [] => True | x :: _ => p x = false end) ->
  drop_while p (l ++ r) = r.
Proof.
  induction l as [|x l IH]; simpl; intros Hl Hr.
  - destruct r as [|x r]; [done|]. simpl. by rewrite Hr.
  - apply andb_true_iff in Hl as [-> Hl]. by apply IH.
Qed.

Lemma trim_padding l k :
  Forall (fun b => b <> pad_byte) l ->
  trim_end_matches ["="%char] (from_bytes (l ++ repeat pad_byte k)) = from_bytes l.
Proof.
  intros Hl. unfold trim_end_matches, string_of_list_byte.
  rewrite list_ascii_of_string_of_list_ascii, map_app, rev_app_distr.
  f_equal. rewrite drop_while_stop; [by rewrite rev_involutive| |].
  - apply forallb_forall. intros x Hx. apply in_rev, in_map_iff in Hx as (b & <- & Hb).
    apply repeat_spec in Hb as ->. done.
  - destruct l as [|b l' _] using rev_ind; [done|]. rewrite map_app, rev_app_distr. simpl.
    apply Forall_app in Hl as [_ Hl]. apply Forall_inv in Hl.
    rewrite orb_false_r. apply Ascii.eqb_neq. intros E. apply Hl.
    rewrite <- (byte_of_ascii_of_byte b), E. done.
Qed.

Lemma key_decode_all l : ServerKey.decode_chunks (chunks 4 (unpadded l)) = Ok l.
Proof.
  assert (forall chunk b0 b1 b2, enc_chunk chunk b0 b1 b2 ->
    chunks 4 (unpadded chunk) = [take (length chunk + 1) (encode_chunk chunk)]) as Hone.
  { intros chunk b0 b1 b2 Hc. unfold unpadded.
    rewrite (chunks_small 3) by (destruct Hc; simpl; (done || lia)). cbn [map concat].
    rewrite app_nil_r. apply chunks_small.
    - by destruct Hc.
    - rewrite length_take, encode_chunk_length. lia. }
  induction l as [|a|a b|a b c l IH] using list_ind3.
  - done.
  - rewrite (Hone _ _ _ _ (enc1 a)). cbn [ServerKey.decode_chunks].
    by rewrite (key_decode_encode _ _ _ _ (enc1 a)).
  - rewrite (Hone _ _ _ _ (enc2 a b)). cbn [ServerKey.decode_chunks].
    by rewrite (key_decode_encode _ _ _ _ (enc2 a b)).
  - rewrite unpadded_cons, chunks_app by (done || lia). cbn [ServerKey.decode_chunks].
    pose proof (key_decode_encode _ _ _ _ (enc3 a b c)) as E. cbn [length Nat.add] in E.
    rewrite take_ge in E by (rewrite encode_chunk_length; lia). rewrite E.
    unfold mbind, result_bind. by rewrite IH.
Qed.

Lemma capture_decode_base64 input : Capture.base64_decode (base64_encode input) = Ok input.
Proof.
  unfold Capture.base64_decode, base64_encode. rewrite as_from_bytes, encode_length_mod. simpl negb.
  apply capture_decode_all.
Qed.

(** ** The properties of the codecs *)

(** A screenshot survives its base64 handoff.  For every byte sequence, decoding what
    [base64_encode] produced with the decoder of the same file gives the bytes back; the encoding
    has four characters for every three bytes begun. *)
Theorem base64_roundtrip (input : bytes) :
  Capture.base64_decode (base64_encode input) = Ok input /\
  String.length (base64_encode input) = (4 * length (chunks 3 input))%nat.
Proof.
  split; [apply capture_decode_base64|]. unfold base64_encode.
  rewrite <- length_as_bytes, as_from_bytes. generalize (chunks 3 input). intros l.
  induction l as [|c l IH]; [done|]. cbn [map concat]. rewrite length_app, IH, encode_chunk_length.
  simpl length. lia.
Qed.

(** The two decoders agree on well-formed keys.  The decoder for server keys also inverts
    [base64_encode], with the padding or without it, so a 32-byte key in standard base64 is
    accepted and decoded to itself by [decode_server_key]; any other length is refused. *)
Theorem server_key_roundtrip (key : bytes) :
  ServerKey.base64_decode (base64_encode key) = Ok key /\
  ServerKey.base64_decode (trim_end_matches ["="%char] (base64_encode key)) = Ok key /\
  (length key = 32%nat -> ServerKey.decode_server_key (base64_encode key) = Ok key) /\
  (length key <> 32%nat -> is_ok (ServerKey.decode_server_key (base64_encode key)) = false).
Proof.
  destruct (unpadded_spec key) as [Hp [k Hk]].
  assert (trim_end_matches ["="%char] (base64_encode key) = from_bytes (unpadded key)) as Ht.
  { unfold base64_encode. by rewrite Hk, trim_padding. }
  assert (ServerKey.base64_decode (base64_encode key) = Ok key) as Hd.
  { unfold ServerKey.base64_decode. by rewrite Ht, as_from_bytes, key_decode_all. }
  split_and!.
  - done.
  - rewrite Ht. unfold ServerKey.base64_decode. pose proof (trim_padding (unpadded key) 0 Hp) as E.
    simpl in E. rewrite app_nil_r in E. by rewrite E, as_from_bytes, key_decode_all.
  - intros Hl. unfold ServerKey.decode_server_key. rewrite Hd. simpl. by rewrite Hl.
  - intros Hl. unfold ServerKey.decode_server_key. rewrite Hd. simpl.
    destruct (Nat.eqb_spec (length key) 32); done.
Qed.

Lemma server_key_roundtrip_witness :
  ServerKey.decode_server_key (base64_encode (repeat x07 32)) = Ok (repeat x07 32) /\
  is_ok (ServerKey.decode_server_key (base64_encode (repeat x07 31))) = false.
Proof.
  split.
  - apply (server_key_roundtrip (repeat x07 32)). reflexivity.
  - apply (server_key_roundtrip (repeat x07 31)). vm_compute. congruence.
Defined.
