(* ===== verification/Permissions.v ===== *)
(** * Permission checks (src/permissions.rs)

    The sandbox rules and the interactive confirmation.  The terminal, the file system, the
    environment and the TOML parser are arguments. *)

From Stdlib Require Import ZArith Lia.
From Stdlib Require Import Strings.Byte Strings.Ascii Strings.String.
From stdpp Require Import base list option numbers.
From S2P Require Import Prelude RustStr.

Local Open Scope string_scope.

Definition SANDBOX_CONFIG_FILE : string := "rustdesk-cli.toml".

Record SandboxRules : Type := mkSandboxRules {
  allowed_peers : list string;
  allowed_commands : list string;
  blocked_paths : list string
}.

Record PermissionManager : Type := mkPermissionManager {
  skip_prompts : bool;
  sandbox_rules : option SandboxRules
}.

(** What the confirmation prompt meets: whether stdin is a terminal, the result of flushing
    stderr, and of reading a line. *)
Record Prompt : Type := mkPrompt {
  stdin_is_terminal : bool;
  stderr_flush : Res unit;
  stdin_line : Res string
}.

(** What loading the rules meets. *)
Record SandboxEnv : Type := mkSandboxEnv {
  current_dir : option string;
  home_dir : option string;
  file_exists : string -> bool;
  read_to_string : string -> Res string;
  toml_sandbox : string -> Res SandboxRules   (* toml::from_str::<SandboxConfigFile>, its sandbox *)
}.

(** [Path::join] with a relative path. *)
Definition path_join (a b : string) : string :=
  if is_empty a then b else if ends_with_char "/" a then a ++ b else a ++ "/" ++ b.

Definition sandbox_config_candidates (env : SandboxEnv) : list string :=
  (match current_dir env with
   | Some cwd => [path_join cwd SANDBOX_CONFIG_FILE]
   | None => []
   end ++
   match home_dir env with
   | Some home => [path_join (path_join home ".config/rustdesk-cli") SANDBOX_CONFIG_FILE;
                   path_join home ("." ++ SANDBOX_CONFIG_FILE)]
   | None => []
   end)%list.

(** The loop of [load_sandbox_rules], with the paths searched so far. *)
Fixpoint load_from (env : SandboxEnv) (paths searched : list string) : Res SandboxRules :=
  match paths with
  | [] => Err (anyhow ("sandbox enabled but no `" ++ SANDBOX_CONFIG_FILE
                         ++ "` was found. Searched: " ++ join ", " searched))
  | path :: rest =>
    let searched := (searched ++ [path])%list in
    if negb (file_exists env path) then load_from env rest searched
    else raw ← read_to_string env path; toml_sandbox env raw
  end.

Definition load_sandbox_rules (env : SandboxEnv) : Res SandboxRules :=
  load_from env (sandbox_config_candidates env) [].

Definition from_flags (env : SandboxEnv) (skip sandbox_enabled : bool) : Res PermissionManager :=
  if sandbox_enabled
  then rules ← load_sandbox_rules env; Ok (mkPermissionManager skip (Some rules))
  else Ok (mkPermissionManager skip None).

Definition confirm (pm : PermissionManager) (io : Prompt) (prompt : string) : Res unit :=
  if skip_prompts pm then Ok tt
  else if negb (stdin_is_terminal io) then
    Err (anyhow (prompt ++ " Permission prompt requires an interactive terminal; rerun with --dangerously-skip-permissions for automation"))
  else
    stderr_flush io ≫= fun _ =>
    stdin_line io ≫= fun line =>
    let answer := to_ascii_lowercase (trim line) in
    if String.eqb answer "y" || String.eqb answer "yes" then Ok tt
    else Err (anyhow "operation denied by user").

Definition ensure_connect_allowed (pm : PermissionManager) (io : Prompt) (peer_id : string) : Res unit :=
  match sandbox_rules pm with
  | Some rules =>
    match allowed_peers rules with
    | [] => Err (anyhow "sandbox denied connect: no peers are allowed by config")
    | _ => if negb (existsb (fun allowed => String.eqb allowed peer_id) (allowed_peers rules))
           then Err (anyhow ("sandbox denied connect to peer `" ++ peer_id ++ "`"))
           else Ok tt
    end
  | None => Ok tt
  end ≫= fun _ =>
  confirm pm io ("Allow connecting to remote peer `" ++ peer_id ++ "`?").

(** [blocked_paths.iter().find(|b| !b.is_empty() && text.contains(b))] *)
Definition find_blocked (rules : SandboxRules) (text : string) : option string :=
  List.find (fun blocked => negb (is_empty blocked) && contains blocked text) (blocked_paths rules).

Definition ensure_exec_allowed (pm : PermissionManager) (io : Prompt) (command : string) : Res unit :=
  match sandbox_rules pm with
  | Some rules =>
    match allowed_commands rules with
    | [] => Err (anyhow "sandbox denied exec: no commands are allowed by config")
    | _ =>
      let trimmed := trim command in
      if negb (existsb (fun allowed => starts_with allowed trimmed) (allowed_commands rules))
      then Err (anyhow ("sandbox denied exec command `" ++ trimmed ++ "`"))
      else match find_blocked rules trimmed with
           | Some blocked_path =>
             Err (anyhow ("sandbox denied exec touching blocked path `" ++ blocked_path ++ "`"))
           | None => Ok tt
           end
    end
  | None => Ok tt
  end ≫= fun _ =>
  confirm pm io ("Allow remote exec command `" ++ command ++ "`?").

Definition ensure_shell_allowed (pm : PermissionManager) (io : Prompt) : Res unit :=
  match sandbox_rules pm with
  | Some _ => Err (anyhow "sandbox denied interactive shell access")
  | None => confirm pm io "Allow opening an interactive remote shell?"
  end.

Definition ensure_path_allowed (pm : PermissionManager) (path : string) : Res unit :=
  match sandbox_rules pm with
  | Some rules =>
    match find_blocked rules path with
    | Some blocked_path =>
      Err (anyhow ("sandbox denied path `" ++ path ++ "` because it matches blocked path `"
                     ++ blocked_path ++ "`"))
    | None => Ok tt
    end
  | None => Ok tt
  end.

Definition ensure_push_allowed (pm : PermissionManager) (io : Prompt)
    (local_path remote_path : string) : Res unit :=
  ensure_path_allowed pm local_path ≫= fun _ =>
  ensure_path_allowed pm remote_path ≫= fun _ =>
  confirm pm io ("Allow pushing local file `" ++ local_path ++ "` to remote path `"
                   ++ remote_path ++ "`?").

(** ** What the checks decide *)

(** The user (or the flag) agrees. *)
Definition agrees (pm : PermissionManager) (io : Prompt) : Prop :=
  skip_prompts pm = true \/
  stdin_is_terminal io = true /\ stderr_flush io = Ok tt /\
  exists line, stdin_line io = Ok line /\
    (to_ascii_lowercase (trim line) = "y" \/ to_ascii_lowercase (trim line) = "yes").

(** The text mentions a non-empty blocked path. *)
Definition mentions_blocked (rules : SandboxRules) (text : string) : Prop :=
  exists b x y, b ∈ blocked_paths rules /\ b <> "" /\ text = x ++ b ++ y.

Lemma confirm_ok pm io prompt : confirm pm io prompt = Ok tt <-> agrees pm io.
Proof.
  unfold confirm, agrees. destruct (skip_prompts pm); [split; auto|].
  destruct (stdin_is_terminal io); simpl;
    [|split; [done|by intros [|[]]]].
  destruct (stderr_flush io) as [[]|e]; simpl;
    [|split; [done|by intros [|(_ & ? & _)]]].
  destruct (stdin_line io) as [line|e]; simpl;
    [|split; [done|by intros [|(_ & _ & ? & ? & _)]]].
  set (ans := to_ascii_lowercase (trim line)).
  destruct (String.eqb_spec ans "y") as [Ey|Ey]; [split; [intros _|done]; right;
    split_and!; [done..|exists line; auto]|].
  destruct (String.eqb_spec ans "yes") as [Es|Es]; [split; [intros _|done]; right;
    split_and!; [done..|exists line; auto]|].
  split; [done|]. intros [?|(_ & _ & l & [= <-] & [?|?])]; done.
Qed.

Lemma find_blocked_None rules text :
  find_blocked rules text = None <-> ~ mentions_blocked rules text.
Proof.
  unfold find_blocked, mentions_blocked. split.
  - intros Hf (b & x & y & Hb & Hne & ->).
    pose proof (find_none _ _ Hf b ltac:(by apply list_elem_of_In)) as H.
    assert (contains b (x ++ b ++ y) = true) as Hc by (apply contains_spec; eauto).
    cbv beta in H. rewrite Hc in H. by destruct b.
  - intros Hn. destruct (List.find _ _) as [b|] eqn:E; [|done].
    apply find_some in E as [Hin Hb]. apply andb_true_iff in Hb as [Hne Hc].
    apply contains_spec in Hc as (x & y & ->). destruct Hn. exists b, x, y.
    split_and!; [by apply list_elem_of_In|by destruct b|done].
Qed.

Lemma existsb_elem {A} (p : A -> bool) l : existsb p l = true <-> exists x, x ∈ l /\ p x = true.
Proof. rewrite existsb_exists. by setoid_rewrite list_elem_of_In. Qed.

(** A check that is a chain of tests in front of a confirmation. *)
Lemma bind_unit_ok (r k : Res unit) : (r ≫= fun _ => k) = Ok tt <-> r = Ok tt /\ k = Ok tt.
Proof. destruct r as [[]|e]; simpl; naive_solver. Qed.

Lemma ensure_path_ok pm path :
  ensure_path_allowed pm path = Ok tt <->
  match sandbox_rules pm with Some rules => ~ mentions_blocked rules path | None => True end.
Proof.
  unfold ensure_path_allowed. destruct (sandbox_rules pm) as [rules|]; [|done].
  rewrite <- find_blocked_None. by destruct (find_blocked rules path).
Qed.

(** ** The properties of the permission layer *)

(** C23: exactly which remote commands are allowed.  [ensure_exec_allowed] succeeds if and only if
    the user agrees (by flag, or at a terminal with y or yes) and, when a sandbox is configured,
    the trimmed command starts with one of the allowed prefixes and mentions no non-empty blocked
    path. *)
Theorem exec_allowed_iff pm io command :
  ensure_exec_allowed pm io command = Ok tt <->
  agrees pm io /\
  match sandbox_rules pm with
  | None => True
  | Some rules =>
    (exists p r, p ∈ allowed_commands rules /\ trim command = p ++ r) /\
    ~ mentions_blocked rules (trim command)
  end.
Proof.
  unfold ensure_exec_allowed. rewrite bind_unit_ok, confirm_ok.
  destruct (sandbox_rules pm) as [rules|]; [|naive_solver].
  rewrite <- find_blocked_None.
  assert (existsb (fun a => starts_with a (trim command)) (allowed_commands rules) = true <->
          exists p r, p ∈ allowed_commands rules /\ trim command = p ++ r) as He.
  { rewrite existsb_elem. setoid_rewrite starts_with_spec. naive_solver. }
  destruct (allowed_commands rules) as [|c cs] eqn:Ec.
  - split; [by intros []|]. intros (_ & (p & r & Hp & _) & _). by apply not_elem_of_nil in Hp.
  - destruct (existsb _ _) eqn:E; simpl.
    + destruct (find_blocked rules (trim command)); naive_solver.
    + split; [by intros []|]. intros (_ & H & _). apply He in H. done.
Qed.

Lemma exec_allowed_iff_check :
  let rules := mkSandboxRules [] ["ls"; "cat "] ["/etc"; ""] in
  let pm := mkPermissionManager true (Some rules) in
  let io := mkPrompt false (Ok tt) (Ok "") in
  map (fun c => is_ok (ensure_exec_allowed pm io c)) [" ls -l"; "cat /etc/passwd"; "rm x"; "ls; rm x"]
  = [true; false; false; true].
Proof. vm_compute. reflexivity. Qed.

(** C24: which connections, shells and pushes are allowed.  Under a sandbox a connection needs the
    peer to be listed, a shell is never allowed, and a push needs both paths free of blocked ones;
    without a sandbox, and in addition under one, the user must agree. *)
Theorem operations_allowed_iff pm io peer local remote :
  (ensure_connect_allowed pm io peer = Ok tt <->
   agrees pm io /\ match sandbox_rules pm with Some r => peer ∈ allowed_peers r | None => True end) /\
  (ensure_shell_allowed pm io = Ok tt <-> agrees pm io /\ sandbox_rules pm = None) /\
  (ensure_push_allowed pm io local remote = Ok tt <->
   agrees pm io /\
   match sandbox_rules pm with
   | Some r => ~ mentions_blocked r local /\ ~ mentions_blocked r remote
   | None => True
   end).
Proof.
  split_and!.
  - unfold ensure_connect_allowed. rewrite bind_unit_ok, confirm_ok.
    destruct (sandbox_rules pm) as [rules|]; [|naive_solver].
    assert (existsb (fun a => String.eqb a peer) (allowed_peers rules) = true <->
            peer ∈ allowed_peers rules) as He.
    { rewrite existsb_elem. setoid_rewrite String.eqb_eq. naive_solver. }
    destruct (allowed_peers rules) as [|p ps] eqn:Ep.
    + split; [by intros []|]. intros [_ H]. by apply not_elem_of_nil in H.
    + destruct (existsb _ _); simpl; [naive_solver|].
      split; [by intros []|]. intros [_ H]. by apply He in H.
  - unfold ensure_shell_allowed. destruct (sandbox_rules pm); [naive_solver|].
    rewrite confirm_ok. naive_solver.
  - unfold ensure_push_allowed. rewrite !bind_unit_ok, confirm_ok, !ensure_path_ok.
    destruct (sandbox_rules pm); naive_solver.
Qed.

(** The first configuration file that exists decides.  With the sandbox enabled, the manager
    carries exactly the rules of the first candidate that exists (a file that cannot be read or
    parsed is an error, later candidates are not tried), and when none exists the flags are
    refused: an enabled sandbox never silently becomes no sandbox. *)
Theorem sandbox_first_file_decides env skip before path after :
  sandbox_config_candidates env = (before ++ path :: after)%list ->
  Forall (fun p => file_exists env p = false) before ->
  (file_exists env path = true ->
   from_flags env skip true =
   (raw ← read_to_string env path; rules ← toml_sandbox env raw;
    Ok (mkPermissionManager skip (Some rules)))) /\
  (Forall (fun p => file_exists env p = false) (path :: after) ->
   is_ok (from_flags env skip true) = false).
Proof.
  intros Hc Hb. unfold from_flags, load_sandbox_rules. rewrite Hc.
  assert (forall rest searched, exists searched', load_from env (before ++ rest) searched =
            load_from env rest searched') as Hskip.
  { clear Hc. induction Hb as [|p before Hp _ IH]; intros rest searched; simpl; [eauto|].
    rewrite Hp. apply IH. }
  split.
  - intros Hp. destruct (Hskip (path :: after) []) as [s' ->]. simpl. rewrite Hp. simpl.
    by destruct (read_to_string env path).
  - intros Ha. destruct (Hskip (path :: after) []) as [s' ->]. clear Hc. revert s'.
    induction Ha as [|p rest Hp _ IH]; intros s'; [done|]. simpl. rewrite Hp. simpl. apply IH.
Qed.

Lemma sandbox_first_file_decides_witness :
  let env := mkSandboxEnv (Some "/w") (Some "/h")
               (fun p => String.eqb p "/h/.rustdesk-cli.toml") (fun _ => Ok "x")
               (fun _ => Ok (mkSandboxRules ["1"] [] [])) in
  from_flags env true true = Ok (mkPermissionManager true (Some (mkSandboxRules ["1"] [] []))).
Proof.
  intros env.
  destruct (sandbox_first_file_decides env true
    ["/w/rustdesk-cli.toml"; "/h/.config/rustdesk-cli/rustdesk-cli.toml"] "/h/.rustdesk-cli.toml" [])
    as [H _]; [reflexivity|repeat constructor|].
  rewrite H; reflexivity.
Defined.
