(* ===== verification/Json.v ===== *)
(** * JSON values ([serde_json::Value]) as the program builds and reads them

    An object is a sorted association list, as the [BTreeMap] behind [serde_json::Map]. *)

From Stdlib Require Import ZArith Lia.
From Stdlib Require Import Strings.Byte Strings.Ascii Strings.String.
From stdpp Require Import base list option numbers.
From S2P Require Import Prelude RustStr.

Local Open Scope string_scope.

Inductive Value : Type :=
| Null
| Bool (b : bool)
| Number (z : Z)
| Str (s : string)
| Array (l : list Value)
| Object (m : list (string * Value)).

(** [Map::insert]: replaces the value of an existing key. *)
Fixpoint obj_insert (k : string) (v : Value) (m : list (string * Value)) : list (string * Value) :=
  match m with
  | [] => [(k, v)]
  | (k', v') :: m' =>
    match String.compare k k' with
    | Lt => (k, v) :: m
    | Eq => (k, v) :: m'
    | Gt => (k', v') :: obj_insert k v m'
    end
  end.

(** [json!({ .. })] *)
Definition object (fields : list (string * Value)) : Value :=
  Object (foldl (fun m kv => obj_insert kv.1 kv.2 m) [] fields).

Fixpoint obj_get (k : string) (m : list (string * Value)) : option Value :=
  match m with
  | [] => None
  | (k', v) :: m' => if String.eqb k k' then Some v else obj_get k m'
  end.

(** [v.get("k")] *)
Definition json_get (k : string) (v : Value) : option Value :=
  match v with Object m => obj_get k m | _ => None end.

Definition as_str (v : Value) : option string := match v with Str s => Some s | _ => None end.
Definition as_bool (v : Value) : option bool := match v with Bool b => Some b | _ => None end.
Definition as_u64 (v : Value) : option Z :=
  match v with Number z => if ((0 <=? z) && (z <? 2 ^ 64))%Z then Some z else None | _ => None end.
Definition as_i64 (v : Value) : option Z :=
  match v with
  | Number z => if ((- 2 ^ 63 <=? z) && (z <? 2 ^ 63))%Z then Some z else None
  | _ => None
  end.
Definition as_array (v : Value) : option (list Value) :=
  match v with Array l => Some l | _ => None end.

(** An [Option] field. *)
Definition opt_value {A} (f : A -> Value) (o : option A) : Value :=
  match o with Some a => f a | None => Null end.

(** ** Facts *)

Lemma str_compare_refl s : String.compare s s = Eq.
Proof.
  pose proof (String.compare_antisym s s) as H. by destruct (String.compare s s).
Qed.

(** Reading a key after an insertion. *)
Lemma obj_get_insert k k' v m :
  obj_get k (obj_insert k' v m) = if String.eqb k k' then Some v else obj_get k m.
Proof.
  induction m as [|[k0 v0] m IH]; simpl; [done|].
  destruct (String.compare k' k0) eqn:E; simpl.
  - apply String.compare_eq_iff in E as ->. by destruct (String.eqb k k0).
  - done.
  - rewrite IH. destruct (String.eqb_spec k k0) as [->|]; [|done].
    destruct (String.eqb_spec k0 k') as [->|]; [|done].
    by rewrite str_compare_refl in E.
Qed.

(** The last field with a key is the one an object keeps. *)
Lemma json_get_object k fields :
  json_get k (object fields) =
  foldl (fun acc kv => if String.eqb k kv.1 then Some kv.2 else acc) None fields.
Proof.
  unfold object. cbn [json_get].
  assert (forall m acc, obj_get k m = acc ->
    obj_get k (foldl (fun m kv => obj_insert kv.1 kv.2 m) m fields) =
    foldl (fun acc kv => if String.eqb k kv.1 then Some kv.2 else acc) acc fields) as H.
  { induction fields as [|[k0 v0] fields IH]; intros m acc Hm; simpl; [done|].
    apply IH. by rewrite obj_get_insert, Hm. }
  by apply H.
Qed.
