(* ===== verification/Session.v ===== *)
(** * Session state and command dispatch (src/protocol.rs, src/session.rs)

    [dispatch] is the whole handler: the new session, and the response with the protocol messages
    or an error.  Arithmetic is that of a release build (no overflow checks). *)

From Stdlib Require Import ZArith Lia.
From Stdlib Require Import Strings.Byte Strings.Ascii Strings.String.
From stdpp Require Import base list option numbers.
From S2P Require Import Prelude RustStr Json.

Local Open Scope string_scope.

(** ** Protocol types (src/protocol.rs) *)

Record ConnectionConfig : Type := mkConnectionConfig {
  cc_peer_id : string;
  cc_password : option string;
  cc_server : option string
}.

Inductive VideoCodecFormat : Type := VP9 | VP8 | AV1 | H264 | H265.

Record DisplayInfo : Type := mkDisplayInfo {
  di_x : Z;
  di_y : Z;
  di_width : Z;
  di_height : Z;
  di_name : string;
  di_online : bool;
  di_cursor_embedded : bool
}.

Record KeyModifiers : Type := mkKeyModifiers {
  km_shift : bool;
  km_ctrl : bool;
  km_alt : bool;
  km_meta : bool
}.
Definition KeyModifiers_default : KeyModifiers := mkKeyModifiers false false false false.

Record KeyEvent : Type := mkKeyEvent {
  ke_key_code : option Z;
  ke_characters : option string;
  ke_down : bool;
  ke_modifiers : KeyModifiers
}.

Record MouseEvent : Type := mkMouseEvent {
  me_x : Z;
  me_y : Z;
  me_mask : Z;
  me_is_move : bool
}.

Definition BUTTON_LEFT : Z := 1.
Definition BUTTON_RIGHT : Z := 2.
Definition BUTTON_MIDDLE : Z := 4.
Definition SCROLL_UP : Z := 8.
Definition SCROLL_DOWN : Z := 16.

Definition button_mask (button : string) : Z :=
  if String.eqb button "right" then BUTTON_RIGHT
  else if String.eqb button "middle" then BUTTON_MIDDLE
  else BUTTON_LEFT.

Record PLoginOption : Type := mkPLoginOption { plo_video_codec_format : VideoCodecFormat }.
Record PLoginRequest : Type := mkPLoginRequest {
  plr_username : string;
  plr_password : bytes;
  plr_my_id : string;
  plr_my_name : string;
  plr_option : PLoginOption
}.
Record PPeerInfo : Type := mkPPeerInfo {
  ppi_username : string;
  ppi_hostname : string;
  ppi_displays : list DisplayInfo
}.
Record PLoginResponse : Type := mkPLoginResponse {
  plresp_success : bool;
  plresp_error : option string;
  plresp_peer_info : option PPeerInfo
}.
Record VideoFrame : Type := mkVideoFrame {
  vf_width : Z;
  vf_height : Z;
  vf_data : bytes;
  vf_is_keyframe : bool;
  vf_codec : VideoCodecFormat
}.

Inductive ProtocolMessage : Type :=
| PMLoginRequest (r : PLoginRequest)
| PMLoginResponse (r : PLoginResponse)
| PMKeyEvent (e : KeyEvent)
| PMMouseEvent (e : MouseEvent)
| PMVideoFrame (f : VideoFrame)
| PMDisconnect.

(** What [serde_json::to_vec] and [serde_json::from_slice] make of these messages. *)
Class ProtocolJson : Type := {
  message_to_vec : ProtocolMessage -> Res bytes;
  message_from_slice : bytes -> Res ProtocolMessage
}.
Definition protocol_encode `{ProtocolJson} (m : ProtocolMessage) : Res bytes := message_to_vec m.
Definition protocol_decode `{ProtocolJson} (data : bytes) : Res ProtocolMessage := message_from_slice data.

(** ** Session types (src/session.rs) *)

Inductive ConnectionState : Type := Disconnected | Connecting | Connected.
#[export] Instance ConnectionState_eq_dec : EqDecision ConnectionState.
Proof. solve_decision. Defined.

Record PeerInfoState : Type := mkPeerInfoState {
  pis_peer_id : string;
  pis_username : string;
  pis_hostname : string;
  pis_displays : list DisplayInfo
}.

Record Session : Type := mkSession {
  s_state : ConnectionState;
  s_config : option ConnectionConfig;
  s_peer_info : option PeerInfoState
}.

Record CaptureRegion : Type := mkCaptureRegion {
  region_x : Z;
  region_y : Z;
  region_w : Z;
  region_h : Z
}.

Inductive SessionCommand : Type :=
| CmdConnect (peer_id : string) (password server : option string)
| CmdDisconnect
| CmdShell
| CmdExec (command : string) (timeout : option Z)
| CmdPush (local_path remote_path : string)
| CmdClipboardGet
| CmdClipboardSet (text : string)
| CmdCapture (output : string) (format : option string) (quality : option Z)
             (region : option CaptureRegion) (display : option Z) (timeout_secs : option Z)
| CmdType (text : string)
| CmdKey (key : string)
| CmdClick (x y : Z) (button : string) (double : bool)
| CmdDrag (x y x2 y2 : Z) (button : string)
| CmdScroll (x y delta : Z)
| CmdMove (x y : Z)
| CmdStatus
| CmdDisplays.

#[export] Instance CaptureRegion_eq_dec : EqDecision CaptureRegion.
Proof. solve_decision. Defined.
#[export] Instance SessionCommand_eq_dec : EqDecision SessionCommand.
Proof. solve_decision. Defined.

Record SessionResponse : Type := mkSessionResponse {
  sr_success : bool;
  sr_message : option string;
  sr_data : option Value
}.
Definition resp_ok (m : string) : SessionResponse := mkSessionResponse true (Some m) None.
Definition resp_ok_with_data (m : string) (d : Value) : SessionResponse :=
  mkSessionResponse true (Some m) (Some d).
Definition resp_error (m : string) : SessionResponse := mkSessionResponse false (Some m) None.

Definition session_new : Session := mkSession Disconnected None None.

(** [require_connected] *)
Definition require_connected (s : Session) : Res unit :=
  if decide (s_state s = Connected) then Ok tt
  else Err (anyhow "No active session. Run `rustdesk-cli connect` first.").

(** ** The arms of [dispatch] *)

Abbreviation Reply := (Res (SessionResponse * list ProtocolMessage)).

Definition dispatch_connect (s : Session) (peer_id : string) (password server : option string)
    : Session * Reply :=
  if decide (s_state s = Connected) then (s, Ok (resp_error "Already connected", []))
  else
    let s1 := mkSession Connecting (s_config s) (s_peer_info s) in
    let s2 := mkSession (s_state s1) (Some (mkConnectionConfig peer_id password server))
                (s_peer_info s1) in
    let s3 := mkSession Connected (s_config s2) (s_peer_info s2) in
    (s3, Ok (resp_ok ("Connected to " ++ peer_id), [])).

Definition dispatch_disconnect (s : Session) : Session * Reply :=
  match require_connected s with
  | Err e => (s, Err e)
  | Ok _ =>
    let peer_id := default "" (cc_peer_id <$> s_config s) in
    (mkSession Disconnected None None,
     Ok (resp_ok ("Disconnected from " ++ peer_id), [PMDisconnect]))
  end.

Definition dispatch_shell (s : Session) : Reply :=
  require_connected s ≫= fun _ =>
  Ok (resp_ok_with_data "Opened remote shell" (object [("mode", Str "interactive")]), []).

Definition dispatch_exec (s : Session) (command : string) : Reply :=
  require_connected s ≫= fun _ =>
  Ok (resp_ok_with_data ("Executed `" ++ command ++ "`")
        (object [("command", Str command); ("stdout", Str "stub exec output");
                 ("stderr", Str ""); ("exit_code", Number 0)]), []).

Definition dispatch_push (s : Session) (local_path remote_path : string) : Reply :=
  require_connected s ≫= fun _ =>
  Ok (resp_ok_with_data ("Pushed `" ++ local_path ++ "` to `" ++ remote_path ++ "`")
        (object [("local_path", Str local_path); ("remote_path", Str remote_path)]), []).

Definition dispatch_clipboard_get (s : Session) : Reply :=
  require_connected s ≫= fun _ =>
  Ok (resp_ok_with_data "Clipboard text retrieved" (object [("text", Str "stub clipboard text")]), []).

Definition dispatch_clipboard_set (s : Session) (text : string) : Reply :=
  require_connected s ≫= fun _ =>
  Ok (resp_ok_with_data "Clipboard text updated"
        (object [("chars", Number (Z.of_nat (chars_count text))); ("redacted", Bool true)]), []).

Definition dispatch_capture (s : Session) (output : string) : Reply :=
  require_connected s ≫= fun _ => Ok (resp_ok ("Screenshot saved to " ++ output), []).

(** A key event without key code and modifiers. *)
Definition key_event (text : string) (down : bool) : ProtocolMessage :=
  PMKeyEvent (mkKeyEvent None (Some text) down KeyModifiers_default).

Definition dispatch_type (s : Session) (text : string) : Reply :=
  require_connected s ≫= fun _ =>
  let messages := concat (map (fun ch => [key_event ch true; key_event ch false]) (chars text)) in
  Ok (resp_ok ("Typed " ++ show_nat (String.length text) ++ " characters"), messages).

Definition dispatch_key (s : Session) (key : string) : Reply :=
  require_connected s ≫= fun _ =>
  Ok (resp_ok "Key sent", [key_event key true; key_event key false]).

Definition dispatch_click (s : Session) (x y : Z) (button : string) (double : bool) : Reply :=
  require_connected s ≫= fun _ =>
  let mask := button_mask button in
  let click_pair := [PMMouseEvent (mkMouseEvent x y mask false); PMMouseEvent (mkMouseEvent x y 0 false)] in
  let messages := if double then (click_pair ++ click_pair)%list else click_pair in
  Ok (resp_ok (button ++ " click at (" ++ show_Z x ++ ", " ++ show_Z y ++ ")"), messages).

Definition dispatch_drag (s : Session) (x y x2 y2 : Z) (button : string) : Reply :=
  require_connected s ≫= fun _ =>
  let mask := button_mask button in
  let messages := [PMMouseEvent (mkMouseEvent x y mask false);
                   PMMouseEvent (mkMouseEvent x2 y2 mask true);
                   PMMouseEvent (mkMouseEvent x2 y2 0 false)] in
  Ok (resp_ok (button ++ " drag from (" ++ show_Z x ++ ", " ++ show_Z y ++ ") to ("
                 ++ show_Z x2 ++ ", " ++ show_Z y2 ++ ")"), messages).

(** [i32::abs] without overflow checks: [i32::MIN] is its own absolute value. *)
Definition i32_abs (z : Z) : Z := swrap 32 (Z.abs z).

Definition dispatch_scroll (s : Session) (x y delta : Z) : Reply :=
  require_connected s ≫= fun _ =>
  let mask := if (0 <=? delta)%Z then SCROLL_UP else SCROLL_DOWN in
  let messages := concat (repeat [PMMouseEvent (mkMouseEvent x y mask false);
                                  PMMouseEvent (mkMouseEvent x y 0 false)]
                                 (Z.to_nat (i32_abs delta))) in
  Ok (resp_ok ("Scrolled " ++ show_Z delta ++ " at (" ++ show_Z x ++ ", " ++ show_Z y ++ ")"),
      messages).

Definition dispatch_move (s : Session) (x y : Z) : Reply :=
  require_connected s ≫= fun _ =>
  Ok (resp_ok ("Moved to (" ++ show_Z x ++ ", " ++ show_Z y ++ ")"),
      [PMMouseEvent (mkMouseEvent x y 0 true)]).

Definition state_value (st : ConnectionState) : Value :=
  Str (match st with
       | Disconnected => "Disconnected" | Connecting => "Connecting" | Connected => "Connected" end).

(** The derived serialization of [DisplayInfo] and [PeerInfoState]. *)
Definition display_value (d : DisplayInfo) : Value :=
  object [("x", Number (di_x d)); ("y", Number (di_y d)); ("width", Number (di_width d));
          ("height", Number (di_height d)); ("name", Str (di_name d));
          ("online", Bool (di_online d)); ("cursor_embedded", Bool (di_cursor_embedded d))].
Definition peer_info_value (p : PeerInfoState) : Value :=
  object [("peer_id", Str (pis_peer_id p)); ("username", Str (pis_username p));
          ("hostname", Str (pis_hostname p)); ("displays", Array (map display_value (pis_displays p)))].

Definition dispatch_status (s : Session) : Reply :=
  let data := object [("state", state_value (s_state s));
                      ("peer_id", opt_value Str (cc_peer_id <$> s_config s));
                      ("peer_info", opt_value peer_info_value (s_peer_info s))] in
  Ok (resp_ok_with_data "Status" data, []).

Definition indexed_display (idx : nat) (d : DisplayInfo) : Value :=
  object [("idx", Number (Z.of_nat idx)); ("x", Number (di_x d)); ("y", Number (di_y d));
          ("width", Number (di_width d)); ("height", Number (di_height d));
          ("name", Str (di_name d)); ("online", Bool (di_online d));
          ("cursor_embedded", Bool (di_cursor_embedded d))].

Definition dispatch_displays (s : Session) : Reply :=
  require_connected s ≫= fun _ =>
  let displays := imap indexed_display (default [] (pis_displays <$> s_peer_info s)) in
  Ok (resp_ok_with_data (show_nat (length displays) ++ " display(s)")
        (object [("displays", Array displays)]), []).

(** [Session::dispatch] *)
Definition dispatch (s : Session) (cmd : SessionCommand) : Session * Reply :=
  match cmd with
  | CmdConnect peer_id password server => dispatch_connect s peer_id password server
  | CmdDisconnect => dispatch_disconnect s
  | CmdShell => (s, dispatch_shell s)
  | CmdExec command _ => (s, dispatch_exec s command)
  | CmdPush l r => (s, dispatch_push s l r)
  | CmdClipboardGet => (s, dispatch_clipboard_get s)
  | CmdClipboardSet text => (s, dispatch_clipboard_set s text)
  | CmdCapture output _ _ _ _ _ => (s, dispatch_capture s output)
  | CmdType text => (s, dispatch_type s text)
  | CmdKey key => (s, dispatch_key s key)
  | CmdClick x y button double => (s, dispatch_click s x y button double)
  | CmdDrag x y x2 y2 button => (s, dispatch_drag s x y x2 y2 button)
  | CmdScroll x y delta => (s, dispatch_scroll s x y delta)
  | CmdMove x y => (s, dispatch_move s x y)
  | CmdStatus => (s, dispatch_status s)
  | CmdDisplays => (s, dispatch_displays s)
  end.

(** A sequence of commands, with the replies. *)
Fixpoint dispatch_all (s : Session) (cmds : list SessionCommand) : Session * list Reply :=
  match cmds with
  | [] => (s, [])
  | c :: cmds' =>
    let '(s1, r) := dispatch s c in
    let '(s2, rs) := dispatch_all s1 cmds' in (s2, r :: rs)
  end.

(** ** The connection state machine the session implements *)

(** The peer a session is connected to, if any. *)
Definition linked (s : Session) : option string :=
  if decide (s_state s = Connected) then Some (default "" (cc_peer_id <$> s_config s)) else None.

Inductive verdict : Type :=
| Accepted   (** a successful response *)
| Refused    (** a response with [success: false] *)
| Failed.    (** an error *)
Definition verdict_of (r : Reply) : verdict :=
  match r with Ok (resp, _) => if sr_success resp then Accepted else Refused | Err _ => Failed end.

(** The contract: one connection at a time, everything but connecting and asking for the status
    needs one. *)
Definition link_step (l : option string) (c : SessionCommand) : option string * verdict :=
  match c, l with
  | CmdConnect p _ _, None => (Some p, Accepted)
  | CmdConnect _ _ _, Some q => (Some q, Refused)
  | CmdDisconnect, Some _ => (None, Accepted)
  | CmdStatus, _ => (l, Accepted)
  | _, Some _ => (l, Accepted)
  | _, None => (None, Failed)
  end.
Fixpoint link_run (l : option string) (cmds : list SessionCommand) : option string * list verdict :=
  match cmds with
  | [] => (l, [])
  | c :: cmds' => let '(l1, v) := link_step l c in let '(l2, vs) := link_run l1 cmds' in (l2, v :: vs)
  end.

(** A session at rest: connected exactly when it has a configuration, never half way. *)
Definition session_ok (s : Session) : Prop :=
  match s_state s with
  | Connected => is_Some (s_config s)
  | Disconnected => s_config s = None
  | Connecting => False
  end.

Lemma require_connected_ok s : s_state s = Connected -> require_connected s = Ok tt.
Proof. unfold require_connected. by intros ->. Qed.
Lemma require_connected_err s :
  s_state s <> Connected ->
  require_connected s = Err ["No active session. Run `rustdesk-cli connect` first."].
Proof. unfold require_connected. intros. by rewrite decide_False. Qed.

(** One command, against the contract. *)
Lemma dispatch_step s c :
  session_ok s ->
  session_ok (dispatch s c).1 /\
  link_step (linked s) c = (linked (dispatch s c).1, verdict_of (dispatch s c).2).
Proof.
  intros Hs. unfold linked at 1. destruct (s_state s) eqn:Est.
  - split.
    + destruct c; try done; unfold dispatch, dispatch_connect, dispatch_disconnect; rewrite ?Est,
        ?require_connected_err by congruence; try done; simpl. by eexists.
    + unfold linked.
      destruct c; simpl; unfold dispatch_connect, dispatch_disconnect, dispatch_shell, dispatch_exec,
        dispatch_push, dispatch_clipboard_get, dispatch_clipboard_set, dispatch_capture, dispatch_type,
        dispatch_key, dispatch_click, dispatch_drag, dispatch_scroll, dispatch_move, dispatch_displays;
        rewrite ?require_connected_err by congruence; simpl; rewrite ?Est; done.
  - unfold session_ok in Hs. by rewrite Est in Hs.
  - split.
    + destruct c; try done; unfold dispatch, dispatch_connect, dispatch_disconnect; rewrite ?Est,
        ?require_connected_ok by done; done.
    + unfold linked.
      destruct c; simpl; unfold dispatch_connect, dispatch_disconnect, dispatch_shell, dispatch_exec,
        dispatch_push, dispatch_clipboard_get, dispatch_clipboard_set, dispatch_capture, dispatch_type,
        dispatch_key, dispatch_click, dispatch_drag, dispatch_scroll, dispatch_move, dispatch_displays;
        rewrite ?require_connected_ok by done; simpl; rewrite ?Est; simpl; rewrite ?Est; done.
Qed.

Lemma dispatch_all_spec cmds s :
  session_ok s ->
  session_ok (dispatch_all s cmds).1 /\
  link_run (linked s) cmds = (linked (dispatch_all s cmds).1, map verdict_of (dispatch_all s cmds).2).
Proof.
  revert s. induction cmds as [|c cmds IH]; intros s Hs; [done|]. simpl.
  destruct (dispatch_step s c Hs) as [H1 H2]. rewrite H2.
  destruct (dispatch s c) as [s1 r]. simpl in *. destruct (IH s1 H1) as [H3 H4]. rewrite H4.
  by destruct (dispatch_all s1 cmds) as [s2 rs].
Qed.

(** ** Replaying the messages at the peer *)

(** The input state of the remote machine: the mouse buttons held and the keys held down. *)
Definition replay_one (h : Z * list string) (m : ProtocolMessage) : Z * list string :=
  match m with
  | PMMouseEvent e => (me_mask e, h.2)
  | PMKeyEvent e =>
    match ke_characters e with
    | Some c => (h.1, if ke_down e then c :: h.2
                      else List.filter (fun k => negb (String.eqb k c)) h.2)
    | None => h
    end
  | _ => h
  end.
Definition replay (msgs : list ProtocolMessage) (h : Z * list string) : Z * list string :=
  foldl replay_one h msgs.

(** The text of the key presses among the messages. *)
Definition pressed (m : ProtocolMessage) : list string :=
  match m with
  | PMKeyEvent e => if ke_down e then match ke_characters e with Some c => [c] | None => [] end else []
  | _ => []
  end.

Lemma replay_app a b h : replay (a ++ b)%list h = replay b (replay a h).
Proof. apply foldl_app. Qed.

Lemma replay_blocks (blocks : list (list ProtocolMessage)) :
  Forall (fun b => replay b (0%Z, []) = (0%Z, [])) blocks ->
  replay (concat blocks) (0%Z, []) = (0%Z, []).
Proof.
  induction 1 as [|b bs Hb _ IH]; [done|]. cbn [concat]. by rewrite replay_app, Hb.
Qed.

Lemma replay_key c : replay [key_event c true; key_event c false] (0%Z, []) = (0%Z, []).
Proof. cbn. by rewrite String.eqb_refl. Qed.

Lemma swrap_id z : (i32_min <= z <= i32_max)%Z -> swrap 32 z = z.
Proof.
  unfold swrap, i32_min, i32_max. intros H. change (32 - 1)%Z with 31%Z.
  rewrite Z.mod_small; lia.
Qed.

(** ** The properties of the session *)

(** C19: the session refines the connection contract.  For every sequence of commands given to a new
    session, the peer it is linked to and the kind of every reply (success, refusal, error) are
    those of the abstract machine: one connection at a time, and every command except connecting
    and asking for the status fails without one.  Between commands a session is never half
    connected, and it has a configuration exactly while connected. *)
Theorem session_refines_link (cmds : list SessionCommand) :
  let '(s, replies) := dispatch_all session_new cmds in
  link_run None cmds = (linked s, map verdict_of replies) /\ session_ok s.
Proof.
  destruct (dispatch_all_spec cmds session_new eq_refl) as [H1 H2].
  by destruct (dispatch_all session_new cmds).
Qed.

(** C38: no command leaves a key or a mouse button held.  The messages of every successful command,
    replayed from a state with nothing held, end with nothing held. *)
Theorem dispatch_releases_inputs s cmd s' resp msgs :
  dispatch s cmd = (s', Ok (resp, msgs)) -> replay msgs (0%Z, []) = (0%Z, []).
Proof.
  intros H. destruct cmd; simpl in H;
    unfold dispatch_connect, dispatch_disconnect, dispatch_shell, dispatch_exec, dispatch_push,
      dispatch_clipboard_get, dispatch_clipboard_set, dispatch_capture, dispatch_type, dispatch_key,
      dispatch_click, dispatch_drag, dispatch_scroll, dispatch_move, dispatch_status,
      dispatch_displays in H;
    try match type of H with
        | context [require_connected s] => destruct (require_connected s) as [[]|e]
        | context [decide ?P] => destruct (decide P)
        end; cbn [mbind result_bind] in H; simplify_eq; try done.
  - apply replay_blocks, Forall_map, Forall_true. intros c. apply replay_key.
  - apply replay_key.
  - by destruct double.
  - apply replay_blocks, Forall_forall. intros b Hb.
    apply repeat_spec in Hb as ->. done.
Qed.

Lemma dispatch_releases_inputs_witness :
  let s := (dispatch session_new (CmdConnect "peer" None None)).1 in
  exists resp msgs, dispatch s (CmdDrag 1 2 3 4 "right") = (s, Ok (resp, msgs)) /\
    length msgs = 3%nat /\ replay msgs (0%Z, []) = (0%Z, []).
Proof.
  intros s. eexists _, _. split; [vm_compute; reflexivity|]. split; [reflexivity|].
  eapply (dispatch_releases_inputs s (CmdDrag 1 2 3 4 "right") s). vm_compute. reflexivity.
Defined.

(** Typing sends the text.  On a connected session [Type] succeeds, and the key presses it
    produces, in order, are the characters of the text, which put together are the text itself;
    each press is followed by its release, and the reply reports the length in bytes. *)
Theorem type_sends_text s text :
  s_state s = Connected ->
  exists msgs,
    (dispatch s (CmdType text)).2 =
      Ok (resp_ok ("Typed " ++ show_nat (String.length text) ++ " characters"), msgs) /\
    concat (map pressed msgs) = chars text /\
    concat_str (concat (map pressed msgs)) = text /\
    length msgs = (2 * chars_count text)%nat.
Proof.
  intros Hs. simpl. unfold dispatch_type. rewrite require_connected_ok by done. simpl.
  eexists. split; [done|].
  assert (concat (map pressed (concat (map (fun ch => [key_event ch true; key_event ch false])
            (chars text)))) = chars text) as Hp.
  { induction (chars text) as [|c l IH]; [done|]. cbn. by rewrite IH. }
  rewrite Hp. split_and!; [done|apply concat_chars|].
  clear Hp. unfold chars_count. induction (chars text) as [|c l IH]; [done|]. cbn. rewrite IH. lia.
Qed.

Lemma type_sends_text_witness :
  let s := (dispatch session_new (CmdConnect "peer" None None)).1 in
  exists msgs, (dispatch s (CmdType "hi")).2 = Ok (resp_ok "Typed 2 characters", msgs) /\
    length msgs = 4%nat.
Proof.
  intros s. destruct (type_sends_text s "hi" eq_refl) as (msgs & H1 & _ & _ & H4).
  exists msgs. split; [exact H1|exact H4].
Defined.

(** The size of a scroll.  For every [i32] amount but [i32::MIN], scrolling produces one
    press and release per unit, upward for amounts from zero on and downward otherwise; for
    [i32::MIN], whose absolute value overflows, nothing is produced although the reply reports the
    scroll. *)
Theorem scroll_messages s x y delta :
  s_state s = Connected -> (i32_min <= delta <= i32_max)%Z ->
  exists msgs,
    (dispatch s (CmdScroll x y delta)).2 =
      Ok (resp_ok ("Scrolled " ++ show_Z delta ++ " at (" ++ show_Z x ++ ", " ++ show_Z y ++ ")"), msgs) /\
    (delta = i32_min -> msgs = []) /\
    (delta <> i32_min ->
     Z.of_nat (length msgs) = (2 * Z.abs delta)%Z /\
     forall m, m ∈ msgs -> m = PMMouseEvent (mkMouseEvent x y 0 false) \/
       m = PMMouseEvent (mkMouseEvent x y (if (0 <=? delta)%Z then SCROLL_UP else SCROLL_DOWN) false)).
Proof.
  intros Hs Hd. simpl. unfold dispatch_scroll. rewrite require_connected_ok by done. simpl.
  eexists. split; [done|]. split.
  - intros ->. done.
  - intros Hne. unfold i32_abs. rewrite swrap_id by (unfold i32_min, i32_max in *; lia).
    generalize (if (0 <=? delta)%Z then SCROLL_UP else SCROLL_DOWN). intros mask. split.
    + rewrite <- (Z2Nat.id (Z.abs delta)) at 2 by lia.
      induction (Z.to_nat (Z.abs delta)) as [|n IH]; [done|]. cbn [repeat concat].
      rewrite length_app. simpl length in *. lia.
    + intros m Hm. apply list_elem_of_In, in_concat in Hm as (b & Hb & Hm).
      apply repeat_spec in Hb as ->. destruct Hm as [<-|[<-|[]]]; auto.
Qed.

Lemma scroll_messages_witness :
  let s := (dispatch session_new (CmdConnect "peer" None None)).1 in
  exists msgs, (dispatch s (CmdScroll 1 2 (-3))).2 = Ok (resp_ok "Scrolled -3 at (1, 2)", msgs) /\
    Z.of_nat (length msgs) = 6%Z.
Proof.
  intros s. destruct (scroll_messages s 1 2 (-3)) as (msgs & H1 & _ & H3);
    [reflexivity|vm_compute; split; congruence|].
  exists msgs. split; [exact H1|]. apply H3. vm_compute. congruence.
Defined.
