(* ===== verification/Proto.v ===== *)
(** * The protobuf messages the program exchanges (src/proto, compiled into src/src/proto.rs)

    The messages are records and variants with the fields the program reads or writes; what it
    never looks at is kept as opaque bytes ([.._rest], [.._Other]).  The generated codec is a
    parameter, [ProtoCodec]; what the program relies on about it is [ProtoLaws]. *)

From Stdlib Require Import ZArith Lia.
From Stdlib Require Import Strings.Byte Strings.String.
From stdpp Require Import base list option numbers strings countable.
From S2P Require Import Prelude RustStr.

(** ** Messages *)

(** The signed payload of a [SignedId]: the peer's id and Curve25519 key. *)
Record IdPk : Type := mkIdPk {
  idpk_id : string;
  idpk_pk : bytes
}.
Record SignedId : Type := mkSignedId {
  signed_id : bytes
}.
Record PublicKey : Type := mkPublicKey {
  asymmetric_value : bytes;
  symmetric_value : bytes
}.
Record Hash : Type := mkHash {
  hash_salt : string;
  hash_challenge : string
}.
Record TestDelay : Type := mkTestDelay {
  td_time : Z;
  td_from_client : bool;
  td_last_delay : Z;
  td_target_bitrate : Z
}.
Record SupportedDecoding : Type := mkSupportedDecoding {
  ability_vp9 : Z;
  sd_rest : bytes
}.
Record OptionMessage : Type := mkOptionMessage {
  image_quality : Z;
  custom_fps : Z;
  disable_audio : Z;
  disable_clipboard : Z;
  disable_camera : Z;
  terminal_persistent : Z;
  supported_decoding : option SupportedDecoding;
  om_rest : bytes
}.
(** The protobuf [DisplayInfo]. *)
Record PDisplay : Type := mkPDisplay {
  pd_x : Z;
  pd_y : Z;
  pd_width : Z;
  pd_height : Z;
  pd_name : string;
  pd_online : bool;
  pd_cursor_embedded : bool;
  pd_rest : bytes
}.
Record PeerInfo : Type := mkPeerInfo {
  pi_username : string;
  pi_hostname : string;
  pi_platform : string;
  pi_displays : list PDisplay;
  pi_current_display : Z;
  pi_version : string;
  pi_rest : bytes
}.
(** The mode of a login ([login_request::Union]). *)
Inductive LoginUnion : Type :=
| LFileTransfer (dir : string) (show_hidden : bool)
| LTerminal (service_id : string)
| LOther (rest : bytes).
Record LoginRequest : Type := mkLoginRequest {
  lreq_username : string;
  lreq_password : bytes;
  lreq_my_id : string;
  lreq_my_name : string;
  lreq_option : option OptionMessage;
  lreq_video_ack_required : bool;
  lreq_session_id : Z;
  lreq_version : string;
  lreq_my_platform : string;
  lreq_hwid : bytes;
  lreq_avatar : string;
  lreq_os_login : bytes;
  lreq_union : option LoginUnion
}.
(** [login_response::Union] *)
Inductive LoginReply : Type :=
| LRError (error : string)
| LRPeerInfo (info : PeerInfo).
Record LoginResponse : Type := mkLoginResponse {
  lresp_union : option LoginReply;
  lresp_trusted_devices : bool
}.
Record ScreenshotRequest : Type := mkScreenshotRequest {
  sreq_display : Z;
  sreq_sid : string
}.
Record ScreenshotResponse : Type := mkScreenshotResponse {
  sresp_sid : string;
  sresp_msg : string;
  sresp_data : bytes
}.
Record TerminalData : Type := mkTerminalData {
  tdata_terminal_id : Z;
  tdata_data : bytes;
  tdata_compressed : bool
}.
(** [terminal_action::Union] *)
Inductive TerminalActionUnion : Type :=
| TAOpen (terminal_id : Z) (rows : Z) (cols : Z)
| TAData (d : TerminalData)
| TAResize (terminal_id : Z) (rows : Z) (cols : Z)
| TAClose (terminal_id : Z).
Record TerminalOpened : Type := mkTerminalOpened {
  topen_terminal_id : Z;
  topen_success : bool;
  topen_message : string;
  topen_pid : Z;
  topen_service_id : string;
  topen_persistent_sessions : list Z
}.
(** [terminal_response::Union] *)
Inductive TerminalResponseUnion : Type :=
| TROpened (o : TerminalOpened)
| TRData (d : TerminalData)
| TRClosed (terminal_id : Z) (exit_code : Z)
| TRError (terminal_id : Z) (msg : string).
Record FileEntry : Type := mkFileEntry {
  fe_entry_type : Z;
  fe_name : string;
  fe_is_hidden : bool;
  fe_size : Z;
  fe_modified_time : Z
}.
Record FileTransferReceiveRequest : Type := mkFileTransferReceiveRequest {
  frr_id : Z;
  frr_path : string;
  frr_files : list FileEntry;
  frr_file_num : Z;
  frr_total_size : Z
}.
(** [file_transfer_send_confirm_request::Union] *)
Inductive ConfirmUnion : Type :=
| FCSkip (b : bool)
| FCOffsetBlk (offset : Z).
Record FileTransferSendConfirmRequest : Type := mkFileTransferSendConfirmRequest {
  fsc_id : Z;
  fsc_file_num : Z;
  fsc_union : option ConfirmUnion
}.
Record FileTransferBlock : Type := mkFileTransferBlock {
  fb_id : Z;
  fb_file_num : Z;
  fb_data : bytes;
  fb_compressed : bool;
  fb_blk_id : Z
}.
Record FileTransferDigest : Type := mkFileTransferDigest {
  fd_id : Z;
  fd_file_num : Z;
  fd_last_modified : Z;
  fd_file_size : Z;
  fd_is_upload : bool;
  fd_is_identical : bool;
  fd_transferred_size : Z;
  fd_is_resume : bool
}.
Record FileTransferDone : Type := mkFileTransferDone {
  fdone_id : Z;
  fdone_file_num : Z
}.
Record FileTransferError : Type := mkFileTransferError {
  ferr_id : Z;
  ferr_error : string;
  ferr_file_num : Z
}.
(** [file_action::Union] *)
Inductive FileActionUnion : Type :=
| FAReceive (r : FileTransferReceiveRequest)
| FASendConfirm (c : FileTransferSendConfirmRequest)
| FAOther (tag : Z) (rest : bytes).
(** [file_response::Union] *)
Inductive FileResponseUnion : Type :=
| FRBlock (b : FileTransferBlock)
| FRError (e : FileTransferError)
| FRDone (d : FileTransferDone)
| FRDigest (d : FileTransferDigest)
| FROther (tag : Z) (rest : bytes).
(** [misc::Union] *)
Inductive MiscUnion : Type :=
| MOption (o : OptionMessage)
| MCloseReason (reason : string)
| MRefreshVideo (b : bool)
| MCaptureDisplays (add sub set : list Z)
| MOther (tag : Z) (rest : bytes).
(** [message::Union]: the variants the program handles, and the others by field number. *)
Inductive MessageUnion : Type :=
| USignedId (s : SignedId)
| UPublicKey (k : PublicKey)
| UTestDelay (t : TestDelay)
| ULoginRequest (l : LoginRequest)
| ULoginResponse (l : LoginResponse)
| UHash (h : Hash)
| UFileAction (a : option FileActionUnion)
| UFileResponse (r : option FileResponseUnion)
| UMisc (m : option MiscUnion)
| UPeerInfo (p : PeerInfo)
| UScreenshotRequest (s : ScreenshotRequest)
| UScreenshotResponse (s : ScreenshotResponse)
| UTerminalAction (t : option TerminalActionUnion)
| UTerminalResponse (t : option TerminalResponseUnion)
| UOther (tag : Z) (rest : bytes).
Record RegisterPeer : Type := mkRegisterPeer {
  rp_id : string;
  rp_serial : Z
}.
Record RegisterPk : Type := mkRegisterPk {
  rpk_id : string;
  rpk_uuid : bytes;
  rpk_pk : bytes;
  rpk_old_id : string;
  rpk_no_register_device : bool
}.
Record RegisterPkResponse : Type := mkRegisterPkResponse {
  rpkr_result : Z;
  rpkr_keep_alive : Z
}.
Record PunchHoleRequest : Type := mkPunchHoleRequest {
  phq_id : string;
  phq_nat_type : Z;
  phq_licence_key : string;
  phq_conn_type : Z;
  phq_token : string;
  phq_version : string;
  phq_udp_port : Z;
  phq_force_relay : bool;
  phq_upnp_port : Z;
  phq_socket_addr_v6 : bytes
}.
Record PunchHoleResponse : Type := mkPunchHoleResponse {
  phr_socket_addr : bytes;
  phr_pk : bytes;
  phr_failure : Z;
  phr_relay_server : string;
  phr_other_failure : string;
  phr_rest : bytes
}.
Record RequestRelay : Type := mkRequestRelay {
  rr_id : string;
  rr_uuid : string;
  rr_socket_addr : bytes;
  rr_relay_server : string;
  rr_secure : bool;
  rr_licence_key : string;
  rr_conn_type : Z;
  rr_token : string;
  rr_control_permissions : option bytes
}.
Record RelayResponse : Type := mkRelayResponse {
  rlr_socket_addr : bytes;
  rlr_uuid : string;
  rlr_relay_server : string;
  rlr_refuse_reason : string;
  rlr_rest : bytes
}.
(** [rendezvous_message::Union] *)
Inductive RendezvousUnion : Type :=
| RRegisterPeer (p : RegisterPeer)
| RRegisterPeerResponse (request_pk : bool)
| RPunchHoleRequest (r : PunchHoleRequest)
| RPunchHoleResponse (r : PunchHoleResponse)
| RRegisterPk (r : RegisterPk)
| RRegisterPkResponse (r : RegisterPkResponse)
| RRequestRelay (r : RequestRelay)
| RRelayResponse (r : RelayResponse)
| RKeyExchange (keys : list bytes)
| ROther (tag : Z) (rest : bytes).

(** A [Message] / [RendezvousMessage] is its optional union. *)
Abbreviation Message := (option MessageUnion).
Abbreviation RendezvousMessage := (option RendezvousUnion).

(** [ConnType] *)
Inductive ConnType : Type := DefaultConn | ConnFileTransfer | PortForward | Rdp | ViewCamera | ConnTerminal.
#[export] Instance ConnType_eq_dec : EqDecision ConnType.
Proof. solve_decision. Defined.
Definition conn_type_i32 (c : ConnType) : Z :=
  match c with
  | DefaultConn => 0 | ConnFileTransfer => 1 | PortForward => 2 | Rdp => 3 | ViewCamera => 4
  | ConnTerminal => 5
  end.

(** [BoolOption::Yes], [ImageQuality::Best], [FileType::File] *)
Definition BoolOption_Yes : Z := 2.
Definition ImageQuality_Best : Z := 4.
Definition FileType_File : Z := 4.

(** [OptionMessage::default()] *)
Definition OptionMessage_default : OptionMessage := mkOptionMessage 0 0 0 0 0 0 None [].

(** ** The codec *)

(** [encode] into a growable buffer does not fail; [debug] is the derived [Debug] text. *)
Class ProtoCodec (A : Type) : Type := {
  encode : A -> bytes;
  decode : bytes -> Res A;
  debug : A -> string
}.

(** Decoding gives back what was encoded, and no bytes are a message with nothing set. *)
Class ProtoLaws {A : Type} (C : ProtoCodec (option A)) : Prop := {
  decode_encode : forall m, decode (encode m) = Ok m;
  decode_nil : decode [] = Ok (@None A)
}.

(** ** A concrete codec

    For evaluating the model: the binary numeral of the message in stdpp's enumeration. *)

#[export] Instance byte_countable : Countable byte.
Proof. exact (inj_countable' Z_of_byte byte_of_Z byte_of_Z_of_byte). Defined.
#[export] Instance IdPk_eq_dec : EqDecision IdPk.
Proof. solve_decision. Defined.
#[export] Instance IdPk_countable : Countable IdPk.
Proof.
  refine (inj_countable' (fun x => (idpk_id x, idpk_pk x))
    (fun '(v0, v1) => mkIdPk v0 v1) _). by intros [].
Defined.
#[export] Instance SignedId_eq_dec : EqDecision SignedId.
Proof. solve_decision. Defined.
#[export] Instance SignedId_countable : Countable SignedId.
Proof.
  refine (inj_countable' (fun x => signed_id x)
    (fun v0 => mkSignedId v0) _). by intros [].
Defined.
#[export] Instance PublicKey_eq_dec : EqDecision PublicKey.
Proof. solve_decision. Defined.
#[export] Instance PublicKey_countable : Countable PublicKey.
Proof.
  refine (inj_countable' (fun x => (asymmetric_value x, symmetric_value x))
    (fun '(v0, v1) => mkPublicKey v0 v1) _). by intros [].
Defined.
#[export] Instance Hash_eq_dec : EqDecision Hash.
Proof. solve_decision. Defined.
#[export] Instance Hash_countable : Countable Hash.
Proof.
  refine (inj_countable' (fun x => (hash_salt x, hash_challenge x))
    (fun '(v0, v1) => mkHash v0 v1) _). by intros [].
Defined.
#[export] Instance TestDelay_eq_dec : EqDecision TestDelay.
Proof. solve_decision. Defined.
#[export] Instance TestDelay_countable : Countable TestDelay.
Proof.
  refine (inj_countable' (fun x => (td_time x, td_from_client x, td_last_delay x, td_target_bitrate x))
    (fun '(v0, v1, v2, v3) => mkTestDelay v0 v1 v2 v3) _). by intros [].
Defined.
#[export] Instance SupportedDecoding_eq_dec : EqDecision SupportedDecoding.
Proof. solve_decision. Defined.
#[export] Instance SupportedDecoding_countable : Countable SupportedDecoding.
Proof.
  refine (inj_countable' (fun x => (ability_vp9 x, sd_rest x))
    (fun '(v0, v1) => mkSupportedDecoding v0 v1) _). by intros [].
Defined.
#[export] Instance OptionMessage_eq_dec : EqDecision OptionMessage.
Proof. solve_decision. Defined.
#[export] Instance OptionMessage_countable : Countable OptionMessage.
Proof.
  refine (inj_countable' (fun x => (image_quality x, custom_fps x, disable_audio x, disable_clipboard x, disable_camera x, terminal_persistent x, supported_decoding x, om_rest x))
    (fun '(v0, v1, v2, v3, v4, v5, v6, v7) => mkOptionMessage v0 v1 v2 v3 v4 v5 v6 v7) _). by intros [].
Defined.
#[export] Instance PDisplay_eq_dec : EqDecision PDisplay.
Proof. solve_decision. Defined.
#[export] Instance PDisplay_countable : Countable PDisplay.
Proof.
  refine (inj_countable' (fun x => (pd_x x, pd_y x, pd_width x, pd_height x, pd_name x, pd_online x, pd_cursor_embedded x, pd_rest x))
    (fun '(v0, v1, v2, v3, v4, v5, v6, v7) => mkPDisplay v0 v1 v2 v3 v4 v5 v6 v7) _). by intros [].
Defined.
#[export] Instance PeerInfo_eq_dec : EqDecision PeerInfo.
Proof. solve_decision. Defined.
#[export] Instance PeerInfo_countable : Countable PeerInfo.
Proof.
  refine (inj_countable' (fun x => (pi_username x, pi_hostname x, pi_platform x, pi_displays x, pi_current_display x, pi_version x, pi_rest x))
    (fun '(v0, v1, v2, v3, v4, v5, v6) => mkPeerInfo v0 v1 v2 v3 v4 v5 v6) _). by intros [].
Defined.
#[export] Instance LoginUnion_eq_dec : EqDecision LoginUnion.
Proof. solve_decision. Defined.
#[export] Instance LoginUnion_countable : Countable LoginUnion.
Proof.
  refine (inj_countable'
    (fun x => match x with
     | LFileTransfer dir show_hidden => inl (dir, show_hidden)
     | LTerminal service_id => inr (inl service_id)
     | LOther rest => inr (inr rest)
     end)
    (fun y => match y with
     | inl (dir, show_hidden) => LFileTransfer dir show_hidden
     | inr (inl service_id) => LTerminal service_id
     | inr (inr rest) => LOther rest
     end) _). by intros [].
Defined.
#[export] Instance LoginRequest_eq_dec : EqDecision LoginRequest.
Proof. solve_decision. Defined.
#[export] Instance LoginRequest_countable : Countable LoginRequest.
Proof.
  refine (inj_countable' (fun x => (lreq_username x, lreq_password x, lreq_my_id x, lreq_my_name x, lreq_option x, lreq_video_ack_required x, lreq_session_id x, lreq_version x, lreq_my_platform x, lreq_hwid x, lreq_avatar x, lreq_os_login x, lreq_union x))
    (fun '(v0, v1, v2, v3, v4, v5, v6, v7, v8, v9, v10, v11, v12) => mkLoginRequest v0 v1 v2 v3 v4 v5 v6 v7 v8 v9 v10 v11 v12) _). by intros [].
Defined.
#[export] Instance LoginReply_eq_dec : EqDecision LoginReply.
Proof. solve_decision. Defined.
#[export] Instance LoginReply_countable : Countable LoginReply.
Proof.
  refine (inj_countable'
    (fun x => match x with
     | LRError error => inl error
     | LRPeerInfo info => inr info
     end)
    (fun y => match y with
     | inl error => LRError error
     | inr info => LRPeerInfo info
     end) _). by intros [].
Defined.
#[export] Instance LoginResponse_eq_dec : EqDecision LoginResponse.
Proof. solve_decision. Defined.
#[export] Instance LoginResponse_countable : Countable LoginResponse.
Proof.
  refine (inj_countable' (fun x => (lresp_union x, lresp_trusted_devices x))
    (fun '(v0, v1) => mkLoginResponse v0 v1) _). by intros [].
Defined.
#[export] Instance ScreenshotRequest_eq_dec : EqDecision ScreenshotRequest.
Proof. solve_decision. Defined.
#[export] Instance ScreenshotRequest_countable : Countable ScreenshotRequest.
Proof.
  refine (inj_countable' (fun x => (sreq_display x, sreq_sid x))
    (fun '(v0, v1) => mkScreenshotRequest v0 v1) _). by intros [].
Defined.
#[export] Instance ScreenshotResponse_eq_dec : EqDecision ScreenshotResponse.
Proof. solve_decision. Defined.
#[export] Instance ScreenshotResponse_countable : Countable ScreenshotResponse.
Proof.
  refine (inj_countable' (fun x => (sresp_sid x, sresp_msg x, sresp_data x))
    (fun '(v0, v1, v2) => mkScreenshotResponse v0 v1 v2) _). by intros [].
Defined.
#[export] Instance TerminalData_eq_dec : EqDecision TerminalData.
Proof. solve_decision. Defined.
#[export] Instance TerminalData_countable : Countable TerminalData.
Proof.
  refine (inj_countable' (fun x => (tdata_terminal_id x, tdata_data x, tdata_compressed x))
    (fun '(v0, v1, v2) => mkTerminalData v0 v1 v2) _). by intros [].
Defined.
#[export] Instance TerminalActionUnion_eq_dec : EqDecision TerminalActionUnion.
Proof. solve_decision. Defined.
#[export] Instance TerminalActionUnion_countable : Countable TerminalActionUnion.
Proof.
  refine (inj_countable'
    (fun x => match x with
     | TAOpen terminal_id rows cols => inl (terminal_id, rows, cols)
     | TAData d => inr (inl d)
     | TAResize terminal_id rows cols => inr (inr (inl (terminal_id, rows, cols)))
     | TAClose terminal_id => inr (inr (inr terminal_id))
     end)
    (fun y => match y with
     | inl (terminal_id, rows, cols) => TAOpen terminal_id rows cols
     | inr (inl d) => TAData d
     | inr (inr (inl (terminal_id, rows, cols))) => TAResize terminal_id rows cols
     | inr (inr (inr terminal_id)) => TAClose terminal_id
     end) _). by intros [].
Defined.
#[export] Instance TerminalOpened_eq_dec : EqDecision TerminalOpened.
Proof. solve_decision. Defined.
#[export] Instance TerminalOpened_countable : Countable TerminalOpened.
Proof.
  refine (inj_countable' (fun x => (topen_terminal_id x, topen_success x, topen_message x, topen_pid x, topen_service_id x, topen_persistent_sessions x))
    (fun '(v0, v1, v2, v3, v4, v5) => mkTerminalOpened v0 v1 v2 v3 v4 v5) _). by intros [].
Defined.
#[export] Instance TerminalResponseUnion_eq_dec : EqDecision TerminalResponseUnion.
Proof. solve_decision. Defined.
#[export] Instance TerminalResponseUnion_countable : Countable TerminalResponseUnion.
Proof.
  refine (inj_countable'
    (fun x => match x with
     | TROpened o => inl o
     | TRData d => inr (inl d)
     | TRClosed terminal_id exit_code => inr (inr (inl (terminal_id, exit_code)))
     | TRError terminal_id msg => inr (inr (inr (terminal_id, msg)))
     end)
    (fun y => match y with
     | inl o => TROpened o
     | inr (inl d) => TRData d
     | inr (inr (inl (terminal_id, exit_code))) => TRClosed terminal_id exit_code
     | inr (inr (inr (terminal_id, msg))) => TRError terminal_id msg
     end) _). by intros [].
Defined.
#[export] Instance FileEntry_eq_dec : EqDecision FileEntry.
Proof. solve_decision. Defined.
#[export] Instance FileEntry_countable : Countable FileEntry.
Proof.
  refine (inj_countable' (fun x => (fe_entry_type x, fe_name x, fe_is_hidden x, fe_size x, fe_modified_time x))
    (fun '(v0, v1, v2, v3, v4) => mkFileEntry v0 v1 v2 v3 v4) _). by intros [].
Defined.
#[export] Instance FileTransferReceiveRequest_eq_dec : EqDecision FileTransferReceiveRequest.
Proof. solve_decision. Defined.
#[export] Instance FileTransferReceiveRequest_countable : Countable FileTransferReceiveRequest.
Proof.
  refine (inj_countable' (fun x => (frr_id x, frr_path x, frr_files x, frr_file_num x, frr_total_size x))
    (fun '(v0, v1, v2, v3, v4) => mkFileTransferReceiveRequest v0 v1 v2 v3 v4) _). by intros [].
Defined.
#[export] Instance ConfirmUnion_eq_dec : EqDecision ConfirmUnion.
Proof. solve_decision. Defined.
#[export] Instance ConfirmUnion_countable : Countable ConfirmUnion.
Proof.
  refine (inj_countable'
    (fun x => match x with
     | FCSkip b => inl b
     | FCOffsetBlk offset => inr offset
     end)
    (fun y => match y with
     | inl b => FCSkip b
     | inr offset => FCOffsetBlk offset
     end) _). by intros [].
Defined.
#[export] Instance FileTransferSendConfirmRequest_eq_dec : EqDecision FileTransferSendConfirmRequest.
Proof. solve_decision. Defined.
#[export] Instance FileTransferSendConfirmRequest_countable : Countable FileTransferSendConfirmRequest.
Proof.
  refine (inj_countable' (fun x => (fsc_id x, fsc_file_num x, fsc_union x))
    (fun '(v0, v1, v2) => mkFileTransferSendConfirmRequest v0 v1 v2) _). by intros [].
Defined.
#[export] Instance FileTransferBlock_eq_dec : EqDecision FileTransferBlock.
Proof. solve_decision. Defined.
#[export] Instance FileTransferBlock_countable : Countable FileTransferBlock.
Proof.
  refine (inj_countable' (fun x => (fb_id x, fb_file_num x, fb_data x, fb_compressed x, fb_blk_id x))
    (fun '(v0, v1, v2, v3, v4) => mkFileTransferBlock v0 v1 v2 v3 v4) _). by intros [].
Defined.
#[export] Instance FileTransferDigest_eq_dec : EqDecision FileTransferDigest.
Proof. solve_decision. Defined.
#[export] Instance FileTransferDigest_countable : Countable FileTransferDigest.
Proof.
  refine (inj_countable' (fun x => (fd_id x, fd_file_num x, fd_last_modified x, fd_file_size x, fd_is_upload x, fd_is_identical x, fd_transferred_size x, fd_is_resume x))
    (fun '(v0, v1, v2, v3, v4, v5, v6, v7) => mkFileTransferDigest v0 v1 v2 v3 v4 v5 v6 v7) _). by intros [].
Defined.
#[export] Instance FileTransferDone_eq_dec : EqDecision FileTransferDone.
Proof. solve_decision. Defined.
#[export] Instance FileTransferDone_countable : Countable FileTransferDone.
Proof.
  refine (inj_countable' (fun x => (fdone_id x, fdone_file_num x))
    (fun '(v0, v1) => mkFileTransferDone v0 v1) _). by intros [].
Defined.
#[export] Instance FileTransferError_eq_dec : EqDecision FileTransferError.
Proof. solve_decision. Defined.
#[export] Instance FileTransferError_countable : Countable FileTransferError.
Proof.
  refine (inj_countable' (fun x => (ferr_id x, ferr_error x, ferr_file_num x))
    (fun '(v0, v1, v2) => mkFileTransferError v0 v1 v2) _). by intros [].
Defined.
#[export] Instance FileActionUnion_eq_dec : EqDecision FileActionUnion.
Proof. solve_decision. Defined.
#[export] Instance FileActionUnion_countable : Countable FileActionUnion.
Proof.
  refine (inj_countable'
    (fun x => match x with
     | FAReceive r => inl r
     | FASendConfirm c => inr (inl c)
     | FAOther tag rest => inr (inr (tag, rest))
     end)
    (fun y => match y with
     | inl r => FAReceive r
     | inr (inl c) => FASendConfirm c
     | inr (inr (tag, rest)) => FAOther tag rest
     end) _). by intros [].
Defined.
#[export] Instance FileResponseUnion_eq_dec : EqDecision FileResponseUnion.
Proof. solve_decision. Defined.
#[export] Instance FileResponseUnion_countable : Countable FileResponseUnion.
Proof.
  refine (inj_countable'
    (fun x => match x with
     | FRBlock b => inl b
     | FRError e => inr (inl e)
     | FRDone d => inr (inr (inl d))
     | FRDigest d => inr (inr (inr (inl d)))
     | FROther tag rest => inr (inr (inr (inr (tag, rest))))
     end)
    (fun y => match y with
     | inl b => FRBlock b
     | inr (inl e) => FRError e
     | inr (inr (inl d)) => FRDone d
     | inr (inr (inr (inl d))) => FRDigest d
     | inr (inr (inr (inr (tag, rest)))) => FROther tag rest
     end) _). by intros [].
Defined.
#[export] Instance MiscUnion_eq_dec : EqDecision MiscUnion.
Proof. solve_decision. Defined.
#[export] Instance MiscUnion_countable : Countable MiscUnion.
Proof.
  refine (inj_countable'
    (fun x => match x with
     | MOption o => inl o
     | MCloseReason reason => inr (inl reason)
     | MRefreshVideo b => inr (inr (inl b))
     | MCaptureDisplays add sub set => inr (inr (inr (inl (add, sub, set))))
     | MOther tag rest => inr (inr (inr (inr (tag, rest))))
     end)
    (fun y => match y with
     | inl o => MOption o
     | inr (inl reason) => MCloseReason reason
     | inr (inr (inl b)) => MRefreshVideo b
     | inr (inr (inr (inl (add, sub, set)))) => MCaptureDisplays add sub set
     | inr (inr (inr (inr (tag, rest)))) => MOther tag rest
     end) _). by intros [].
Defined.
#[export] Instance MessageUnion_eq_dec : EqDecision MessageUnion.
Proof. solve_decision. Defined.
#[export] Instance MessageUnion_countable : Countable MessageUnion.
Proof.
  refine (inj_countable'
    (fun x => match x with
     | USignedId s => inl s
     | UPublicKey k => inr (inl k)
     | UTestDelay t => inr (inr (inl t))
     | ULoginRequest l => inr (inr (inr (inl l)))
     | ULoginResponse l => inr (inr (inr (inr (inl l))))
     | UHash h => inr (inr (inr (inr (inr (inl h)))))
     | UFileAction a => inr (inr (inr (inr (inr (inr (inl a))))))
     | UFileResponse r => inr (inr (inr (inr (inr (inr (inr (inl r)))))))
     | UMisc m => inr (inr (inr (inr (inr (inr (inr (inr (inl m))))))))
     | UPeerInfo p => inr (inr (inr (inr (inr (inr (inr (inr (inr (inl p)))))))))
     | UScreenshotRequest s => inr (inr (inr (inr (inr (inr (inr (inr (inr (inr (inl s))))))))))
     | UScreenshotResponse s => inr (inr (inr (inr (inr (inr (inr (inr (inr (inr (inr (inl s)))))))))))
     | UTerminalAction t => inr (inr (inr (inr (inr (inr (inr (inr (inr (inr (inr (inr (inl t))))))))))))
     | UTerminalResponse t => inr (inr (inr (inr (inr (inr (inr (inr (inr (inr (inr (inr (inr (inl t)))))))))))))
     | UOther tag rest => inr (inr (inr (inr (inr (inr (inr (inr (inr (inr (inr (inr (inr (inr (tag, rest))))))))))))))
     end)
    (fun y => match y with
     | inl s => USignedId s
     | inr (inl k) => UPublicKey k
     | inr (inr (inl t)) => UTestDelay t
     | inr (inr (inr (inl l))) => ULoginRequest l
     | inr (inr (inr (inr (inl l)))) => ULoginResponse l
     | inr (inr (inr (inr (inr (inl h))))) => UHash h
     | inr (inr (inr (inr (inr (inr (inl a)))))) => UFileAction a
     | inr (inr (inr (inr (inr (inr (inr (inl r))))))) => UFileResponse r
     | inr (inr (inr (inr (inr (inr (inr (inr (inl m)))))))) => UMisc m
     | inr (inr (inr (inr (inr (inr (inr (inr (inr (inl p))))))))) => UPeerInfo p
     | inr (inr (inr (inr (inr (inr (inr (inr (inr (inr (inl s)))))))))) => UScreenshotRequest s
     | inr (inr (inr (inr (inr (inr (inr (inr (inr (inr (inr (inl s))))))))))) => UScreenshotResponse s
     | inr (inr (inr (inr (inr (inr (inr (inr (inr (inr (inr (inr (inl t)))))))))))) => UTerminalAction t
     | inr (inr (inr (inr (inr (inr (inr (inr (inr (inr (inr (inr (inr (inl t))))))))))))) => UTerminalResponse t
     | inr (inr (inr (inr (inr (inr (inr (inr (inr (inr (inr (inr (inr (inr (tag, rest)))))))))))))) => UOther tag rest
     end) _). by intros [].
Defined.
#[export] Instance RegisterPeer_eq_dec : EqDecision RegisterPeer.
Proof. solve_decision. Defined.
#[export] Instance RegisterPeer_countable : Countable RegisterPeer.
Proof.
  refine (inj_countable' (fun x => (rp_id x, rp_serial x))
    (fun '(v0, v1) => mkRegisterPeer v0 v1) _). by intros [].
Defined.
#[export] Instance RegisterPk_eq_dec : EqDecision RegisterPk.
Proof. solve_decision. Defined.
#[export] Instance RegisterPk_countable : Countable RegisterPk.
Proof.
  refine (inj_countable' (fun x => (rpk_id x, rpk_uuid x, rpk_pk x, rpk_old_id x, rpk_no_register_device x))
    (fun '(v0, v1, v2, v3, v4) => mkRegisterPk v0 v1 v2 v3 v4) _). by intros [].
Defined.
#[export] Instance RegisterPkResponse_eq_dec : EqDecision RegisterPkResponse.
Proof. solve_decision. Defined.
#[export] Instance RegisterPkResponse_countable : Countable RegisterPkResponse.
Proof.
  refine (inj_countable' (fun x => (rpkr_result x, rpkr_keep_alive x))
    (fun '(v0, v1) => mkRegisterPkResponse v0 v1) _). by intros [].
Defined.
#[export] Instance PunchHoleRequest_eq_dec : EqDecision PunchHoleRequest.
Proof. solve_decision. Defined.
#[export] Instance PunchHoleRequest_countable : Countable PunchHoleRequest.
Proof.
  refine (inj_countable' (fun x => (phq_id x, phq_nat_type x, phq_licence_key x, phq_conn_type x, phq_token x, phq_version x, phq_udp_port x, phq_force_relay x, phq_upnp_port x, phq_socket_addr_v6 x))
    (fun '(v0, v1, v2, v3, v4, v5, v6, v7, v8, v9) => mkPunchHoleRequest v0 v1 v2 v3 v4 v5 v6 v7 v8 v9) _). by intros [].
Defined.
#[export] Instance PunchHoleResponse_eq_dec : EqDecision PunchHoleResponse.
Proof. solve_decision. Defined.
#[export] Instance PunchHoleResponse_countable : Countable PunchHoleResponse.
Proof.
  refine (inj_countable' (fun x => (phr_socket_addr x, phr_pk x, phr_failure x, phr_relay_server x, phr_other_failure x, phr_rest x))
    (fun '(v0, v1, v2, v3, v4, v5) => mkPunchHoleResponse v0 v1 v2 v3 v4 v5) _). by intros [].
Defined.
#[export] Instance RequestRelay_eq_dec : EqDecision RequestRelay.
Proof. solve_decision. Defined.
#[export] Instance RequestRelay_countable : Countable RequestRelay.
Proof.
  refine (inj_countable' (fun x => (rr_id x, rr_uuid x, rr_socket_addr x, rr_relay_server x, rr_secure x, rr_licence_key x, rr_conn_type x, rr_token x, rr_control_permissions x))
    (fun '(v0, v1, v2, v3, v4, v5, v6, v7, v8) => mkRequestRelay v0 v1 v2 v3 v4 v5 v6 v7 v8) _). by intros [].
Defined.
#[export] Instance RelayResponse_eq_dec : EqDecision RelayResponse.
Proof. solve_decision. Defined.
#[export] Instance RelayResponse_countable : Countable RelayResponse.
Proof.
  refine (inj_countable' (fun x => (rlr_socket_addr x, rlr_uuid x, rlr_relay_server x, rlr_refuse_reason x, rlr_rest x))
    (fun '(v0, v1, v2, v3, v4) => mkRelayResponse v0 v1 v2 v3 v4) _). by intros [].
Defined.
#[export] Instance RendezvousUnion_eq_dec : EqDecision RendezvousUnion.
Proof. solve_decision. Defined.
#[export] Instance RendezvousUnion_countable : Countable RendezvousUnion.
Proof.
  refine (inj_countable'
    (fun x => match x with
     | RRegisterPeer p => inl p
     | RRegisterPeerResponse request_pk => inr (inl request_pk)
     | RPunchHoleRequest r => inr (inr (inl r))
     | RPunchHoleResponse r => inr (inr (inr (inl r)))
     | RRegisterPk r => inr (inr (inr (inr (inl r))))
     | RRegisterPkResponse r => inr (inr (inr (inr (inr (inl r)))))
     | RRequestRelay r => inr (inr (inr (inr (inr (inr (inl r))))))
     | RRelayResponse r => inr (inr (inr (inr (inr (inr (inr (inl r)))))))
     | RKeyExchange keys => inr (inr (inr (inr (inr (inr (inr (inr (inl keys))))))))
     | ROther tag rest => inr (inr (inr (inr (inr (inr (inr (inr (inr (tag, rest)))))))))
     end)
    (fun y => match y with
     | inl p => RRegisterPeer p
     | inr (inl request_pk) => RRegisterPeerResponse request_pk
     | inr (inr (inl r)) => RPunchHoleRequest r
     | inr (inr (inr (inl r))) => RPunchHoleResponse r
     | inr (inr (inr (inr (inl r)))) => RRegisterPk r
     | inr (inr (inr (inr (inr (inl r))))) => RRegisterPkResponse r
     | inr (inr (inr (inr (inr (inr (inl r)))))) => RRequestRelay r
     | inr (inr (inr (inr (inr (inr (inr (inl r))))))) => RRelayResponse r
     | inr (inr (inr (inr (inr (inr (inr (inr (inl keys)))))))) => RKeyExchange keys
     | inr (inr (inr (inr (inr (inr (inr (inr (inr (tag, rest))))))))) => ROther tag rest
     end) _). by intros [].
Defined.

Fixpoint positive_bytes (p : positive) : bytes :=
  match p with xH => [x02] | xO p' => x00 :: positive_bytes p' | xI p' => x01 :: positive_bytes p' end.
Fixpoint bytes_positive (b : bytes) : option positive :=
  match b with
  | [x02] => Some xH
  | x00 :: b' => xO <$> bytes_positive b'
  | x01 :: b' => xI <$> bytes_positive b'
  | _ => None
  end.

Lemma bytes_positive_bytes p : bytes_positive (positive_bytes p) = Some p.
Proof.
  induction p as [p IH|p IH|]; simpl; [|by rewrite IH|done].
  destruct (positive_bytes p); rewrite IH; done.
Qed.

Definition toy_decode {A} `{Countable A} (b : bytes) : Res (option A) :=
  match b with
  | [] => Ok None
  | _ => match bytes_positive b ≫= countable.decode with
         | Some m => Ok m
         | None => Err (anyhow "failed to decode Protobuf message")
         end
  end.
Definition toy_codec (A : Type) `{Countable A} : ProtoCodec (option A) := {|
  encode := fun m => positive_bytes (countable.encode m);
  decode := toy_decode;
  debug := fun m => match m with Some _ => "Some(..)" | None => "None" end%string
|}.

Lemma toy_codec_laws (A : Type) `{Countable A} : ProtoLaws (toy_codec A).
Proof.
  constructor; [|done]. intros m. cbn. unfold toy_decode.
  pose proof (bytes_positive_bytes (countable.encode m)) as E.
  destruct (positive_bytes (countable.encode m)) eqn:Eb; [done|].
  rewrite E. cbn [mbind option_bind]. by rewrite countable.decode_encode.
Qed.
