(* ===== verification/Inbox.v ===== *)
(** * Exchanging protobuf messages over an encrypted stream

    The idiom every component repeats: encode and send; or receive, decode, and look at the
    union, in a loop that skips what it does not understand.  [inbox] describes what a peer sends,
    and [recv_loop_skips] is how such a loop goes through it. *)

From Stdlib Require Import ZArith Lia.
From Stdlib Require Import Strings.Byte Strings.String.
From stdpp Require Import base list option numbers.
From S2P Require Import Prelude RustStr Async Transport Crypto Proto.

Local Open Scope Z_scope.
Local Open Scope async_scope.

Section exchange.
Context {T : Type} `{Transport T} `{CryptoLib} `{ProtoCodec Message}.

(** [file_transfer::send_message]: encode a [Message] and send it encrypted. *)
Definition send_message (msg : Message) : M (EncryptedStream T) unit := es_send (encode msg).

(** [stream.recv().await.context(c1)?] then [Message::decode(raw).context(c2)?] *)
Definition recv_message (c1 c2 : string) : M (EncryptedStream T) Message :=
  let* raw := context c1 es_recv in
  lift (map_err (add_context c2) (decode raw)).

(** [loop { receive; match message.union { .. } }] *)
Definition recv_loop {A} (c1 c2 : string) (f : Message -> M (EncryptedStream T) (unit + A))
    : M (EncryptedStream T) A :=
  loop es_pending (fun _ => let* m := recv_message c1 c2 in f m) tt.
End exchange.

(** ** Bounds *)

Section bounds.
Context {T : Type} `{TransportOk T} `{CryptoLib} `{ProtoCodec Message}.

Lemma send_message_timely m : timely (send_message m).
Proof. apply es_send_timely. Qed.
Lemma send_message_spinless m : spinless (send_message m).
Proof. apply es_send_spinless. Qed.
Lemma recv_message_timely c1 c2 : timely (recv_message c1 c2).
Proof. unfold recv_message. timely_tac. Qed.
Lemma recv_message_spinless c1 c2 : spinless (recv_message c1 c2).
Proof. unfold recv_message. spinless_tac. Qed.

Lemma recv_message_uses c1 c2 dl t s m t' s' :
  recv_message c1 c2 dl t s = (Done m, t', s') -> (es_pending s' < es_pending s)%nat.
Proof.
  unfold recv_message. intros E. apply bind_done_inv in E as (raw & t1 & s1 & E1 & E).
  apply context_done_inv in E1. apply es_recv_uses in E1.
  destruct (decode raw); simpl in E; by simplify_eq.
Qed.

Lemma recv_message_shrinks c1 c2 : shrinks es_pending (recv_message c1 c2).
Proof.
  unfold recv_message. apply shrinks_bind; [apply shrinks_context, es_recv_shrinks|].
  intros raw. apply shrinks_lift.
Qed.

Lemma recv_loop_shrinks {A} c1 c2 (f : Message -> M (EncryptedStream T) (unit + A)) :
  (forall m, shrinks es_pending (f m)) -> shrinks es_pending (recv_loop c1 c2 f).
Proof.
  intros Hf. apply shrinks_loop. intros _. apply shrinks_bind; [apply recv_message_shrinks|done].
Qed.

Lemma recv_loop_timely {A} c1 c2 (f : Message -> M (EncryptedStream T) (unit + A)) :
  (forall m, timely (f m)) -> timely (recv_loop c1 c2 f).
Proof. intros Hf. apply timely_loop. intros _. apply timely_bind; [apply recv_message_timely|done]. Qed.

Lemma recv_loop_spinless {A} c1 c2 (f : Message -> M (EncryptedStream T) (unit + A)) :
  (forall m, spinless (f m)) ->
  (forall m dl t s, (es_pending (f m dl t s).2 <= es_pending s)%nat) ->
  spinless (recv_loop c1 c2 f).
Proof.
  intros Hf Hp. apply spinless_loop.
  - intros _. apply spinless_bind; [apply recv_message_spinless|done].
  - intros _ dl t s x' t' s' E. apply bind_done_inv in E as (m & t1 & s1 & E1 & E2).
    apply recv_message_uses in E1. specialize (Hp m dl t1 s1). rewrite E2 in Hp. simpl in Hp. lia.
Qed.
End bounds.

#[export] Hint Resolve send_message_timely recv_message_timely recv_loop_timely : timely.
#[export] Hint Resolve send_message_spinless recv_message_spinless : spinless.

(** ** What a peer sends *)

(** A message, or [None] for a heartbeat frame, which decodes as an empty message. *)
Abbreviation inbox := (list (Z * option Message)).
Definition seen (m : option Message) : Message := default None m.
Definition wire_items `{ProtoCodec Message} (l : inbox) : list (Z * option bytes) :=
  map (fun x => (x.1, encode <$> x.2)) l.

(** The clock after everything in [l] has arrived. *)
Definition arrival (t : Z) (l : inbox) : Z := foldl (fun t x => Z.max t x.1) t l.
(** Before the deadline, if there is one. *)
Definition on_time (dl : option Z) (a : Z) : Prop :=
  match dl with Some d => a <= d | None => True end.
(** Nothing before or at a given moment. *)
Definition first_after (t : Z) (l : inbox) : Prop := match l with [] => True | (a, _) :: _ => t < a end.
(** The receiving side is the same: nothing received or re-keyed in between. *)
Definition same_inbox (s s' : EncryptedStream NetTransport) : Prop :=
  net_in (es_inner s') = net_in (es_inner s) /\ es_key s' = es_key s /\ recv_seq s' = recv_seq s /\
  last_recv_at s' = last_recv_at s.
Lemma same_inbox_trans s1 s2 s3 : same_inbox s1 s2 -> same_inbox s2 s3 -> same_inbox s1 s3.
Proof. unfold same_inbox. intros (? & ? & ? & ?) (? & ? & ? & ?). split_and!; congruence. Qed.

Lemma arrival_snoc t l a m : arrival t (l ++ [(a, m)]) = Z.max (arrival t l) a.
Proof. unfold arrival. by rewrite foldl_app. Qed.

Lemma wait_until_on_time {S} a dl t (s : S) :
  on_time dl a -> wait_until a dl t s = (Done tt, Z.max t a, s).
Proof.
  intros Ha. unfold wait_until. destruct (a <=? t) eqn:E; rd_bool; [by rewrite Z.max_l by lia|].
  rewrite Z.max_r by lia. destruct dl as [d|]; [|done]. simpl in Ha.
  destruct (d <? a) eqn:E2; rd_bool; [lia|done].
Qed.

Section inbox.
Context (C : CryptoLib) {L : CryptoLaws C} (P : ProtoCodec Message) {PL : ProtoLaws P}.

Definition delivers_msgs (l : inbox) (s : EncryptedStream NetTransport) : Prop :=
  delivers C (wire_items l) s.

Lemma decode_seen m : decode (item_text (encode <$> m)) = Ok (seen m).
Proof. destruct m as [m|]; simpl; [apply decode_encode|apply decode_nil]. Qed.

Lemma recv_message_run c1 c2 a m l dl t s :
  delivers_msgs ((a, m) :: l) s -> on_time dl a ->
  recv_message c1 c2 dl t s =
  (Done (seen m), Z.max t a, after_recv C (encode <$> m) (wire_items l) (Z.max t a) s).
Proof.
  intros Hd Ha. unfold recv_message, bind, context.
  rewrite (es_recv_wait C a (encode <$> m) (wire_items l)) by done.
  unfold bind. rewrite wait_until_on_time by done. rewrite decode_seen. done.
Qed.

Lemma delivers_msgs_after a m l t s :
  delivers_msgs ((a, m) :: l) s -> delivers_msgs l (after_recv C (encode <$> m) (wire_items l) t s).
Proof. intros [_ Hs]. apply Forall_cons_1 in Hs as [_ Hs]. by apply delivers_after. Qed.

(** No message before the deadline: the receive is cut off there. *)
Lemma es_recv_late l d t s :
  delivers_msgs l s -> net_end (es_inner s) = Never -> t <= d -> first_after d l ->
  es_recv (Some d) t s = (Cut, d, s).
Proof.
  intros Hd He Ht Hl. destruct l as [|[a m] l].
  - destruct Hd as [Hin _]. simpl in Hin. unfold es_recv, bind, zoom. cbn.
    unfold net_recv. rewrite Hin, He. cbn. rewrite Z.max_r by lia. by destruct s.
  - cbn in Hl. rewrite (es_recv_wait C a (encode <$> m) (wire_items l)) by done. unfold bind, wait_until.
    rewrite (proj2 (Z.leb_gt _ _)), (proj2 (Z.ltb_lt _ _)) by lia. by rewrite Z.max_r by lia.
Qed.
Lemma recv_message_late c1 c2 l d t s :
  delivers_msgs l s -> net_end (es_inner s) = Never -> t <= d -> first_after d l ->
  recv_message c1 c2 (Some d) t s = (Cut, d, s).
Proof. intros Hd He Ht Hl. unfold recv_message, bind, context. by rewrite (es_recv_late l). Qed.

Lemma delivers_same_inbox l s s' :
  same_inbox s s' -> delivers_msgs l s -> delivers_msgs l s'.
Proof. intros (E1 & E2 & E3 & _) [Hin Hs]. split; [by rewrite E1, E2, E3|done]. Qed.

(** A receive loop goes through the messages it does not act on.  [I] is whatever the loop's
    handler needs and keeps about the stream. *)
Lemma recv_loop_skips {A} c1 c2 (f : Message -> M (EncryptedStream NetTransport) (unit + A))
    (I : EncryptedStream NetTransport -> Prop) dl skipped later fuel t s :
  (forall i l t s, I s -> I (after_recv C i l t s)) ->
  Forall (fun x => on_time dl x.1 /\ forall t s, I s -> exists s',
    f (seen x.2) dl t s = (Done (inl tt), t, s') /\ same_inbox s s' /\ I s') skipped ->
  delivers_msgs (skipped ++ later) s -> I s -> (length skipped <= fuel)%nat ->
  exists s', iter fuel (fun _ => let* m := recv_message c1 c2 in f m) tt dl t s =
             iter (fuel - length skipped) (fun _ => let* m := recv_message c1 c2 in f m) tt dl
                  (arrival t skipped) s' /\
    delivers_msgs later s' /\ I s'.
Proof.
  intros HI Hskip. revert fuel t s.
  induction Hskip as [|[a m] skipped [Ha Hm] _ IH]; intros fuel t s Hd HIs Hf.
  - exists s. by rewrite Nat.sub_0_r.
  - destruct fuel as [|fuel]; [simpl in Hf; lia|]. simpl in Ha, Hm, Hd.
    rewrite iter_S. unfold bind at 1. unfold bind at 1.
    rewrite (recv_message_run c1 c2 a m (skipped ++ later)) by done.
    set (s1 := after_recv _ _ _ _ _).
    assert (I s1) as HI1 by by apply HI.
    destruct (Hm (Z.max t a) s1 HI1) as (s2 & -> & Hsame & HI2).
    destruct (IH fuel (Z.max t a) s2) as (s3 & E & Hd3 & HI3).
    + eapply delivers_same_inbox; [done|]. by eapply delivers_msgs_after.
    + done.
    + simpl in Hf. lia.
    + exists s3. split; [|done]. rewrite E. done.
Qed.

(** The frames still to come bound the number of messages. *)
Lemma delivers_pending l s : delivers_msgs l s -> es_pending s = length l.
Proof.
  intros [Hin _]. unfold es_pending. cbn. rewrite Hin. clear Hin.
  generalize (recv_seq s). induction l as [|[a m] l IH]; intros q; [done|].
  simpl. destruct m; simpl; by rewrite IH.
Qed.

(** ... up to the first message it acts on. *)
Lemma recv_loop_finds {A} c1 c2 (f : Message -> M (EncryptedStream NetTransport) (unit + A))
    (I : EncryptedStream NetTransport -> Prop) dl skipped a m rest t s :
  (forall i l t s, I s -> I (after_recv C i l t s)) ->
  Forall (fun x => on_time dl x.1 /\ forall t s, I s -> exists s',
    f (seen x.2) dl t s = (Done (inl tt), t, s') /\ same_inbox s s' /\ I s') skipped ->
  delivers_msgs (skipped ++ (a, m) :: rest) s -> I s -> on_time dl a ->
  exists s' fuel, recv_loop c1 c2 f dl t s =
    bind (f (seen m)) (fun r => match r with
      | inl x => iter fuel (fun _ => let* m := recv_message c1 c2 in f m) x | inr b => ret b end)
      dl (arrival t (skipped ++ [(a, m)])) s' /\
    delivers_msgs rest s' /\ I s'.
Proof.
  intros HI Hskip Hd HIs Ha. unfold recv_loop, loop.
  rewrite (delivers_pending _ _ Hd), length_app. cbn [length].
  destruct (recv_loop_skips c1 c2 f I dl skipped ((a, m) :: rest)
    (S (length skipped + S (length rest))) t s HI Hskip Hd HIs ltac:(lia)) as (s1 & -> & Hd1 & HI1).
  replace (S (length skipped + S (length rest)) - length skipped)%nat with (S (S (length rest))) by lia.
  eexists _, (S (length rest)). split.
  - rewrite iter_S. unfold bind at 1. unfold bind at 1.
    rewrite (recv_message_run c1 c2 a m rest) by done.
    rewrite arrival_snoc. unfold bind at 2. done.
  - split; [by eapply delivers_msgs_after|by apply HI].
Qed.

(** ... or until the deadline, when none comes. *)
Lemma recv_loop_cut {A} c1 c2 (f : Message -> M (EncryptedStream NetTransport) (unit + A))
    (I : EncryptedStream NetTransport -> Prop) d skipped late t s :
  (forall i l t s, I s -> I (after_recv C i l t s)) ->
  (forall s, I s -> net_end (es_inner s) = Never) ->
  Forall (fun x => on_time (Some d) x.1 /\ forall t s, I s -> exists s',
    f (seen x.2) (Some d) t s = (Done (inl tt), t, s') /\ same_inbox s s' /\ I s') skipped ->
  delivers_msgs (skipped ++ late) s -> I s -> t <= d ->
  match late with [] => True | (a, _) :: _ => d < a end ->
  exists s', recv_loop c1 c2 f (Some d) t s = (Cut, d, s') /\ delivers_msgs late s' /\ I s'.
Proof.
  intros HI HIe Hskip Hd HIs Ht Hl. unfold recv_loop, loop.
  rewrite (delivers_pending _ _ Hd), length_app.
  destruct (recv_loop_skips c1 c2 f I (Some d) skipped late
    (S (length skipped + length late)) t s HI Hskip Hd HIs ltac:(lia)) as (s1 & -> & Hd1 & HI1).
  exists s1. split; [|done].
  replace (S (length skipped + length late) - length skipped)%nat with (S (length late)) by lia.
  rewrite iter_S. unfold bind at 1. unfold bind at 1. rewrite (recv_message_late c1 c2 late); auto.
  clear -Hskip Ht. revert t Ht. induction Hskip as [|x l [Hx _] _ IH]; intros t Ht; [done|].
  cbn. apply IH. simpl in Hx. lia.
Qed.

(** ... or for ever, when none comes and there is no deadline. *)
Lemma recv_loop_hangs {A} c1 c2 (f : Message -> M (EncryptedStream NetTransport) (unit + A))
    (I : EncryptedStream NetTransport -> Prop) skipped t s :
  (forall i l t s, I s -> I (after_recv C i l t s)) ->
  (forall s, I s -> net_end (es_inner s) = Never) ->
  Forall (fun x => on_time None x.1 /\ forall t s, I s -> exists s',
    f (seen x.2) None t s = (Done (inl tt), t, s') /\ same_inbox s s' /\ I s') skipped ->
  delivers_msgs skipped s -> I s ->
  exists s', recv_loop c1 c2 f None t s = (Hang, arrival t skipped, s') /\ I s'.
Proof.
  intros HI HIe Hskip Hd HIs. unfold recv_loop, loop. rewrite (delivers_pending _ _ Hd).
  rewrite <- (app_nil_r skipped) in Hd.
  destruct (recv_loop_skips c1 c2 f I None skipped [] (S (length skipped)) t s HI Hskip Hd HIs ltac:(lia))
    as (s1 & -> & [Hin _] & HI1).
  exists s1. split; [|done]. replace (S (length skipped) - length skipped)%nat with 1%nat by lia.
  rewrite iter_S. unfold bind at 1. unfold bind at 1, recv_message, bind at 1, context, es_recv, bind at 1, zoom.
  cbn [t_recv NetTransport_transport]. unfold net_recv. rewrite Hin, (HIe _ HI1). cbn. by destruct s1.
Qed.
End inbox.

(** Handlers that look at a message and go on, without touching the stream. *)
Lemma skip_pure {A} (f : Message -> M (EncryptedStream NetTransport) (unit + A))
    (I : EncryptedStream NetTransport -> Prop) dl (l : inbox) :
  Forall (fun x => on_time dl x.1 /\ f (seen x.2) = ret (inl tt)) l ->
  Forall (fun x => on_time dl x.1 /\ forall t s, I s -> exists s',
    f (seen x.2) dl t s = (Done (inl tt), t, s') /\ same_inbox s s' /\ I s') l.
Proof.
  apply Forall_impl. intros x [Hx Hf]. split; [done|]. intros t s HI. exists s. by rewrite Hf.
Qed.

(** ** What has been said to the peer

    [has_sent C P s0 l s]: since [s0] exactly the messages [l] went out on [s], in order, and its
    connection still works. *)

Section said.
Context (C : CryptoLib) {L : CryptoLaws C} (P : ProtoCodec Message).

(** A message the transport takes. *)
Definition fits (m : Message) : Prop := Z.of_nat (length (encode m)) + 16 <= max_frame.

Definition sent_items (l : list Message) : list (option bytes) := map (fun m => Some (encode m)) l.

Record has_sent (s0 : EncryptedStream NetTransport) (l : list Message) (s : EncryptedStream NetTransport)
    : Prop := {
  hs_key : es_key s = es_key s0;
  hs_faults : net_faults (es_inner s) = [];
  hs_end : net_end (es_inner s) = Never;
  hs_seq : send_seq s = seq_after (send_seq s0) (sent_items l);
  hs_out : net_out (es_inner s) =
    net_out (es_inner s0) ++ sealed_frames (es_key s0) (send_seq s0) (sent_items l)
}.

Lemma has_sent_nil s : net_faults (es_inner s) = [] -> net_end (es_inner s) = Never -> has_sent s [] s.
Proof. constructor; try done. cbn. by rewrite app_nil_r. Qed.

Lemma has_sent_recv s0 l i r t s : has_sent s0 l s -> has_sent s0 l (after_recv C i r t s).
Proof. by intros []. Qed.

Lemma sealed_frames_snoc key seq l i :
  sealed_frames key seq (l ++ [i]) = sealed_frames key seq l ++ sealed_frames key (seq_after seq l) [i].
Proof. revert seq. induction l as [|[p|] l IH]; intros seq; cbn; [done|by rewrite IH..]. Qed.
Lemma seq_after_snoc seq l i : seq_after seq (l ++ [i]) = seq_after (seq_after seq l) [i].
Proof. revert seq. induction l as [|[p|] l IH]; intros seq; cbn; by rewrite ?IH. Qed.

Lemma has_sent_send s0 l m dl t s : has_sent s0 l s -> fits m ->
  exists s', es_send (encode m) dl t s = (Done tt, t, s') /\ has_sent s0 (l ++ [m]) s' /\ same_inbox s s'.
Proof.
  intros [Hk Hf He Hq Ho] Hm. eexists. split; [by apply es_send_run|]. split; [|done].
  constructor; cbn; try done; unfold sent_items in *; rewrite map_app; cbn [map].
  - by rewrite seq_after_snoc, <- Hq.
  - by rewrite Ho, Hk, sealed_frames_snoc, <- app_assoc, Hq.
Qed.
End said.
