(* ===== verification/Terminal.v ===== *)
(** * The remote terminal (src/terminal.rs)

    [open_terminal] and the data, resize and close operations over any transport; the part of
    [connect_terminal] that follows the login is [settle_terminal].  zstd is a parameter. *)

From Stdlib Require Import ZArith Lia.
From Stdlib Require Import Strings.Byte Strings.Ascii Strings.String.
From stdpp Require Import base list option numbers.
From S2P Require Import Prelude RustStr Async Transport Crypto Proto Inbox.

Local Open Scope Z_scope.
Local Open Scope async_scope.

(** [zstd::encode_all(_, 3)] and [zstd::decode_all] *)
Class Zstd : Type := {
  zstd_encode : bytes -> Res bytes;
  zstd_decode : bytes -> Res bytes
}.
Class ZstdLaws (Zs : Zstd) : Prop := {
  zstd_decode_encode : forall b c, zstd_encode b = Ok c -> zstd_decode c = Ok b
}.

(** ** Types and constants *)

Record TerminalInfo : Type := mkTerminalInfo {
  ti_terminal_id : Z;
  ti_pid : Z;
  ti_service_id : string
}.

Inductive TerminalEvent : Type :=
| TData (data : bytes)
| TClosed (exit_code : Z)
| TError (msg : string).

(** Durations are in milliseconds. *)
Definition TERMINAL_RESPONSE_TIMEOUT : Z := 15000.
Definition OPEN_TERMINAL_TIMEOUT : Z := 15000.
Definition INITIAL_TERMINAL_OPENED_PROBE_TIMEOUT : Z := 2000.
Definition COMPRESS_THRESHOLD : Z := 1024.

(** [default_terminal_size], given the environment variables LINES and COLUMNS. *)
Definition env_size (v : option string) (dflt : Z) : Z :=
  match v ≫= parse_u32 with
  | Some n => if 0 <? n then n else dflt
  | None => dflt
  end.
Definition default_terminal_size (lines columns : option string) : Z * Z :=
  (env_size lines 24, env_size columns 80).

Definition terminal_info_from_opened (opened : TerminalOpened) : Res TerminalInfo :=
  if negb (topen_success opened) then
    Err (anyhow ("remote refused to open terminal: " ++ topen_message opened)%string)
  else
    Ok (mkTerminalInfo (topen_terminal_id opened) (topen_pid opened) (topen_service_id opened)).

(** [Duration::as_secs_f64] printed: whole seconds, or with up to three decimals. *)
Definition show_secs_f64 (ms : Z) : string :=
  let whole := show_Z (ms / 1000) in
  let frac := ms mod 1000 in
  if frac =? 0 then whole
  else (whole ++ "." ++ trim_end_matches ["0"%char]
          (str_drop 1 (show_Z (1000 + frac))))%string.

Definition terminal_response_timeout_error (d : Z) : Error :=
  anyhow ("timed out waiting for TerminalResponse after " ++ show_secs_f64 d ++ "s")%string.

Definition is_terminal_response_timeout (err : Error) : bool :=
  contains "timed out waiting for TerminalResponse after" (error_render err).

Section terminal.
Context {T : Type} `{Transport T} `{CryptoLib} `{ProtoCodec Message} `{Zstd}.

Definition send_action (action : TerminalActionUnion) : M (EncryptedStream T) unit :=
  es_send (encode (Some (UTerminalAction (Some action)))).

(** The match of the receive loop. *)
Definition on_terminal_message (msg : Message) : M (EncryptedStream T) (unit + TerminalResponseUnion) :=
  match msg with
  | Some (UTerminalResponse (Some inner)) => ret (inr inner)
  | Some (UTerminalResponse None) => fail (anyhow "TerminalResponse with empty union")
  | _ => ret (inl tt)
  end.

Definition recv_terminal_response (d : Z) : M (EncryptedStream T) TerminalResponseUnion :=
  timeout_or d (terminal_response_timeout_error d)
    (recv_loop "reading terminal response" "decoding Message" on_terminal_message).

Definition open_terminal (rows cols : Z) : M (EncryptedStream T) TerminalInfo :=
  context "sending OpenTerminal" (send_action (TAOpen 0 rows cols)) ;;;
  let* resp := (let* r := timeout OPEN_TERMINAL_TIMEOUT
                           (recv_terminal_response TERMINAL_RESPONSE_TIMEOUT) in
                match r with
                | None => fail (anyhow "timed out waiting for TerminalOpened after 15s")
                | Some (Ok resp) => ret resp
                | Some (Err e) => fail (add_context "waiting for TerminalOpened" e)
                end) in
  match resp with
  | TROpened opened => lift (terminal_info_from_opened opened)
  | TRError _ m => fail (anyhow ("terminal error on open: " ++ m)%string)
  | other => fail (anyhow ("expected TerminalOpened, got " ++ debug (Some (UTerminalResponse (Some other))))%string)
  end.

(** [connect_terminal] after the login: probe for an early [TerminalOpened], else ask for one. *)
Definition settle_terminal (lines columns : option string) : M (EncryptedStream T) TerminalInfo :=
  let* r := timeout INITIAL_TERMINAL_OPENED_PROBE_TIMEOUT
              (recv_terminal_response TERMINAL_RESPONSE_TIMEOUT) in
  match r with
  | Some (Ok (TROpened opened)) =>
    lift (map_err (add_context "processing initial TerminalOpened after login")
            (terminal_info_from_opened opened))
  | Some (Ok (TRError _ m)) => fail (anyhow ("terminal error after login: " ++ m)%string)
  | Some (Ok other) =>
    fail (anyhow ("expected TerminalOpened after terminal login, got "
                    ++ debug (Some (UTerminalResponse (Some other))))%string)
  | Some (Err e) => fail (add_context "waiting for initial TerminalOpened" e)
  | None =>
    let '(rows, cols) := default_terminal_size lines columns in
    context "opening remote terminal" (open_terminal rows cols)
  end.

Definition terminal_payload (data : bytes) : Res (bytes * bool) :=
  if COMPRESS_THRESHOLD <? Z.of_nat (length data) then
    map_err (add_context "zstd compression failed") (zstd_encode data) ≫= fun c => Ok (c, true)
  else Ok (data, false).

Definition send_terminal_data (terminal_id : Z) (data : bytes) : M (EncryptedStream T) unit :=
  let* '(payload, compressed) := lift (terminal_payload data) in
  context "sending TerminalData"
    (send_action (TAData (mkTerminalData terminal_id payload compressed))).

Definition terminal_data (td : TerminalData) : Res bytes :=
  if tdata_compressed td
  then map_err (add_context "zstd decompression of terminal data failed") (zstd_decode (tdata_data td))
  else Ok (tdata_data td).

Definition recv_terminal_data_with_timeout (d : Z) : M (EncryptedStream T) TerminalEvent :=
  let* resp := context "receiving terminal data" (recv_terminal_response d) in
  match resp with
  | TRData td => let* data := lift (terminal_data td) in ret (TData data)
  | TRClosed _ exit_code => ret (TClosed exit_code)
  | TRError _ m => ret (TError m)
  | TROpened _ => fail (anyhow "unexpected TerminalOpened during data receive")
  end.

Definition recv_terminal_data : M (EncryptedStream T) TerminalEvent :=
  recv_terminal_data_with_timeout TERMINAL_RESPONSE_TIMEOUT.

Definition resize_terminal (terminal_id rows cols : Z) : M (EncryptedStream T) unit :=
  context "sending ResizeTerminal" (send_action (TAResize terminal_id rows cols)).

Definition close_terminal (terminal_id : Z) : M (EncryptedStream T) unit :=
  context "sending CloseTerminal" (send_action (TAClose terminal_id)).
End terminal.

(** ** Bounds *)

Section bounds.
Context {T : Type} `{TransportOk T} `{CryptoLib} `{ProtoCodec Message} `{Zstd}.

Lemma on_terminal_message_timely m : timely (@on_terminal_message T m).
Proof. unfold on_terminal_message. timely_tac. Qed.
Lemma on_terminal_message_pure m dl t (s : EncryptedStream T) : (on_terminal_message m dl t s).2 = s.
Proof. unfold on_terminal_message. by repeat case_match. Qed.
Lemma on_terminal_message_spinless m : spinless (@on_terminal_message T m).
Proof. unfold on_terminal_message. spinless_tac. Qed.

Lemma recv_terminal_response_timely d : 0 <= d -> timely (recv_terminal_response d).
Proof.
  intros Hd. unfold recv_terminal_response. apply timely_timeout_or; [done|].
  apply recv_loop_timely, on_terminal_message_timely.
Qed.
Lemma recv_terminal_response_spinless d : spinless (recv_terminal_response d).
Proof.
  unfold recv_terminal_response. apply spinless_timeout_or.
  apply recv_loop_spinless; [apply on_terminal_message_spinless|].
  intros m dl t s. by rewrite on_terminal_message_pure.
Qed.

Lemma recv_terminal_response_uses d dl t s r t' s' :
  recv_terminal_response d dl t s = (Done r, t', s') -> (es_pending s' < es_pending s)%nat.
Proof.
  intros E. apply timeout_or_done_inv in E as [dl' E]. eapply loop_uses; [|exact E].
  intros u t1 s1 r1 t2 s2 Eb. apply bind_done_inv in Eb as (m & t3 & s3 & E1 & E2).
  apply recv_message_uses in E1. pose proof (on_terminal_message_pure m dl' t3 s3) as Hp.
  rewrite E2 in Hp. simpl in Hp. by subst.
Qed.

Lemma recv_terminal_data_takes d : 0 <= d -> takes d (recv_terminal_data_with_timeout d).
Proof.
  intros Hd t s.
  pose proof (timeout_or_bounded d (terminal_response_timeout_error d)
    (recv_loop "reading terminal response" "decoding Message" on_terminal_message) t s Hd
    (recv_loop_timely _ _ _ on_terminal_message_timely)
    (recv_loop_spinless _ _ _ on_terminal_message_spinless
       (fun m dl t s => eq_ind_r (fun x => (es_pending x <= _)%nat) (le_n _) (on_terminal_message_pure m dl t s)))) as B.
  unfold run in *. unfold recv_terminal_data_with_timeout, bind, context, recv_terminal_response.
  destruct (timeout_or d _ _ None t s) as [[[r|e| | |] t'] s']; try done.
  destruct r as [o|td|tid c|tid m]; try done. by destruct (terminal_data td).
Qed.

Lemma recv_terminal_data_uses d dl t s ev t' s' :
  recv_terminal_data_with_timeout d dl t s = (Done ev, t', s') -> (es_pending s' < es_pending s)%nat.
Proof.
  intros E. apply bind_done_inv in E as (r & t1 & s1 & E1 & E2). apply context_done_inv in E1.
  apply recv_terminal_response_uses in E1.
  destruct r as [o|td|tid c|tid m]; [done| |by cbn in E2; simplify_eq..].
  apply bind_done_inv in E2 as (data & t2 & s2 & E3 & E4). cbn in E4.
  destruct (terminal_data td); cbn in E3; by simplify_eq.
Qed.

Lemma recv_terminal_data_timely d : 0 <= d -> timely (recv_terminal_data_with_timeout d).
Proof.
  intros Hd. unfold recv_terminal_data_with_timeout.
  apply timely_bind; [apply timely_context; by apply recv_terminal_response_timely|].
  intros []; timely_tac.
Qed.
Lemma recv_terminal_data_spinless d : spinless (recv_terminal_data_with_timeout d).
Proof.
  unfold recv_terminal_data_with_timeout.
  apply spinless_bind; [apply spinless_context, recv_terminal_response_spinless|].
  intros []; spinless_tac.
Qed.
Lemma recv_terminal_data_shrinks d : shrinks es_pending (recv_terminal_data_with_timeout d).
Proof.
  unfold recv_terminal_data_with_timeout. apply shrinks_bind.
  - apply shrinks_context, shrinks_timeout_or, recv_loop_shrinks. intros m dl t s.
    by rewrite on_terminal_message_pure.
  - intros [o|td|tid c|tid m]; auto with shrinks. apply shrinks_bind; auto with shrinks.
Qed.

Lemma open_terminal_timely rows cols : timely (open_terminal rows cols).
Proof.
  unfold open_terminal, send_action. 
  apply timely_bind; [apply timely_context, es_send_timely|]. intros _.
  apply timely_bind; [|intros []; timely_tac].
  apply timely_bind; [apply timely_timeout; [done|]; by apply recv_terminal_response_timely|].
  intros [[r|e]|]; timely_tac.
Qed.
Lemma open_terminal_spinless rows cols : spinless (open_terminal rows cols).
Proof.
  unfold open_terminal, send_action.
  apply spinless_bind; [apply spinless_context, es_send_spinless|]. intros _.
  apply spinless_bind; [|intros []; spinless_tac].
  apply spinless_bind; [apply spinless_timeout, recv_terminal_response_spinless|].
  intros [[r|e]|]; spinless_tac.
Qed.
Lemma open_terminal_uses rows cols dl t s info t' s' :
  open_terminal rows cols dl t s = (Done info, t', s') -> (es_pending s' <= es_pending s)%nat.
Proof.
  intros E. apply bind_done_inv in E as (u & t1 & s1 & E1 & E). apply context_done_inv in E1.
  pose proof (es_send_keeps (encode (Some (UTerminalAction (Some (TAOpen 0 rows cols))))) dl t s) as Hk.
  unfold send_action in E1. rewrite E1 in Hk. simpl in Hk.
  apply bind_done_inv in E as (r & t2 & s2 & E2 & E).
  apply bind_done_inv in E2 as (x & t3 & s3 & E2 & E3).
  unfold timeout in E2. 
  destruct (recv_terminal_response _ _ t1 s1) as [[[y|e| | |] t4] s4] eqn:Er; simplify_eq; cbn in E3; simplify_eq.
  - apply recv_terminal_response_uses in Er. destruct r; cbn in E; simplify_eq.
    unfold lift in E. destruct (terminal_info_from_opened _); cbn in E; simplify_eq; lia.
  - by destruct (_ <=? _); simplify_eq; cbn in E3.
Qed.
End bounds.

#[export] Hint Resolve recv_terminal_response_spinless : spinless.

Lemma send_terminal_data_keeps `{TransportOk T} `{CryptoLib} `{ProtoCodec Message} `{Zstd} tid data dl t s :
  es_pending (send_terminal_data tid data dl t s).2 = es_pending s.
Proof.
  unfold send_terminal_data, bind, context, send_action.
  destruct (terminal_payload data) as [[payload flag]|e]; cbn [lift ret fail]; [|done].
  pose proof (es_send_keeps (encode (Some (UTerminalAction (Some (TAData
    (mkTerminalData tid payload flag)))))) dl t s) as Hk.
  by destruct (es_send _ dl t s) as [[[u|e| | |] t'] s'].
Qed.

Lemma close_terminal_instant `{CryptoLib} `{ProtoCodec Message} tid : instant (@close_terminal NetTransport _ _ _ tid).
Proof. apply instant_context, es_send_instant. Qed.
Lemma send_terminal_data_instant `{CryptoLib} `{ProtoCodec Message} `{Zstd} tid data :
  instant (@send_terminal_data NetTransport _ _ _ _ tid data).
Proof.
  apply instant_bind; [apply instant_lift|]. intros [payload flag]. apply instant_context, es_send_instant.
Qed.

(** ** The messages the loop skips and stops at *)

Definition is_terminal_response (m : Message) : bool :=
  match m with Some (UTerminalResponse _) => true | _ => false end.

Lemma on_terminal_skip {T} `{Transport T} m :
  is_terminal_response m = false -> @on_terminal_message T m = ret (inl tt).
Proof. destruct m as [[]|]; done. Qed.

Section runs.
Context (C : CryptoLib) {L : CryptoLaws C} (P : ProtoCodec Message) {PL : ProtoLaws P}.

(** Traffic the terminal layer ignores, arriving before the deadline. *)
Definition terminal_noise (d : Z) (l : inbox) : Prop :=
  Forall (fun x => x.1 <= d /\ is_terminal_response (seen x.2) = false) l.

Lemma noise_skips (I : EncryptedStream NetTransport -> Prop) d l :
  terminal_noise d l ->
  Forall (fun x => on_time (Some d) x.1 /\ forall t s, I s -> exists s',
    on_terminal_message (seen x.2) (Some d) t s = (Done (inl tt), t, s') /\ same_inbox s s' /\ I s') l.
Proof.
  intros Hl. apply skip_pure. eapply Forall_impl; [|exact Hl]. intros x [H1 H2].
  split; [done|by apply on_terminal_skip].
Qed.

Lemma arrival_bound t d l : t <= d -> Forall (fun x => x.1 <= d) l -> t <= arrival t l <= d.
Proof.
  intros Ht Hl. revert t Ht. induction Hl as [|x l Hx _ IH]; intros t Ht; [cbn; lia|].
  change (arrival t (x :: l)) with (arrival (Z.max t x.1) l).
  specialize (IH (Z.max t x.1) ltac:(lia)). lia.
Qed.

(** The first terminal response that comes in time is the result, when it comes. *)
Lemma recv_terminal_response_at (I : EncryptedStream NetTransport -> Prop) dl d noise a r rest t s :
  (forall i l t s, I s -> I (after_recv C i l t s)) ->
  let d' := match dl with Some o => Z.min o (t + d) | None => t + d end in
  terminal_noise d' noise -> a <= d' ->
  delivers_msgs C P (noise ++ (a, Some (Some (UTerminalResponse (Some r)))) :: rest) s -> I s ->
  exists s', recv_terminal_response d dl t s = (Done r, Z.max (arrival t noise) a, s') /\
    delivers_msgs C P rest s' /\ I s'.
Proof.
  intros HI d' Hn Ha Hd HIs.
  destruct (recv_loop_finds C P "reading terminal response" "decoding Message" on_terminal_message I
              (Some d') noise a _ rest t s HI (noise_skips I d' noise Hn) Hd HIs Ha)
    as (s' & fuel & E & Hd' & HI').
  exists s'. split; [|done]. rewrite arrival_snoc in E.
  unfold recv_terminal_response, timeout_or, timeout, bind. fold d'. rewrite E. done.
Qed.

Lemma recv_terminal_response_finds (I : EncryptedStream NetTransport -> Prop) dl d noise a r rest t s :
  (forall i l t s, I s -> I (after_recv C i l t s)) ->
  let d' := match dl with Some o => Z.min o (t + d) | None => t + d end in
  terminal_noise d' noise -> a <= d' -> t <= d' ->
  delivers_msgs C P (noise ++ (a, Some (Some (UTerminalResponse (Some r)))) :: rest) s -> I s ->
  exists t' s', recv_terminal_response d dl t s = (Done r, t', s') /\ t <= t' <= d' /\
    delivers_msgs C P rest s' /\ I s'.
Proof.
  intros HI d' Hn Ha Ht Hd HIs.
  destruct (recv_terminal_response_at I dl d noise a r rest t s HI Hn Ha Hd HIs) as (s' & E & Hd' & HI').
  exists (Z.max (arrival t noise) a), s'. split; [done|]. split; [|done].
  assert (Forall (fun x => x.1 <= d') noise) as Hn' by (eapply Forall_impl; [|exact Hn]; by intros x []).
  pose proof (arrival_bound t d' noise Ht Hn'). lia.
Qed.

(** None in time: the error of the inner timeout, exactly at its deadline. *)
Lemma recv_terminal_response_expires (I : EncryptedStream NetTransport -> Prop) d dl noise late t s :
  (forall i l t s, I s -> I (after_recv C i l t s)) -> (forall s, I s -> net_end (es_inner s) = Never) ->
  0 <= d -> on_time dl (t + d) -> terminal_noise (t + d) noise ->
  match late with [] => True | (a, _) :: _ => t + d < a end ->
  delivers_msgs C P (noise ++ late) s -> I s ->
  exists s', recv_terminal_response d dl t s = (Fail (terminal_response_timeout_error d), t + d, s') /\
    delivers_msgs C P late s' /\ I s'.
Proof.
  intros HI HIe Hd0 Hdl Hn Hlate Hd HIs.
  destruct (recv_loop_cut C P "reading terminal response" "decoding Message" on_terminal_message I
              (t + d) noise late t s HI HIe (noise_skips I _ noise Hn) Hd HIs ltac:(lia) Hlate) as (s' & E & Hd' & HI').
  exists s'. split; [|done]. unfold recv_terminal_response, timeout_or, timeout, bind.
  assert (match dl with Some o => Z.min o (t + d) | None => t + d end = t + d) as ->
    by (destruct dl; cbn in Hdl; lia).
  rewrite E, Z.leb_refl. done.
Qed.

Lemma recv_terminal_response_times_out d noise late t s :
  0 <= d -> terminal_noise (t + d) noise ->
  match late with [] => True | (a, _) :: _ => t + d < a end ->
  delivers_msgs C P (noise ++ late) s -> net_end (es_inner s) = Never ->
  forall dl, match dl with Some o => t + d <= o | None => True end ->
  exists s', recv_terminal_response d dl t s =
    (Fail (terminal_response_timeout_error d), t + d, s') /\
    delivers_msgs C P late s' /\ send_seq s' = send_seq s /\ net_out (es_inner s') = net_out (es_inner s)
    /\ net_faults (es_inner s') = net_faults (es_inner s) /\ net_end (es_inner s') = Never
    /\ es_key s' = es_key s.
Proof.
  intros Hd0 Hn Hlate Hd He dl Hdl.
  set (I := fun s' : EncryptedStream NetTransport =>
    net_end (es_inner s') = Never /\ send_seq s' = send_seq s /\
    net_out (es_inner s') = net_out (es_inner s) /\ net_faults (es_inner s') = net_faults (es_inner s)
    /\ es_key s' = es_key s).
  destruct (recv_terminal_response_expires I d dl noise late t s) as (s' & E & Hd' & HI');
    [by intros i l t0 s0 (? & ? & ? & ? & ?)|by intros s0 []|done..|].
  exists s'. destruct HI' as (? & ? & ? & ? & ?). by split_and!.
Qed.
(** None in time, with a closer deadline around: cut off there. *)
Lemma recv_terminal_response_cut (I : EncryptedStream NetTransport -> Prop) d D noise late t s :
  (forall i l t s, I s -> I (after_recv C i l t s)) -> (forall s, I s -> net_end (es_inner s) = Never) ->
  t <= D -> D < t + d -> terminal_noise D noise -> match late with [] => True | (a, _) :: _ => D < a end ->
  delivers_msgs C P (noise ++ late) s -> I s ->
  exists s', recv_terminal_response d (Some D) t s = (Cut, D, s') /\ delivers_msgs C P late s' /\ I s'.
Proof.
  intros HI HIe Ht HD Hn Hlate Hd HIs.
  destruct (recv_loop_cut C P "reading terminal response" "decoding Message" on_terminal_message I
              D noise late t s HI HIe (noise_skips I D noise Hn) Hd HIs Ht Hlate) as (s' & E & Hd' & HI').
  exists s'. split; [|done]. unfold recv_terminal_response, timeout_or, timeout, bind.
  rewrite Z.min_l by lia. rewrite E. by rewrite (proj2 (Z.leb_gt (t + d) D)).
Qed.

(** A terminal that is opened in time, under the callers' timeout of the same length. *)
Lemma open_terminal_at rows cols noise a opened rest t s0 l s :
  has_sent C P s0 l s -> fits P (Some (UTerminalAction (Some (TAOpen 0 rows cols)))) ->
  terminal_noise (t + OPEN_TERMINAL_TIMEOUT) noise -> a <= t + OPEN_TERMINAL_TIMEOUT -> topen_success opened = true ->
  delivers_msgs C P (noise ++ (a, Some (Some (UTerminalResponse (Some (TROpened opened))))) :: rest) s ->
  exists y, open_terminal rows cols (Some (t + OPEN_TERMINAL_TIMEOUT)) t s =
      (Done (mkTerminalInfo (topen_terminal_id opened) (topen_pid opened) (topen_service_id opened)),
       Z.max (arrival t noise) a, y) /\
    has_sent C P s0 (l ++ [Some (UTerminalAction (Some (TAOpen 0 rows cols)))]) y /\ delivers_msgs C P rest y.
Proof.
  intros Hs Hfit Hn Ha Hok Hd. set (D := Some (t + OPEN_TERMINAL_TIMEOUT)).
  destruct (has_sent_send C P s0 l _ D t s Hs Hfit) as (x & E & Hx & Hin).
  destruct (recv_terminal_response_at (has_sent C P s0 (l ++ [Some (UTerminalAction (Some (TAOpen 0 rows cols)))])) D
    TERMINAL_RESPONSE_TIMEOUT noise a (TROpened opened) rest t x (fun i l t s => has_sent_recv C P _ _ i l t s))
    as (y & Ey & Hdy & Hy);
    [cbn; by rewrite Z.min_id|cbn; by rewrite Z.min_id|by eapply delivers_same_inbox|done|].
  exists y. split; [|done]. unfold open_terminal, send_action, context, bind at 1. rewrite E. unfold timeout, bind.
  unfold D in Ey |- *. rewrite Z.min_id, Ey. cbn. unfold terminal_info_from_opened. by rewrite Hok.
Qed.
End runs.

(** The error of a receive that timed out is recognised by its text, whatever the limit. *)
Lemma terminal_timeout_recognised d :
  is_terminal_response_timeout (add_context "receiving terminal data" (terminal_response_timeout_error d)) = true.
Proof.
  apply contains_spec. exists "receiving terminal data: "%string, (" " ++ show_secs_f64 d ++ "s")%string. done.
Qed.

(** ** Output as it comes *)

(** What the terminal layer ignores, then a piece of data at some time. *)
Record Chunk : Type := mkChunk {
  ck_noise : inbox;
  ck_time : Z;
  ck_data : TerminalData
}.
Definition chunk_msgs (c : Chunk) : inbox :=
  ck_noise c ++ [(ck_time c, Some (Some (UTerminalResponse (Some (TRData (ck_data c))))))].
Definition chunk_clock (t : Z) (c : Chunk) : Z := Z.max (arrival t (ck_noise c)) (ck_time c).
Definition clock_after (t : Z) (l : list Chunk) : Z := foldl chunk_clock t l.

(** Every piece is in time for the round it comes in, which starts when the one before it came. *)
Fixpoint in_pace (ok : Z -> Chunk -> Prop) (t : Z) (l : list Chunk) : Prop :=
  match l with
  | [] => True
  | c :: l' => ok t c /\ in_pace ok (chunk_clock t c) l'
  end.
Definition by_time (d : Z) (c : Chunk) : Prop := terminal_noise d (ck_noise c) /\ ck_time c <= d.
(** Every piece comes within [d] of the one before it. *)
Definition paced (d : Z) : Z -> list Chunk -> Prop := in_pace (fun t c => by_time (t + d) c).

Lemma chunk_clock_le t c : t <= chunk_clock t c.
Proof.
  unfold chunk_clock. enough (t <= arrival t (ck_noise c)) by lia.
  generalize (ck_noise c). intros l. revert t. induction l as [|x l IH]; intros t; [done|].
  change (arrival t (x :: l)) with (arrival (Z.max t x.1) l). specialize (IH (Z.max t x.1)). lia.
Qed.
Lemma clock_after_le t l : t <= clock_after t l.
Proof.
  revert t. induction l as [|c l IH]; intros t; [done|]. cbn.
  pose proof (chunk_clock_le t c). specialize (IH (chunk_clock t c)). unfold clock_after in IH. lia.
Qed.

Section chunks.
Context (C : CryptoLib) {L : CryptoLaws C} (P : ProtoCodec Message) {PL : ProtoLaws P} (Zs : Zstd).

(** The data of the pieces, decompressed. *)
Definition chunk_texts (l : list Chunk) (datas : list bytes) : Prop :=
  Forall2 (fun c data => terminal_data (ck_data c) = Ok data) l datas.

(** A piece in time is received when it comes. *)
Lemma recv_data_chunk (I : EncryptedStream NetTransport -> Prop) dl d c data rest t s :
  (forall i l t s, I s -> I (after_recv C i l t s)) ->
  by_time (match dl with Some o => Z.min o (t + d) | None => t + d end) c ->
  terminal_data (ck_data c) = Ok data ->
  delivers_msgs C P (chunk_msgs c ++ rest) s -> I s ->
  exists s', recv_terminal_data_with_timeout d dl t s = (Done (TData data), chunk_clock t c, s') /\
    delivers_msgs C P rest s' /\ I s'.
Proof.
  intros HI [Hn Ha] Hx Hd HIs. unfold chunk_msgs in Hd. rewrite <- app_assoc in Hd.
  destruct (recv_terminal_response_at C P I dl d _ _ _ _ t s HI Hn Ha Hd HIs) as (s' & E & Hd' & HI').
  exists s'. split; [|done]. unfold recv_terminal_data_with_timeout, bind, context. by rewrite E, Hx.
Qed.

(** A loop that takes one piece a round goes through the pieces.  [stream] is where in the state the
    connection is, [step] what a round does to the loop's variable, [cont] when it goes on, and [J]
    what holds after the pieces so far. *)
Context {S_ St A : Type} (stream : S_ -> EncryptedStream NetTransport) (body : St -> M S_ (St + A))
  (step : St -> bytes -> St) (ok : Z -> Chunk -> Prop) (cont : St -> bytes -> Prop)
  (J : list bytes -> St -> S_ -> Prop).
Hypothesis (Hstep : forall h x c data rest t s,
  ok t c -> terminal_data (ck_data c) = Ok data -> cont x data ->
  delivers_msgs C P (chunk_msgs c ++ rest) (stream s) -> J h x s ->
  exists s', body x None t s = (Done (inl (step x data)), chunk_clock t c, s') /\
    delivers_msgs C P rest (stream s') /\ J (h ++ [data]) (step x data) s').

Fixpoint goes_on (x : St) (datas : list bytes) : Prop :=
  match datas with
  | [] => True
  | data :: datas' => cont x data /\ goes_on (step x data) datas'
  end.

Lemma iter_chunks l datas rest fuel t s h x :
  in_pace ok t l -> chunk_texts l datas -> goes_on x datas ->
  delivers_msgs C P (concat (map chunk_msgs l) ++ rest) (stream s) -> J h x s ->
  exists s', iter (length l + fuel) body x None t s =
      iter fuel body (foldl step x datas) None (clock_after t l) s' /\
    delivers_msgs C P rest (stream s') /\ J (h ++ datas) (foldl step x datas) s'.
Proof.
  intros Hp Hx. revert t s h x Hp. induction Hx as [|c data l datas Hc Hx IH]; intros t s h x Hp Hg Hd HJ.
  - exists s. by rewrite app_nil_r.
  - destruct Hp as [Hok Hp], Hg as [Hg1 Hg]. cbn [map concat] in Hd. rewrite <- app_assoc in Hd.
    destruct (Hstep h x c data _ t s Hok Hc Hg1 Hd HJ) as (s1 & E1 & Hd1 & HJ1).
    destruct (IH _ s1 _ (step x data) Hp Hg Hd1 HJ1) as (s2 & E2 & Hd2 & HJ2).
    exists s2. rewrite <- app_assoc in HJ2. split; [|done]. cbn [length Nat.add]. rewrite iter_S. unfold bind at 1. by rewrite E1, E2.
Qed.

Lemma loop_chunks (meas : S_ -> nat) l datas rest t s x :
  (forall s, meas s = es_pending (stream s)) ->
  in_pace ok t l -> chunk_texts l datas -> goes_on x datas ->
  delivers_msgs C P (concat (map chunk_msgs l) ++ rest) (stream s) -> J [] x s ->
  exists s' fuel, loop meas body x None t s =
      iter (S fuel) body (foldl step x datas) None (clock_after t l) s' /\
    (length rest <= fuel)%nat /\ delivers_msgs C P rest (stream s') /\ J datas (foldl step x datas) s'.
Proof.
  intros Hm Hp Hx Hg Hd HJ. unfold loop. rewrite Hm, (delivers_pending _ _ _ _ Hd).
  assert (exists k, length (concat (map chunk_msgs l) ++ rest) = (length l + k)%nat /\ (length rest <= k)%nat)
    as (k & -> & Hk).
  { exists (length (concat (map chunk_msgs l) ++ rest) - length l)%nat.
    enough (length l <= length (concat (map chunk_msgs l)))%nat by (rewrite length_app; lia).
    clear. induction l as [|c l IH]; [done|]. cbn [map concat length]. unfold chunk_msgs at 1.
    rewrite !length_app. cbn. lia. }
  rewrite <- Nat.add_succ_r.
  destruct (iter_chunks l datas rest (S k) t s [] x Hp Hx Hg Hd HJ) as (s' & E & Hd' & HJ').
  exists s', k. by rewrite E.
Qed.
End chunks.

(** ** A toy zstd, for evaluating the model: a marker byte in front. *)
Definition toy_zstd : Zstd := {|
  zstd_encode := fun b => Ok (x28 :: b);
  zstd_decode := fun c => match c with x28 :: b => Ok b | _ => Err (anyhow "Unknown frame descriptor") end
|}.
Lemma toy_zstd_laws : ZstdLaws toy_zstd.
Proof. constructor. intros b c [= <-]. done. Qed.

(** ** The properties of the terminal layer *)

(** A terminal receive always answers within its time limit.  Over any transport that keeps
    its promises, whatever the peer sends or does not send, [recv_terminal_data_with_timeout]
    returns an event or an error no later than its limit: it neither hangs nor outruns the loop
    bound. *)
Theorem recv_terminal_data_bounded `{TransportOk T} `{CryptoLib} `{ProtoCodec Message} `{Zstd} d t
    (s : EncryptedStream T) :
  0 <= d ->
  match run (recv_terminal_data_with_timeout d) t s with
  | (Done _, t', _) | (Fail _, t', _) => t <= t' <= t + d
  | _ => False
  end.
Proof. intros Hd. by apply recv_terminal_data_takes. Qed.

Lemma recv_terminal_data_bounded_witness :
  let s := es_new (mkNet [(5, Ok [])] Never [] [] false) [] 0 in
  0 <= 100 /\
  match run (@recv_terminal_data_with_timeout _ _ toy_crypto (toy_codec MessageUnion) toy_zstd 100) 7 s with
  | (Done _, t', _) | (Fail _, t', _) => 7 <= t' <= 7 + 100
  | _ => False
  end.
Proof.
  intros s. split; [lia|].
  apply (@recv_terminal_data_bounded NetTransport _ _ toy_crypto (toy_codec MessageUnion) toy_zstd 100 7 s).
  lia.
Defined.

(** Opening a terminal.  On a working connection, whatever other traffic comes first, the first
    terminal response within 15 s decides: [TerminalOpened] with success gives exactly the
    identifiers the peer assigned, a refusal or a [TerminalError] is an error with the peer's
    message.  One message was sent: the request to open terminal 0 with the given size. *)
Theorem open_terminal_answer (C : CryptoLib) (L : CryptoLaws C) (P : ProtoCodec Message) (PL : ProtoLaws P)
    (s : EncryptedStream NetTransport) t rows cols noise a r rest :
  net_faults (es_inner s) = [] ->
  let req := encode (Some (UTerminalAction (Some (TAOpen 0 rows cols)))) in
  Z.of_nat (length req) + 16 <= max_frame ->
  terminal_noise (t + 15000) noise -> a <= t + 15000 ->
  delivers_msgs C P (noise ++ (a, Some (Some (UTerminalResponse (Some r)))) :: rest) s ->
  exists t' s', t <= t' <= t + 15000 /\
    net_out (es_inner s') = net_out (es_inner s) ++ sealed_frames (es_key s) (send_seq s) [Some req] /\
    run (open_terminal rows cols) t s =
    (match r with
     | TROpened o =>
       if topen_success o
       then Done (mkTerminalInfo (topen_terminal_id o) (topen_pid o) (topen_service_id o))
       else Fail ["remote refused to open terminal: " ++ topen_message o]%string
     | TRError _ m => Fail ["terminal error on open: " ++ m]%string
     | other => Fail ["expected TerminalOpened, got " ++ debug (Some (UTerminalResponse (Some other)))]%string
     end, t', s').
Proof.
  intros Hf req Hreq Hn Ha Hd.
  set (s1 := set_inner (net_sent (sealed_frames (es_key s) (send_seq s) [Some req]) (es_inner s))
               (set_send_seq (wrap 64 (send_seq s + 1)) s)).
  set (I := fun s' : EncryptedStream NetTransport => net_out (es_inner s') = net_out (es_inner s1)).
  destruct (recv_terminal_response_finds C P I (Some (t + 15000)) 15000 noise a r rest t s1)
    as (t' & s' & E & Ht' & Hd' & HI'); rewrite ?Z.min_id; try done; try lia.
  exists t', s'. rewrite Z.min_id in Ht'. split_and!; [lia|lia|done|].
  unfold run, open_terminal, send_action, context, bind at 1. fold req.
  rewrite es_send_run by done. fold s1.
  unfold timeout, bind. unfold OPEN_TERMINAL_TIMEOUT, TERMINAL_RESPONSE_TIMEOUT. rewrite E.
  destruct r as [o| | |]; cbn; try done. unfold terminal_info_from_opened.
  by destruct (topen_success o).
Qed.

Lemma open_terminal_answer_witness :
  let C := toy_crypto in let P := toy_codec MessageUnion in
  let opened := TROpened (mkTerminalOpened 3 true "" 42 "svc" []) in
  let l : inbox := [(10, None); (20, Some (Some (UTestDelay (mkTestDelay 1 false 0 0))));
                    (30, Some (Some (UTerminalResponse (Some opened))))] in
  let s := es_new (mkNet (@sealed_arrivals C [x01] 0 (@wire_items P l)) Never [] [] false) [x01] 0 in
  exists t' s', run (@open_terminal _ _ C P 24 80) 5 s = (Done (mkTerminalInfo 3 42 "svc"), t', s').
Proof.
  intros C P opened l s.
  destruct (open_terminal_answer C toy_crypto_laws P (toy_codec_laws MessageUnion) s 5 24 80
    (take 2 l) 30 opened []) as (t' & s' & _ & _ & E).
  - reflexivity.
  - vm_compute. congruence.
  - repeat constructor; vm_compute; congruence.
  - lia.
  - split; [vm_compute; reflexivity|]. repeat constructor; vm_compute; congruence.
  - exists t', s'. exact E.
Defined.

(** A terminal that is never opened.  When no terminal response arrives within 15 s of a
    request to open one, the error comes exactly then, and it is the inner time limit that reports:
    "waiting for TerminalOpened: timed out waiting for TerminalResponse after 15s", which callers
    recognise with [is_terminal_response_timeout]; the message of the outer limit is never seen. *)
Theorem open_terminal_times_out (C : CryptoLib) (L : CryptoLaws C) (P : ProtoCodec Message)
    (PL : ProtoLaws P) (s : EncryptedStream NetTransport) t rows cols noise late :
  net_faults (es_inner s) = [] -> net_end (es_inner s) = Never ->
  Z.of_nat (length (encode (Some (UTerminalAction (Some (TAOpen 0 rows cols)))))) + 16 <= max_frame ->
  terminal_noise (t + 15000) noise ->
  match late with [] => True | (a, _) :: _ => t + 15000 < a end ->
  delivers_msgs C P (noise ++ late) s ->
  exists s' e, run (open_terminal rows cols) t s = (Fail e, t + 15000, s') /\
    e = ["waiting for TerminalOpened"; "timed out waiting for TerminalResponse after 15s"]%string /\
    is_terminal_response_timeout e = true.
Proof.
  intros Hf He Hreq Hn Hlate Hd.
  set (req := encode (Some (UTerminalAction (Some (TAOpen 0 rows cols))))) in *.
  set (s1 := set_inner (net_sent (sealed_frames (es_key s) (send_seq s) [Some req]) (es_inner s))
               (set_send_seq (wrap 64 (send_seq s + 1)) s)).
  destruct (recv_terminal_response_times_out C P 15000 noise late t s1 ltac:(lia) Hn Hlate)
    with (dl := Some (t + 15000)) as (s' & E & _); [done|done|lia|].
  exists s'. eexists. split; [|split; [reflexivity|vm_compute; reflexivity]].
  unfold run, open_terminal, send_action, context, bind at 1. fold req.
  rewrite es_send_run by done. fold s1.
  unfold timeout, bind. unfold OPEN_TERMINAL_TIMEOUT, TERMINAL_RESPONSE_TIMEOUT. rewrite E. done.
Qed.

Lemma open_terminal_times_out_witness :
  let C := toy_crypto in let P := toy_codec MessageUnion in
  let l : inbox := [(10, None); (20000, None)] in
  let s := es_new (mkNet (@sealed_arrivals C [x01] 0 (@wire_items P l)) Never [] [] false) [x01] 0 in
  exists s' e, run (@open_terminal _ _ C P 24 80) 0 s = (Fail e, 15000, s') /\
    is_terminal_response_timeout e = true.
Proof.
  intros C P l s.
  destruct (open_terminal_times_out C toy_crypto_laws P (toy_codec_laws MessageUnion) s 0 24 80
    (take 1 l) (drop 1 l)) as (s' & e & H1 & _ & H2).
  - reflexivity.
  - reflexivity.
  - vm_compute. congruence.
  - repeat constructor; vm_compute; congruence.
  - vm_compute. reflexivity.
  - split; [vm_compute; reflexivity|]. repeat constructor; vm_compute; congruence.
  - exists s', e. split; [exact H1|exact H2].
Defined.

(** C34: terminal data arrives as it was sent, compressed or not.  What [send_terminal_data] puts on
    the wire for any data is one sealed [TerminalData] for that terminal, marked compressed exactly
    when the data is longer than 1024 bytes; a peer echoing those same fields in a
    [TerminalResponse] in time is received as exactly the original data. *)
Theorem terminal_data_roundtrip (C : CryptoLib) (L : CryptoLaws C) (P : ProtoCodec Message)
    (PL : ProtoLaws P) (Zs : Zstd) (ZL : ZstdLaws Zs) id data payload flag
    (s : EncryptedStream NetTransport) t :
  terminal_payload data = Ok (payload, flag) ->
  let td := mkTerminalData id payload flag in
  let out := encode (Some (UTerminalAction (Some (TAData td)))) in
  net_faults (es_inner s) = [] -> Z.of_nat (length out) + 16 <= max_frame ->
  (flag = true <-> 1024 < Z.of_nat (length data)) /\
  (exists s', run (send_terminal_data id data) t s = (Done tt, t, s') /\
     net_out (es_inner s') = net_out (es_inner s) ++ sealed_frames (es_key s) (send_seq s) [Some out]) /\
  (forall d noise a rest t0 s0, 0 <= d -> terminal_noise (t0 + d) noise -> a <= t0 + d ->
     delivers_msgs C P (noise ++ (a, Some (Some (UTerminalResponse (Some (TRData td))))) :: rest) s0 ->
     exists t1 s1, run (recv_terminal_data_with_timeout d) t0 s0 = (Done (TData data), t1, s1) /\
       delivers_msgs C P rest s1).
Proof.
  intros Hp td out Hf Hl.
  assert (terminal_data td = Ok data /\ (flag = true <-> 1024 < Z.of_nat (length data))) as [Hx Hflag].
  { unfold terminal_payload, COMPRESS_THRESHOLD in Hp.
    destruct (1024 <? Z.of_nat (length data)) eqn:E; rd_bool.
    - destruct (zstd_encode data) as [c|e] eqn:Ez; simpl in Hp; simplify_eq. subst td. unfold terminal_data.
      simpl. rewrite (zstd_decode_encode _ _ Ez). split; [done|]. split; [lia|done].
    - simplify_eq. split; [done|]. split; [done|lia]. }
  split; [done|]. split.
  - eexists. unfold run, send_terminal_data, bind. rewrite Hp. cbn. unfold context, send_action.
    fold td out. rewrite es_send_run by done. split; [done|]. done.
  - intros d noise a rest t0 s0 Hd Hn Ha Hdel.
    destruct (recv_terminal_response_finds C P (fun _ => True) None d noise a (TRData td) rest t0 s0)
      as (t1 & s1 & E & _ & Hrest & _); try done; try lia.
    exists t1, s1. split; [|done].
    unfold run, recv_terminal_data_with_timeout, bind, context. rewrite E, Hx. done.
Qed.

Lemma terminal_data_roundtrip_witness :
  let C := toy_crypto in let P := toy_codec MessageUnion in let Zs := toy_zstd in
  let s := es_new (mkNet [] Never [] [] false) [x01] 0 in
  exists s', run (@send_terminal_data _ _ C P Zs 7 [x61; x62]) 0 s = (Done tt, 0, s') /\
    length (net_out (es_inner s')) = 1%nat.
Proof.
  intros C P Zs s.
  destruct (terminal_data_roundtrip C toy_crypto_laws P (toy_codec_laws MessageUnion) Zs toy_zstd_laws
    7 [x61; x62] [x61; x62] false s 0) as (_ & (s' & H1 & H2) & _).
  - vm_compute. reflexivity.
  - reflexivity.
  - vm_compute. congruence.
  - exists s'. split; [exact H1|]. rewrite H2. vm_compute. reflexivity.
Defined.

(** Settling the terminal after a terminal-mode login.  A peer that announces its terminal
    within 2 s gets no request to open one: the announced terminal is used and nothing is sent.
    Otherwise the probe gives up at exactly 2 s, consuming only what arrived, and the result is that
    of asking for a terminal of the default size. *)
Theorem settle_terminal_probe (C : CryptoLib) (L : CryptoLaws C) (P : ProtoCodec Message)
    (PL : ProtoLaws P) lines columns (s : EncryptedStream NetTransport) t noise :
  terminal_noise (t + 2000) noise ->
  (forall a o rest, a <= t + 2000 -> topen_success o = true ->
     delivers_msgs C P (noise ++ (a, Some (Some (UTerminalResponse (Some (TROpened o))))) :: rest) s ->
     exists t' s', run (settle_terminal lines columns) t s =
       (Done (mkTerminalInfo (topen_terminal_id o) (topen_pid o) (topen_service_id o)), t', s') /\
       net_out (es_inner s') = net_out (es_inner s) /\ t <= t' <= t + 2000) /\
  (forall late, match late with [] => True | (a, _) :: _ => t + 2000 < a end ->
     net_end (es_inner s) = Never -> delivers_msgs C P (noise ++ late) s ->
     exists s1, delivers_msgs C P late s1 /\ net_out (es_inner s1) = net_out (es_inner s) /\
       let '(rows, cols) := default_terminal_size lines columns in
       run (settle_terminal lines columns) t s =
       run (context "opening remote terminal" (open_terminal rows cols)) (t + 2000) s1).
Proof.
  intros Hn. split.
  - intros a o rest Ha Ho Hd.
    destruct (recv_terminal_response_finds C P
      (fun s' => net_out (es_inner s') = net_out (es_inner s)) (Some (t + 2000)) 15000
      noise a (TROpened o) rest t s) as (t' & s' & E & Ht' & _ & HI);
      rewrite ?(Z.min_l (t + 2000) (t + 15000)) in * by lia; try done; try lia.
    exists t', s'. split; [|done].
    unfold run, settle_terminal, bind, timeout.
    unfold INITIAL_TERMINAL_OPENED_PROBE_TIMEOUT, TERMINAL_RESPONSE_TIMEOUT. rewrite E. cbn.
    unfold terminal_info_from_opened. by rewrite Ho.
  - intros late Hlate He Hd.
    set (I := fun s' : EncryptedStream NetTransport =>
      net_end (es_inner s') = Never /\ net_out (es_inner s') = net_out (es_inner s)).
    destruct (recv_loop_cut C P "reading terminal response" "decoding Message" on_terminal_message I
                (t + 2000) noise late t s) as (s1 & E & Hd1 & _ & HI1);
      [by intros i l t0 s0 []|by intros s0 []|by apply noise_skips|done|done|lia|done|].
    exists s1. split; [done|]. split; [done|]. destruct (default_terminal_size lines columns) as [rows cols] eqn:Es.
    unfold run, settle_terminal, bind at 1, timeout, recv_terminal_response, timeout_or, bind at 1, timeout.
    unfold INITIAL_TERMINAL_OPENED_PROBE_TIMEOUT, TERMINAL_RESPONSE_TIMEOUT.
    rewrite (Z.min_l (t + 2000) (t + 15000)) by lia. rewrite E.
    rewrite (proj2 (Z.leb_gt (t + 15000) (t + 2000))), Z.leb_refl by lia. by rewrite Es.
Qed.

Lemma settle_terminal_probe_witness :
  let C := toy_crypto in let P := toy_codec MessageUnion in
  let o := mkTerminalOpened 3 true "" 42 "svc" [] in
  let l : inbox := [(10, None); (30, Some (Some (UTerminalResponse (Some (TROpened o)))))] in
  let s := es_new (mkNet (@sealed_arrivals C [x01] 0 (@wire_items P l)) Never [] [] false) [x01] 0 in
  exists t' s', run (@settle_terminal _ _ C P None None) 0 s = (Done (mkTerminalInfo 3 42 "svc"), t', s').
Proof.
  intros C P o l s.
  assert (terminal_noise (0 + 2000) (take 1 l)) as Hn by (repeat constructor; vm_compute; congruence).
  destruct (settle_terminal_probe C toy_crypto_laws P (toy_codec_laws MessageUnion) None None s 0
    (take 1 l) Hn) as [H _].
  destruct (H 30 o []) as (t' & s' & E & _).
  - lia.
  - reflexivity.
  - split; [vm_compute; reflexivity|]. repeat constructor; vm_compute; congruence.
  - exists t', s'. exact E.
Defined.
