(* ===== verification/Capture.v ===== *)
(** * Screenshots (src/capture.rs)

    Requesting a screenshot, and cropping and re-encoding it.  The image library is a parameter;
    the process id and the clock that make a request's identifier unique are arguments. *)

From Stdlib Require Import ZArith Lia.
From Stdlib Require Import Strings.Byte Strings.Ascii Strings.String.
From stdpp Require Import base list option numbers.
From S2P Require Import Prelude RustStr Async Transport Crypto Proto Inbox Session.

Local Open Scope Z_scope.
Local Open Scope async_scope.

(** The operations of the [image] crate the program uses. *)
Class ImageLib (Img : Type) : Type := {
  load_from_memory : bytes -> Res Img;
  dimensions : Img -> Z * Z;
  crop_imm : Img -> Z -> Z -> Z -> Z -> Img;
  encode_jpeg : Z -> Img -> Res bytes;
  encode_png : Img -> Res bytes
}.

(** Sizes are [u32]s, and a crop inside the image has the size asked for. *)
Class ImageLaws {Img : Type} (IL : ImageLib Img) : Prop := {
  dimensions_range : forall i, 0 <= (dimensions i).1 <= u32_max /\ 0 <= (dimensions i).2 <= u32_max;
  crop_dimensions : forall i x y w h,
    0 <= x -> 0 <= y -> 0 <= w -> 0 <= h ->
    x + w <= (dimensions i).1 -> y + h <= (dimensions i).2 -> dimensions (crop_imm i x y w h) = (w, h)
}.

Record CaptureOptions : Type := mkCaptureOptions {
  co_format : option string;
  co_quality : option Z;
  co_region : option CaptureRegion;
  co_display : option Z
}.

(** [u32::checked_add] *)
Definition checked_add_u32 (a b : Z) : option Z := if a + b <=? u32_max then Some (a + b) else None.

Section image.
Context {Img : Type} `{ImageLib Img}.

Definition crop_image (image : Img) (region : CaptureRegion) : Res Img :=
  let '(width, height) := dimensions image in
  x2 ← ok_or (checked_add_u32 (region_x region) (region_w region)) (anyhow "capture region x overflow");
  y2 ← ok_or (checked_add_u32 (region_y region) (region_h region)) (anyhow "capture region y overflow");
  if (width <? x2) || (height <? y2) then
    Err (anyhow ("capture region " ++ show_Z (region_x region) ++ "," ++ show_Z (region_y region)
                   ++ "," ++ show_Z (region_w region) ++ "," ++ show_Z (region_h region)
                   ++ " exceeds image bounds " ++ show_Z width ++ "x" ++ show_Z height)%string)
  else Ok (crop_imm image (region_x region) (region_y region) (region_w region) (region_h region)).

Definition encode_image (image : Img) (options : CaptureOptions) : Res bytes :=
  let format := default "png"%string (co_format options) in
  if eq_ignore_ascii_case format "jpg" || eq_ignore_ascii_case format "jpeg" then
    let quality := default 90 (co_quality options) in
    map_err (add_context "encoding screenshot as JPEG") (encode_jpeg quality image)
  else map_err (add_context "encoding screenshot as PNG") (encode_png image).

Definition needs_processing (options : CaptureOptions) : bool :=
  match co_region options with Some _ => true | None => false end
  || match co_format options with
     | Some format => negb (eq_ignore_ascii_case format "png")
     | None => false
     end
  || match co_quality options with Some _ => true | None => false end.

Definition process_screenshot_bytes (data : bytes) (options : CaptureOptions) : Res bytes :=
  if negb (needs_processing options) then Ok data
  else
    image ← map_err (add_context "decoding screenshot image") (load_from_memory data);
    image ← (match co_region options with
             | Some region => crop_image image region
             | None => Ok image
             end);
    encode_image image options.

Context {T : Type} `{Transport T} `{CryptoLib} `{ProtoCodec Message}.

(** The match of the receive loop. *)
Definition on_screenshot_message (sid : string) (options : CaptureOptions) (msg : Message)
    : M (EncryptedStream T) (unit + bytes) :=
  match msg with
  | Some (UScreenshotResponse response) =>
    if negb (String.eqb (sresp_sid response) sid) then ret (inl tt)
    else if negb (is_empty (sresp_msg response)) then
      fail (anyhow ("screenshot failed: " ++ sresp_msg response)%string)
    else let* b := lift (process_screenshot_bytes (sresp_data response) options) in ret (inr b)
  | _ => ret (inl tt)
  end.

Definition request_screenshot_with_sid (display : Z) (sid : string) (options : CaptureOptions)
    : M (EncryptedStream T) bytes :=
  context "sending ScreenshotRequest"
    (es_send (encode (Some (UScreenshotRequest (mkScreenshotRequest display sid))))) ;;;
  recv_loop "waiting for ScreenshotResponse" "decoding screenshot Message"
    (on_screenshot_message sid options).

Definition request_screenshot (pid nanos : Z) (options : CaptureOptions)
    : M (EncryptedStream T) bytes :=
  let sid := ("rustdesk-cli-" ++ show_Z pid ++ "-" ++ show_Z nanos)%string in
  request_screenshot_with_sid (default 0 (co_display options)) sid options.
End image.

(** Where the bytes go: a file, or standard output. *)
Record OutputSinks : Type := mkOutputSinks {
  fs_write : string -> bytes -> Res unit;
  stdout_write : bytes -> Res unit
}.

Definition write_capture_output (io : OutputSinks) (data : bytes) (file : option string) : Res unit :=
  match file with
  | Some f => map_err (add_context ("writing screenshot to " ++ f)%string) (fs_write io f data)
  | None => map_err (add_context "writing screenshot to stdout") (stdout_write io data)
  end.

(** ** A toy image library, for evaluating the model: the first two bytes are the size. *)
Definition toy_image : ImageLib (Z * Z) := {|
  load_from_memory := fun b => match b with
    | w :: h :: _ => Ok (Z_of_byte w, Z_of_byte h)
    | _ => Err (anyhow "The image format could not be determined")
    end;
  dimensions := fun i => (Z.max 0 (Z.min i.1 u32_max), Z.max 0 (Z.min i.2 u32_max));
  crop_imm := fun _ _ _ w h => (w, h);
  encode_jpeg := fun q i => Ok [xff; byte_of_Z q; byte_of_Z i.1; byte_of_Z i.2];
  encode_png := fun i => Ok [x89; byte_of_Z i.1; byte_of_Z i.2]
|}.

Lemma toy_image_laws : ImageLaws toy_image.
Proof.
  constructor; simpl; unfold u32_max; intros; [lia|]. f_equal; lia.
Qed.

(** ** Properties *)

Definition in_u32 (z : Z) : Prop := 0 <= z <= u32_max.

(** The region lies inside an image of the given size. *)
Definition inside (r : CaptureRegion) (size : Z * Z) : Prop :=
  region_x r + region_w r <= size.1 /\ region_y r + region_h r <= size.2.

Definition region_u32 (r : CaptureRegion) : Prop :=
  in_u32 (region_x r) /\ in_u32 (region_y r) /\ in_u32 (region_w r) /\ in_u32 (region_h r).

Lemma crop_image_cases {Img} (IL : ImageLib Img) (LL : ImageLaws IL) image r :
  region_u32 r ->
  (inside r (dimensions image) ->
   crop_image image r = Ok (crop_imm image (region_x r) (region_y r) (region_w r) (region_h r))) /\
  (~ inside r (dimensions image) -> is_ok (crop_image image r) = false).
Proof.
  intros (Hx & Hy & Hw & Hh). unfold crop_image, inside, in_u32 in *.
  destruct (dimensions_range image) as [D1 D2]. destruct (dimensions image) as [w h] eqn:Ed. simpl in *.
  unfold checked_add_u32. split; intros Hin.
  - rewrite (proj2 (Z.leb_le _ _)) by lia. rewrite (proj2 (Z.leb_le _ _)) by lia. simpl.
    rewrite (proj2 (Z.ltb_ge _ _)), (proj2 (Z.ltb_ge _ _)) by lia. done.
  - destruct (region_x r + region_w r <=? u32_max) eqn:E1; simpl; [|done].
    destruct (region_y r + region_h r <=? u32_max) eqn:E2; simpl; [|done].
    destruct (w <? _) eqn:E3; simpl; [done|]. destruct (h <? _) eqn:E4; simpl; [done|].
    rd_bool. lia.
Qed.

(** C40: cropping is checked before it is done.  For every [u32] region, whatever its corner plus
    size come to, [crop_image] crops exactly when the region lies inside the image, the result then
    having the size asked for, and otherwise is an error: no wrap-around lets a region outside the
    image through. *)
Theorem crop_image_checked {Img} (IL : ImageLib Img) (LL : ImageLaws IL) image r :
  region_u32 r ->
  (is_ok (crop_image image r) = true <-> inside r (dimensions image)) /\
  (forall c, crop_image image r = Ok c -> dimensions c = (region_w r, region_h r)).
Proof.
  intros Hr. destruct (crop_image_cases IL LL image r Hr) as [H1 H2].
  assert (Decision (inside r (dimensions image))) as Hdec by (unfold inside; apply _).
  destruct (decide (inside r (dimensions image))) as [Hin|Hin].
  - rewrite H1 by done. split; [done|]. intros c [= <-].
    destruct Hr as (Hx & Hy & Hw & Hh), Hin as [I1 I2]. unfold in_u32 in *.
    apply crop_dimensions; lia.
  - specialize (H2 Hin). split; [rewrite H2; split; done|]. intros c Hc. by rewrite Hc in H2.
Qed.

Lemma crop_image_checked_witness :
  let r := mkCaptureRegion 10 10 20 30 in
  region_u32 r /\ is_ok (@crop_image _ toy_image (100, 100) r) = true /\
  is_ok (@crop_image _ toy_image (100, 100) (mkCaptureRegion 4294967295 0 10 10)) = false.
Proof.
  intros r.
  assert (region_u32 r) as Hr by (unfold region_u32, in_u32, u32_max; simpl; lia).
  split; [exact Hr|]. split; [|vm_compute; reflexivity].
  apply (crop_image_checked toy_image toy_image_laws (100, 100) r Hr). unfold inside. simpl.
  unfold u32_max. lia.
Defined.


