(* ===== verification/FileTransfer.v ===== *)
(** * Pushing a file (src/file_transfer.rs)

    A [PushTransfer] and its operations.  The local file system is described by [LocalFile]: what
    the metadata says, and a handle whose reads may be short or fail.  [send_next_block] runs on
    the transfer together with the stream, since it updates both. *)

From Stdlib Require Import ZArith Lia.
From Stdlib Require Import Strings.Byte Strings.Ascii Strings.String.
From stdpp Require Import base list option numbers.
From S2P Require Import Prelude RustStr Async Transport Crypto Proto Inbox Terminal.

Local Open Scope Z_scope.
Local Open Scope async_scope.

Definition FILE_TRANSFER_BLOCK_SIZE : Z := 128 * 1024.
Definition BLOCK : nat := Z.to_nat FILE_TRANSFER_BLOCK_SIZE.

Record PushProgress : Type := mkPushProgress {
  pp_sent_bytes : Z;
  pp_total_bytes : Z;
  pp_transferred_bytes : Z;
  pp_resumed_bytes : Z
}.

Record PushResult : Type := mkPushResult {
  pr_local_path : string;
  pr_remote_path : string;
  pr_total_bytes : Z;
  pr_sent_bytes : Z;
  pr_transferred_bytes : Z;
  pr_resumed_bytes : Z;
  pr_job_id : Z
}.

(** An open file: its bytes, the position, and what the coming reads do: fail, or return at most
    so many bytes (at least one when any is left). *)
Record FileHandle : Type := mkFileHandle {
  fh_content : bytes;
  fh_pos : nat;
  fh_reads : list (Res nat)
}.

(** [file.read(&mut buf)] into a buffer of [n] bytes. *)
Definition file_read (n : nat) (f : FileHandle) : Res bytes * FileHandle :=
  let left_ := drop (fh_pos f) (fh_content f) in
  let got k := take (Nat.min n k) left_ in
  match fh_reads f with
  | Err e :: rs => (Err e, mkFileHandle (fh_content f) (fh_pos f) rs)
  | Ok k :: rs =>
    let b := got (Nat.max 1 k) in (Ok b, mkFileHandle (fh_content f) (fh_pos f + length b) rs)
  | [] => let b := got n in (Ok b, mkFileHandle (fh_content f) (fh_pos f + length b) [])
  end.

Record Metadata : Type := mkMetadata {
  md_is_file : bool;
  md_len : Z;
  md_modified : option Z   (* seconds since the epoch, when available *)
}.

Record LocalFile : Type := mkLocalFile {
  lf_metadata : Res Metadata;
  lf_open : Res FileHandle;
  lf_seek : Res unit
}.

Record PushTransfer : Type := mkPushTransfer {
  pt_local_path : string;
  pt_remote_path : string;
  pt_file : FileHandle;
  pt_total_bytes : Z;
  pt_sent_bytes : Z;
  pt_transferred_bytes : Z;
  pt_resumed_bytes : Z;
  pt_job_id : Z;
  pt_skip_transfer : bool
}.

Inductive FileTransferEvent : Type :=
| EvDigest (d : FileTransferDigest)
| EvConfirm (c : FileTransferSendConfirmRequest)
| EvDone (d : FileTransferDone)
| EvError (e : FileTransferError).

Record RemoteTarget : Type := mkRemoteTarget {
  rt_dir : string;
  rt_file_name : string
}.

(** ** Paths *)

(** [Path::file_name] *)
Definition path_file_name (p : string) : option string :=
  let comps := List.filter (fun c => negb (is_empty c) && negb (String.eqb c ".")) (split_char "/" p) in
  match rev comps with
  | [] => None
  | c :: _ => if String.eqb c ".." then None else Some c
  end.

Definition parse_remote_target (remote_path local_path : string) : Res RemoteTarget :=
  let trimmed := trim remote_path in
  if is_empty trimmed then Err (anyhow "remote path must not be empty")
  else
    default_name ← ok_or (path_file_name local_path)
                     (anyhow ("local path has no valid file name: " ++ local_path)%string);
    if ends_with_char "/" trimmed then
      let dir := trim_end_matches ["/"%char] trimmed in
      if is_empty dir then Ok (mkRemoteTarget "/" default_name)
      else Ok (mkRemoteTarget dir default_name)
    else
      match rsplit_once "/" trimmed with
      | Some (dir, file_name) =>
        let dir := if is_empty dir then "/"%string else dir in
        if is_empty file_name then
          Err (anyhow ("remote path has no file name: " ++ remote_path)%string)
        else Ok (mkRemoteTarget dir file_name)
      | None => Ok (mkRemoteTarget "." trimmed)
      end.

Definition remote_target_dir (remote_path local_path : string) : Res string :=
  t ← parse_remote_target remote_path local_path; Ok (rt_dir t).

(** [new_job_id], given the clock in nanoseconds: [((nanos % (i32::MAX - 1)) as i32) + 1]. *)
Definition new_job_id (nanos : Z) : Z := swrap 32 (nanos mod (i32_max - 1)) + 1.

Definition progress (p : PushTransfer) : PushProgress :=
  mkPushProgress (pt_sent_bytes p) (pt_total_bytes p) (pt_transferred_bytes p) (pt_resumed_bytes p).

Definition push_result (p : PushTransfer) : PushResult :=
  mkPushResult (pt_local_path p) (pt_remote_path p) (pt_total_bytes p) (pt_sent_bytes p)
    (pt_transferred_bytes p) (pt_resumed_bytes p) (pt_job_id p).

Definition compress_chunk `{Zstd} (chunk : bytes) : Res (bytes * bool) :=
  compressed ← map_err (add_context "zstd compression failed") (zstd_encode chunk);
  if (length compressed <? length chunk)%nat then Ok (compressed, true) else Ok (chunk, false).

(** ** The protocol *)

Section protocol.
Context {T : Type} `{Transport T} `{CryptoLib} `{ProtoCodec Message} `{Zstd}.

Definition send_local_digest (job_id total_bytes modified_time : Z) (is_resume : bool)
    : M (EncryptedStream T) unit :=
  send_message (Some (UFileResponse (Some (FRDigest
    (mkFileTransferDigest job_id 0 modified_time total_bytes false false 0 is_resume))))).

Definition send_confirm (job_id file_num resume_offset : Z) : M (EncryptedStream T) unit :=
  send_message (Some (UFileAction (Some (FASendConfirm
    (mkFileTransferSendConfirmRequest job_id file_num (Some (FCOffsetBlk resume_offset))))))).

Definition resume_offset (digest : FileTransferDigest) (total_bytes : Z) : Z :=
  if fd_is_identical digest
  then Z.min (Z.min (fd_transferred_size digest) total_bytes) u32_max else 0.

Definition confirm_upload_from_remote_digest (job_id : Z) (digest : FileTransferDigest)
    (total_bytes : Z) : M (EncryptedStream T) Z :=
  let resumed_bytes := resume_offset digest total_bytes in
  context "sending file transfer confirmation"
    (send_confirm job_id (fd_file_num digest) (wrap 32 resumed_bytes)) ;;;
  ret resumed_bytes.

Definition echo_test_delay (td : TestDelay) : M (EncryptedStream T) unit :=
  context "echoing TestDelay during file transfer"
    (send_message (Some (UTestDelay
      (mkTestDelay (td_time td) true (td_last_delay td) (td_target_bitrate td))))).

(** The match of the receive loop. *)
Definition on_file_message (job_id : Z) (msg : Message) : M (EncryptedStream T) (unit + FileTransferEvent) :=
  match msg with
  | Some (UFileAction (Some (FASendConfirm confirm))) =>
    if fsc_id confirm =? job_id then ret (inr (EvConfirm confirm)) else ret (inl tt)
  | Some (UFileResponse (Some (FRDigest digest))) =>
    if fd_id digest =? job_id then ret (inr (EvDigest digest)) else ret (inl tt)
  | Some (UFileResponse (Some (FRDone done_))) =>
    if fdone_id done_ =? job_id then ret (inr (EvDone done_)) else ret (inl tt)
  | Some (UFileResponse (Some (FRError err))) =>
    if ferr_id err =? job_id then ret (inr (EvError err)) else ret (inl tt)
  | Some (UTestDelay td) => echo_test_delay td ;;; ret (inl tt)
  | Some (UMisc (Some (MCloseReason reason))) =>
    fail (anyhow ("peer closed file transfer session: " ++ reason)%string)
  | _ => ret (inl tt)
  end.

Definition recv_file_event (job_id : Z) : M (EncryptedStream T) FileTransferEvent :=
  loop es_pending (fun _ =>
    let* raw := context "receiving file transfer message" es_recv in
    match raw with
    | [] => ret (inl tt)
    | _ =>
      let* msg := lift (map_err (add_context "decoding file transfer message") (decode raw)) in
      on_file_message job_id msg
    end) tt.

(** The loop of [begin] that waits for the peer's answer: how many bytes it already has, and
    whether it wants none. *)
Definition await_confirmation (job_id total_bytes : Z) : M (EncryptedStream T) (Z * bool) :=
  loop es_pending (fun _ =>
    let* ev := context "waiting for file transfer confirmation" (recv_file_event job_id) in
    match ev with
    | EvDigest digest =>
      let* resumed_bytes := confirm_upload_from_remote_digest job_id digest total_bytes in
      ret (inr (resumed_bytes, false))
    | EvConfirm confirm =>
      ret (inr (match fsc_union confirm with
                | Some (FCSkip true) => (total_bytes, true)
                | Some (FCOffsetBlk offset) => (Z.min offset total_bytes, false)
                | _ => (0, false)
                end))
    | EvError err => fail (anyhow ("file transfer error: " ++ ferr_error err)%string)
    | EvDone _ => ret (inl tt)
    end) tt.

(** The request that announces the upload. *)
Definition receive_request (job_id total_bytes modified_time : Z) (target : RemoteTarget) : Message :=
  Some (UFileAction (Some (FAReceive (mkFileTransferReceiveRequest job_id (rt_dir target)
    [mkFileEntry FileType_File (rt_file_name target) false total_bytes modified_time] 1 total_bytes)))).

(** [PushTransfer::begin] *)
Definition begin_push (lf : LocalFile) (nanos : Z) (local_path remote_path : string)
    : M (EncryptedStream T) PushTransfer :=
  let* metadata := lift (map_err
    (add_context ("reading local file metadata for " ++ local_path)%string) (lf_metadata lf)) in
  if negb (md_is_file metadata) then
    fail (anyhow ("push supports single files only: " ++ local_path)%string)
  else
  let total_bytes := md_len metadata in
  let job_id := new_job_id nanos in
  let* target := lift (parse_remote_target remote_path local_path) in
  let modified_time := default 0 (md_modified metadata) in
  context "sending file transfer request"
    (send_message (receive_request job_id total_bytes modified_time target)) ;;;
  context "sending local file digest"
    (send_local_digest job_id total_bytes modified_time true) ;;;
  let* '(resumed_bytes, skip_transfer) := await_confirmation job_id total_bytes in
  let* file := lift (map_err (add_context ("opening local file " ++ local_path)%string) (lf_open lf)) in
  let* file :=
    (if 0 <? resumed_bytes then
       lift (map_err (add_context ("seeking local file " ++ local_path ++ " to resume offset "
                                     ++ show_Z resumed_bytes)%string) (lf_seek lf)) ;;;
       ret (mkFileHandle (fh_content file) (Z.to_nat resumed_bytes) (fh_reads file))
     else ret file) in
  ret (mkPushTransfer local_path remote_path file total_bytes resumed_bytes 0 resumed_bytes job_id
         skip_transfer).

(** [PushTransfer::send_next_block] *)
Definition send_next_block : M (PushTransfer * EncryptedStream T) bool :=
  let* st := get in
  let p := st.1 in
  if pt_skip_transfer p then ret false
  else
    let '(r, file) := file_read BLOCK (pt_file p) in
    let p1 := mkPushTransfer (pt_local_path p) (pt_remote_path p) file (pt_total_bytes p)
                (pt_sent_bytes p) (pt_transferred_bytes p) (pt_resumed_bytes p) (pt_job_id p)
                (pt_skip_transfer p) in
    modify (fun st => (p1, st.2)) ;;;
    let* chunk := lift (map_err (add_context ("reading local file " ++ pt_local_path p)%string) r) in
    match chunk with
    | [] => ret false
    | _ =>
      let* '(data, compressed) := lift (compress_chunk chunk) in
      let p2 := mkPushTransfer (pt_local_path p) (pt_remote_path p) file (pt_total_bytes p)
                  (pt_sent_bytes p + Z.of_nat (length chunk))
                  (pt_transferred_bytes p + Z.of_nat (length data))
                  (pt_resumed_bytes p) (pt_job_id p) (pt_skip_transfer p) in
      modify (fun st => (p2, st.2)) ;;;
      context ("sending file block for " ++ pt_local_path p)%string
        (zoom snd (fun s st => (st.1, s))
          (send_message (Some (UFileResponse (Some (FRBlock
            (mkFileTransferBlock (pt_job_id p) 0 data compressed 0))))))) ;;;
      ret true
    end.

(** [PushTransfer::wait_for_done] *)
Definition wait_for_done (p : PushTransfer) : M (EncryptedStream T) unit :=
  if pt_skip_transfer p then ret tt
  else
    context "sending file transfer completion"
      (send_message (Some (UFileResponse (Some (FRDone (mkFileTransferDone (pt_job_id p) 0)))))) ;;;
    let* r := timeout 500 (recv_file_event (pt_job_id p)) in
    match r with
    | Some (Ok (EvError err)) => fail (anyhow ("file transfer error: " ++ ferr_error err)%string)
    | _ => ret tt
    end.

(** [while transfer.send_next_block(stream).await? { .. }], as both callers run it. *)
Definition send_blocks : M (PushTransfer * EncryptedStream T) unit :=
  loop (fun st => length (fh_content (pt_file st.1)) - fh_pos (pt_file st.1))%nat
    (fun _ => let* more := send_next_block in ret (if more then inl tt else inr tt)) tt.
End protocol.

(** ** Reading a file to its end *)

Definition file_left (f : FileHandle) : bytes := drop (fh_pos f) (fh_content f).

(** The chunks successive reads return, up to the end of the file; [None] if a read fails. *)
Fixpoint read_chunks (fuel : nat) (f : FileHandle) : option (list bytes) :=
  match fuel with
  | O => None
  | S fuel' =>
    match file_read BLOCK f with
    | (Ok [], _) => Some []
    | (Ok c, f') => cons c <$> read_chunks fuel' f'
    | (Err _, _) => None
    end
  end.
Definition file_chunks (f : FileHandle) : list bytes :=
  default [] (read_chunks (S (length (file_left f))) f).

Lemma BLOCK_pos : (0 < BLOCK)%nat.
Proof. unfold BLOCK, FILE_TRANSFER_BLOCK_SIZE. lia. Qed.
Lemma BLOCK_value : Z.of_nat BLOCK = 128 * 1024.
Proof. unfold BLOCK, FILE_TRANSFER_BLOCK_SIZE. lia. Qed.
#[local] Opaque BLOCK.

(** One read of a file with no failing reads. *)
Lemma file_read_ok n f :
  (0 < n)%nat -> Forall (fun r => is_ok r = true) (fh_reads f) ->
  exists b f', file_read n f = (Ok b, f') /\ fh_content f' = fh_content f /\
    file_left f = b ++ file_left f' /\ (length b <= n)%nat /\
    (b = [] -> file_left f = []) /\ Forall (fun r => is_ok r = true) (fh_reads f').
Proof.
  intros Hn Hr. unfold file_read, file_left.
  assert (forall k, (0 < k)%nat -> let b := take (Nat.min n k) (drop (fh_pos f) (fh_content f)) in
    drop (fh_pos f) (fh_content f) = b ++ drop (fh_pos f + length b) (fh_content f) /\
    (length b <= n)%nat /\ (b = [] -> drop (fh_pos f) (fh_content f) = [])) as H.
  { intros k Hk b. subst b. split_and!; try done.
    - rewrite <- drop_drop, length_take.
      rewrite <- (take_drop (Nat.min n k) (drop (fh_pos f) (fh_content f))) at 1. f_equal.
      destruct (decide (Nat.min n k <= length (drop (fh_pos f) (fh_content f)))%nat) as [Hle|Hle].
      + by rewrite (Nat.min_l (Nat.min n k)) by lia.
      + rewrite (Nat.min_r (Nat.min n k)) by lia. rewrite !(drop_ge (drop _ _)) by lia. done.
    - rewrite length_take. lia.
    - intros Hb. destruct (drop (fh_pos f) (fh_content f)) as [|x l]; [done|].
      destruct (Nat.min n k) eqn:E; [lia|done]. }
  destruct (fh_reads f) as [|[k|e] rs].
  - destruct (H n Hn) as (H1 & H2 & H3). rewrite Nat.min_id in *.
    eexists _, _. split_and!; [done..| |done]. done.
  - apply Forall_cons_1 in Hr as [_ Hr].
    destruct (H (Nat.max 1 k) ltac:(lia)) as (H1 & H2 & H3).
    eexists _, _. split_and!; [done..| |done]. done.
  - apply Forall_cons_1 in Hr as [Hr _]. done.
Qed.

Lemma read_chunks_spec fuel f :
  Forall (fun r => is_ok r = true) (fh_reads f) -> (length (file_left f) < fuel)%nat ->
  exists cs, read_chunks fuel f = Some cs /\ concat cs = file_left f /\
    Forall (fun c => c <> [] /\ (length c <= BLOCK)%nat) cs.
Proof.
  revert f. induction fuel as [|fuel IH]; intros f Hr Hf; [lia|]. cbn [read_chunks].
  destruct (file_read_ok BLOCK f BLOCK_pos Hr) as (b & f' & E & _ & Hl & Hb & Hn & Hr').
  rewrite E. destruct b as [|x b].
  - exists []. rewrite Hn by done. done.
  - rewrite Hl, length_app in Hf. destruct (IH f' Hr') as (cs & E2 & Hc & Hall); [simpl in Hf; lia|].
    exists ((x :: b) :: cs). rewrite E2. split_and!; [done| |].
    + rewrite Hl, <- Hc. done.
    + constructor; done.
Qed.

(** ** The blocks on the wire *)

Definition block_message (job_id : Z) (b : bytes * bool) : Message :=
  Some (UFileResponse (Some (FRBlock (mkFileTransferBlock job_id 0 b.1 b.2 0)))).
(** What the receiver of a block writes. *)
Definition expand `{Zstd} (b : bytes * bool) : Res bytes :=
  if b.2 then zstd_decode b.1 else Ok b.1.
Definition total_length (l : list bytes) : Z := foldr (fun b n => Z.of_nat (length b) + n) 0 l.

Lemma total_length_cons b l : total_length (b :: l) = Z.of_nat (length b) + total_length l.
Proof. done. Qed.
Lemma total_length_concat l : total_length l = Z.of_nat (length (concat l)).
Proof.
  induction l as [|b l IH]; [done|]. rewrite total_length_cons, IH. cbn [concat].
  rewrite length_app. lia.
Qed.

Lemma compress_expand (Zs : Zstd) {ZL : ZstdLaws Zs} chunk b :
  compress_chunk chunk = Ok b -> expand b = Ok chunk /\ (length b.1 <= length chunk)%nat.
Proof.
  unfold compress_chunk. destruct (zstd_encode chunk) as [c|e] eqn:E; simpl; [|done].
  destruct (length c <? length chunk)%nat eqn:Hl; rd_bool; intros [= <-]; unfold expand; simpl.
  - split; [by apply zstd_decode_encode|lia].
  - done.
Qed.

(** Advance a transfer past a chunk sent as [b]. *)
Definition advanced (p : PushTransfer) (f : FileHandle) (sent transferred : Z) : PushTransfer :=
  mkPushTransfer (pt_local_path p) (pt_remote_path p) f (pt_total_bytes p)
    (pt_sent_bytes p + sent) (pt_transferred_bytes p + transferred) (pt_resumed_bytes p)
    (pt_job_id p) (pt_skip_transfer p).

Section blocks.
Context (C : CryptoLib) {L : CryptoLaws C} (P : ProtoCodec Message) (Zs : Zstd) {ZL : ZstdLaws Zs}.

Definition block_item (job : Z) (chunk : bytes) : option bytes :=
  encode <$> (block_message job <$> ok (compress_chunk chunk)).
Definition chunk_sendable (job : Z) (chunk : bytes) : Prop :=
  match block_item job chunk with Some b => Z.of_nat (length b) + 16 <= max_frame | None => False end.

Definition with_sent (items : list (option bytes)) (s : EncryptedStream NetTransport)
    : EncryptedStream NetTransport :=
  set_inner (net_sent (sealed_frames (es_key s) (send_seq s) items) (es_inner s))
    (set_send_seq (seq_after (send_seq s) items) s).

Lemma with_sent_cons i l s : with_sent l (with_sent [i] s) = with_sent (i :: l) s.
Proof.
  unfold with_sent, set_inner, net_sent. simpl. rewrite <- (assoc_L (++)).
  by destruct i.
Qed.

Lemma with_sent_nil s : with_sent [] s = s.
Proof. destruct s as [[] ? ? ? ?]. unfold with_sent, net_sent, set_inner. simpl. by rewrite app_nil_r. Qed.

(** Sending one block. *)
Lemma send_next_block_chunk x c f' p s dl t :
  pt_skip_transfer p = false -> net_faults (es_inner s) = [] ->
  file_read BLOCK (pt_file p) = (Ok (x :: c), f') -> chunk_sendable (pt_job_id p) (x :: c) ->
  exists b, compress_chunk (x :: c) = Ok b /\
  send_next_block dl t (p, s) =
  (Done true, t, (advanced p f' (Z.of_nat (length (x :: c))) (Z.of_nat (length b.1)),
                  with_sent [block_item (pt_job_id p) (x :: c)] s)).
Proof.
  intros Hs Hf Hr Hc. unfold chunk_sendable, block_item in *.
  destruct (compress_chunk (x :: c)) as [[d fl]|e] eqn:E; [|done]. simpl in Hc.
  exists (d, fl). split; [done|].
  unfold send_next_block, bind. cbn [get fst snd]. rewrite Hs. rewrite Hr.
  cbn. rewrite E. cbn. unfold context, zoom, send_message. cbn [snd].
  rewrite es_send_run by done. unfold advanced. rewrite Hs. done.
Qed.

Lemma send_blocks_run fuel p s dl t cs :
  pt_skip_transfer p = false -> net_faults (es_inner s) = [] ->
  read_chunks fuel (pt_file p) = Some cs -> Forall (chunk_sendable (pt_job_id p)) cs ->
  Forall (fun r => is_ok r = true) (fh_reads (pt_file p)) ->
  exists bs f', Forall2 (fun c b => compress_chunk c = Ok b) cs bs /\
    iter fuel (fun _ => bind send_next_block (fun more => ret (if more then inl tt else inr tt))) tt dl t (p, s)
    = (Done tt, t, (advanced p f' (total_length cs) (total_length (map fst bs)),
                    with_sent (map (block_item (pt_job_id p)) cs) s)).
Proof.
  revert p s cs. induction fuel as [|fuel IH]; intros p s cs Hs Hf Hr Hc Hok; [done|].
  rewrite iter_S. cbn [read_chunks] in Hr.
  destruct (file_read_ok BLOCK (pt_file p) BLOCK_pos Hok) as (b & f' & E & _ & _ & _ & _ & Hok').
  rewrite E in Hr. destruct b as [|x c].
  - simplify_eq. exists [], f'. split; [constructor|].
    unfold bind, send_next_block, bind. cbn [get fst snd]. rewrite Hs. rewrite E. cbn.
    rewrite with_sent_nil. unfold advanced. by rewrite !Z.add_0_r, Hs.
  - apply fmap_Some in Hr as (cs' & Hr & ->). apply Forall_cons_1 in Hc as [Hc Hcs].
    destruct (send_next_block_chunk x c f' p s dl t Hs Hf E Hc) as (b & Hb & Estep).
    set (p1 := advanced p f' _ _) in Estep.
    destruct (IH p1 (with_sent [block_item (pt_job_id p) (x :: c)] s) cs') as (bs & f2 & H1 & H2);
      try done.
    exists (b :: bs), f2. split; [by constructor|].
    unfold bind at 1. unfold bind at 1. rewrite Estep. cbn [ret]. rewrite H2.
    do 2 f_equal. unfold p1, advanced. cbn [pt_sent_bytes pt_transferred_bytes]. f_equal.
    + rewrite total_length_cons. lia.
    + cbn [map]. rewrite total_length_cons. lia.
    + apply with_sent_cons.
Qed.
End blocks.

(** ** Paths *)

Lemma rsplit_once_spec c s d f :
  rsplit_once c s = Some (d, f) -> s = (d ++ String c f)%string.
Proof.
  unfold rsplit_once. intros H.
  assert (forall n, rfind_char c s = Some n -> s = (str_take n s ++ String c (str_drop (S n) s))%string) as Hs.
  { clear. induction s as [|c' s IH]; intros n Hn; simpl in Hn; [done|].
    destruct (rfind_char c s) as [m|] eqn:E.
    - simplify_eq. simpl. f_equal. rewrite (IH m eq_refl) at 1. done.
    - destruct (Ascii.eqb_spec c c') as [->|]; simplify_eq. by destruct s. }
  destruct (rfind_char c s) as [n|] eqn:E; simplify_eq. by apply Hs.
Qed.

Lemma rfind_char_None c s : rfind_char c s = None -> find_char c s = None.
Proof.
  induction s as [|c' s IH]; simpl; [done|]. intros H.
  destruct (rfind_char c s) as [m|] eqn:E; [done|].
  destruct (Ascii.eqb_spec c c') as [->|Hne]; [done|].
  unfold find_char in *. simpl. unfold starts_with. simpl.
  destruct (Ascii.ascii_dec c c'); [done|]. by rewrite IH.
Qed.

Lemma is_empty_false s : is_empty s = false <-> s <> ""%string.
Proof. by destruct s. Qed.

Lemma path_file_name_nonempty p n : path_file_name p = Some n -> n <> ""%string.
Proof.
  unfold path_file_name. destruct (rev _) as [|c l] eqn:E; [done|].
  destruct (String.eqb c ".."); [done|]. intros [= <-].
  assert (In c (rev (List.filter (fun c => negb (is_empty c) && negb (String.eqb c ".")) (split_char "/" p)))) as Hin
    by (rewrite E; by left).
  apply in_rev, filter_In in Hin as [_ Hin]. by destruct c.
Qed.

Lemma ends_with_app_slash d : ends_with_char "/" (d ++ "/")%string = true.
Proof. induction d as [|c d IH]; [done|]. simpl. rewrite IH. by destruct (d ++ "/")%string. Qed.

(** ** Waiting for the peer's answer *)

Section await.
Context (C : CryptoLib) {L : CryptoLaws C} (P : ProtoCodec Message) {PL : ProtoLaws P}.

(** The heartbeat check before decoding makes no difference: nothing decodes to nothing. *)
Lemma recv_file_event_loop job dl t (s : EncryptedStream NetTransport) :
  recv_file_event job dl t s =
  recv_loop "receiving file transfer message" "decoding file transfer message"
    (on_file_message job) dl t s.
Proof.
  apply loop_ext. intros _ dl' t' s'. unfold recv_message, bind.
  destruct (context _ es_recv dl' t' s') as [[[raw|e| | |] t1] s1]; try done.
  destruct raw; [|done]. rewrite decode_nil. done.
Qed.

(** Messages a transfer passes over without doing anything. *)
Definition file_noise (job : Z) (m : Message) : Prop :=
  @on_file_message NetTransport _ C P job m = ret (inl tt).

Definition is_event (job : Z) (m : Message) (ev : FileTransferEvent) : Prop :=
  @on_file_message NetTransport _ C P job m = ret (inr ev).

(** The first event that comes in time is the result, when it comes. *)
Lemma recv_file_event_at (I : EncryptedStream NetTransport -> Prop) job dl noise a m ev rest t s :
  (forall i l t s, I s -> I (after_recv C i l t s)) ->
  Forall (fun x => on_time dl x.1 /\ file_noise job (seen x.2)) noise -> on_time dl a -> is_event job (seen m) ev ->
  delivers_msgs C P (noise ++ (a, m) :: rest) s -> I s ->
  exists s', recv_file_event job dl t s = (Done ev, Z.max (arrival t noise) a, s') /\
    delivers_msgs C P rest s' /\ I s'.
Proof.
  intros HI Hn Ha Hev Hd HIs.
  destruct (recv_loop_finds C P "receiving file transfer message" "decoding file transfer message"
    (on_file_message job) I dl noise a m rest t s HI) as (s' & fuel & E & Hd' & HI'); try done.
  { apply skip_pure. eapply Forall_impl; [|exact Hn]. by intros x Hx. }
  exists s'. rewrite recv_file_event_loop, E, <- arrival_snoc with (m := m). unfold bind. rewrite Hev. done.
Qed.

(** None in time: cut off at the deadline. *)
Lemma recv_file_event_cut (I : EncryptedStream NetTransport -> Prop) job d noise late t s :
  (forall i l t s, I s -> I (after_recv C i l t s)) -> (forall s, I s -> net_end (es_inner s) = Never) ->
  Forall (fun x => x.1 <= d /\ file_noise job (seen x.2)) noise -> t <= d ->
  match late with [] => True | (a, _) :: _ => d < a end ->
  delivers_msgs C P (noise ++ late) s -> I s ->
  exists s', recv_file_event job (Some d) t s = (Cut, d, s') /\ delivers_msgs C P late s' /\ I s'.
Proof.
  intros HI HIe Hn Ht Hl Hd HIs.
  destruct (recv_loop_cut C P "receiving file transfer message" "decoding file transfer message"
    (on_file_message job) I d noise late t s HI HIe) as (s' & E & Hd' & HI'); try done.
  { apply skip_pure. eapply Forall_impl; [|exact Hn]. by intros x Hx. }
  exists s'. by rewrite recv_file_event_loop.
Qed.

Lemma recv_file_event_finds (I : EncryptedStream NetTransport -> Prop) job noise a m ev rest t s :
  (forall i l t s, I s -> I (after_recv C i l t s)) ->
  Forall (fun x => file_noise job (seen x.2)) noise -> is_event job (seen m) ev ->
  delivers_msgs C P (noise ++ (a, m) :: rest) s -> I s ->
  exists t' s', recv_file_event job None t s = (Done ev, t', s') /\ delivers_msgs C P rest s' /\ I s'.
Proof.
  intros HI Hn Hev Hd HIs.
  destruct (recv_file_event_at I job None noise a m ev rest t s HI) as (s' & E & Hd' & HI'); try done; eauto.
  eapply Forall_impl; [|exact Hn]. by intros x Hx.
Qed.

Lemma loop_once {S A} (meas : S -> nat) (body : unit -> M S (unit + A)) b t' s' dl t s :
  body tt dl t s = (Done (inr b), t', s') -> loop meas body tt dl t s = (Done b, t', s').
Proof. intros E. unfold loop. rewrite iter_S. unfold bind. by rewrite E. Qed.
End await.

(** ** Properties of a push *)

(** The whole file is sent, block by block.  From any position of a file whose reads succeed,
    however short they are, the block loop of a push finishes; the blocks it put on the wire, each
    expanded as its flag says, are non-empty, at most 128 KiB, and put together are exactly the
    bytes of the file from that position on; the counters have advanced by the file bytes and by
    the bytes on the wire, which are never more. *)
Theorem push_sends_whole_file (C : CryptoLib) (L : CryptoLaws C) (P : ProtoCodec Message)
    (Zs : Zstd) (ZL : ZstdLaws Zs) p (s : EncryptedStream NetTransport) t :
  pt_skip_transfer p = false -> net_faults (es_inner s) = [] ->
  Forall (fun r => is_ok r = true) (fh_reads (pt_file p)) ->
  Forall (chunk_sendable P Zs (pt_job_id p)) (file_chunks (pt_file p)) ->
  exists p' s' blocks chunks,
    run send_blocks t (p, s) = (Done tt, t, (p', s')) /\
    net_out (es_inner s') = net_out (es_inner s) ++ sealed_frames (es_key s) (send_seq s)
      (map (fun b => Some (encode (block_message (pt_job_id p) b))) blocks) /\
    Forall2 (fun b c => expand b = Ok c) blocks chunks /\
    concat chunks = drop (fh_pos (pt_file p)) (fh_content (pt_file p)) /\
    Forall (fun c => c <> [] /\ Z.of_nat (length c) <= 128 * 1024) chunks /\
    pt_sent_bytes p' = pt_sent_bytes p + Z.of_nat (length (concat chunks)) /\
    pt_transferred_bytes p <= pt_transferred_bytes p' <=
      pt_transferred_bytes p + Z.of_nat (length (concat chunks)).
Proof.
  intros Hs Hf Hok Hc.
  destruct (read_chunks_spec (S (length (file_left (pt_file p)))) (pt_file p) Hok ltac:(lia))
    as (cs & Ecs & Hcat & Hall).
  unfold file_chunks in Hc. rewrite Ecs in Hc. simpl in Hc.
  destruct (send_blocks_run C P Zs (S (length (file_left (pt_file p)))) p s None t cs Hs Hf Ecs Hc Hok)
    as (bs & f' & H2 & E).
  assert (0 <= total_length (map fst bs) <= total_length cs) as Htl.
  { clear -H2 ZL. induction H2 as [|c b cs bs Hcb _ IH]; [done|]. cbn [map].
    rewrite !total_length_cons. apply (compress_expand Zs) in Hcb as [_ Hcb]. lia. }
  eexists _, _, bs, cs. split_and!.
  - unfold run, send_blocks, loop. cbn [fst].
    unfold file_left in E. rewrite length_drop in E. exact E.
  - unfold with_sent, net_sent. cbn. do 2 f_equal. clear -H2.
    induction H2 as [|c b cs bs Hcb _ IH]; [done|]. cbn [map]. rewrite IH.
    unfold block_item. by rewrite Hcb.
  - clear -H2 ZL. induction H2 as [|c b cs bs Hcb _ IH]; constructor; [|done].
    by apply (compress_expand Zs).
  - exact Hcat.
  - eapply Forall_impl; [|exact Hall]. intros c [? Hlen]. split; [done|].
    pose proof BLOCK_value. lia.
  - cbn [pt_sent_bytes advanced]. by rewrite total_length_concat.
  - cbn [pt_transferred_bytes advanced]. lia.
  - cbn [pt_transferred_bytes advanced]. rewrite <- total_length_concat. lia.
Qed.

Lemma push_sends_whole_file_witness :
  let C := toy_crypto in let P := toy_codec MessageUnion in let Zs := toy_zstd in
  let f := mkFileHandle [x01; x02; x03; x04; x05] 1 [Ok 2%nat] in
  let p := mkPushTransfer "f" "g" f 5 1 0 1 9 false in
  let s := es_new (mkNet [] Never [] [] false) [x01] 0 in
  exists p' s', run (@send_blocks _ _ C P Zs) 0 (p, s) = (Done tt, 0, (p', s')) /\
    pt_sent_bytes p' = 5.
Proof.
  intros C P Zs f p s.
  assert (file_chunks f = [[x02; x03]; [x04; x05]]) as Ef by (vm_compute; reflexivity).
  destruct (push_sends_whole_file C toy_crypto_laws P Zs toy_zstd_laws p s 0)
    as (p' & s' & bl & ch & H1 & _ & _ & H4 & _ & H6 & _).
  - reflexivity.
  - reflexivity.
  - repeat constructor.
  - change (pt_file p) with f. rewrite Ef. repeat constructor; vm_compute; congruence.
  - exists p', s'. split; [exact H1|]. rewrite H6, H4. reflexivity.
Defined.

(** Both sides resume at the same byte.  When the peer answers an upload with a digest of its
    own for this job, [await_confirmation] sends back exactly one confirmation, whose offset is the
    very byte the upload will start at: the peer's size when it has the same file, capped by the
    file's size and by 2^32 - 1, and 0 otherwise.  When it answers with a confirmation of its own,
    the start is its offset capped by the file's size, the whole file when it skips, else 0, and
    nothing is sent.  The start is never beyond the file. *)
Theorem push_resume_agreed (C : CryptoLib) (L : CryptoLaws C) (P : ProtoCodec Message)
    (PL : ProtoLaws P) job total noise a m ev rest (s : EncryptedStream NetTransport) t :
  0 <= total -> net_faults (es_inner s) = [] ->
  Forall (fun x => file_noise C P job (seen x.2)) noise -> is_event C P job (seen m) ev ->
  delivers_msgs C P (noise ++ (a, m) :: rest) s ->
  match ev with
  | EvDigest d =>
    let start := if fd_is_identical d
                 then Z.min (Z.min (fd_transferred_size d) total) u32_max else 0 in
    let reply := encode (Some (UFileAction (Some (FASendConfirm
      (mkFileTransferSendConfirmRequest job (fd_file_num d) (Some (FCOffsetBlk start))))))) in
    0 <= fd_transferred_size d -> Z.of_nat (length reply) + 16 <= max_frame ->
    exists t' s', run (await_confirmation job total) t s = (Done (start, false), t', s') /\
      net_out (es_inner s') = net_out (es_inner s) ++ sealed_frames (es_key s) (send_seq s) [Some reply] /\
      0 <= start <= total
  | EvConfirm c =>
    exists t' s' start skip, run (await_confirmation job total) t s = (Done (start, skip), t', s') /\
      net_out (es_inner s') = net_out (es_inner s) /\ start <= total /\
      (skip = true -> start = total /\ fsc_union c = Some (FCSkip true))
  | EvError e =>
    exists t' s', run (await_confirmation job total) t s =
      (Fail ["file transfer error: " ++ ferr_error e]%string, t', s')
  | EvDone _ => True
  end.
Proof.
  intros Htot Hf Hn Hev Hd.
  set (I := fun s' : EncryptedStream NetTransport =>
    net_out (es_inner s') = net_out (es_inner s) /\ net_faults (es_inner s') = [] /\
    es_key s' = es_key s /\ send_seq s' = send_seq s).
  destruct (recv_file_event_finds C P I job noise a m ev rest t s) as (t' & s' & E & Hd' & Ho & Hf' & Hk & Hq);
    try done.
  destruct ev as [d|c|dn|e]; [| |done|].
  - intros start reply Hsz Hrl.
    assert (0 <= start <= total /\ start <= u32_max) as [Hst Hu].
    { subst start. unfold u32_max. destruct (fd_is_identical d); lia. }
    assert (wrap 32 (resume_offset d total) = start) as Hw.
    { change (resume_offset d total) with start. unfold wrap. apply Z.mod_small. unfold u32_max in Hu. lia. }
    eexists t', _. split; [|split; [|exact Hst]].
    + unfold run, await_confirmation. apply loop_once. unfold bind, context. rewrite E. cbn.
      unfold confirm_upload_from_remote_digest, send_confirm, send_message, context, bind.
      rewrite Hw. fold reply. rewrite es_send_run by done. cbn. reflexivity.
    + cbn. by rewrite Ho, Hk, Hq.
  - eexists t', s', _, _. split; [|split; [done|]].
    + unfold run, await_confirmation. apply loop_once. unfold bind, context. rewrite E. cbn.
      rewrite <- surjective_pairing. reflexivity.
    + destruct (fsc_union c) as [[[]|off]|]; cbn; split; try lia; done.
  - exists t', s'. unfold run, await_confirmation, loop. rewrite iter_S. unfold bind, context.
    by rewrite E.
Qed.

Lemma push_resume_agreed_witness :
  let C := toy_crypto in let P := toy_codec MessageUnion in
  let d := mkFileTransferDigest 9 0 0 100 false true 40 false in
  let l : inbox := [(1, None); (5, Some (Some (UFileResponse (Some (FRDigest d)))))] in
  let s := es_new (mkNet (@sealed_arrivals C [x01] 0 (@wire_items P l)) Never [] [] false) [x01] 0 in
  exists t' s', run (@await_confirmation _ _ C P 9 100) 0 s = (Done (40, false), t', s').
Proof.
  intros C P d l s.
  destruct (push_resume_agreed C toy_crypto_laws P (toy_codec_laws MessageUnion) 9 100 (take 1 l) 5
    (Some (Some (UFileResponse (Some (FRDigest d))))) (EvDigest d) [] s 0) as (t' & s' & H & _).
  - lia.
  - reflexivity.
  - repeat constructor.
  - reflexivity.
  - split; [vm_compute; reflexivity|]. repeat constructor; vm_compute; congruence.
  - simpl. lia.
  - vm_compute. congruence.
  - exists t', s'. exact H.
Defined.

(** Where a pushed file lands.  [parse_remote_target] fails exactly when the remote path is
    blank or the local path has no file name.  Otherwise directory and name are non-empty, and they
    spell the remote path: a path with a trailing slash keeps the local name, a path with a slash
    splits at its last one (the root staying "/"), a bare name goes to ".". *)
Theorem remote_target_spec remote local :
  let path := trim remote in
  (is_ok (parse_remote_target remote local) = false <->
   path = ""%string \/ path_file_name local = None) /\
  (forall tgt, parse_remote_target remote local = Ok tgt ->
   rt_dir tgt <> ""%string /\ rt_file_name tgt <> ""%string /\
   (if ends_with_char "/" path then path_file_name local = Some (rt_file_name tgt)
    else path = (rt_dir tgt ++ "/" ++ rt_file_name tgt)%string \/
         (rt_dir tgt = "/"%string /\ path = ("/" ++ rt_file_name tgt)%string) \/
         (rt_dir tgt = "."%string /\ path = rt_file_name tgt /\ find_char "/" path = None))).
Proof.
  intros path. unfold parse_remote_target. fold path.
  destruct (is_empty path) eqn:Ee.
  { split; [|done]. destruct path; [|done]. naive_solver. }
  apply is_empty_false in Ee.
  destruct (path_file_name local) as [name|] eqn:En; cbn [ok_or mbind result_bind];
    [|split; [naive_solver|done]].
  pose proof (path_file_name_nonempty _ _ En) as Hname.
  destruct (ends_with_char "/" path) eqn:Es.
  - destruct (is_empty (trim_end_matches ["/"%char] path)) eqn:Ed; split;
      try (split; [done|naive_solver]); intros tgt [= <-]; simpl; split_and!; try done.
    by apply is_empty_false.
  - destruct (rsplit_once "/" path) as [[dir file]|] eqn:Er.
    + pose proof (rsplit_once_spec _ _ _ _ Er) as Hsplit.
      destruct (is_empty file) eqn:Ef.
      { destruct file; [|done]. rewrite Hsplit in Es. by rewrite ends_with_app_slash in Es. }
      apply is_empty_false in Ef. split; [split; [done|naive_solver]|].
      intros tgt [= <-]. simpl. split_and!; [|done|].
      * destruct (is_empty dir) eqn:Edir; [done|]. by apply is_empty_false.
      * destruct dir as [|x dir]; simpl; [|left; done]. right. left. by rewrite Hsplit.
    + split; [split; [done|naive_solver]|]. intros tgt [= <-]. simpl.
      split_and!; [done|done|]. right. right. split_and!; [done|done|].
      apply rfind_char_None. unfold rsplit_once in Er. by destruct (rfind_char "/" path).
Qed.

(** A transfer's job number is a positive [i32] below its maximum, for every clock reading. *)
Theorem job_id_range nanos : 0 <= nanos -> 1 <= new_job_id nanos <= i32_max - 1.
Proof.
  intros Hn. unfold new_job_id. pose proof (Z.mod_pos_bound nanos (i32_max - 1) ltac:(unfold i32_max; lia)).
  assert (swrap 32 (nanos mod (i32_max - 1)) = nanos mod (i32_max - 1)) as ->; [|lia].
  unfold swrap. unfold i32_max in *. change (32 - 1) with 31. rewrite Z.mod_small; lia.
Qed.

Lemma job_id_range_witness : 0 <= 1700000000123456789 /\ 1 <= new_job_id 1700000000123456789 <= i32_max - 1.
Proof. split; [lia|]. apply (job_id_range 1700000000123456789). lia. Defined.
