(* ===== verification/Rendezvous.v ===== *)
(** * The rendezvous client (src/rendezvous.rs)

    Requests to hbbs over UDP (a datagram socket is a transport of whole messages, as is a framed
    TCP stream) and over TCP, with the optional key exchange.  The framing helpers of this file are
    in [Transport].  Opening a TCP connection is an argument of the operations that do it. *)

From Stdlib Require Import ZArith Lia.
From Stdlib Require Import Strings.Byte Strings.Ascii Strings.String.
From stdpp Require Import base list option numbers.
From S2P Require Import Prelude RustStr Async Transport Crypto Proto Inbox.

Local Open Scope Z_scope.
Local Open Scope async_scope.

Inductive PunchRelayResponse : Type :=
| PRPunchHole (r : PunchHoleResponse)
| PRRelay (r : RelayResponse).

Definition CARGO_PKG_VERSION : string := "0.2.0".

(** [NatType::UnknownNat] *)
Definition UnknownNat : Z := 0.

(** ** Requests *)

Definition register_peer_request (my_id : string) : RendezvousMessage :=
  Some (RRegisterPeer (mkRegisterPeer my_id 0)).

Definition punch_hole_request (target_id licence_key : string) (conn_type : ConnType) (udp_port : Z)
    : RendezvousMessage :=
  Some (RPunchHoleRequest (mkPunchHoleRequest target_id UnknownNat licence_key
    (conn_type_i32 conn_type) "" CARGO_PKG_VERSION udp_port true 0 [])).

Definition relay_request (target_id uuid : string) (socket_addr : bytes) (relay_server licence_key : string)
    (conn_type : ConnType) : RendezvousMessage :=
  Some (RRequestRelay (mkRequestRelay target_id uuid socket_addr relay_server true licence_key
    (conn_type_i32 conn_type) "" None)).

(** ** Over UDP *)

Section udp.
Context {U : Type} `{Transport U} `{ProtoCodec RendezvousMessage}.

(** [socket.recv(&mut recv_buf)] into a buffer of 4096 bytes: what does not fit is cut off. *)
Definition RECV_BUF : nat := 4096.
Definition udp_recv : M U bytes := let* datagram := t_recv in ret (take RECV_BUF datagram).

(** [send_request]: the first response that is not a heartbeat's. *)
Definition request_step (_ : unit) : M U (unit + RendezvousMessage) :=
  let* raw := udp_recv in
  let* response := lift (decode raw) in
  match response with
  | Some (RRegisterPeerResponse _) => ret (inl tt)
  | _ => ret (inr response)
  end.
Definition send_request (message : RendezvousMessage) : M U RendezvousMessage :=
  t_send (encode message) ;;; loop t_pending request_step tt.

Definition register_peer (my_id : string) : M U bool :=
  t_send (encode (register_peer_request my_id)) ;;;
  let* raw := udp_recv in
  let* response := lift (decode raw) in
  match response with
  | Some (RRegisterPeerResponse request_pk) => ret request_pk
  | other => fail (anyhow ("unexpected rendezvous response to RegisterPeer: " ++ debug other)%string)
  end.

Definition register_pk (my_id : string) (uuid public_key : bytes) : M U RegisterPkResponse :=
  let* response := send_request (Some (RRegisterPk (mkRegisterPk my_id uuid public_key "" false))) in
  match response with
  | Some (RRegisterPkResponse r) => ret r
  | other => fail (anyhow ("unexpected rendezvous response to RegisterPk: " ++ debug other)%string)
  end.

Definition punch_hole_or_relay_with_conn_type (udp_port : Z) (target_id licence_key : string)
    (conn_type : ConnType) : M U PunchRelayResponse :=
  let* response := send_request (punch_hole_request target_id licence_key conn_type udp_port) in
  match response with
  | Some (RPunchHoleResponse r) => ret (PRPunchHole r)
  | Some (RRelayResponse r) => ret (PRRelay r)
  | other => fail (anyhow ("unexpected rendezvous response to PunchHoleRequest: " ++ debug other)%string)
  end.

Definition punch_hole_with_conn_type (udp_port : Z) (target_id licence_key : string)
    (conn_type : ConnType) : M U PunchHoleResponse :=
  let* r := punch_hole_or_relay_with_conn_type udp_port target_id licence_key conn_type in
  match r with
  | PRPunchHole response => ret response
  | PRRelay response =>
    fail (anyhow ("unexpected RelayResponse to PunchHoleRequest: "
                    ++ debug (Some (RRelayResponse response)))%string)
  end.

Definition send_punch_hole_with_conn_type (udp_port : Z) (target_id licence_key : string)
    (conn_type : ConnType) : M U unit :=
  t_send (encode (punch_hole_request target_id licence_key conn_type udp_port)).

Definition request_relay_for_with_conn_type (target_id relay_server : string) (socket_addr : bytes)
    (licence_key : string) (conn_type : ConnType) : M U RelayResponse :=
  let* response := send_request (relay_request target_id "" socket_addr relay_server licence_key conn_type) in
  match response with
  | Some (RRelayResponse r) => ret r
  | other => fail (anyhow ("unexpected rendezvous response to RequestRelay: " ++ debug other)%string)
  end.

(** [spawn_heartbeat]: one iteration of the background task; a failed send is ignored. *)
Definition heartbeat_tick (id : string) : M U unit :=
  let* _ := try (t_send (encode (register_peer_request id))) in ret tt.
End udp.

(** ** Keys of the server *)

(** [VerifyingKey::from_bytes] and [verify] of ed25519-dalek, and the [base64] crate's standard
    decoder. *)
Class ServerKeyLib : Type := {
  verifying_key : bytes -> option bytes;          (* a valid 32-byte key *)
  ed25519_verify : bytes -> bytes -> bytes -> bool;  (* key, message, signature *)
  base64_standard : string -> Res bytes
}.

Definition hex_preview (b : bytes) (max_len : nat) : string :=
  let preview_len := Nat.min (length b) max_len in
  (concat_str (map (fun x => hex_pad 2 (Z_of_byte x)) (take preview_len b))
   ++ (if (preview_len <? length b)%nat then "..." else ""))%string.

Section keys.
Context `{ServerKeyLib}.

Definition decode_rendezvous_verifying_key (server_key_b64 : string) : Res bytes :=
  decoded ← map_err (add_context "base64 decode rendezvous server key") (base64_standard server_key_b64);
  if negb (length decoded =? 32)%nat then
    Err (anyhow ("rendezvous server key is " ++ show_nat (length decoded) ++ " bytes, expected 32")%string)
  else ok_or (verifying_key decoded)
         (add_context "invalid rendezvous server Ed25519 key" (anyhow "signature error")).

Definition extract_verified_rendezvous_key (vk : option bytes) (signed_key : bytes)
    : option (bytes * string) :=
  vk ≫= fun k =>
  if ((96 <=? length signed_key) && (length (drop 64 signed_key) =? 32))%nat
     && ed25519_verify k (drop 64 signed_key) (take 64 signed_key)
  then Some (drop 64 signed_key, "signature||key"%string)
  else if (length signed_key =? 96)%nat
          && ed25519_verify k (take 32 signed_key) (drop 32 signed_key)
  then Some (take 32 signed_key, "key||signature"%string)
  else None.

Definition verify_rendezvous_server_key (server_key_b64 : string) (signed_key : bytes) : Res bytes :=
  if (length signed_key =? 32)%nat then Ok signed_key
  else if (length signed_key <? 96)%nat then
    Err (anyhow ("signed rendezvous TCP key is " ++ show_nat (length signed_key)
                   ++ " bytes, expected 32 or at least 96")%string)
  else
    let verification_key := ok (decode_rendezvous_verifying_key server_key_b64) in
    match extract_verified_rendezvous_key verification_key signed_key with
    | Some (peer_box_pk, _) => Ok peer_box_pk
    | None =>
      let suffix_message := drop 64 signed_key in
      if (length suffix_message =? 32)%nat then Ok suffix_message
      else Ok (take 32 signed_key)
    end.
End keys.

(** ** Over TCP *)

(** The connection to hbbs: plain until the key exchange, encrypted after; [Taken] while (or if)
    the exchange has consumed it. *)
Inductive TcpLink (T : Type) : Type :=
| Plain (t : T)
| Secure (s : EncryptedStream T)
| Taken.
Arguments Plain {T} t.
Arguments Secure {T} s.
Arguments Taken {T}.

Section tcp.
Context {T : Type} `{Transport T} `{CryptoLib} `{ProtoCodec RendezvousMessage} `{ServerKeyLib}.

Definition link_recv : M (TcpLink T) bytes := fun dl t l =>
  match l with
  | Secure s => let '(o, t', s') := es_recv dl t s in (o, t', Secure s')
  | Plain x => let '(o, t', x') := t_recv dl t x in (o, t', Plain x')
  | Taken => (Fail (anyhow "plain TCP transport should exist before KeyExchange"), t, l)
  end.

Definition link_pending (l : TcpLink T) : nat :=
  match l with Plain x => t_pending x | Secure s => es_pending s | Taken => 0 end.

(** [complete_tcp_key_exchange], with the two random values. *)
Definition complete_tcp_key_exchange (eph_sk key : bytes) (server_key_b64 : string)
    (keys : list bytes) : M T (EncryptedStream T) :=
  let* signed_key := lift (ok_or (head keys) (anyhow "TCP KeyExchange missing server key payload")) in
  let* peer_box_pk := lift (map_err (add_context "verifying signed rendezvous TCP key")
                             (verify_rendezvous_server_key server_key_b64 signed_key)) in
  let* key_result := lift (map_err (add_context "creating TCP rendezvous symmetric key")
                            (key_exchange_curve25519 eph_sk key peer_box_pk)) in
  let response := Some (RKeyExchange [ephemeral_pk key_result; sealed_key key_result]) in
  context "sending TCP KeyExchange response" (t_send (encode response)) ;;;
  let* transport := get in
  let* t := now in
  ret (es_new transport (session_key key_result) t).

(** The [KeyExchange] arm: take the plain transport, exchange keys, resend the request. *)
Definition switch_to_encrypted (eph_sk key : bytes) (licence_key : string) (keys : list bytes)
    (request_bytes : bytes) : M (TcpLink T) unit := fun dl t l =>
  match l with
  | Plain x =>
    match context "completing TCP rendezvous KeyExchange"
            (complete_tcp_key_exchange eph_sk key licence_key keys) dl t x with
    | (Done s, t1, _) =>
      let '(o, t2, s2) := context "sending encrypted PunchHoleRequest over TCP"
                            (es_send request_bytes) dl t1 s in (o, t2, Secure s2)
    | (Fail e, t1, _) => (Fail e, t1, Taken)
    | (Cut, t1, _) => (Cut, t1, Taken)
    | (Hang, t1, _) => (Hang, t1, Taken)
    | (Spin, t1, _) => (Spin, t1, Taken)
    end
  | _ => (Fail (anyhow "plain TCP transport should exist when KeyExchange starts"), t, l)
  end.

Definition punch_timed_out (d : Z) : Error :=
  anyhow ("timed out waiting for PunchHoleResponse or RelayResponse over TCP after "
            ++ show_Z (d / 1000) ++ "s")%string.

(** What the wait gives when time is up: the response seen so far, if any. *)
Definition punch_give_up (d : Z) (seen_resp : option PunchHoleResponse) : Res PunchRelayResponse :=
  match seen_resp with
  | Some response => Ok (PRPunchHole response)
  | None => Err (punch_timed_out d)
  end.

Definition is_secure (l : TcpLink T) : bool := match l with Secure _ => true | _ => false end.

(** The body of the loop; the accumulator is the response seen so far and whether the request
    was sent again. *)
Definition punch_step (eph_sk key : bytes) (licence_key : string) (request_bytes : bytes)
    (deadline d : Z) (acc : option PunchHoleResponse * bool)
    : M (TcpLink T) (option PunchHoleResponse * bool + PunchRelayResponse) :=
  let '(punch_response, resent) := acc in
  let* t := now in
  let remaining := Z.max 0 (deadline - t) in
  if remaining =? 0 then
    let* r := lift (punch_give_up d punch_response) in ret (inr r)
  else
    let* r := timeout remaining link_recv in
    match r with
    | Some (Err e) => fail (add_context "reading rendezvous response over TCP" e)
    | None => let* r := lift (punch_give_up d punch_response) in ret (inr r)
    | Some (Ok resp_bytes) =>
      let* response := lift (map_err (add_context "decode rendezvous response from TCP")
                              (decode resp_bytes)) in
      match response with
      | Some (RPunchHoleResponse resp) => ret (inl (Some resp, resent))
      | Some (RRelayResponse resp) => ret (inr (PRRelay resp))
      | Some (RKeyExchange keys) =>
        let* l := get in
        if is_secure l || resent then
          fail (anyhow "unexpected repeated TCP KeyExchange from rendezvous server")
        else
          switch_to_encrypted eph_sk key licence_key keys request_bytes ;;;
          ret (inl (punch_response, true))
      | Some (RRegisterPeerResponse _) => ret (inl (punch_response, resent))
      | other =>
        fail (anyhow ("unexpected rendezvous response to TCP PunchHoleRequest: " ++ debug other)%string)
      end
    end.

(** [punch_hole_via_tcp_with_conn_type] once the TCP connection is open. *)
Definition punch_hole_via_tcp_with_conn_type (eph_sk key : bytes) (udp_port : Z)
    (target_id licence_key : string) (conn_type : ConnType) (d : Z) : M (TcpLink T) PunchRelayResponse :=
  let request_bytes := encode (punch_hole_request target_id licence_key conn_type udp_port) in
  (fun dl t l => match l with
     | Plain x => let '(o, t', x') := t_send request_bytes dl t x in (o, t', Plain x')
     | _ => (Fail (anyhow "plain TCP transport should exist before KeyExchange"), t, l)
     end) ;;;
  let* t := now in
  let deadline := t + d in
  loop link_pending (punch_step eph_sk key licence_key request_bytes deadline d) (None, false).

(** [request_relay_via_tcp_with_conn_type] once the TCP connection is open. *)
Definition request_relay_via_tcp_with_conn_type (target_id relay_server : string) (socket_addr : bytes)
    (licence_key uuid : string) (conn_type : ConnType) : M T RelayResponse :=
  t_send (encode (relay_request target_id uuid socket_addr relay_server licence_key conn_type)) ;;;
  let* resp_bytes := context "reading RelayResponse over TCP" t_recv in
  let* response := lift (map_err (add_context "decode RelayResponse from TCP") (decode resp_bytes)) in
  match response with
  | Some (RRelayResponse r) => ret r
  | other => fail (anyhow ("expected RelayResponse over TCP, got " ++ debug other)%string)
  end.
End tcp.

(** ** Bounds *)

Section link_bounds.
Context (C : CryptoLib) (P : ProtoCodec RendezvousMessage) (K : ServerKeyLib).

Lemma link_recv_timely : timely (@link_recv NetTransport _ C).
Proof.
  timely_start. unfold link_recv. destruct s as [x|s|]; [| |simpl; lia].
  - pose proof (recv_timely d t x Ht) as H.
    by destruct (t_recv (Some d) t x) as [[[a|e| | |] t'] x'].
  - pose proof (es_recv_timely d t s Ht) as H.
    by destruct (es_recv (Some d) t s) as [[[a|e| | |] t'] x'].
Qed.

Lemma link_recv_spinless : spinless (@link_recv NetTransport _ C).
Proof.
  intros dl t l. unfold link_recv. destruct l as [x|s|]; [| |done].
  - pose proof (recv_spinless dl t x) as H.
    by destruct (t_recv dl t x) as [[[a|e| | |] t'] x'].
  - pose proof (es_recv_spinless dl t s) as H.
    by destruct (es_recv dl t s) as [[[a|e| | |] t'] x'].
Qed.

Lemma link_recv_uses dl t l b t' l' :
  @link_recv NetTransport _ C dl t l = (Done b, t', l') -> (link_pending l' < link_pending l)%nat.
Proof.
  unfold link_recv. destruct l as [x|s|]; [| |done].
  - destruct (t_recv dl t x) as [[o t1] x1] eqn:E. intros; simplify_eq. simpl. by apply recv_uses in E.
  - destruct (es_recv dl t s) as [[o t1] s1] eqn:E. intros; simplify_eq. simpl. by apply es_recv_uses in E.
Qed.

Lemma switch_instant eph key lic keys req : instant (@switch_to_encrypted NetTransport _ C P K eph key lic keys req).
Proof.
  intros dl t l. unfold switch_to_encrypted. destruct l as [x| |]; [|done..].
  assert (instant (context "completing TCP rendezvous KeyExchange"
    (@complete_tcp_key_exchange NetTransport _ C P K eph key lic keys))) as H.
  { unfold complete_tcp_key_exchange. cbn [t_send NetTransport_transport].
    repeat first [apply instant_context | apply instant_bind; intros | apply net_send_instant
      | solve [auto with instant]]. }
  specialize (H dl t x). destruct (context _ _ dl t x) as [[[s|e| | |] t1] x1]; try done. subst.
  pose proof (instant_context "sending encrypted PunchHoleRequest over TCP" _ (es_send_instant req) dl t s) as H.
  by destruct (context _ _ dl t s) as [[[[]|e| | |] t2] s2].
Qed.

Lemma switch_keeps eph key lic keys req dl t (l : TcpLink NetTransport) u t' l' :
  switch_to_encrypted eph key lic keys req dl t l = (Done u, t', l') -> link_pending l' = link_pending l.
Proof.
  unfold switch_to_encrypted. destruct l as [x| |]; [|done..]. unfold context at 1.
  destruct (complete_tcp_key_exchange eph key lic keys dl t x) as [[[s|e| | |] t1] x1] eqn:E; try done.
  assert (es_pending s = t_pending x) as Hs.
  { unfold complete_tcp_key_exchange in E.
    apply bind_done_inv in E as (k1 & ta & xa & Ea & E). destruct (head keys); cbn in Ea; simplify_eq.
    apply bind_done_inv in E as (k2 & tb & xb & Eb & E).
    destruct (verify_rendezvous_server_key lic k1); cbn in Eb; simplify_eq.
    apply bind_done_inv in E as (k3 & tc & xc & Ec & E).
    destruct (key_exchange_curve25519 eph key k2); cbn in Ec; simplify_eq.
    apply bind_done_inv in E as ([] & td & xd & Ed & E). cbn in E. simplify_eq.
    apply context_done_inv in Ed. unfold es_pending. simpl es_inner.
    pose proof (send_keeps (encode (Some (RKeyExchange [ephemeral_pk k3; sealed_key k3]))) dl tc xc) as Hk.
    by rewrite Ed in Hk. }
  unfold context. pose proof (es_send_keeps req dl t1 s) as Hk.
  destruct (es_send req dl t1 s) as [[o t2] s2]. cbn [snd] in Hk.
  destruct o; intros; simplify_eq; cbn [link_pending]; congruence.
Qed.

Lemma punch_step_bounded eph key lic req D d acc t (l : TcpLink NetTransport) :
  t <= D ->
  match @punch_step NetTransport _ C P K eph key lic req D d acc None t l with
  | (Done (inl _), t', l') => t <= t' <= D /\ (link_pending l' < link_pending l)%nat
  | (Done (inr _), t', _) | (Fail _, t', _) => t <= t' <= D
  | _ => False
  end.
Proof.
  intros Ht. unfold punch_step. destruct acc as [pr resent]. unfold bind at 1. cbn [now].
  rewrite Z.max_r by lia.
  destruct (D - t =? 0) eqn:E0; rd_bool.
  { unfold punch_give_up. destruct pr; cbn; lia. }
  unfold bind at 1.
  pose proof (timeout_bounded (D - t) link_recv t l ltac:(lia) link_recv_timely) as B.
  pose proof (spinless_timeout (D - t) link_recv link_recv_spinless None t l) as Sp.
  unfold run in B.
  destruct (timeout (D - t) link_recv None t l) as [[[[[b|e]|]|e| | |] t1] l1] eqn:E; try done.
  - assert (link_pending l1 < link_pending l)%nat as Hp.
    { unfold timeout in E.
      destruct (link_recv (Some (t + (D - t))) t l) as [[[b'|e'| | |] t2] l2] eqn:E2; simplify_eq.
      - by apply link_recv_uses in E2.
      - by destruct (_ <=? _). }
    unfold bind at 1. destruct (decode b) as [m|e]; cbn [map_err lift]; [|cbn; lia].
    cbn [ret]. destruct m as [[p|rp|q|r|k|kr|rr|rl|keys|tag o]|]; cbn; try lia.
    unfold bind at 1. cbn [get]. destruct (is_secure l1 || resent); [cbn; lia|].
    unfold bind. pose proof (switch_instant eph key lic keys req None t1 l1) as Hi.
    destruct (switch_to_encrypted eph key lic keys req None t1 l1) as [[[u|e| | |] t2] l2] eqn:Esw; try done.
    + apply switch_keeps in Esw. cbn. lia.
    + cbn. lia.
  - cbn. lia.
  - unfold punch_give_up. destruct pr; cbn; lia.
Qed.
End link_bounds.

(** ** Runs of a punch-hole request *)

Abbreviation rv_inbox := (list (Z * RendezvousMessage)).
Definition plain_inbox (P : ProtoCodec RendezvousMessage) (l : rv_inbox) : list (Z * Res bytes) :=
  map (fun x => (x.1, Ok (encode x.2))) l.
Definition sealed_inbox (P : ProtoCodec RendezvousMessage) (l : rv_inbox) : list (Z * option bytes) :=
  map (fun x => (x.1, Some (encode x.2))) l.

(** Responses the wait goes on after, and the last punch-hole response among them. *)
Definition rv_waits (m : RendezvousMessage) : bool :=
  match m with Some (RPunchHoleResponse _) | Some (RRegisterPeerResponse _) => true | _ => false end.
Definition last_punch (acc : option PunchHoleResponse) (l : rv_inbox) : option PunchHoleResponse :=
  foldl (fun acc x => match x.2 with Some (RPunchHoleResponse r) => Some r | _ => acc end) acc l.
Definition rv_clock (t : Z) (l : rv_inbox) : Z := foldl (fun t x => Z.max t x.1) t l.

(** A server that secures the connection: what it sends in the clear before, and its key. *)
Abbreviation Exchanged := (option (rv_inbox * Z * list bytes)).
Definition all_heard (ex : Exchanged) (noise : rv_inbox) : rv_inbox :=
  match ex with
  | Some (clear, a, keys) => clear ++ (a, Some (RKeyExchange keys)) :: noise
  | None => noise
  end.

Section punch_runs.
Context (C : CryptoLib) {CL : CryptoLaws C} (P : ProtoCodec RendezvousMessage) {PL : ProtoLaws P} (K : ServerKeyLib).
Abbreviation Lk := (TcpLink NetTransport).

(** The messages to come on the link; on a plain one other frames may follow. *)
Definition link_holds (l : rv_inbox) (more : list (Z * Res bytes)) (k : Lk) : Prop :=
  match k with
  | Plain n => net_in n = plain_inbox P l ++ more
  | Secure s => delivers C (sealed_inbox P l) s /\ more = []
  | Taken => False
  end.
(** How the link ends, and what sending on it does. *)
Definition net_state (n : NetTransport) : StreamEnd * list (option Error) := (net_end n, net_faults n).
Definition link_state (k : Lk) : StreamEnd * list (option Error) :=
  match k with Plain n => net_state n | Secure s => net_state (es_inner s) | Taken => (Never, []) end.

Lemma link_pending_holds l more k : link_holds l more k -> link_pending k = (length l + length more)%nat.
Proof.
  destruct k as [n|s|]; cbn; [|intros [[Hin _] ->]|done].
  - intros ->. unfold plain_inbox. by rewrite length_app, length_map.
  - cbn [length]. rewrite Nat.add_0_r. unfold es_pending. cbn. rewrite Hin. clear Hin. generalize (recv_seq s).
    induction l as [|[a m] l IH]; intros q; [done|]. cbn. by rewrite IH.
Qed.

Lemma link_recv_next a m l more d t k :
  link_holds ((a, m) :: l) more k -> a <= t + d -> 0 <= d ->
  exists k', timeout d link_recv None t k = (Done (Some (Ok (encode m))), Z.max t a, k') /\
    link_holds l more k' /\ link_state k' = link_state k.
Proof.
  intros Hk Ha Hd. unfold timeout, link_recv. destruct k as [n|s|]; cbn in Hk; [|destruct Hk as [Hk ->]|done].
  - exists (Plain (net_left (plain_inbox P l ++ more) n)). cbn [t_recv NetTransport_transport]. unfold net_recv.
    rewrite Hk. unfold bind. rewrite wait_until_on_time by (simpl; lia). done.
  - exists (Secure (after_recv C (Some (encode m)) (sealed_inbox P l) (Z.max t a) s)).
    rewrite (es_recv_wait C a (Some (encode m)) (sealed_inbox P l)) by done. unfold bind.
    rewrite wait_until_on_time by (simpl; lia). split; [done|]. split; [|done].
    destruct Hk as [_ Hs]. split; [|done]. by apply Forall_cons_1 in Hs as [_ Hs].
Qed.
Lemma link_recv_none d t k :
  link_holds [] [] k -> (link_state k).1 = Never -> 0 <= d ->
  exists k', timeout d link_recv None t k = (Done None, t + d, k').
Proof.
  intros Hk He Hd. unfold timeout, link_recv. destruct k as [n|s|]; cbn in Hk, He; [|destruct Hk as [Hk _]|done].
  - exists (Plain n). cbn [t_recv NetTransport_transport]. unfold net_recv. rewrite Hk, He. cbn.
    by rewrite Z.leb_refl, Z.max_r by lia.
  - destruct Hk as [Hin _]. eexists. unfold es_recv, bind, zoom. cbn [t_recv NetTransport_transport].
    unfold net_recv. cbn in Hin. rewrite Hin, He. cbn. by rewrite Z.leb_refl, Z.max_r by lia.
Qed.

Section steps.
Context (eph key : bytes) (lic : string) (req : bytes) (D d : Z).
Abbreviation step := (punch_step eph key lic req D d).

Lemma punch_step_waits pr re a m l more t k :
  link_holds ((a, m) :: l) more k -> rv_waits m = true -> t < D -> a <= D ->
  exists k', step (pr, re) None t k = (Done (inl (last_punch pr [(a, m)], re)), Z.max t a, k') /\
    link_holds l more k' /\ link_state k' = link_state k.
Proof.
  intros Hk Hm Ht Ha. unfold punch_step, bind at 1. cbn [now]. rewrite Z.max_r by lia.
  rewrite (proj2 (Z.eqb_neq _ _)) by lia. unfold bind at 1.
  destruct (link_recv_next a m l more (D - t) t k Hk ltac:(lia) ltac:(lia)) as (k' & -> & Hk' & He).
  exists k'. split; [|done]. unfold bind. rewrite decode_encode. cbn. by destruct m as [[]|].
Qed.

(** Going through the responses that do not end the wait. *)
Lemma punch_waits noise later more fuel pr re t k :
  link_holds (noise ++ later) more k -> Forall (fun x => rv_waits x.2 = true /\ x.1 < D) noise -> t < D ->
  exists k', iter (length noise + fuel) step (pr, re) None t k =
      iter fuel step (last_punch pr noise, re) None (rv_clock t noise) k' /\
    rv_clock t noise < D /\ link_holds later more k' /\ link_state k' = link_state k.
Proof.
  revert pr t k. induction noise as [|[a m] noise IH]; intros pr t k Hk Hn Ht; [by exists k|].
  apply Forall_cons_1 in Hn as [[Hm Ha] Hn]. cbn [fst snd length Nat.add] in *. rewrite iter_S. unfold bind.
  destruct (punch_step_waits pr re a m (noise ++ later) more t k Hk Hm Ht ltac:(lia)) as (k1 & -> & Hk1 & He1).
  destruct (IH (last_punch pr [(a, m)]) (Z.max t a) k1 Hk1 Hn ltac:(lia)) as (k2 & E & Hc & Hk2 & He2).
  exists k2. rewrite E, He2. by split_and!.
Qed.

(** The end of the wait: a relay, or the time is up. *)
Definition given_up (pr : option PunchHoleResponse) : outcome PunchRelayResponse :=
  match pr with Some r => Done (PRPunchHole r) | None => Fail (punch_timed_out d) end.

Lemma punch_gives_up pr re fuel t k :
  link_holds [] [] k -> (link_state k).1 = Never -> t < D ->
  (iter (S fuel) step (pr, re) None t k).1 = (given_up pr, D).
Proof.
  intros Hk He Ht. rewrite iter_S. unfold bind at 1, punch_step, bind at 1. cbn [now]. rewrite Z.max_r by lia.
  rewrite (proj2 (Z.eqb_neq _ _)) by lia. unfold bind at 1.
  destruct (link_recv_none (D - t) t k Hk He ltac:(lia)) as (k' & ->).
  replace (t + (D - t)) with D by lia. unfold punch_give_up. by destruct pr.
Qed.
Lemma punch_gets_relay pr re fuel a r later more t k :
  link_holds ((a, Some (RRelayResponse r)) :: later) more k -> t < D -> a <= D ->
  (iter (S fuel) step (pr, re) None t k).1 = (Done (PRRelay r), Z.max t a).
Proof.
  intros Hk Ht Ha. rewrite iter_S. unfold bind at 1, punch_step, bind at 1. cbn [now]. rewrite Z.max_r by lia.
  rewrite (proj2 (Z.eqb_neq _ _)) by lia. unfold bind at 1.
  destruct (link_recv_next _ _ _ more (D - t) t k Hk ltac:(lia) ltac:(lia)) as (k' & -> & _).
  unfold bind. by rewrite decode_encode.
Qed.

(** The server's key: the connection is secured with the client's key, and the request sent again. *)
Record secures (keys : list bytes) : Prop := {
  se_key : exists signed pk sealed, head keys = Some signed /\ verify_rendezvous_server_key lic signed = Ok pk /\
    box_seal pk eph zero_nonce key = Some sealed /\
    Z.of_nat (length (encode (Some (RKeyExchange [box_public eph; sealed])))) <= max_frame;
  se_fits : Z.of_nat (length req) + 16 <= max_frame
}.

Lemma punch_secures pr fuel a keys l t n :
  net_in n = (a, Ok (encode (Some (RKeyExchange keys)))) :: sealed_arrivals key 0 (sealed_inbox P l) ->
  net_faults n = [] -> secures keys -> Forall (fun x => sendable x.2) (sealed_inbox P l) -> t < D -> a <= D ->
  exists k', iter (S fuel) step (pr, false) None t (Plain n) = iter fuel step (pr, true) None (Z.max t a) k' /\
    link_holds l [] k' /\ link_state k' = net_state n.
Proof.
  intros Hin Hf [(signed & pk & sealed & Hh & Hv & Hb & Hl) Hr] Hs Ht Ha.
  rewrite iter_S. unfold bind at 1, punch_step, bind at 1. cbn [now]. rewrite Z.max_r by lia.
  rewrite (proj2 (Z.eqb_neq _ _)) by lia. unfold bind at 1, timeout, link_recv.
  cbn [t_recv NetTransport_transport]. unfold net_recv. rewrite Hin. unfold bind at 1.
  rewrite wait_until_on_time by (simpl; lia). unfold bind at 1. cbn [modify lift ret].
  unfold bind at 1. rewrite decode_encode. cbn [map_err lift ret]. unfold bind at 1. cbn [get is_secure orb].
  unfold bind at 1, switch_to_encrypted, context at 1, complete_tcp_key_exchange.
  rewrite Hh. cbn [ok_or]. unfold bind at 1. cbn [lift ret]. rewrite Hv. cbn [map_err].
  unfold bind at 1. cbn [lift ret]. unfold key_exchange_curve25519, key_exchange_with_box_pk. rewrite Hb.
  cbn [map_err]. unfold bind at 1. cbn [lift ret ephemeral_pk sealed_key session_key].
  unfold bind at 1, context at 1. cbn [t_send NetTransport_transport]. rewrite net_send_ok by done.
  unfold bind at 1. cbn [get]. unfold bind at 1. cbn [now ret]. unfold context.
  rewrite (es_send_run C) by done. cbn [ret]. eexists. split; [reflexivity|]. by split.
Qed.
End steps.

(** *** A punch-hole request *)

Context (eph key : bytes) (port : Z) (target lic : string) (ct : ConnType) (d t : Z) (n : NetTransport).
Abbreviation req := (encode (punch_hole_request target lic ct port)).
Abbreviation result := (run (punch_hole_via_tcp_with_conn_type eph key port target lic ct d) t (Plain n)).

(** What the server sends: in the clear, or sealed behind its key. *)
Definition punch_frames (ex : Exchanged) (l : rv_inbox) : list (Z * Res bytes) :=
  match ex with
  | None => plain_inbox P l
  | Some (clear, a, keys) =>
    plain_inbox P (clear ++ [(a, Some (RKeyExchange keys))]) ++ sealed_arrivals key 0 (sealed_inbox P l)
  end.
(** The exchange is in order, and what comes behind it can be sealed. *)
Definition exchange_ok (ex : Exchanged) (l : rv_inbox) : Prop :=
  match ex with
  | None => True
  | Some (clear, a, keys) =>
    Forall (fun x => rv_waits x.2 = true /\ x.1 < t + d) clear /\ a < t + d /\ secures eph key lic req keys /\
    Forall (fun x => sendable x.2) (sealed_inbox P l)
  end.

Hypothesis (Hd : 0 < d) (Hf : net_faults n = []) (Hl : Z.of_nat (length req) <= max_frame).

Lemma punch_request_run ex noise later :
  net_in n = punch_frames ex (noise ++ later) -> exchange_ok ex (noise ++ later) ->
  Forall (fun x => rv_waits x.2 = true /\ x.1 < t + d) noise ->
  exists k re, result = iter (S (length later)) (punch_step eph key lic req (t + d) d)
      (last_punch None (all_heard ex noise), re) None (rv_clock t (all_heard ex noise)) k /\
    rv_clock t (all_heard ex noise) < t + d /\ link_holds later [] k /\ link_state k = net_state n.
Proof.
  intros Hin Hex Hn.
  assert (result = loop link_pending (punch_step eph key lic req (t + d) d) (None, false) None t
                     (Plain (net_sent [req] n))) as ->.
  { unfold run, punch_hole_via_tcp_with_conn_type, bind.
    cbn [t_send NetTransport_transport]. rewrite net_send_ok by done. done. }
  unfold loop. destruct ex as [[[clear a] keys]|]; cbn [punch_frames exchange_ok all_heard] in *.
  - destruct Hex as (Hc & Ha & Hse & Hs).
    set (rest := (a, Ok (encode (Some (RKeyExchange keys)))) :: sealed_arrivals key 0 (sealed_inbox P (noise ++ later))).
    assert (link_holds (clear ++ []) rest (Plain (net_sent [req] n))) as Hk.
    { cbn. rewrite Hin, app_nil_r. unfold rest, plain_inbox. by rewrite map_app, <- app_assoc. }
    assert (length (sealed_arrivals key 0 (sealed_inbox P (noise ++ later))) = length noise + length later)%nat as Hlen.
    { rewrite <- length_app. generalize (noise ++ later), 0. intros l. induction l as [|x l IH]; intros q; [done|]. cbn. by rewrite IH. }
    rewrite (link_pending_holds _ _ _ Hk), app_nil_r. unfold rest at 1. cbn [length].
    rewrite Hlen. replace (S (length clear + S (length noise + length later)))
      with (length clear + S (length noise + S (length later)))%nat by lia.
    destruct (punch_waits eph key lic req (t + d) d clear [] rest (S (length noise + S (length later))) None false t _ Hk Hc
      ltac:(lia)) as (k1 & -> & Hc1 & Hk1 & He1).
    destruct k1 as [n1|s1|]; [|by destruct Hk1|done]. cbn in Hk1, He1.
    injection He1 as He1 Hf1.
    destruct (punch_secures eph key lic req (t + d) d (last_punch None clear) (length noise + S (length later)) a keys
      (noise ++ later) (rv_clock t clear) n1) as (k2 & -> & Hk2 & He2); try done; [by rewrite Hf1|lia|].
    destruct (punch_waits eph key lic req (t + d) d noise later [] (S (length later)) (last_punch None clear) true
      (Z.max (rv_clock t clear) a) k2 Hk2 Hn ltac:(lia)) as (k3 & -> & Hc3 & Hk3 & He3).
    exists k3, true. unfold last_punch, rv_clock in *. rewrite !foldl_app. cbn [foldl fst snd].
    split_and!; try done. rewrite He3, He2. unfold net_state. by rewrite He1, Hf1.
  - destruct (punch_waits eph key lic req (t + d) d noise later [] (S (length later)) None false t (Plain (net_sent [req] n)))
      as (k & E & Hc & Hk & He); [cbn; by rewrite app_nil_r|done|lia|].
    exists k, false. split; [|by split_and!]. rewrite <- E. f_equal.
    cbn. rewrite Hin. unfold plain_inbox. rewrite length_map, length_app. lia.
Qed.

(** No relay: the last punch-hole response, when the time is up. *)
Lemma punch_quiet ex noise :
  net_in n = punch_frames ex (noise ++ []) -> exchange_ok ex (noise ++ []) ->
  Forall (fun x => rv_waits x.2 = true /\ x.1 < t + d) noise -> net_end n = Never ->
  result.1 = (given_up d (last_punch None (all_heard ex noise)), t + d).
Proof.
  intros Hin Hex Hn He. destruct (punch_request_run ex noise [] Hin Hex Hn) as (k & re & -> & Hc & Hk & Hs).
  apply punch_gives_up; [done|by rewrite Hs|lia].
Qed.

(** A relay is returned when it comes. *)
Lemma punch_relayed ex noise a r later :
  net_in n = punch_frames ex (noise ++ (a, Some (RRelayResponse r)) :: later) ->
  exchange_ok ex (noise ++ (a, Some (RRelayResponse r)) :: later) ->
  Forall (fun x => rv_waits x.2 = true /\ x.1 < t + d) noise -> a <= t + d ->
  result.1 = (Done (PRRelay r), Z.max (rv_clock t (all_heard ex noise)) a).
Proof.
  intros Hin Hex Hn Ha. destruct (punch_request_run ex noise _ Hin Hex Hn) as (k & re & -> & Hc & Hk & Hs).
  eapply punch_gets_relay; [done|lia|done].
Qed.
End punch_runs.

(** ** Properties of the rendezvous client *)

(** A punch-hole request over TCP always ends by its time limit.  Whatever the server sends,
    key exchanges, garbage and silence included, [punch_hole_via_tcp_with_conn_type] returns a
    response or an error between the time it starts and the limit after it. *)
Theorem punch_hole_tcp_bounded (C : CryptoLib) (P : ProtoCodec RendezvousMessage) (K : ServerKeyLib)
    eph key port target lic ct d t (l : TcpLink NetTransport) :
  0 <= d ->
  match run (punch_hole_via_tcp_with_conn_type eph key port target lic ct d) t l with
  | (Done _, t', _) | (Fail _, t', _) => t <= t' <= t + d
  | _ => False
  end.
Proof.
  intros Hd. unfold run, punch_hole_via_tcp_with_conn_type. unfold bind at 1.
  set (req := encode (punch_hole_request target lic ct port)).
  destruct l as [x| |]; [|simpl; lia..].
  pose proof (net_send_instant req None t x) as Hi. cbn [t_send NetTransport_transport].
  destruct (net_send req None t x) as [[[[]|e| | |] t1] x1]; try done; [|lia].
  subst t1. unfold bind. cbn [now].
  pose proof (loop_until link_pending (punch_step eph key lic req (t + d) d) (t + d) (None, false) t
    (Plain x1) (fun x t' s => punch_step_bounded C P K eph key lic req (t + d) d x t' s)) as H.
  apply H. lia.
Qed.

Lemma punch_hole_tcp_bounded_witness :
  let K := {| verifying_key := fun _ => None; ed25519_verify := fun _ _ _ => false;
              base64_standard := fun _ => Ok [] |} in
  let l := Plain (mkNet [(3, Ok [xff])] Never [] [] false) in
  0 <= 6000 /\
  match run (@punch_hole_via_tcp_with_conn_type _ _ toy_crypto (toy_codec RendezvousUnion) K
               [] [] 0 "id" "" DefaultConn 6000) 10 l with
  | (Done _, t', _) | (Fail _, t', _) => 10 <= t' <= 10 + 6000
  | _ => False
  end.
Proof.
  intros K l. split; [lia|].
  apply (punch_hole_tcp_bounded toy_crypto (toy_codec RendezvousUnion) K [] [] 0 "id" "" DefaultConn 6000 10 l).
  lia.
Defined.

(** Which response a punch-hole request returns.  On a plain connection, or on one the server secures
    with a key it has signed or not, after any number of punch-hole and heartbeat responses, a relay
    response within the limit is returned as soon as it comes; when none comes, the last punch-hole
    response is returned, but only when the limit is reached, and with none at all the request times
    out then. *)
Theorem punch_hole_tcp_answer (C : CryptoLib) (CL : CryptoLaws C) (P : ProtoCodec RendezvousMessage) (PL : ProtoLaws P)
    (K : ServerKeyLib) eph key port target lic ct d t n ex noise later :
  0 < d -> net_faults n = [] ->
  let req := encode (punch_hole_request target lic ct port) in
  Z.of_nat (length req) <= max_frame ->
  net_in n = punch_frames C P key ex (noise ++ later) ->
  exchange_ok C P K eph key port target lic ct d t ex (noise ++ later) ->
  Forall (fun x => rv_waits x.2 = true /\ x.1 < t + d) noise ->
  let result := run (punch_hole_via_tcp_with_conn_type eph key port target lic ct d) t (Plain n) in
  match later with
  | (a, Some (RRelayResponse r)) :: _ =>
    a <= t + d -> result.1 = (Done (PRRelay r), Z.max (rv_clock t (all_heard ex noise)) a)
  | [] => net_end n = Never ->
    result.1 = (match last_punch None (all_heard ex noise) with
                | Some r => Done (PRPunchHole r)
                | None => Fail (punch_timed_out d)
                end, t + d)
  | _ => True
  end.
Proof.
  intros Hd Hf req Hl Hin Hex Hn result. unfold result.
  destruct later as [|[a m] later]; [by eapply (punch_quiet C P K)|]. destruct m as [[]|]; try done.
  by eapply (punch_relayed C P K).
Qed.

(** The server secures the connection with a bare key, and names a relay behind it. *)
Lemma punch_hole_tcp_answer_witness :
  let P := toy_codec RendezvousUnion in
  let K := {| verifying_key := fun _ => None; ed25519_verify := fun _ _ _ => false;
              base64_standard := fun _ => Ok [] |} in
  let relay := mkRelayResponse [] "" "relay" "" [] in
  let key := repeat x06 32 in
  let ex : Exchanged := Some ([(5, Some (RRegisterPeerResponse false))], 7, [repeat x09 32]) in
  let n := mkNet (punch_frames toy_crypto P key ex [(9, Some (RRelayResponse relay))]) Never [] [] false in
  (run (@punch_hole_via_tcp_with_conn_type _ _ toy_crypto P K [x01] key 0 "id" "" DefaultConn 6000) 0 (Plain n)).1
  = (Done (PRRelay relay), 9).
Proof.
  intros P K relay key ex n.
  apply (punch_hole_tcp_answer toy_crypto toy_crypto_laws P (toy_codec_laws RendezvousUnion) K [x01] key 0 "id" ""
    DefaultConn 6000 0 n ex [] [(9, Some (RRelayResponse relay))]).
  - lia.
  - reflexivity.
  - vm_compute. congruence.
  - reflexivity.
  - split; [repeat constructor; vm_compute; congruence|]. split; [lia|]. split.
    + constructor; [|vm_compute; congruence].
      eexists _, _, _. split; [reflexivity|]. split; [reflexivity|]. split; [reflexivity|]. vm_compute. congruence.
    + repeat (apply Forall_cons_2 || apply Forall_nil_2); vm_compute; congruence.
  - constructor.
  - lia.
Defined.


