(* ===== verification/Connection.v ===== *)
(** * Connecting to a peer (src/connection.rs)

    [connect_with_mode] is the whole flow: register with hbbs, agree on a relay, bind to it,
    exchange keys and log in.  Its environment is the UDP socket and the outcomes of the TCP
    connections it opens; random values, the process id, the operating system and the UDP port are
    arguments.  The progress lines on stderr are not modelled, except that one of them slices the
    relay's identifier and can panic. *)

From Stdlib Require Import ZArith Lia.
From Stdlib Require Import Strings.Byte Strings.Ascii Strings.String.
From stdpp Require Import base list option numbers.
From S2P Require Import Prelude RustStr Async Transport Crypto Proto Inbox Rendezvous.

Local Open Scope Z_scope.
Local Open Scope async_scope.

(** [connection::ConnectionConfig] *)
Record ConnConfig : Type := mkConnConfig {
  id_server : string;
  relay_server : string;
  server_key : string;
  peer_id : string;
  password : string;
  warmup_secs : Z
}.

Definition PUNCH_HOLE_RESPONSE_TIMEOUT : Z := 6000.
Definition PUNCH_HOLE_GRACE_DELAY : Z := 300.
Definition RELAY_PORT : Z := 21117.

(** What the flow draws from the operating system. *)
Record ConnRandom : Type := mkConnRandom {
  rnd_register_uuid : bytes;
  rnd_register_pk : bytes;
  rnd_uuid : bytes;          (* 16 bytes *)
  rnd_punch_sk : bytes;
  rnd_punch_key : bytes;
  rnd_eph_sk : bytes;
  rnd_session_key : bytes;
  rnd_session_id : bytes;    (* 8 bytes *)
  env_pid : Z;
  env_os : string;
  env_udp_port : Z
}.

Definition rand_session_id (r : ConnRandom) : Z := from_le_bytes (rnd_session_id r).

Definition normalize_relay_addr (relay_addr : string) : string :=
  if is_empty relay_addr then ""
  else if starts_with "[" relay_addr then
    if contains "]:" relay_addr then relay_addr
    else (relay_addr ++ ":" ++ show_Z RELAY_PORT)%string
  else
    match count_char ":" relay_addr with
    | O => (relay_addr ++ ":" ++ show_Z RELAY_PORT)%string
    | S O => relay_addr
    | _ => ("[" ++ relay_addr ++ "]:" ++ show_Z RELAY_PORT)%string
    end.

Definition build_login_option_message (conn_type : ConnType) : option OptionMessage :=
  if decide (conn_type = ConnTerminal) then
    Some (mkOptionMessage 0 0 0 0 0 BoolOption_Yes None [])
  else if decide (conn_type = ConnFileTransfer) then None
  else Some (mkOptionMessage ImageQuality_Best 0 BoolOption_Yes BoolOption_Yes BoolOption_Yes
               BoolOption_Yes (Some (mkSupportedDecoding 1 [])) []).

Definition check_punch_hole_failure (resp : PunchHoleResponse) : Res unit :=
  if negb (is_empty (phr_other_failure resp)) then
    Err (anyhow ("punch hole failed: " ++ phr_other_failure resp)%string)
  else
    let has_relay := negb (is_empty (phr_relay_server resp)) in
    let f := phr_failure resp in
    if f =? 0 then
      match phr_socket_addr resp, has_relay with
      | [], false => Err (anyhow "punch hole failed: the target ID does not exist on the rendezvous server")
      | _, _ => Ok tt
      end
    else if f =? 2 then Ok tt
    else if f =? 3 then Err (anyhow "punch hole failed: license mismatch between client and server")
    else if f =? 4 then
      Err (anyhow "punch hole failed: license connection limit exceeded (login overload)")
    else Err (anyhow ("punch hole failed: unknown failure code " ++ show_Z f)%string).

(** ** The handshake *)

Section handshake.
Context {T : Type} `{Transport T} `{CryptoLib} `{ProtoCodec Message} `{ProtoCodec IdPk}.

(** Run the rest of the handshake on a stream that takes over the transport. *)
Definition over_stream {A} (key : bytes) (m : M (EncryptedStream T) A) : M T (A * EncryptedStream T) :=
  fun dl t x =>
  match m dl t (es_new x key t) with
  | (Done a, t', s') => (Done (a, s'), t', es_inner s')
  | (Fail e, t', s') => (Fail e, t', es_inner s')
  | (Cut, t', s') => (Cut, t', es_inner s')
  | (Hang, t', s') => (Hang, t', es_inner s')
  | (Spin, t', s') => (Spin, t', es_inner s')
  end.

(** [timeout(d, stream.recv()).await.map_err(..)?.context(c)?] *)
Definition recv_within {S} (recv : M S bytes) (d : Z) (timed_out c : string) : M S bytes :=
  let* r := timeout d recv in
  match r with
  | None => fail (anyhow timed_out)
  | Some (Err e) => fail (add_context c e)
  | Some (Ok raw) => ret raw
  end.

(** Steps 1 and 2: the peer's Curve25519 key out of its [SignedId]. *)
Definition peer_key_of (msg : Message) : Res bytes :=
  match msg with
  | Some (USignedId sid) =>
    let signed_bytes := signed_id sid in
    if (length signed_bytes <=? 64)%nat then
      Err (anyhow ("SignedId too short (" ++ show_nat (length signed_bytes) ++ " bytes), expected >64")%string)
    else
      id_pk ← map_err (add_context "decode IdPk from SignedId") (decode (drop 64 signed_bytes));
      if (length (idpk_pk id_pk) =? 32)%nat then Ok (idpk_pk id_pk)
      else Err (anyhow ("peer Curve25519 pk is " ++ show_nat (length (idpk_pk id_pk))
                          ++ " bytes, expected 32")%string)
  | other => Err (anyhow ("expected SignedId, got " ++ debug other)%string)
  end.

(** Step 7: the login request. *)
Definition login_request (r : ConnRandom) (pw_hash : bytes) (peer client : string)
    (conn_type : ConnType) (login_union : option LoginUnion) : Message :=
  Some (ULoginRequest (mkLoginRequest peer pw_hash client "rustdesk-cli"
    (build_login_option_message conn_type) false (rand_session_id r) CARGO_PKG_VERSION
    (if String.eqb (env_os r) "macos" then "macOS"%string else env_os r) [] "" [] login_union)).

(** Step 8: one round of waiting for the login response, until [deadline]. *)
Definition login_step (deadline : Z) (_ : unit) : M (EncryptedStream T) (unit + PeerInfo) :=
  let* t := now in
  let remaining := Z.max 0 (deadline - t) in
  if remaining =? 0 then fail (anyhow "timed out waiting for LoginResponse from peer")
  else
    let* resp_raw := recv_within es_recv remaining
                       "timed out waiting for LoginResponse from peer" "waiting for LoginResponse" in
    let* resp_msg := lift (map_err (add_context "decode LoginResponse") (decode resp_raw)) in
    match resp_msg with
    | Some (ULoginResponse lr) =>
      match lresp_union lr with
      | Some (LRPeerInfo info) => ret (inr info)
      | Some (LRError e) => fail (anyhow ("login rejected: " ++ e)%string)
      | None => fail (anyhow "LoginResponse has no union field")
      end
    | Some (UPeerInfo info) => ret (inr info)
    | Some (UTestDelay _) => ret (inl tt)
    | other => fail (anyhow ("expected LoginResponse, got " ++ debug other)%string)
    end.

(** Steps 5 to 8, on the encrypted stream. *)
Definition authenticate (r : ConnRandom) (pw peer client : string) (conn_type : ConnType)
    (login_union : option LoginUnion) : M (EncryptedStream T) PeerInfo :=
  let* hash_raw := recv_within es_recv 10000 "timed out waiting for Hash challenge from peer"
                     "waiting for Hash" in
  let* hash_msg := lift (map_err (add_context "decode Hash message") (decode hash_raw)) in
  match hash_msg with
  | Some (UHash h) =>
    let pw_hash := password_hash pw (as_bytes (hash_salt h)) (as_bytes (hash_challenge h)) in
    es_send (encode (login_request r pw_hash peer client conn_type login_union)) ;;;
    let* t := now in
    loop es_pending (login_step (t + 10000)) tt
  | other => fail (anyhow ("expected Hash, got " ++ debug other)%string)
  end.

(** [handshake_and_auth] *)
Definition handshake_and_auth (r : ConnRandom) (pw peer client : string) (conn_type : ConnType)
    (login_union : option LoginUnion) : M T (PeerInfo * EncryptedStream T) :=
  let* raw := recv_within t_recv 30000 "timed out waiting for SignedId from peer (30s)"
                "waiting for SignedId" in
  let* msg := lift (map_err (add_context "decode SignedId message") (decode raw)) in
  let* peer_box_pk := lift (peer_key_of msg) in
  let* kx := lift (map_err (add_context "NaCl key exchange with peer's Curve25519 pk failed")
                    (key_exchange_curve25519 (rnd_eph_sk r) (rnd_session_key r) peer_box_pk)) in
  t_send (encode (Some (UPublicKey (mkPublicKey (ephemeral_pk kx) (sealed_key kx))))) ;;;
  over_stream (session_key kx) (authenticate r pw peer client conn_type login_union).
End handshake.

(** ** The whole flow *)

(** The UDP socket, and the TCP connections to come: when each attempt ends, and how. *)
Record ConnEnv (T : Type) : Type := mkConnEnv {
  ce_udp : T;
  ce_dials : list (Z * Res T)
}.
Arguments mkConnEnv {T} _ _.
Arguments ce_udp {T} _.
Arguments ce_dials {T} _.

(** [&uuid[..uuid.len().min(8)]]: panics inside a character. *)
Definition uuid_prefix (uuid : string) : Res string :=
  let n := Nat.min (String.length uuid) 8 in
  match str_drop n uuid with
  | String c _ => if in_range 0x80 0xBF (ascii_Z c)
                  then Err (anyhow "end byte index 8 is not a char boundary")
                  else Ok (str_take n uuid)
  | EmptyString => Ok (str_take n uuid)
  end.

Section flow.
Context {T : Type} `{Transport T} `{CryptoLib} `{ProtoCodec Message} `{ProtoCodec IdPk}
  `{ProtoCodec RendezvousMessage} `{ServerKeyLib}.

(** [TcpStream::connect(addr)] *)
Definition dial : M (ConnEnv T) T := fun dl t s =>
  match ce_dials s with
  | [] => pending dl t s
  | (a, r) :: rest =>
    (wait_until a ;;; modify (fun s => mkConnEnv (ce_udp s) rest) ;;; lift r) dl t s
  end.

Definition on_udp {A} (m : M T A) : M (ConnEnv T) A :=
  zoom ce_udp (fun x s => mkConnEnv x (ce_dials s)) m.

(** Run on a connection of its own, dropped afterwards. *)
Definition on_own {S A} (x : S) (m : M S A) : M (ConnEnv T) A := fun dl t s =>
  let '(o, t', _) := m dl t x in (o, t', s).

(** [relay_connect_with_type] *)
Definition relay_connect_with_type (relay_addr uuid peer licence_key : string) : M (ConnEnv T) T :=
  let* transport := context ("failed to connect TCP to relay " ++ relay_addr)%string dial in
  let binding := relay_request peer uuid [] "" licence_key DefaultConn in
  on_own transport (t_send (encode binding) ;;; get).

Definition punch_over_tcp (r : ConnRandom) (config : ConnConfig) (conn_type : ConnType)
    : M (ConnEnv T) PunchRelayResponse :=
  let* x := context ("failed to open TCP to rendezvous server " ++ id_server config
                       ++ " for PunchHoleRequest")%string dial in
  on_own (Plain x) (punch_hole_via_tcp_with_conn_type (rnd_punch_sk r) (rnd_punch_key r)
    (env_udp_port r) (peer_id config) (server_key config) conn_type PUNCH_HOLE_RESPONSE_TIMEOUT).

Definition relay_over_tcp (config : ConnConfig) (client_uuid : string) : M (ConnEnv T) RelayResponse :=
  let* x := context ("failed to open TCP to rendezvous server " ++ id_server config
                       ++ " for RequestRelay")%string dial in
  on_own x (request_relay_via_tcp_with_conn_type (peer_id config) (relay_server config) []
    (server_key config) client_uuid DefaultConn).

(** What the punch-hole response says: (a response was received, the peer's relay id, the relay). *)
Definition relay_hint (config : ConnConfig) (r : Res PunchRelayResponse)
    : Res (bool * option string * option string) :=
  match r with
  | Ok (PRPunchHole resp) =>
    check_punch_hole_failure resp ≫= fun _ =>
    Ok (true, None,
        if negb (is_empty (phr_relay_server resp))
        then Some (normalize_relay_addr (phr_relay_server resp)) else None)
  | Ok (PRRelay resp) =>
    if negb (is_empty (rlr_refuse_reason resp)) then
      Err (anyhow ("relay refused: " ++ rlr_refuse_reason resp)%string)
    else
      Ok (true,
          if negb (is_empty (rlr_uuid resp)) then Some (rlr_uuid resp) else None,
          if negb (is_empty (rlr_relay_server resp))
          then Some (normalize_relay_addr (rlr_relay_server resp))
          else Some (normalize_relay_addr (relay_server config)))
  | Err _ => Ok (false, None, None)
  end.

(** The fallback: ask hbbs for a relay, else use the configured one. *)
Definition fallback_relay (config : ConnConfig) (r : option (Res RelayResponse)) : Res string :=
  match r with
  | Some (Ok resp) =>
    if negb (is_empty (rlr_refuse_reason resp)) then
      Err (anyhow ("relay refused: " ++ rlr_refuse_reason resp)%string)
    else if is_empty (rlr_relay_server resp) then Ok (normalize_relay_addr (relay_server config))
    else Ok (normalize_relay_addr (rlr_relay_server resp))
  | _ => Ok (normalize_relay_addr (relay_server config))
  end.

Definition hex_bytes (b : bytes) : string := concat_str (map (fun x => hex_pad 2 (Z_of_byte x)) b).

(** [connect_with_mode]; [udp_socket] is the outcome of [RendezvousClient::connect]. *)
Definition connect_with_mode (rnd : ConnRandom) (udp_socket : Res unit) (config : ConnConfig)
    (conn_type : ConnType) (login_union : option LoginUnion)
    : M (ConnEnv T) (PeerInfo * EncryptedStream T) :=
  lift (map_err (add_context "failed to connect to rendezvous server") udp_socket) ;;;
  let my_id := ("cli-" ++ show_Z (env_pid rnd))%string in
  let* request_pk := context "RegisterPeer failed" (on_udp (register_peer my_id)) in
  (if request_pk then
     let* _ := context "RegisterPk failed"
       (on_udp (register_pk my_id (rnd_register_uuid rnd) (rnd_register_pk rnd))) in ret tt
   else ret tt) ;;;
  (if 0 <? warmup_secs config then sleep (1000 * warmup_secs config) else ret tt) ;;;
  let client_uuid := hex_bytes (rnd_uuid rnd) in
  let* punch := try (punch_over_tcp rnd config conn_type) in
  let* '(received, peer_relay_uuid, hint) := lift (relay_hint config punch) in
  let* relay_addr :=
    (match hint with
     | Some relay_addr => ret relay_addr
     | None =>
       let* rr := timeout 15000 (relay_over_tcp config client_uuid) in
       lift (fallback_relay config rr)
     end) in
  let relay_uuid := default client_uuid peer_relay_uuid in
  (if (received : bool) then sleep PUNCH_HOLE_GRACE_DELAY else ret tt) ;;;
  let* _ := lift (uuid_prefix relay_uuid) in
  let* transport := relay_connect_with_type relay_addr relay_uuid (peer_id config) (server_key config) in
  on_own transport (handshake_and_auth rnd (password config) (peer_id config) my_id conn_type login_union).

(** [connect] *)
Definition connect (rnd : ConnRandom) (udp_socket : Res unit) (config : ConnConfig)
    : M (ConnEnv T) (PeerInfo * EncryptedStream T) :=
  connect_with_mode rnd udp_socket config DefaultConn None.
End flow.

(** ** Time bounds of the handshake *)

Lemma takes_recv_within {S} (recv : M S bytes) d c1 c2 :
  0 <= d -> timely recv -> spinless recv -> takes d (recv_within recv d c1 c2).
Proof.
  intros Hd Ht Hs t s. unfold run, recv_within, bind.
  pose proof (timeout_bounded d recv t s Hd Ht) as B. unfold run in B.
  pose proof (spinless_timeout d recv Hs None t s) as Sp.
  destruct (timeout d recv None t s) as [[[[[b|e]|]|e| | |] t'] s']; cbn; lia.
Qed.

Section handshake_bounds.
Context (C : CryptoLib) (P : ProtoCodec Message) (PI : ProtoCodec IdPk).

Lemma login_step_bounded D t (s : EncryptedStream NetTransport) :
  t <= D ->
  match login_step D tt None t s with
  | (Done (inl _), t', s') => t <= t' <= D /\ (es_pending s' < es_pending s)%nat
  | (Done (inr _), t', _) | (Fail _, t', _) => t <= t' <= D
  | _ => False
  end.
Proof.
  intros Ht. unfold login_step, bind at 1. cbn [now]. rewrite Z.max_r by lia.
  destruct (D - t =? 0) eqn:E0; [cbn; lia|]. unfold bind at 1.
  pose proof (takes_recv_within es_recv (D - t) "timed out waiting for LoginResponse from peer"
    "waiting for LoginResponse" ltac:(rd_bool; lia) es_recv_timely es_recv_spinless t s) as B.
  unfold run in B.
  destruct (recv_within es_recv (D - t) _ _ None t s) as [[[raw|e| | |] t'] s'] eqn:E; try lia.
  assert (es_pending s' < es_pending s)%nat as Hp.
  { unfold recv_within, bind, timeout in E.
    destruct (es_recv _ t s) as [[[b|e| | |] t2] s2] eqn:E2; cbn in E; simplify_eq.
    - by apply es_recv_uses in E2.
    - by destruct (_ <=? _). }
  unfold bind. destruct (decode raw) as [m|e]; cbn; [|lia].
  cbn in Hp. destruct m as [[| | | |lr| | | | | | | | | |]|]; cbn; try lia.
  destruct (lresp_union lr) as [[]|]; cbn; lia.
Qed.

Lemma authenticate_takes r pw peer client ct lu :
  takes 20000 (@authenticate NetTransport _ C P r pw peer client ct lu).
Proof.
  unfold authenticate. change 20000 with (10000 + 10000).
  apply takes_bind; [lia| |].
  { apply takes_recv_within; [lia|apply es_recv_timely|apply es_recv_spinless]. }
  intros raw. change 10000 with (0 + 10000).
  apply takes_bind; [lia|apply takes_instant; auto with instant|]. intros m.
  assert (forall e, takes 10000 (@fail (EncryptedStream NetTransport) PeerInfo e)) as Hfail.
  { intros e. apply (takes_weaken 0); [lia|]. apply takes_instant; auto with instant. }
  destruct m as [[]|]; try apply Hfail.
  change 10000 with (0 + 10000). apply takes_bind; [lia|apply takes_instant; auto with instant|].
  intros _ t s. unfold run, bind. cbn [now].
  apply (loop_until es_pending (login_step (t + 10000)) (t + 10000) tt t s);
    [intros [] t0 s0; apply login_step_bounded|lia].
Qed.
End handshake_bounds.

(** ** A successful handshake, step by step *)

Section handshake_run.
Context (C : CryptoLib) {L : CryptoLaws C} (P : ProtoCodec Message) {PL : ProtoLaws P}.

Lemma recv_within_run c1 c2 a m l d t s :
  delivers_msgs C P ((a, m) :: l) s -> a <= t + d -> 0 <= d ->
  recv_within es_recv d c1 c2 None t s =
  (Done (item_text (encode <$> m)), Z.max t a,
   after_recv C (encode <$> m) (wire_items l) (Z.max t a) s).
Proof.
  intros Hd Ha H0. unfold recv_within, bind, timeout.
  rewrite (es_recv_wait C a (encode <$> m) (wire_items l)) by done. unfold bind.
  rewrite wait_until_on_time by (simpl; lia). done.
Qed.

(** The peer accepts: a login response with its details, or the details themselves. *)
Definition accepts (m : Message) (info : PeerInfo) : Prop :=
  m = Some (UPeerInfo info) \/
  exists lr, m = Some (ULoginResponse lr) /\ lresp_union lr = Some (LRPeerInfo info).
Definition is_delay (m : option Message) : Prop := exists td, m = Some (Some (UTestDelay td)).

(** The sending side of a stream is as it was. *)
Definition same_sender (s s' : EncryptedStream NetTransport) : Prop :=
  es_key s' = es_key s /\ send_seq s' = send_seq s /\ net_out (es_inner s') = net_out (es_inner s) /\
  net_faults (es_inner s') = net_faults (es_inner s) /\ net_end (es_inner s') = net_end (es_inner s).

Lemma login_loop_run D delays a m info rest fuel t s :
  Forall (fun x => is_delay x.2 /\ x.1 < D) delays -> accepts m info -> a <= D -> t < D ->
  delivers_msgs C P (delays ++ (a, Some m) :: rest) s -> (length delays < fuel)%nat ->
  exists t' s', iter fuel (login_step D) tt None t s = (Done info, t', s') /\
    (t <= t' <= D /\ t' = Z.max (arrival t delays) a /\ last_recv_at s' = t') /\ delivers_msgs C P rest s' /\ same_sender s s'.
Proof.
  intros Hdel Hacc Ha. revert fuel t s.
  induction Hdel as [|[b x] delays [[td Hx] Hb] _ IH]; intros fuel t s Ht Hd Hf;
    (destruct fuel as [|fuel]; [simpl in Hf; lia|]); rewrite iter_S; unfold bind at 1;
    unfold login_step at 1; unfold bind at 1; cbn [now]; rewrite Z.max_r by lia;
    rewrite (proj2 (Z.eqb_neq _ _)) by lia; unfold bind at 1.
  - rewrite (recv_within_run _ _ a (Some m) rest) by (done || lia).
    unfold bind. rewrite (decode_seen P (Some m)). cbn [map_err lift ret seen default].
    pose proof (delivers_msgs_after C P a (Some m) rest (Z.max t a) s Hd) as Hafter.
    exists (Z.max t a), (after_recv C (encode <$> Some m) (wire_items rest) (Z.max t a) s).
    split; [|split; [split_and!; done || lia|split; [exact Hafter|done]]].
    destruct Hacc as [-> | (lr & -> & Hlr)]; cbn; rewrite ?Hlr; done.
  - simpl in Hx, Hb. subst x.
    rewrite (recv_within_run _ _ b (Some (Some (UTestDelay td))) (delays ++ (a, Some m) :: rest))
      by (done || lia).
    unfold bind at 1. rewrite (decode_seen P (Some (Some (UTestDelay td)))). cbn [map_err lift ret seen default].
    set (s1 := after_recv _ _ _ _ _).
    destruct (IH fuel (Z.max t b) s1) as (t' & s' & E & Ht' & Hr & Ho).
    + lia.
    + by eapply delivers_msgs_after.
    + simpl in Hf. lia.
    + exists t', s'. split; [done|]. split; [split; [lia|apply Ht']|]. done.
Qed.
End handshake_run.

(** ** Addresses *)

Lemma count_char_app c a b : count_char c (a ++ b)%string = (count_char c a + count_char c b)%nat.
Proof. induction a as [|x a IH]; simpl; [done|]. rewrite IH. by destruct (Ascii.eqb c x). Qed.

Lemma starts_bracket_app a b : a <> ""%string -> starts_with "[" (a ++ b)%string = starts_with "[" a.
Proof.
  destruct a as [|c a]; [done|]. intros _. unfold starts_with.
  cbn [String.prefix String.append]. destruct (Ascii.ascii_dec _ c); [by destruct a, b|done].
Qed.

Lemma contains_mid p a b : contains p (a ++ p ++ b)%string = true.
Proof. apply contains_spec. eauto. Qed.

Lemma count_contains c s : count_char c s <> O -> contains (String c "") s = true.
Proof.
  induction s as [|x s IH]; cbn [count_char]; [done|].
  destruct (Ascii.eqb_spec c x) as [->|Hx]; intros Hn.
  - apply contains_spec. by exists ""%string, s.
  - apply (contains_app_r _ (String x "") s), IH, Hn.
Qed.

Lemma is_empty_false_iff s : is_empty s = false <-> s <> ""%string.
Proof. by destruct s. Qed.

(** ** Logging in

    The peer sends its signed key, its challenge and, after any number of echo requests, accepts. *)

Section login.
Context (C : CryptoLib) {L : CryptoLaws C} (P : ProtoCodec Message) {PL : ProtoLaws P} (PI : ProtoCodec IdPk).
Context (r : ConnRandom) (pw peer client : string) (ct : ConnType) (lu : option LoginUnion) (x : NetTransport) (t : Z).
Context (sig idpk : bytes) (id : string) (peer_sk sealed : bytes) (h : Hash) (m : Message) (info : PeerInfo)
  (a0 a1 a2 : Z) (delays rest : inbox).
Abbreviation key := (rnd_session_key r).
Abbreviation t1 := (Z.max t a0).
Abbreviation t2 := (Z.max t1 a1).

Definition session_offer : bytes := encode (Some (UPublicKey (mkPublicKey (box_public (rnd_eph_sk r)) sealed))).
Definition login_offer : bytes :=
  encode (login_request r (sha256 (sha256 (as_bytes pw ++ as_bytes (hash_salt h)) ++ as_bytes (hash_challenge h)))
    peer client ct lu).
Definition login_items : inbox := (a1, Some (Some (UHash h))) :: delays ++ (a2, Some m) :: rest.
Definition login_frames : list (Z * Res bytes) :=
  (a0, Ok (encode (Some (USignedId (mkSignedId (sig ++ idpk)))))) :: sealed_arrivals key 0 (wire_items login_items).

(** What the peer does, and that its messages are in time. *)
Record peer_accepts : Prop := {
  pa_signature : length sig = 64%nat;
  pa_idpk : idpk <> [];
  pa_key : decode idpk = Ok (mkIdPk id (box_public peer_sk));
  pa_key_size : length (box_public peer_sk) = 32%nat;
  pa_sealed : box_seal (box_public peer_sk) (rnd_eph_sk r) zero_nonce key = Some sealed;
  pa_offer_fits : Z.of_nat (length session_offer) <= max_frame;
  pa_login_fits : Z.of_nat (length login_offer) + 16 <= max_frame;
  pa_sendable : Forall (fun i => sendable i.2) (wire_items login_items);
  pa_accepts : accepts m info;
  pa_signed_in_time : a0 <= t + 30000;
  pa_hash_in_time : a1 <= t1 + 10000;
  pa_verdict_in_time : a2 <= t2 + 10000;
  pa_delays : Forall (fun d => is_delay d.2 /\ d.1 < t2 + 10000) delays
}.

(** When the peer's acceptance is there. *)
Definition accepted_at : Z := Z.max (arrival t2 delays) a2.

Lemma handshake_run :
  net_faults x = [] -> net_in x = login_frames -> peer_accepts ->
  exists t' es, run (handshake_and_auth r pw peer client ct lu) t x = (Done (info, es), t', es_inner es) /\
    (t <= t' <= t + 50000 /\ t' = accepted_at /\ last_recv_at es = t') /\
    net_out (es_inner es) = net_out x ++ [session_offer] ++ sealed_frames key 0 [Some login_offer] /\
    box_open (box_public (rnd_eph_sk r)) peer_sk zero_nonce sealed = Some key /\
    delivers_msgs C P rest es /\
    (es_key es = key /\ send_seq es = 1 /\ net_faults (es_inner es) = [] /\ net_end (es_inner es) = net_end x).
Proof.
  unfold login_frames. intros Hf Hin [Hsig Hne Hid Hpk Hseal Hpub Hlogin Hsend Hacc H0 H1 H2 Hdel].
  set (x1 := mkNet (sealed_arrivals key 0 (wire_items login_items)) (net_end x) (net_out x) (net_faults x) (net_shut x)).
  set (x2 := net_sent [session_offer] x1).
  assert (delivers_msgs C P login_items (es_new x2 key t1)) as Hd1 by done.
  set (s2 := after_recv C (encode <$> Some (Some (UHash h))) (wire_items (delays ++ (a2, Some m) :: rest)) t2
               (es_new x2 key t1)).
  pose proof (delivers_msgs_after C P a1 _ _ t2 _ Hd1) as Hd2. fold s2 in Hd2.
  set (s3 := set_inner (net_sent (sealed_frames (es_key s2) (send_seq s2) [Some login_offer]) (es_inner s2))
               (set_send_seq (wrap 64 (send_seq s2 + 1)) s2)).
  assert (delivers_msgs C P (delays ++ (a2, Some m) :: rest) s3) as Hd3 by done.
  destruct (login_loop_run C P (t2 + 10000) delays a2 m info rest (S (es_pending s3)) t2 s3 Hdel Hacc H2
    ltac:(lia) Hd3) as (t' & es & E & Ht' & Hrest & Hk' & Hq & Hout & Hft & He).
  { rewrite (delivers_pending C P _ _ Hd3), length_app. simpl. lia. }
  exists t', es. split; [|split_and!].
  - unfold run, handshake_and_auth. unfold bind at 1, recv_within at 1, bind at 1, timeout.
    cbn [t_recv NetTransport_transport]. unfold net_recv at 1. rewrite Hin. unfold bind at 1.
    rewrite wait_until_on_time by (simpl; lia).  unfold bind at 1. cbn [modify lift ret].
    fold x1. unfold bind at 1. rewrite decode_encode. cbn [map_err lift ret].
    unfold bind at 1, peer_key_of. cbn [signed_id].
    rewrite length_app, Hsig, (proj2 (Nat.leb_gt _ _)) by (destruct idpk; [done|simpl; lia]).
    rewrite drop_app_length' by done. rewrite Hid. cbn [map_err mbind result_bind idpk_pk].
    rewrite Hpk, Nat.eqb_refl. cbn [lift ret].
    unfold bind at 1, key_exchange_curve25519, key_exchange_with_box_pk. rewrite Hseal.
    cbn [map_err lift ret ephemeral_pk sealed_key session_key]. fold session_offer.
    unfold bind at 1. cbn [t_send NetTransport_transport].
    rewrite net_send_ok by done. fold x2. unfold over_stream, authenticate, bind at 1.
    rewrite (recv_within_run C P _ _ a1 (Some (Some (UHash h))) (delays ++ (a2, Some m) :: rest))
      by (done || lia). fold s2.
    unfold bind at 1. rewrite (decode_seen P (Some (Some (UHash h)))).
    change (seen (Some (Some (UHash h)))) with (Some (UHash h)). cbn [map_err lift ret].
    unfold bind at 1, password_hash. fold login_offer. fold s2.
    rewrite es_send_run by done. fold s3. unfold bind. cbn [now]. unfold loop. rewrite E. done.
  - lia.
  - lia.
  - apply Ht'.
  - apply Ht'.
  - rewrite Hout. cbn. by rewrite <- (assoc_L (++)).
  - by apply box_open_seal.
  - split; apply Hrest.
  - done.
  - by rewrite Hq.
  - by rewrite Hft.
  - done.
Qed.
End login.

(** ** The properties of connecting *)

(** C18: a correct peer is logged into.  When the peer sends its signed key within 30 s, its
    challenge within 10 s of that, and accepts within 10 s more (echo requests in between), the
    handshake returns, when the acceptance is there, the peer's details and a stream in step with the
    peer, which goes on exactly after the acceptance.  It sent two messages: in clear, a session key the peer can open with its
    own secret key; and, as the first encrypted message, the login request, whose password is the
    two-stage hash of the password, the peer's salt and its challenge.  The 64 signature bytes may
    be anything. *)
Theorem handshake_logs_in (C : CryptoLib) (L : CryptoLaws C) (P : ProtoCodec Message) (PL : ProtoLaws P)
    (PI : ProtoCodec IdPk) r pw peer client ct lu x t sig idpk id peer_sk sealed h m info
    a0 a1 a2 delays rest :
  let key := rnd_session_key r in
  let pub := encode (Some (UPublicKey (mkPublicKey (box_public (rnd_eph_sk r)) sealed))) in
  let login := encode (login_request r
    (sha256 (sha256 (as_bytes pw ++ as_bytes (hash_salt h)) ++ as_bytes (hash_challenge h)))
    peer client ct lu) in
  let items : inbox := (a1, Some (Some (UHash h))) :: delays ++ (a2, Some m) :: rest in
  net_faults x = [] -> length sig = 64%nat -> idpk <> [] ->
  decode idpk = Ok (mkIdPk id (box_public peer_sk)) -> length (box_public peer_sk) = 32%nat ->
  box_seal (box_public peer_sk) (rnd_eph_sk r) zero_nonce key = Some sealed ->
  Z.of_nat (length pub) <= max_frame -> Z.of_nat (length login) + 16 <= max_frame ->
  net_in x = (a0, Ok (encode (Some (USignedId (mkSignedId (sig ++ idpk))))))
             :: sealed_arrivals key 0 (wire_items items) ->
  Forall (fun i => sendable i.2) (wire_items items) -> accepts m info ->
  let t1 := Z.max t a0 in let t2 := Z.max t1 a1 in
  a0 <= t + 30000 -> a1 <= t1 + 10000 -> a2 <= t2 + 10000 ->
  Forall (fun d => is_delay d.2 /\ d.1 < t2 + 10000) delays ->
  exists t' es, run (handshake_and_auth r pw peer client ct lu) t x = (Done (info, es), t', es_inner es) /\
    t' = Z.max (arrival t2 delays) a2 /\ t <= t' <= t + 50000 /\
    net_out (es_inner es) = net_out x ++ [pub] ++ sealed_frames key 0 [Some login] /\
    box_open (box_public (rnd_eph_sk r)) peer_sk zero_nonce sealed = Some key /\
    delivers_msgs C P rest es.
Proof.
  intros key pub login items Hf Hsig Hne Hid Hpk Hseal Hpub Hlogin Hin Hsend Hacc t1 t2 H0 H1 H2 Hdel.
  destruct (handshake_run C P PI r pw peer client ct lu x t sig idpk id peer_sk sealed h m info a0 a1 a2 delays rest Hf Hin)
    as (t' & es & E & (Hb50 & Ht & _) & Ho & Hb & Hd & _); [by split|]. by exists t', es.
Qed.

(** A toy [IdPk] codec, for evaluating the model: the key alone. *)
Definition toy_idpk : ProtoCodec IdPk := {|
  encode := idpk_pk;
  decode := fun b => Ok (mkIdPk "" b);
  debug := idpk_id
|}.
Definition toy_random : ConnRandom :=
  mkConnRandom [] [] [x01; xab] [] [] (repeat x05 32) (repeat x06 32) (repeat x07 8) 42 "linux" 5000.
Definition toy_info : PeerInfo := mkPeerInfo "u" "host" "Linux" [] 0 "1.2" [].

Lemma handshake_logs_in_witness :
  let C := toy_crypto in let P := toy_codec MessageUnion in
  let h := mkHash "salt" "chal" in
  let items : inbox := [(20, Some (Some (UHash h))); (25, Some (Some (UTestDelay (mkTestDelay 1 false 0 0))));
                        (30, Some (Some (UPeerInfo toy_info)))] in
  let x := mkNet ((10, Ok (encode (Some (USignedId (mkSignedId (repeat x00 64 ++ repeat x09 32))))))
                  :: sealed_arrivals (repeat x06 32) 0 (wire_items items)) Never [] [] false in
  exists t' es, run (@handshake_and_auth _ _ C P toy_idpk toy_random "pw" "peer" "me" DefaultConn None) 0 x
    = (Done (toy_info, es), t', es_inner es).
Proof.
  intros C P h items x.
  destruct (handshake_logs_in C toy_crypto_laws P (toy_codec_laws MessageUnion) toy_idpk toy_random
    "pw" "peer" "me" DefaultConn None x 0 (repeat x00 64) (repeat x09 32) "" (repeat x09 32)
    (repeat x06 32 ++ repeat x00 16) h (Some (UPeerInfo toy_info)) toy_info 10 20 30
    [(25, Some (Some (UTestDelay (mkTestDelay 1 false 0 0))))] []) as (t' & es & E & _).
  - reflexivity.
  - reflexivity.
  - discriminate.
  - reflexivity.
  - reflexivity.
  - reflexivity.
  - vm_compute. congruence.
  - vm_compute. congruence.
  - vm_compute. reflexivity.
  - repeat constructor; vm_compute; congruence.
  - left. reflexivity.
  - lia.
  - lia.
  - lia.
  - repeat constructor. eexists. reflexivity.
  - exists t', es. exact E.
Defined.

(** A handshake ends.  Whatever the peer sends or does not send, [handshake_and_auth] returns or
    fails within 50 s: 30 for the signed key, 10 for the challenge and 10 for the login response. *)
Theorem handshake_bounded (C : CryptoLib) (P : ProtoCodec Message) (PI : ProtoCodec IdPk)
    r pw peer client ct lu t (x : NetTransport) :
  match run (handshake_and_auth r pw peer client ct lu) t x with
  | (Done _, t', _) | (Fail _, t', _) => t <= t' <= t + 50000
  | _ => False
  end.
Proof.
  revert t x. change (takes 50000 (@handshake_and_auth NetTransport _ C P PI r pw peer client ct lu)).
  unfold handshake_and_auth. change 50000 with (30000 + 20000).
  apply takes_bind; [lia| |].
  { apply takes_recv_within; [lia|apply recv_timely|apply recv_spinless]. }
  intros raw. change 20000 with (0 + 20000).
  apply takes_bind; [lia|apply takes_instant; auto with instant|]. intros m. change 20000 with (0 + 20000).
  apply takes_bind; [lia|apply takes_instant; auto with instant|]. intros pk. change 20000 with (0 + 20000).
  apply takes_bind; [lia|apply takes_instant; auto with instant|]. intros kx. change 20000 with (0 + 20000).
  apply takes_bind; [lia|apply takes_instant, net_send_instant|].
  intros _ t x. pose proof (authenticate_takes C P r pw peer client ct lu t (es_new x (session_key kx) t)) as B.
  unfold run, over_stream in *.
  by destruct (authenticate _ _ _ _ _ _ None t _) as [[[a|e| | |] t'] s'].
Qed.

(** A silent rendezvous server blocks a connection for ever.  Nothing limits the wait for the
    answer to the first registration: if hbbs sends no datagram, [connect_with_mode] run without an
    outer time limit, as the daemon does when it reconnects, never returns. *)
Theorem connect_hangs_on_silence (C : CryptoLib) (P : ProtoCodec Message) (PI : ProtoCodec IdPk)
    (PR : ProtoCodec RendezvousMessage) (K : ServerKeyLib) rnd config ct lu t dials out :
  let u := mkNet [] Never out [] false in
  Z.of_nat (length (encode (register_peer_request ("cli-" ++ show_Z (env_pid rnd))%string))) <= max_frame ->
  (run (connect_with_mode rnd (Ok tt) config ct lu) t (mkConnEnv u dials)).1.1 = Hang.
Proof.
  intros u Hl. set (my_id := ("cli-" ++ show_Z (env_pid rnd))%string) in *.
  assert (exists t' s', context "RegisterPeer failed" (on_udp (register_peer my_id)) None t (mkConnEnv u dials)
          = (Hang, t', s')) as (t' & s' & Hreg).
  { unfold context, on_udp, zoom, register_peer, bind at 1. cbn [ce_udp t_send NetTransport_transport].
    rewrite net_send_ok by done. eexists _, _. reflexivity. }
  unfold run, connect_with_mode.
  rewrite (bind_done _ _ _ _ _ tt t (mkConnEnv u dials)) by reflexivity. cbv beta zeta. fold my_id.
  unfold bind at 1. rewrite Hreg. done.
Qed.

Lemma connect_hangs_on_silence_witness :
  let u := mkNet [] Never [] [] false in
  let config := mkConnConfig "s:21116" "s:21117" "" "peer" "pw" 2 in
  (run (@connect_with_mode _ _ toy_crypto (toy_codec MessageUnion) toy_idpk (toy_codec RendezvousUnion)
     {| verifying_key := fun _ => None; ed25519_verify := fun _ _ _ => false;
        base64_standard := fun _ => Ok [] |}
     toy_random (Ok tt) config DefaultConn None) 0 (mkConnEnv u [])).1.1 = Hang.
Proof.
  intros u config. apply connect_hangs_on_silence. vm_compute. congruence.
Defined.

(** Which punch-hole responses end the attempt.  A response is fatal exactly when it carries a
    message, or a license code (3 or 4), or an unknown code, or code 0 (the protobuf default) with
    neither an address nor a relay; an offline peer (2) always falls through to the relay. *)
Theorem punch_hole_failure_spec resp :
  check_punch_hole_failure resp = Ok tt <->
  phr_other_failure resp = ""%string /\
  (phr_failure resp = 2 \/
   phr_failure resp = 0 /\ (phr_socket_addr resp <> [] \/ phr_relay_server resp <> ""%string)).
Proof.
  unfold check_punch_hole_failure. destruct (phr_other_failure resp) as [|c o]; simpl; [|naive_solver].
  destruct (Z.eqb_spec (phr_failure resp) 0) as [->|]; simpl.
  - destruct (phr_socket_addr resp), (phr_relay_server resp); simpl; naive_solver.
  - destruct (Z.eqb_spec (phr_failure resp) 2) as [->|]; simpl; [naive_solver|].
    destruct (phr_failure resp =? 3), (phr_failure resp =? 4); naive_solver.
Qed.

(** Relay addresses.  A relay named by host, by host and port, or by IPv6 address with or
    without brackets and port is normalized to an address with a port; normalizing it again changes
    nothing. *)
Theorem normalize_relay_addr_idempotent a :
  (starts_with "[" a = true -> contains "]:" a = true \/ exists b, a = (b ++ "]")%string) ->
  normalize_relay_addr (normalize_relay_addr a) = normalize_relay_addr a /\
  (a <> ""%string -> contains ":" (normalize_relay_addr a) = true).
Proof.
  intros Hb. unfold normalize_relay_addr at 2 3 4. destruct a as [|c a]; [done|].
  cbn [is_empty]. set (s := String c a) in *.
  assert (s <> ""%string) as Hs by done.
  assert (forall x y, contains "]:" (x ++ "]:" ++ y)%string = true) as Hc by (intros; apply contains_mid).
  destruct (starts_with "[" s) eqn:Est.
  - destruct (contains "]:" s) eqn:Econ.
    + split.
      * unfold normalize_relay_addr. fold s. rewrite (proj2 (is_empty_false_iff s) Hs), Est, Econ. done.
      * intros _. apply contains_spec in Econ as (x & y & ->). apply contains_spec.
        exists (x ++ "]")%string, y. by rewrite str_app_assoc.
    + destruct (Hb eq_refl) as [|[b Eb]]; [done|]. split; [|intros _; apply contains_mid].
      unfold normalize_relay_addr. rewrite starts_bracket_app, Est by done.
      assert (contains "]:" (s ++ ":" ++ show_Z RELAY_PORT)%string = true) as ->.
      { rewrite Eb, str_app_assoc. apply Hc. }
      reflexivity.
  - destruct (count_char ":" s) as [|[|n]] eqn:En.
    + split; [|intros _; apply contains_mid].
      unfold normalize_relay_addr. rewrite starts_bracket_app, Est by done.
      rewrite count_char_app, En. reflexivity.
    + split.
      * unfold normalize_relay_addr. rewrite Est, En. reflexivity.
      * intros _. apply count_contains. by rewrite En.
    + split; [|intros _; apply contains_spec; by exists ("[" ++ s ++ "]")%string, (show_Z RELAY_PORT);
                rewrite !str_app_assoc].
      unfold normalize_relay_addr. fold s.
      assert (starts_with "[" ("[" ++ s ++ "]:" ++ show_Z RELAY_PORT)%string = true) as ->
        by apply starts_with_app.
      assert (contains "]:" ("[" ++ s ++ "]:" ++ show_Z RELAY_PORT)%string = true) as ->.
      { rewrite <- str_app_assoc. apply Hc. }
      reflexivity.
Qed.

Lemma normalize_relay_addr_idempotent_witness :
  map normalize_relay_addr ["relay"; "relay:1"; "fe80::1"; "[fe80::1]"; "[fe80::1]:9"]%string =
  ["relay:21117"; "relay:1"; "[fe80::1]:21117"; "[fe80::1]:21117"; "[fe80::1]:9"]%string /\
  normalize_relay_addr (normalize_relay_addr "[fe80::1]") = normalize_relay_addr "[fe80::1]".
Proof.
  split; [vm_compute; reflexivity|].
  apply (normalize_relay_addr_idempotent "[fe80::1]"). intros _. right. by exists "[fe80::1"%string.
Defined.
