(* ===== verification/Steady.v ===== *)
(** * Deadlines that are not reached change nothing

    A computation under [tokio::time::timeout] runs as it does without, as long as it ends in time.
    The whole connection flow is such a computation, so what [ConnectRun] shows of it carries over to
    the limits the daemon and the command line put on it. *)

From Stdlib Require Import ZArith Lia.
From Stdlib Require Import Strings.Byte Strings.Ascii Strings.String.
From stdpp Require Import base list option numbers.
From S2P Require Import Prelude RustStr Async Transport Crypto Session Proto Inbox.
From S2P Require Import Rendezvous Connection.

Local Open Scope Z_scope.
Local Open Scope async_scope.

(** Time goes on, not past the deadline; a computation that is cut off is cut off at the deadline;
    and one that ends runs the same under any earlier deadline it still meets. *)
Definition before (d : Z) (dl : option Z) : Prop := match dl with Some D => d <= D | None => True end.
Definition steady {S A} (m : M S A) : Prop := forall dl t s,
  let '(o, t', s') := m dl t s in
  t <= t' /\ match dl with Some D => t' <= Z.max t D | None => True end /\
  match o with
  | Cut => match dl with Some D => t' = Z.max t D | None => False end
  | Hang => True
  | _ => forall d, t' <= d -> before d dl -> m (Some d) t s = (o, t', s')
  end.

(** Closes the goals about a computation that takes no time and does not look at the deadline. *)
Ltac steady_now := intros dl t s; cbn; split; [lia|]; split; [destruct dl; lia|]; done.

Section closure.
Context {S A : Type}.

Lemma steady_ret (a : A) : steady (@ret S A a).
Proof. steady_now. Qed.
Lemma steady_fail e : steady (@fail S A e).
Proof. steady_now. Qed.
Lemma steady_lift (r : Res A) : steady (@lift S A r).
Proof. destruct r; steady_now. Qed.
Lemma steady_get : steady (@get S).
Proof. steady_now. Qed.
Lemma steady_modify f : steady (@modify S f).
Proof. steady_now. Qed.
Lemma steady_now_ : steady (@now S).
Proof. steady_now. Qed.

Lemma steady_wait_until a : steady (@wait_until S a).
Proof.
  intros dl t s. unfold wait_until. destruct (Z.leb_spec a t).
  - split; [lia|]. split; [destruct dl; lia|done].
  - destruct dl as [D|].
    + destruct (Z.ltb_spec D a); (split; [lia|]); (split; [lia|]); [done|].
      intros d Hd HD. by rewrite (proj2 (Z.ltb_ge _ _)) by lia.
    + split; [lia|]. split; [done|]. intros d Hd _. by rewrite (proj2 (Z.ltb_ge _ _)) by lia.
Qed.
Lemma steady_sleep d : steady (@sleep S d).
Proof. intros dl t s. apply steady_wait_until. Qed.
Lemma steady_pending : steady (@pending S A).
Proof. intros [D|] t s; cbn; split; try lia; split; done. Qed.

Lemma steady_bind {B} (m : M S A) (f : A -> M S B) : steady m -> (forall a, steady (f a)) -> steady (bind m f).
Proof.
  intros Hm Hf dl t s. unfold bind. specialize (Hm dl t s).
  destruct (m dl t s) as [[[a|e| | |] t1] s1]; destruct Hm as (H1 & H2 & H3); try done.
  - specialize (Hf a dl t1 s1). destruct (f a dl t1 s1) as [[o t2] s2] eqn:E. destruct Hf as (F1 & F2 & F3).
    split; [lia|]. split; [destruct dl; lia|].
    assert (forall d, t2 <= d -> before d dl -> m (Some d) t s = (Done a, t1, s1)) as Hd by (intros; apply H3; [lia|done]).
    destruct o; try done; try (destruct dl; [lia|done]); intros d Hd2 Hb; rewrite (Hd d Hd2 Hb); by apply F3.
  - split_and!; try done. intros d Hd Hb. by rewrite H3.
  - split_and!; try done. intros d Hd Hb. by rewrite H3.
Qed.
Lemma steady_try (m : M S A) : steady m -> steady (try m).
Proof.
  intros Hm dl t s. unfold try. specialize (Hm dl t s).
  destruct (m dl t s) as [[[a|e| | |] t1] s1]; destruct Hm as (H1 & H2 & H3); split_and!; try done;
    intros d Hd Hb; by rewrite H3.
Qed.
Lemma steady_context c (m : M S A) : steady m -> steady (context c m).
Proof.
  intros Hm dl t s. unfold context. specialize (Hm dl t s).
  destruct (m dl t s) as [[[a|e| | |] t1] s1]; destruct Hm as (H1 & H2 & H3); split_and!; try done;
    intros d Hd Hb; by rewrite H3.
Qed.
Lemma steady_zoom {X} (g : X -> S) p (m : M S A) : steady m -> steady (zoom g p m).
Proof.
  intros Hm dl t s. unfold zoom. specialize (Hm dl t (g s)).
  destruct (m dl t (g s)) as [[[a|e| | |] t1] s1]; destruct Hm as (H1 & H2 & H3); split_and!; try done;
    intros d Hd Hb; by rewrite H3.
Qed.
Lemma steady_own {T} (x : S) (m : M S A) : steady m -> steady (@on_own T S A x m).
Proof.
  intros Hm dl t s. unfold on_own. specialize (Hm dl t x).
  destruct (m dl t x) as [[[a|e| | |] t1] s1]; destruct Hm as (H1 & H2 & H3); split_and!; try done;
    intros d Hd Hb; by rewrite H3.
Qed.

Lemma steady_timeout d0 (m : M S A) : 0 <= d0 -> steady m -> steady (timeout d0 m).
Proof.
  intros H0 Hm dl t s. unfold timeout. set (eff := match dl with Some o => Z.min o (t + d0) | None => t + d0 end).
  specialize (Hm (Some eff) t s). cbn in Hm.
  assert (forall d, before d dl -> Z.min d (t + d0) <= eff) as Hmin by (intros d Hb; subst eff; destruct dl; cbn in Hb; lia).
  assert (forall t', t' <= Z.max t eff -> match dl with Some D => t' <= Z.max t D | None => True end) as Hmax
    by (intros t' Ht; subst eff; destruct dl; lia).
  assert (eff <= t + d0) as Hown by (subst eff; destruct dl; lia).
  destruct (m (Some eff) t s) as [[o t1] s1] eqn:E. destruct Hm as (H1 & H2 & H3).
  destruct o as [a|e| | |].
  - split; [lia|]. split; [by apply Hmax|]. intros d Hd Hb. rewrite (H3 (Z.min d (t + d0))); [done|lia|by apply Hmin].
  - split; [lia|]. split; [by apply Hmax|]. intros d Hd Hb. rewrite (H3 (Z.min d (t + d0))); [done|lia|by apply Hmin].
  - destruct (Z.leb_spec (t + d0) eff) as [He|He].
    + split; [lia|]. split; [apply Hmax; lia|]. intros d Hd Hb. replace (Z.min d (t + d0)) with eff by lia.
      rewrite E. by rewrite (proj2 (Z.leb_le _ _)).
    + split; [lia|]. split; [apply Hmax; lia|]. subst eff. destruct dl; lia.
  - split; [lia|]. split; [by apply Hmax|done].
  - split; [lia|]. split; [by apply Hmax|]. intros d Hd Hb. rewrite (H3 (Z.min d (t + d0))); [done|lia|by apply Hmin].
Qed.

End closure.

Lemma steady_iter {S St A} fuel (body : St -> M S (St + A)) x : (forall x, steady (body x)) -> steady (iter fuel body x).
Proof.
  intros Hb. revert x. induction fuel as [|fuel IH]; intros x; [steady_now|].
  cbn [iter]. apply steady_bind; [done|]. intros [x'|a]; [done|apply steady_ret].
Qed.
Lemma steady_loop {S St A} (meas : S -> nat) (body : St -> M S (St + A)) x :
  (forall x, steady (body x)) -> steady (loop meas body x).
Proof. intros Hb dl t s. unfold loop. by apply steady_iter. Qed.

(** *** What it is for *)

(** A computation that ends in time gives its result through the timeout. *)
Lemma timeout_in_time {S A} d (m : M S A) t s a t' s' :
  steady m -> m None t s = (Done a, t', s') -> t' <= t + d ->
  timeout d m None t s = (Done (Some (Ok a)), t', s').
Proof.
  intros Hm E Ht. unfold timeout. specialize (Hm None t s). rewrite E in Hm. destruct Hm as (_ & _ & Hm).
  by rewrite Hm.
Qed.

(** ** The connection flow *)

Section flow.
Context (C : CryptoLib) (P : ProtoCodec Message) (PI : ProtoCodec IdPk) (PR : ProtoCodec RendezvousMessage)
  (K : ServerKeyLib).
Abbreviation N := NetTransport.

Lemma steady_send b : steady (t_send b : M N unit).
Proof.
  cbn [t_send NetTransport_transport]. unfold net_send. destruct (_ <=? _); [|apply steady_fail].
  apply steady_bind; [|intros; apply steady_modify].
  intros dl t s. unfold net_step. destruct (net_faults s) as [|[e|] fs]; (split; [lia|]); (split; [destruct dl; lia|]); done.
Qed.
Lemma steady_recv : steady (t_recv : M N bytes).
Proof.
  intros dl t s. cbn [t_recv NetTransport_transport]. unfold net_recv.
  destruct (net_in s) as [|[a r] rest]; [destruct (net_end s) as [|a e]|].
  - apply (steady_pending (S := N) (A := bytes)).
  - apply (steady_bind (wait_until a) (fun _ => fail e) (steady_wait_until a) (fun _ => steady_fail e)).
  - apply (steady_bind (wait_until a) _ (steady_wait_until a)
      (fun _ => steady_bind _ _ (steady_modify _) (fun _ => steady_lift r))).
Qed.
Lemma steady_dial : steady (dial : M (ConnEnv N) N).
Proof.
  intros dl t s. unfold dial. destruct (ce_dials s) as [|[a r] rest].
  - apply (steady_pending (S := ConnEnv N) (A := N)).
  - apply (steady_bind (wait_until a) _ (steady_wait_until a)
      (fun _ => steady_bind _ _ (steady_modify _) (fun _ => steady_lift r))).
Qed.

Lemma steady_stream {A} key (m : M (EncryptedStream N) A) : steady m -> steady (over_stream key m).
Proof.
  intros Hm dl t s. unfold over_stream. specialize (Hm dl t (es_new s key t)).
  destruct (m dl t (es_new s key t)) as [[[a|e| | |] t1] s1]; destruct Hm as (H1 & H2 & H3); split_and!; try done;
    intros d Hd Hb; by rewrite H3.
Qed.

(** Structural closure; the named computations are unfolded first. *)
Ltac steady_step :=
  first
    [ apply steady_ret | apply steady_fail | apply steady_lift | apply steady_get | apply steady_modify
    | apply steady_now_ | apply steady_send | apply steady_recv | apply steady_dial | apply steady_sleep
    | apply steady_wait_until | apply steady_context | apply steady_try | apply steady_zoom | apply steady_own
    | apply steady_stream | apply steady_loop; intros | apply steady_timeout; [lia|] | apply steady_bind; intros
    | case_match ].
Ltac steady_tac := repeat steady_step.

Lemma steady_es_send b : steady (es_send b : M (EncryptedStream N) unit).
Proof. unfold es_send. steady_tac. Qed.
Lemma steady_es_recv : steady (es_recv : M (EncryptedStream N) bytes).
Proof. unfold es_recv. steady_tac. Qed.

Lemma steady_link_recv : steady (link_recv : M (TcpLink N) bytes).
Proof.
  intros dl t l. unfold link_recv. destruct l as [x|s|].
  - pose proof (steady_recv dl t x) as Hm.
    destruct (t_recv dl t x) as [[[a|e| | |] t1] x1]; destruct Hm as (H1 & H2 & H3); split_and!; try done;
      intros d Hd Hb; by rewrite H3.
  - pose proof (steady_es_recv dl t s) as Hm.
    destruct (es_recv dl t s) as [[[a|e| | |] t1] x1]; destruct Hm as (H1 & H2 & H3); split_and!; try done;
      intros d Hd Hb; by rewrite H3.
  - split; [lia|]. split; [destruct dl; lia|done].
Qed.

Lemma steady_switch eph key lic keys req : steady (switch_to_encrypted eph key lic keys req : M (TcpLink N) unit).
Proof.
  intros dl t l. unfold switch_to_encrypted. destruct l as [x|s|].
  - set (m := context "completing TCP rendezvous KeyExchange" _).
    assert (steady m) as Hm by (unfold m, complete_tcp_key_exchange; steady_tac). specialize (Hm dl t x).
    destruct (m dl t x) as [[[s|e| | |] t1] x1]; destruct Hm as (H1 & H2 & H3); try (split_and!; try done;
      intros d Hd Hb; by rewrite H3).
    set (m' := context "sending encrypted PunchHoleRequest over TCP" _).
    assert (steady m') as Hm' by (unfold m'; apply steady_context, steady_es_send). specialize (Hm' dl t1 s).
    destruct (m' dl t1 s) as [[o t2] s2]. destruct Hm' as (F1 & F2 & F3).
    split; [lia|]. split; [destruct dl; lia|].
    destruct o; try done; try (destruct dl; [lia|done]); intros d Hd Hb; rewrite (H3 d) by (done || lia); by rewrite F3.
  - split; [lia|]. split; [destruct dl; lia|done].
  - split; [lia|]. split; [destruct dl; lia|done].
Qed.

Lemma steady_punch eph key port target lic ct d :
  steady (punch_hole_via_tcp_with_conn_type eph key port target lic ct d : M (TcpLink N) _).
Proof.
  unfold punch_hole_via_tcp_with_conn_type. apply steady_bind.
  { intros dl t [x|s|]; try (split; [lia|]; split; [destruct dl; lia|done]).
    pose proof (steady_send (encode (punch_hole_request target lic ct port)) dl t x) as Hm.
    destruct (t_send _ dl t x) as [[[a|e| | |] t1] x1]; destruct Hm as (H1 & H2 & H3); split_and!; try done;
      intros d' Hd Hb; by rewrite H3. }
  intros u. apply steady_bind; [apply steady_now_|]. intros t0. apply steady_loop. intros [pr resent]. unfold punch_step.
  repeat first [apply steady_link_recv | apply steady_switch | steady_step].
Qed.

Lemma steady_handshake r pw peer client ct lu : steady (handshake_and_auth r pw peer client ct lu : M N _).
Proof.
  unfold handshake_and_auth, authenticate, recv_within, login_step, recv_within.
  repeat first [apply steady_es_send | apply steady_es_recv | steady_step].
Qed.

(** Connecting under a limit that is not reached is connecting. *)
Lemma steady_connect rnd udp config ct lu : steady (connect_with_mode rnd udp config ct lu : M (ConnEnv N) _).
Proof.
  unfold connect_with_mode, on_udp, register_peer, register_pk, send_request, request_step, udp_recv, punch_over_tcp,
    relay_over_tcp, relay_connect_with_type, request_relay_via_tcp_with_conn_type.
  repeat first [apply steady_punch | apply steady_handshake | steady_step].
Qed.
End flow.
