(* ===== verification/ConnectRun.v ===== *)
(** * A connection from registration to login (src/connection.rs, [connect_with_mode])

    What the whole flow returns, and what it has sent to the servers and the peer by then, for a
    rendezvous server that answers the registration, any way it answers the punch-hole request, a
    relay that takes the connection, and a peer that accepts the login. *)

From Stdlib Require Import ZArith Lia.
From Stdlib Require Import Strings.Byte Strings.Ascii Strings.String.
From stdpp Require Import base list option numbers.
From S2P Require Import Prelude RustStr Async Transport Crypto Base64 Proto Inbox Rendezvous Connection.

Local Open Scope Z_scope.
Local Open Scope async_scope.

(** ** Registration *)

Section register.
Context (P : ProtoCodec RendezvousMessage) {PL : ProtoLaws P}.

(** A datagram that fits the receive buffer. *)
Definition fits_buffer (m : RendezvousMessage) : Prop := (length (encode m) <= RECV_BUF)%nat.
(** A message the transport takes. *)
Definition request_fits (m : RendezvousMessage) : Prop := Z.of_nat (length (encode m)) <= max_frame.

(** What was sent and received on a connection that is used in the clear. *)
Definition exchanged (sent : list RendezvousMessage) (left : rv_inbox) (n : NetTransport) : NetTransport :=
  net_left (plain_inbox P left) (net_sent (map encode sent) n).

Lemma udp_recv_run a m l t n :
  net_in n = plain_inbox P ((a, m) :: l) -> fits_buffer m ->
  udp_recv None t n = (Done (encode m), Z.max t a, net_left (plain_inbox P l) n).
Proof.
  intros Hin Hm. unfold udp_recv, bind, t_recv, NetTransport_transport, net_recv. rewrite Hin. cbn.
  unfold bind. rewrite wait_until_on_time by done. cbn. by rewrite take_ge.
Qed.

Lemma register_peer_run my_id a b l t n :
  net_faults n = [] -> net_in n = plain_inbox P ((a, Some (RRegisterPeerResponse b)) :: l) ->
  request_fits (register_peer_request my_id) -> fits_buffer (Some (RRegisterPeerResponse b)) ->
  register_peer my_id None t n = (Done b, Z.max t a, exchanged [register_peer_request my_id] l n).
Proof.
  intros Hf Hin Hr Hb. unfold register_peer, bind at 1. cbn [t_send NetTransport_transport].
  rewrite net_send_ok by done. unfold bind at 1.
  rewrite (udp_recv_run a (Some (RRegisterPeerResponse b)) l) by done. unfold bind. by rewrite decode_encode.
Qed.

(** Heartbeat answers in between are skipped. *)
Definition beat_answer (m : RendezvousMessage) : Prop := exists b, m = Some (RRegisterPeerResponse b).

Lemma request_steps noise a m l fuel t n :
  net_in n = plain_inbox P (noise ++ (a, m) :: l) ->
  Forall (fun x => fits_buffer x.2 /\ beat_answer x.2) noise -> fits_buffer m -> ~ beat_answer m ->
  (length noise < fuel)%nat ->
  iter fuel request_step tt None t n = (Done m, Z.max (rv_clock t noise) a, net_left (plain_inbox P l) n).
Proof.
  intros Hin Hn Hb Hm. revert fuel t n Hin. induction Hn as [|[b m'] noise [Hb' [c Hc]] _ IH]; intros [|fuel] t n Hin Hf;
    try (cbn in Hf; lia); cbn [fst snd] in *; subst; rewrite iter_S; unfold bind at 1; unfold request_step at 1, bind at 1.
  - rewrite (udp_recv_run a m l) by done. unfold bind. rewrite decode_encode. cbn.
    destruct m as [[]|]; try done. destruct Hm. by eexists.
  - rewrite (udp_recv_run b (Some (RRegisterPeerResponse c)) (noise ++ (a, m) :: l)) by done.
    unfold bind. rewrite decode_encode. cbn [lift ret]. rewrite (IH fuel (Z.max t b) (net_left _ n)); [done..|cbn in Hf; lia].
Qed.

Lemma send_request_run req noise a m l t n :
  net_faults n = [] -> net_in n = plain_inbox P (noise ++ (a, m) :: l) -> request_fits req ->
  Forall (fun x => fits_buffer x.2 /\ beat_answer x.2) noise -> fits_buffer m -> ~ beat_answer m ->
  send_request req None t n = (Done m, Z.max (rv_clock t noise) a, exchanged [req] l n).
Proof.
  intros Hf Hin Hr Hn Hb Hm. unfold send_request, bind at 1. cbn [t_send NetTransport_transport].
  rewrite net_send_ok by done. unfold loop. cbn [t_pending NetTransport_transport].
  rewrite (request_steps noise a m l); try done.
  cbn. rewrite Hin. unfold plain_inbox. rewrite length_map, length_app. cbn. lia.
Qed.

Lemma register_pk_run my_id uuid pk noise a r l t n :
  let req := Some (RRegisterPk (mkRegisterPk my_id uuid pk "" false)) in
  net_faults n = [] -> net_in n = plain_inbox P (noise ++ (a, Some (RRegisterPkResponse r)) :: l) -> request_fits req ->
  Forall (fun x => fits_buffer x.2 /\ beat_answer x.2) noise -> fits_buffer (Some (RRegisterPkResponse r)) ->
  register_pk my_id uuid pk None t n = (Done r, Z.max (rv_clock t noise) a, exchanged [req] l n).
Proof.
  intros req Hf Hin Hr Hn Hb. unfold register_pk, bind. fold req.
  rewrite (send_request_run req noise a (Some (RRegisterPkResponse r)) l) by (done || by intros [b [=]]). done.
Qed.
End register.

(** ** What the servers do *)

(** The second question to the rendezvous server, when the first named no relay. *)
Inductive Fallback : Type :=
| NotNeeded
| Answers (dialled a : Z) (r : RelayResponse)
| Refuses (dialled : Z) (e : Error).

Record ServerScript : Type := mkServerScript {
  sv_registered_at : Z;
  sv_wants_key : option (rv_inbox * Z * RegisterPkResponse);  (* heartbeat answers, then this *)
  sv_udp_rest : rv_inbox;
  sv_punch_dial : Z;
  sv_exchange : Exchanged;                   (* whether it secures the connection first *)
  sv_noise : rv_inbox;                       (* answers the wait goes on after *)
  sv_relay : option (Z * RelayResponse);     (* or nothing until the limit *)
  sv_fallback : Fallback;
  sv_relay_dial : Z
}.

(** A fresh TCP connection on which the frames come. *)
Definition tcp (frames : list (Z * Res bytes)) : NetTransport := mkNet frames Never [] [] false.

Section script.
Context (C : CryptoLib) (P : ProtoCodec RendezvousMessage) (K : ServerKeyLib) (rnd : ConnRandom) (config : ConnConfig) (conn_type : ConnType)
  (sv : ServerScript).

Definition own_id : string := ("cli-" ++ show_Z (env_pid rnd))%string.
Definition own_uuid : string := hex_bytes (rnd_uuid rnd).

Definition udp_inbox : rv_inbox :=
  (sv_registered_at sv, Some (RRegisterPeerResponse (bool_decide (is_Some (sv_wants_key sv))))) ::
  match sv_wants_key sv with
  | Some (noise, a, r) => noise ++ (a, Some (RRegisterPkResponse r)) :: sv_udp_rest sv
  | None => sv_udp_rest sv
  end.
Definition pk_request : RendezvousMessage :=
  Some (RRegisterPk (mkRegisterPk own_id (rnd_register_uuid rnd) (rnd_register_pk rnd) "" false)).
(** What the flow sends over UDP. *)
Definition udp_sends : list RendezvousMessage :=
  register_peer_request own_id :: match sv_wants_key sv with Some _ => [pk_request] | None => [] end.

Definition punch_inbox : rv_inbox :=
  sv_noise sv ++ match sv_relay sv with Some (a, r) => [(a, Some (RRelayResponse r))] | None => [] end.
Definition punch_answer : Res PunchRelayResponse :=
  match sv_relay sv with
  | Some (_, r) => Ok (PRRelay r)
  | None => match last_punch None (all_heard (sv_exchange sv) (sv_noise sv)) with
            | Some r => Ok (PRPunchHole r)
            | None => Err (punch_timed_out PUNCH_HOLE_RESPONSE_TIMEOUT)
            end
  end.

Definition fallback_dials : list (Z * Res NetTransport) :=
  match sv_fallback sv with
  | NotNeeded => []
  | Answers f a r => [(f, Ok (tcp (plain_inbox P [(a, Some (RRelayResponse r))])))]
  | Refuses f e => [(f, Err e)]
  end.
(** The TCP connections the flow makes, [x] the one to the relay. *)
Definition dials (x : NetTransport) (more : list (Z * Res NetTransport)) : list (Z * Res NetTransport) :=
  (sv_punch_dial sv, Ok (tcp (punch_frames C P (rnd_punch_key rnd) (sv_exchange sv) punch_inbox))) :: fallback_dials ++ (sv_relay_dial sv, Ok x) :: more.

(** *** The moments *)

Definition registered_at (t : Z) : Z :=
  let t1 := Z.max t (sv_registered_at sv) in
  match sv_wants_key sv with Some (noise, a, _) => Z.max (rv_clock t1 noise) a | None => t1 end.
Definition punch_dialled_at (t : Z) : Z :=
  Z.max (registered_at t + 1000 * Z.max 0 (warmup_secs config)) (sv_punch_dial sv).
Definition punched_at (t : Z) : Z :=
  match sv_relay sv with
  | Some (a, _) => Z.max (rv_clock (punch_dialled_at t) (all_heard (sv_exchange sv) (sv_noise sv))) a
  | None => punch_dialled_at t + PUNCH_HOLE_RESPONSE_TIMEOUT
  end.
Definition routed_at (t : Z) : Z :=
  match sv_fallback sv with
  | NotNeeded => punched_at t
  | Answers f a _ => Z.max (Z.max (punched_at t) f) a
  | Refuses f _ => Z.max (punched_at t) f
  end.
Definition relayed_at (t : Z) (received : bool) : Z :=
  Z.max (routed_at t + (if received then PUNCH_HOLE_GRACE_DELAY else 0)) (sv_relay_dial sv).

(** The fallback is asked exactly when no relay was named, and names one or fails in time. *)
Definition fallback_ok (t : Z) (hint : option string) : Prop :=
  match sv_fallback sv, hint with
  | NotNeeded, Some _ => True
  | Answers f a r, None =>
    f <= punched_at t + 15000 /\ a <= punched_at t + 15000 /\ rlr_refuse_reason r = ""%string /\
    request_fits P (relay_request (peer_id config) own_uuid [] (relay_server config) (server_key config) DefaultConn)
  | Refuses f _, None => f <= punched_at t + 15000
  | _, _ => False
  end.

Record servers_ok (t : Z) (received : bool) (peer_uuid hint : option string) : Prop := {
  sk_register : request_fits P (register_peer_request own_id);
  sk_registered : fits_buffer P (Some (RRegisterPeerResponse (bool_decide (is_Some (sv_wants_key sv)))));
  sk_key : match sv_wants_key sv with
           | Some (noise, _, r) => request_fits P pk_request /\ fits_buffer P (Some (RRegisterPkResponse r)) /\
               Forall (fun x => fits_buffer P x.2 /\ beat_answer x.2) noise
           | None => True
           end;
  sk_punch : request_fits P (punch_hole_request (peer_id config) (server_key config) conn_type (env_udp_port rnd));
  sk_noise : Forall (fun x => rv_waits x.2 = true /\ x.1 < punch_dialled_at t + PUNCH_HOLE_RESPONSE_TIMEOUT) (sv_noise sv);
  sk_exchange : exchange_ok C P K (rnd_punch_sk rnd) (rnd_punch_key rnd) (env_udp_port rnd) (peer_id config)
    (server_key config) conn_type PUNCH_HOLE_RESPONSE_TIMEOUT (punch_dialled_at t) (sv_exchange sv) punch_inbox;
  sk_relay : match sv_relay sv with Some (a, _) => a <= punch_dialled_at t + PUNCH_HOLE_RESPONSE_TIMEOUT | None => True end;
  sk_hint : relay_hint config punch_answer = Ok (received, peer_uuid, hint);
  sk_fallback : fallback_ok t hint;
  sk_uuid : exists u, uuid_prefix (default own_uuid peer_uuid) = Ok u
}.
End script.

(** ** The run *)

Section run.
Context (C : CryptoLib) {CL : CryptoLaws C} (P : ProtoCodec RendezvousMessage) {PL : ProtoLaws P} (K : ServerKeyLib).
Context (rnd : ConnRandom) (config : ConnConfig) (conn_type : ConnType) (sv : ServerScript).
Context (t : Z) (received : bool) (peer_uuid hint : option string).
Hypothesis (Hok : servers_ok C P K rnd config conn_type sv t received peer_uuid hint).
Abbreviation Env := (ConnEnv NetTransport).

Lemma dial_run a r rest dl t0 (u : NetTransport) :
  on_time dl a ->
  dial dl t0 (mkConnEnv u ((a, r) :: rest)) =
  (match r with Ok x => Done x | Err e => Fail e end, Z.max t0 a, mkConnEnv u rest).
Proof.
  intros Ha. unfold dial. cbn [ce_dials]. unfold bind at 1. rewrite wait_until_on_time by done.
  unfold bind. cbn. by destruct r.
Qed.

(** *** The phases *)

Lemma register_run u ds :
  net_faults u = [] -> net_in u = plain_inbox P (udp_inbox sv) ->
  context "RegisterPeer failed" (on_udp (register_peer (own_id rnd))) None t (mkConnEnv u ds) =
  (Done (bool_decide (is_Some (sv_wants_key sv))), Z.max t (sv_registered_at sv),
   mkConnEnv (exchanged P [register_peer_request (own_id rnd)] (tail (udp_inbox sv)) u) ds).
Proof.
  intros Hf Hin. unfold context, on_udp, zoom. cbn [ce_udp].
  erewrite (register_peer_run P _ (sv_registered_at sv) _ (tail (udp_inbox sv))); try done; apply Hok.
Qed.

Lemma key_run u ds :
  net_faults u = [] -> net_in u = plain_inbox P (udp_inbox sv) ->
  (if bool_decide (is_Some (sv_wants_key sv)) then
     let* _ := context "RegisterPk failed"
       (on_udp (register_pk (own_id rnd) (rnd_register_uuid rnd) (rnd_register_pk rnd))) in ret tt
   else ret tt) None (Z.max t (sv_registered_at sv))
    (mkConnEnv (exchanged P [register_peer_request (own_id rnd)] (tail (udp_inbox sv)) u) ds) =
  (Done tt, registered_at sv t, mkConnEnv (exchanged P (udp_sends rnd sv) (sv_udp_rest sv) u) ds).
Proof.
  intros Hf Hin. pose proof (sk_key _ _ _ _ _ _ _ _ _ _ _ Hok) as Hk. unfold registered_at, udp_sends, udp_inbox in *.
  destruct (sv_wants_key sv) as [[[noise a] r]|]; [|done]. destruct Hk as (Hr & Hb & Hn).
  rewrite bool_decide_eq_true_2 by eauto. unfold bind, context, on_udp, zoom. cbn [ce_udp tail].
  rewrite (register_pk_run P _ _ _ noise a r (sv_udp_rest sv)) by done.
  cbn. f_equal. f_equal. unfold exchanged, net_left, net_sent. cbn. by rewrite <- app_assoc.
Qed.

Lemma warmup_run (s : Env) :
  (if 0 <? warmup_secs config then sleep (1000 * warmup_secs config) else ret tt) None (registered_at sv t) s =
  (Done tt, registered_at sv t + 1000 * Z.max 0 (warmup_secs config), s).
Proof.
  destruct (Z.ltb_spec 0 (warmup_secs config)).
  - rewrite sleep_run by (done || lia). by rewrite Z.max_r by lia.
  - rewrite Z.max_l by lia. cbn. by rewrite Z.add_0_r.
Qed.

Lemma punch_run (u : NetTransport) x more :
  try (punch_over_tcp rnd config conn_type) None (registered_at sv t + 1000 * Z.max 0 (warmup_secs config))
    (mkConnEnv u (dials C P rnd sv x more)) =
  (Done (punch_answer sv), punched_at config sv t, mkConnEnv u (fallback_dials P sv ++ (sv_relay_dial sv, Ok x) :: more)).
Proof.
  unfold try, punch_over_tcp, bind, context, dials. rewrite dial_run by done. fold (punch_dialled_at config sv t).
  unfold on_own. set (n := tcp _).
  assert ((run (punch_hole_via_tcp_with_conn_type (rnd_punch_sk rnd) (rnd_punch_key rnd) (env_udp_port rnd)
    (peer_id config) (server_key config) conn_type PUNCH_HOLE_RESPONSE_TIMEOUT) (punch_dialled_at config sv t) (Plain n)).1 =
    (match punch_answer sv with Ok r => Done r | Err e => Fail e end, punched_at config sv t)) as E.
  { unfold punched_at, punch_answer. pose proof (sk_relay _ _ _ _ _ _ _ _ _ _ _ Hok) as Hr.
    pose proof (sk_punch _ _ _ _ _ _ _ _ _ _ _ Hok) as Hfit. pose proof (sk_exchange _ _ _ _ _ _ _ _ _ _ _ Hok) as Hex. pose proof (sk_noise _ _ _ _ _ _ _ _ _ _ _ Hok) as Hn.
    unfold n, punch_inbox in *. destruct (sv_relay sv) as [[a r]|].
    - by eapply (punch_relayed C P K) with (later := []).
    - erewrite (punch_quiet C P K); try done. unfold given_up. by destruct (last_punch None _). }
  unfold run in E. destruct (punch_hole_via_tcp_with_conn_type _ _ _ _ _ _ _ _ _ _) as [[o t'] l].
  injection E as -> ->. by destruct (punch_answer sv).
Qed.

Lemma route_run (u : NetTransport) ds :
  exists addr, (match hint with
    | Some relay_addr => ret relay_addr
    | None => let* rr := timeout 15000 (relay_over_tcp config (own_uuid rnd)) in lift (fallback_relay config rr)
    end) None (punched_at config sv t) (mkConnEnv u (fallback_dials P sv ++ ds)) =
  (Done addr, routed_at config sv t, mkConnEnv u ds).
Proof.
  pose proof (sk_fallback _ _ _ _ _ _ _ _ _ _ _ Hok) as Hfb. unfold fallback_ok, fallback_dials, routed_at in *.
  set (t1 := punched_at config sv t) in *.
  destruct (sv_fallback sv) as [|f a r|f e], hint as [addr|]; try done; [by exists addr|..].
  - destruct Hfb as (Hf & Ha & Hr & Hfit).
    exists (if is_empty (rlr_relay_server r) then normalize_relay_addr (relay_server config)
            else normalize_relay_addr (rlr_relay_server r)).
    unfold bind at 1, timeout, relay_over_tcp, bind at 1. unfold context at 1. cbn [app].
    rewrite dial_run by done. unfold on_own, request_relay_via_tcp_with_conn_type, bind at 1.
    cbn [t_send NetTransport_transport]. rewrite net_send_ok by done. unfold bind at 1. unfold context at 1.
    cbn [t_recv NetTransport_transport]. unfold net_recv. cbn [net_sent net_in tcp plain_inbox map fst snd].
    unfold bind at 1. rewrite wait_until_on_time by done. unfold bind at 1. cbn [modify lift ret].
    unfold bind. rewrite decode_encode. cbn. rewrite Hr. cbn. by destruct (is_empty (rlr_relay_server r)).
  - exists (normalize_relay_addr (relay_server config)).
    unfold bind at 1, timeout, relay_over_tcp, bind, context. cbn [app]. by rewrite dial_run by done.
Qed.

Lemma grace_run t0 (s : Env) :
  (if received then sleep PUNCH_HOLE_GRACE_DELAY else ret tt) None t0 s =
  (Done tt, t0 + (if received then PUNCH_HOLE_GRACE_DELAY else 0), s).
Proof. destruct received; [by rewrite sleep_run|]. cbn. by rewrite Z.add_0_r. Qed.

(** The message that joins the two ends at the relay. *)
Definition binding : RendezvousMessage :=
  relay_request (peer_id config) (default (own_uuid rnd) peer_uuid) [] "" (server_key config) DefaultConn.

Lemma relay_run addr t0 (u x : NetTransport) more :
  net_faults x = [] -> request_fits P binding ->
  relay_connect_with_type addr (default (own_uuid rnd) peer_uuid) (peer_id config) (server_key config) None t0
    (mkConnEnv u ((sv_relay_dial sv, Ok x) :: more)) =
  (Done (net_sent [encode binding] x), Z.max t0 (sv_relay_dial sv), mkConnEnv u more).
Proof.
  intros Hf Hfit. unfold relay_connect_with_type, bind at 1, context. rewrite dial_run by done.
  unfold on_own, bind. cbn [t_send NetTransport_transport]. by rewrite net_send_ok.
Qed.

(** *** The whole flow, up to the peer *)

Context (PM : ProtoCodec Message) (PI : ProtoCodec IdPk) (lu : option LoginUnion).

Lemma connect_reaches_peer u x more :
  net_faults u = [] -> net_in u = plain_inbox P (udp_inbox sv) -> net_faults x = [] -> request_fits P binding ->
  run (connect_with_mode rnd (Ok tt) config conn_type lu) t (mkConnEnv u (dials C P rnd sv x more)) =
  on_own (net_sent [encode binding] x)
    (handshake_and_auth rnd (password config) (peer_id config) (own_id rnd) conn_type lu)
    None (relayed_at config sv t received)
    (mkConnEnv (exchanged P (udp_sends rnd sv) (sv_udp_rest sv) u) more).
Proof.
  intros Hf Hin Hx Hfit. unfold run, connect_with_mode. unfold bind at 1. cbn [map_err lift ret]. fold (own_id rnd).
  unfold bind at 1. rewrite register_run by done. unfold bind at 1. rewrite key_run by done.
  unfold bind at 1. rewrite warmup_run. fold (own_uuid rnd).
  unfold bind at 1. rewrite punch_run. unfold bind at 1. rewrite (sk_hint _ _ _ _ _ _ _ _ _ _ _ Hok). cbn [lift ret].
  set (u1 := exchanged _ _ _ u).
  destruct (route_run u1 ((sv_relay_dial sv, Ok x) :: more)) as [addr E]. unfold bind at 1. rewrite E.
  unfold bind at 1. rewrite grace_run. destruct (sk_uuid _ _ _ _ _ _ _ _ _ _ _ Hok) as [v Hv].
  unfold bind at 1. rewrite Hv. cbn [lift ret]. unfold bind at 1. by rewrite relay_run by done.
Qed.
End run.

(** ** The servers and the peer together *)

(** The peer's side of the handshake: what it sends, when, and what it holds. *)
Record PeerScript : Type := mkPeerScript {
  pr_signature : bytes;
  pr_idpk : bytes;
  pr_id : string;
  pr_secret : bytes;
  pr_sealed : bytes;                (* the session key as the peer gets it *)
  pr_hash : Hash;
  pr_delays : inbox;                (* echo requests before the verdict *)
  pr_verdict : Message;
  pr_info : PeerInfo;
  pr_key_at : Z;
  pr_hash_at : Z;
  pr_verdict_at : Z;
  pr_rest : inbox                   (* what it sends afterwards *)
}.

(** What the rendezvous server does, what the flow makes of its answer, and the peer. *)
Record Scene : Type := mkScene {
  sn_servers : ServerScript;
  sn_received : bool;
  sn_uuid : option string;
  sn_hint : option string;
  sn_peer : PeerScript
}.

Section scene.
Context (C : CryptoLib) (P : ProtoCodec RendezvousMessage) (PM : ProtoCodec Message) (PI : ProtoCodec IdPk)
  (K : ServerKeyLib).
Context (rnd : ConnRandom) (config : ConnConfig) (conn_type : ConnType) (lu : option LoginUnion) (sn : Scene).
Abbreviation pr := (sn_peer sn).

Definition at_relay (t : Z) : Z := relayed_at config (sn_servers sn) t (sn_received sn).
Definition peer_side : NetTransport :=
  tcp (login_frames C PM rnd (pr_signature pr) (pr_idpk pr) (pr_hash pr) (pr_verdict pr) (pr_key_at pr) (pr_hash_at pr)
         (pr_verdict_at pr) (pr_delays pr) (pr_rest pr)).
(** When the peer's acceptance is there. *)
Definition connected_at (t : Z) : Z :=
  accepted_at (at_relay t) (pr_key_at pr) (pr_hash_at pr) (pr_verdict_at pr) (pr_delays pr).
(** The TCP connections of the flow, and those to come later. *)
Definition scene_dials (more : list (Z * Res NetTransport)) : list (Z * Res NetTransport) :=
  dials C P rnd (sn_servers sn) peer_side more.

Record scene_ok (t : Z) : Prop := {
  sno_servers : servers_ok C P K rnd config conn_type (sn_servers sn) t (sn_received sn) (sn_uuid sn) (sn_hint sn);
  sno_binding : request_fits P (binding rnd config (sn_uuid sn));
  sno_peer : peer_accepts C PM PI rnd (password config) (peer_id config) (own_id rnd) conn_type lu (at_relay t)
    (pr_signature pr) (pr_idpk pr) (pr_id pr) (pr_secret pr) (pr_sealed pr) (pr_hash pr) (pr_verdict pr) (pr_info pr)
    (pr_key_at pr) (pr_hash_at pr) (pr_verdict_at pr) (pr_delays pr) (pr_rest pr)
}.

(** What went to the relay and, behind it, to the peer. *)
Definition scene_sends : list bytes :=
  [encode (binding rnd config (sn_uuid sn)); session_offer C PM rnd (pr_sealed pr)] ++
  sealed_frames (rnd_session_key rnd) 0
    [Some (login_offer C PM rnd (password config) (peer_id config) (own_id rnd) conn_type lu (pr_hash pr))].

(** The stream of a connection that is up: the session key, one message sent, nothing lost. *)
Record established (t : Z) (es : EncryptedStream NetTransport) : Prop := {
  est_key : es_key es = rnd_session_key rnd;
  est_seq : send_seq es = 1;
  est_out : net_out (es_inner es) = scene_sends;
  est_faults : net_faults (es_inner es) = [];
  est_end : net_end (es_inner es) = Never;
  est_heard : last_recv_at es = connected_at t;
  est_rest : delivers_msgs C PM (pr_rest pr) es
}.

Lemma connect_run (CL : CryptoLaws C) (PL : ProtoLaws P) (PML : ProtoLaws PM) t u more :
  scene_ok t -> net_faults u = [] -> net_in u = plain_inbox P (udp_inbox (sn_servers sn)) ->
  exists t' es,
    run (connect_with_mode rnd (Ok tt) config conn_type lu) t (mkConnEnv u (scene_dials more)) =
      (Done (pr_info pr, es), t',
       mkConnEnv (exchanged P (udp_sends rnd (sn_servers sn)) (sv_udp_rest (sn_servers sn)) u) more) /\
    (at_relay t <= t' <= at_relay t + 50000 /\ t' = connected_at t) /\ established t es /\
    box_open (box_public (rnd_eph_sk rnd)) (pr_secret pr) zero_nonce (pr_sealed pr) = Some (rnd_session_key rnd).
Proof.
  intros [Hok Hfit Hpeer] Hf Hin.
  destruct (handshake_run C PM PI rnd (password config) (peer_id config) (own_id rnd) conn_type lu
    (net_sent [encode (binding rnd config (sn_uuid sn))] peer_side) (at_relay t)
    (pr_signature pr) (pr_idpk pr) (pr_id pr) (pr_secret pr) (pr_sealed pr) (pr_hash pr) (pr_verdict pr) (pr_info pr)
    (pr_key_at pr) (pr_hash_at pr) (pr_verdict_at pr) (pr_delays pr) (pr_rest pr))
    as (t' & es & E & (Ht & Hat & Hheard) & Ho & Hkey & Hd & Hk & Hq & Hft & He); try done.
  exists t', es. split_and!; try done; try apply Ht; [|by constructor; try done; rewrite Hheard].
  unfold scene_dials.
  rewrite (connect_reaches_peer C P K rnd config conn_type _ t _ (sn_uuid sn) (sn_hint sn) Hok PM PI lu u peer_side more)
    by done.
  unfold on_own. unfold run in E. unfold at_relay in E. by rewrite E.
Qed.
End scene.


(** *** Evaluating a connection *)

(** The server asks for a key; it secures the connection and answers the punch-hole request with a
    response that names no relay, and, asked again, names one. *)
Definition toy_relay : RelayResponse := mkRelayResponse [] "" "relay.example" "" [].
Definition toy_servers_script : ServerScript :=
  mkServerScript 5 (Some ([(6, Some (RRegisterPeerResponse false))], 8, mkRegisterPkResponse 0 0)) [] 2020
    (Some ([], 2050, [repeat x09 32])) [(2100, Some (RPunchHoleResponse (mkPunchHoleResponse [x01] [] 0 "" "" [])))] None (Answers 8100 8200 toy_relay) 8600.
Definition toy_conn_config : ConnConfig := mkConnConfig "s:21116" "s:21117" "" "peer" "pw" 2.
Definition toy_keys : ServerKeyLib := {|
  verifying_key := fun _ => None; ed25519_verify := fun _ _ _ => false; base64_standard := fun _ => Ok []
|}.

(** The peer goes on with [rest]. *)
Definition toy_scene_then (rest : inbox) : Scene :=
  mkScene toy_servers_script true None None
    (mkPeerScript (repeat x00 64) (repeat x09 32) "" (repeat x09 32) (repeat x06 32 ++ repeat x00 16)
       (mkHash "salt" "chal") [] (Some (UPeerInfo toy_info)) toy_info 8700 8800 8900 rest).
Definition toy_scene : Scene := toy_scene_then [].

(** The scene can be played at once or a little later, and for either type of connection. *)
Lemma toy_scene_then_ok ct lu rest t :
  (t = 0 \/ t = 3000) \/ t = 4200 -> ct = DefaultConn /\ lu = None \/ ct = ConnTerminal /\ lu = Some (LTerminal "") ->
  Forall (fun i => sendable i.2) (@wire_items (toy_codec MessageUnion) rest) ->
  scene_ok toy_crypto (toy_codec RendezvousUnion) (toy_codec MessageUnion) toy_idpk toy_keys toy_random toy_conn_config ct
    lu (toy_scene_then rest) t.
Proof.
  intros Ht Hct Hrest. constructor.
  - constructor.
    + vm_compute. congruence.
    + apply Nat.leb_le. vm_compute. reflexivity.
    + split; [vm_compute; congruence|]. split; [apply Nat.leb_le; vm_compute; reflexivity|].
      apply Forall_cons_2; [|apply Forall_nil_2]. split; [apply Nat.leb_le; vm_compute; reflexivity|by eexists].
    + destruct Hct as [[-> ->]|[-> ->]]; vm_compute; congruence.
    + apply Forall_cons_2; [|apply Forall_nil_2]. split; [reflexivity|].
      destruct Ht as [[-> | ->]| ->]; vm_compute; reflexivity.
    + split; [apply Forall_nil_2|]. split; [destruct Ht as [[-> | ->]| ->]; vm_compute; reflexivity|]. split.
      * constructor; [|destruct Hct as [[-> ->]|[-> ->]]; vm_compute; congruence].
        eexists _, _, _. split; [reflexivity|]. split; [reflexivity|]. split; [reflexivity|]. vm_compute. congruence.
      * repeat (apply Forall_cons_2 || apply Forall_nil_2); vm_compute; congruence.
    + exact I.
    + vm_compute. reflexivity.
    + destruct Ht as [[-> | ->]| ->]; (split; [vm_compute; congruence|]); (split; [vm_compute; congruence|]);
        (split; [reflexivity|vm_compute; congruence]).
    + eexists. vm_compute. reflexivity.
  - vm_compute. congruence.
  - constructor.
    + reflexivity.
    + discriminate.
    + reflexivity.
    + reflexivity.
    + reflexivity.
    + vm_compute. congruence.
    + destruct Hct as [[-> ->]|[-> ->]]; vm_compute; congruence.
    + do 2 (apply Forall_cons_2; [vm_compute; congruence|]). exact Hrest.
    + left. reflexivity.
    + destruct Ht as [[-> | ->]| ->]; vm_compute; congruence.
    + destruct Ht as [[-> | ->]| ->]; vm_compute; congruence.
    + destruct Ht as [[-> | ->]| ->]; vm_compute; congruence.
    + apply Forall_nil_2.
Defined.
Lemma toy_scene_ok t : t = 0 \/ t = 3000 ->
  scene_ok toy_crypto (toy_codec RendezvousUnion) (toy_codec MessageUnion) toy_idpk toy_keys toy_random toy_conn_config DefaultConn
    None toy_scene t.
Proof.
  intros Ht. apply toy_scene_then_ok; [by left|by left|apply Forall_nil_2].
Defined.

