(* ===== verification/Exec.v ===== *)
(** * Running a remote command through a terminal (src/daemon.rs, src/main.rs)

    [exec_command_inner] opens a terminal, drains the prompt, sends the command with a sentinel
    [echo] behind it and collects output until the sentinel comes back; [parse_exec_output] reads
    the output and the exit code from the transcript.  The clipboard commands are built on it. *)

From Stdlib Require Import ZArith Lia.
From Stdlib Require Import Strings.Byte Strings.Ascii Strings.String.
From stdpp Require Import base list option numbers.
From S2P Require Import Prelude RustStr Async Transport Crypto Proto Inbox Json Session.
From S2P Require Import Terminal.

Local Open Scope Z_scope.
Local Open Scope async_scope.

Definition EXEC_TERMINAL_OPEN_TIMEOUT : Z := 15000.
Definition EXEC_PROMPT_DRAIN_TIMEOUT : Z := 2000.
Definition DEFAULT_EXEC_COMPLETION_TIMEOUT : Z := 30000.
Definition MAX_EXEC_COMPLETION_TIMEOUT : Z := 3600000.

(** ** The transcript *)

(** The loop of [find_sentinel_output]; [fuel] bounds the number of occurrences. *)
Fixpoint find_sentinel_from (fuel search_from : nat) (raw sentinel : string) : option nat :=
  match fuel with
  | O => None
  | S fuel' =>
    match str_find sentinel (str_drop search_from raw) with
    | None => None
    | Some pos =>
      let abs_pos := (search_from + pos)%nat in
      match str_drop (abs_pos + String.length sentinel) raw with
      | String c _ =>
        if is_ascii_digit c then Some abs_pos
        else find_sentinel_from fuel' (abs_pos + String.length sentinel) raw sentinel
      | EmptyString => find_sentinel_from fuel' (abs_pos + String.length sentinel) raw sentinel
      end
    end
  end.

(** [find_sentinel_output] *)
Definition find_sentinel_output (raw sentinel : string) : option nat :=
  find_sentinel_from (S (String.length raw)) 0 raw sentinel.

(** [after.chars().take_while(|c| c.is_ascii_digit()).collect()] *)
Definition leading_digits (s : string) : string :=
  string_of_list_ascii (take_while is_ascii_digit (list_ascii_of_string s)).

Definition CR : ascii := "013"%char.
Definition LF : ascii := "010"%char.

(** [parse_exec_output] *)
Definition parse_exec_output (raw sentinel : string) : string * Z :=
  match find_sentinel_output raw sentinel with
  | None => (trim raw, -1)
  | Some sentinel_pos =>
    let after := str_drop (sentinel_pos + String.length sentinel) raw in
    let exit_code := default (-1) (parse_i32 (leading_digits after)) in
    let echo_cmd := ("echo '" ++ sentinel ++ "'")%string in
    let output_start :=
      default O (str_find echo_cmd raw ≫= fun pos =>
        find_char LF (str_drop pos raw) ≫= fun nl => Some (pos + nl + 1)%nat) in
    let sentinel_line_start :=
      default O (S <$> rfind_char LF (str_take sentinel_pos raw)) in
    let stdout :=
      if (output_start <? sentinel_line_start)%nat
      then trim_end_matches [CR; LF] (str_slice output_start sentinel_line_start raw)
      else ""%string in
    (stdout, exit_code)
  end.

(** [parse_direct_exec_output] (src/main.rs) *)
Definition parse_direct_exec_output (raw sentinel : string) : string * Z :=
  match find_sentinel_output raw sentinel with
  | Some pos =>
    let before := str_take pos raw in
    let after := str_drop (pos + String.length sentinel) raw in
    let exit_code := default 0 (parse_i32 (leading_digits after)) in
    let kept := List.filter (fun line => negb (contains ("echo '" ++ sentinel ++ "'$?") line))
                  (lines before) in
    (trim (join (String LF "") kept), exit_code)
  | None => (trim raw, -1)
  end.

Definition exec_completion_timeout (timeout_secs : option Z) : Z :=
  match timeout_secs with
  | Some secs => Z.min (1000 * secs) MAX_EXEC_COMPLETION_TIMEOUT
  | None => DEFAULT_EXEC_COMPLETION_TIMEOUT
  end.

Definition exec_output_chunk_response (data : bytes) : SessionResponse :=
  resp_ok_with_data "exec output chunk"
    (object [("kind", Str "chunk"); ("chunk", Str (from_utf8_lossy data))]%string).

(** The response of a finished command. *)
Definition exec_response (msg command stdout : string) (exit_code : Z) (timed_out : bool) : SessionResponse :=
  resp_ok_with_data msg
    (object [("command", Str command); ("stdout", Str stdout); ("stderr", Str "");
             ("exit_code", Number exit_code); ("timed_out", Bool timed_out)]%string).

(** ** Writing to a CLI client *)

(** What goes to a client: a response as a line of JSON, or the raw bytes of a shell. *)
Inductive UdsItem : Type :=
| ULine (r : SessionResponse)
| URaw (b : bytes).

(** The write side of a client's socket: what was written, and what the coming writes do. *)
Record UdsWriter : Type := mkUdsWriter {
  uw_sent : list UdsItem;
  uw_faults : list (option Error)
}.

(** A write and its flush. *)
Definition uds_write (i : UdsItem) : M UdsWriter unit := fun dl t w =>
  match uw_faults w with
  | Some e :: fs => (Fail e, t, mkUdsWriter (uw_sent w) fs)
  | _ :: fs => (Done tt, t, mkUdsWriter (uw_sent w ++ [i]) fs)
  | [] => (Done tt, t, mkUdsWriter (uw_sent w ++ [i]) [])
  end.

(** [send_response] *)
Definition send_response (resp : SessionResponse) : M UdsWriter unit := uds_write (ULine resp).

(** ** Executing *)

Record ExecState (T : Type) : Type := mkExecState {
  ex_stream : EncryptedStream T;
  ex_service_id : option string;
  ex_writer : UdsWriter
}.
Arguments mkExecState {T} _ _ _.
Arguments ex_stream {T} _.
Arguments ex_service_id {T} _.
Arguments ex_writer {T} _.

Section exec.
Context {T : Type} `{Transport T} `{CryptoLib} `{ProtoCodec Message} `{Zstd}.

Definition on_stream {A} (m : M (EncryptedStream T) A) : M (ExecState T) A :=
  zoom ex_stream (fun x s => mkExecState x (ex_service_id s) (ex_writer s)) m.
Definition on_writer {A} (m : M UdsWriter A) : M (ExecState T) A :=
  zoom ex_writer (fun x s => mkExecState (ex_stream s) (ex_service_id s) x) m.
Definition set_service (id : option string) : M (ExecState T) unit :=
  modify (fun s => mkExecState (ex_stream s) id (ex_writer s)).
(** [let _ = terminal::close_terminal(..).await] *)
Definition close_quietly (tid : Z) : M (ExecState T) unit :=
  let* _ := try (on_stream (close_terminal tid)) in ret tt.

(** Step 2: drain the prompt; [inr (Some r)] ends the command with [r]. *)
Definition drain_step (command : string) (tid : Z) (_ : unit)
    : M (ExecState T) (unit + option SessionResponse) :=
  let* r := try (on_stream (recv_terminal_data_with_timeout EXEC_PROMPT_DRAIN_TIMEOUT)) in
  match r with
  | Ok (TData _) => ret (inl tt)
  | Ok (TClosed exit_code) =>
    set_service None ;;;
    ret (inr (Some (exec_response "Terminal closed before exec" command "" exit_code false)))
  | Ok (TError msg) =>
    close_quietly tid ;;; set_service None ;;;
    fail (anyhow ("terminal error during prompt drain: " ++ msg)%string)
  | Err e =>
    if is_terminal_response_timeout e then ret (inr None)
    else close_quietly tid ;;;
         fail (anyhow ("recv error during prompt drain: " ++ error_render e)%string)
  end.

(** Step 4: one round of collecting; [inr (inl r)] ends the command with [r], [inr (inr b)] ends
    the collection, timed out or not. *)
Definition collect_step (command sentinel : string) (tid deadline : Z) (streaming : bool)
    (collected : bytes) : M (ExecState T) (bytes + (SessionResponse + bytes * bool)) :=
  let* t := now in
  let remaining := Z.max 0 (deadline - t) in
  if remaining =? 0 then ret (inr (inr (collected, true)))
  else
    let* r := try (on_stream (recv_terminal_data_with_timeout remaining)) in
    match r with
    | Ok (TData data) =>
      (if streaming then on_writer (send_response (exec_output_chunk_response data)) else ret tt) ;;;
      let collected := collected ++ data in
      match find_sentinel_output (from_utf8_lossy collected) sentinel with
      | Some _ => ret (inr (inr (collected, false)))
      | None => ret (inl collected)
      end
    | Ok (TClosed exit_code) =>
      let stdout := trim (from_utf8_lossy collected) in
      close_quietly tid ;;; set_service None ;;;
      ret (inr (inl (exec_response ("Executed `" ++ command ++ "`")%string command stdout exit_code false)))
    | Ok (TError msg) =>
      close_quietly tid ;;; set_service None ;;;
      fail (anyhow ("terminal error during exec: " ++ msg)%string)
    | Err e =>
      if is_terminal_response_timeout e then ret (inr (inr (collected, true)))
      else close_quietly tid ;;; set_service None ;;;
           fail (anyhow ("recv error during exec: " ++ error_render e)%string)
    end.

Definition ex_pending (s : ExecState T) : nat := es_pending (ex_stream s).

Definition exec_sentinel (nanos : Z) : string := ("__RDCLI_" ++ hex_pad 32 nanos ++ "__")%string.

(** [exec_command_inner], at a given clock reading in nanoseconds. *)
Definition exec_command_inner (nanos : Z) (command : string) (timeout_secs : option Z) (streaming : bool)
    : M (ExecState T) SessionResponse :=
  let sentinel := exec_sentinel nanos in
  let* terminal_info :=
    timeout_or EXEC_TERMINAL_OPEN_TIMEOUT (anyhow "terminal open timed out")
      (on_stream (open_terminal 24 80)) in
  set_service (Some (ti_service_id terminal_info)) ;;;
  let tid := ti_terminal_id terminal_info in
  let* early := loop ex_pending (drain_step command tid) tt in
  match early with
  | Some r => ret r
  | None =>
    let wrapped := (command ++ String LF "" ++ "echo '" ++ sentinel ++ "'$?" ++ String LF "")%string in
    on_stream (send_terminal_data tid (as_bytes wrapped)) ;;;
    let* t := now in
    let deadline := t + exec_completion_timeout timeout_secs in
    let* outcome := loop ex_pending (collect_step command sentinel tid deadline streaming) [] in
    match outcome with
    | inl r => ret r
    | inr (collected, timed_out) =>
      close_quietly tid ;;; set_service None ;;;
      let '(stdout, exit_code) := parse_exec_output (from_utf8_lossy collected) sentinel in
      ret (exec_response ("Executed `" ++ command ++ "`")%string command stdout exit_code timed_out)
    end
  end.

(** [exec_command]: no streaming, and a service id of its own. *)
Definition exec_command (nanos : Z) (command : string) (timeout_secs : option Z)
    : M (EncryptedStream T) SessionResponse := fun dl t s =>
  let '(o, t', x) := exec_command_inner nanos command timeout_secs false dl t
                       (mkExecState s None (mkUdsWriter [] [])) in (o, t', ex_stream x).

(** ** The clipboard, by way of shell commands *)

Definition clipboard_get_command : string :=
  "xclip -selection clipboard -o 2>/dev/null || pbpaste 2>/dev/null || echo -n ''".

Definition clipboard_get (nanos : Z) : M (EncryptedStream T) SessionResponse :=
  let* exec_resp := exec_command nanos clipboard_get_command None in
  let stdout := match sr_data exec_resp with
                | Some d => match json_get "stdout" d with Some v => as_str v | None => None end
                | None => None
                end in
  let text := default ""%string stdout in
  ret (resp_ok_with_data "Clipboard text retrieved" (object [("text", Str text)]%string)).

Definition clipboard_set_command (text : string) : string :=
  ("cat <<'__RDCLI_CLIP_EOF__' | xclip -selection clipboard 2>/dev/null || cat <<'__RDCLI_CLIP_EOF__' | pbcopy 2>/dev/null"
   ++ String LF "" ++ text ++ String LF "" ++ "__RDCLI_CLIP_EOF__")%string.

Definition clipboard_set (nanos : Z) (text : string) : M (EncryptedStream T) SessionResponse :=
  let* _ := exec_command nanos (clipboard_set_command text) None in
  ret (resp_ok_with_data "Clipboard text updated"
         (object [("chars", Number (Z.of_nat (chars_count text))); ("redacted", Bool true)]%string)).
End exec.

(** ** Searching in a transcript *)

Lemma str_drop_drop a b s : str_drop a (str_drop b s) = str_drop (b + a) s.
Proof. revert s. induction b as [|b IH]; intros [|c s]; simpl; auto. by destruct a. Qed.

(** The first position where the pattern occurs is the one found. *)
Lemma str_find_at p s n :
  starts_with p (str_drop n s) = true ->
  (forall m, (m < n)%nat -> starts_with p (str_drop m s) = false) -> str_find p s = Some n.
Proof.
  revert n. induction s as [|c s IH]; intros n Hn Hm.
  - destruct n; cbn [str_find].
    + cbn [str_drop] in Hn. by rewrite Hn.
    + specialize (Hm O ltac:(lia)). cbn [str_drop] in *. congruence.
  - destruct n as [|n]; cbn [str_find].
    + cbn [str_drop] in Hn. by rewrite Hn.
    + pose proof (Hm O ltac:(lia)) as H0. cbn [str_drop] in H0. rewrite H0.
      rewrite (IH n); [done|done|]. intros m Hlt. apply (Hm (S m)). lia.
Qed.

Lemma find_char_app c a b :
  find_char c a = None -> find_char c (a ++ String c b)%string = Some (String.length a).
Proof.
  unfold find_char. intros Ha. apply str_find_at.
  - rewrite str_drop_app. by apply (starts_with_app (String c "") b).
  - intros m Hm. pose proof (str_find_None _ _ m Ha) as H.
    assert (exists x r, str_drop m a = String x r) as (x & r & Ex).
    { pose proof (str_length_drop m a) as Hl. destruct (str_drop m a) as [|x r]; [simpl in Hl; lia|eauto]. }
    assert (str_drop m (a ++ String c b)%string = (str_drop m a ++ String c b)%string) as ->.
    { clear -Hm. revert m Hm. induction a as [|y a IH]; intros [|m] Hm; simpl in *; try done; try lia.
      apply IH. lia. }
    rewrite Ex in *. unfold starts_with in *. cbn [String.prefix String.append] in *.
    destruct (Ascii.ascii_dec c x); [|done]. by destruct r.
Qed.

Lemma rfind_char_app c a b :
  rfind_char c (a ++ String c b)%string =
  Some (String.length a + match rfind_char c b with Some n => S n | None => 0 end)%nat.
Proof.
  induction a as [|x a IH]; simpl.
  - destruct (rfind_char c b); [done|]. by rewrite Ascii.eqb_refl.
  - by rewrite IH.
Qed.

Lemma digits_value_all a s v :
  digits_value a s = Some v -> forallb is_ascii_digit (list_ascii_of_string s) = true.
Proof.
  revert a. induction s as [|c s IH]; intros a H; [done|]. cbn in H |- *.
  destruct (is_ascii_digit c); [|done]. by eapply IH.
Qed.

Definition starts_digit (s : string) : bool :=
  match s with String c _ => is_ascii_digit c | EmptyString => false end.

Lemma leading_digits_app d r :
  forallb is_ascii_digit (list_ascii_of_string d) = true -> starts_digit r = false ->
  leading_digits (d ++ r)%string = d.
Proof.
  unfold leading_digits. intros Hd Hr. induction d as [|c d IH].
  - destruct r as [|c r]; [done|]. simpl in *. by rewrite Hr.
  - simpl in *. apply andb_true_iff in Hd as [-> Hd]. simpl. by rewrite IH.
Qed.

Lemma show_code code :
  0 <= code <= i32_max ->
  exists c d, show_Z code = String c d /\ is_ascii_digit c = true /\
    forallb is_ascii_digit (list_ascii_of_string (show_Z code)) = true.
Proof.
  intros Hc. destruct code as [|p|p]; [by exists "0"%char, ""%string| |lia].
  destruct (show_N_digits (N.pos p)) as (c & d & E & Hd & Hv).
  exists c, d. change (show_Z (Z.pos p)) with (pretty.pretty (N.pos p)). rewrite E.
  split_and!; [done|done|]. by eapply digits_value_all.
Qed.

(** The lines of the output that end with a newline. *)
Definition complete_lines (out : string) : string :=
  match rfind_char LF out with Some n => str_take (S n) out | None => ""%string end.

Lemma rfind_char_lt c s n : rfind_char c s = Some n -> (n < String.length s)%nat.
Proof.
  revert n. induction s as [|x s IH]; intros n; simpl; [done|].
  destruct (rfind_char c s) as [m|]; [intros [= <-]; specialize (IH m eq_refl); lia|].
  destruct (Ascii.eqb c x); [intros [= <-]; lia|done].
Qed.

Lemma rfind_char_absent c s : find_char c s = None -> rfind_char c s = None.
Proof.
  unfold find_char. induction s as [|x s IH]; [done|]. cbn [str_find rfind_char].
  unfold starts_with at 1. cbn [String.prefix]. destruct (Ascii.ascii_dec c x) as [->|Hne].
  - by destruct s.
  - destruct (str_find _ s); [done|]. intros _. rewrite IH by done.
    by destruct (Ascii.eqb_spec c x).
Qed.

Lemma str_length_take n s : (n <= String.length s)%nat -> String.length (str_take n s) = n.
Proof.
  revert s. induction n as [|n IH]; intros [|c s] E; simpl in *; try lia. rewrite IH; lia.
Qed.

Lemma str_slice_app a b c :
  str_slice (String.length a) (String.length a + String.length b) (a ++ b ++ c)%string = b.
Proof.
  unfold str_slice. rewrite str_drop_app.
  replace (String.length a + String.length b - String.length a)%nat with (String.length b) by lia.
  apply str_take_app.
Qed.

(** A transcript as a shell produces it: what precedes, the echoed [echo] command and the rest of
    its line, the command's output, the sentinel with the exit code, and what follows. *)
Section transcript.
Context (S_ pre mid out rest : string) (code : Z).

Definition echoed : string := ("echo '" ++ S_ ++ "'")%string.
Definition transcript_head : string := (pre ++ echoed ++ mid ++ String LF "")%string.
Definition transcript : string :=
  (transcript_head ++ out ++ S_ ++ show_Z code ++ rest)%string.

(** The sentinel occurs nowhere before its output but in the echoed command. *)
Definition sentinel_unique : Prop :=
  forall m, (m < String.length (transcript_head ++ out))%nat ->
    starts_with S_ (str_drop m transcript) = true -> m = (String.length pre + 6)%nat.

Hypothesis (Huniq : sentinel_unique).
Hypothesis (Hcode : 0 <= code <= i32_max).
Hypothesis (Hrest : starts_digit rest = false).
Hypothesis (Hlf : find_char LF (echoed ++ mid)%string = None).

Let P : nat := String.length (transcript_head ++ out).

Lemma transcript_echo : str_drop (String.length pre + 6) transcript
  = (S_ ++ "'" ++ mid ++ String LF "" ++ out ++ S_ ++ show_Z code ++ rest)%string.
Proof.
  unfold transcript, transcript_head, echoed. rewrite !str_app_assoc, str_drop_app_plus. done.
Qed.

Lemma transcript_sentinel : str_drop P transcript = (S_ ++ show_Z code ++ rest)%string.
Proof. unfold transcript, P. rewrite <- str_app_assoc. apply str_drop_app. Qed.

Lemma echo_before_P : (String.length pre + 6 + String.length S_ < P)%nat.
Proof. unfold P, transcript_head, echoed. rewrite !str_length_app. simpl. lia. Qed.

Lemma sentinel_at m : (m < P)%nat ->
  starts_with S_ (str_drop m transcript) = true -> m = (String.length pre + 6)%nat.
Proof. apply Huniq. Qed.

Lemma no_sentinel m : (m < P)%nat -> m <> (String.length pre + 6)%nat ->
  starts_with S_ (str_drop m transcript) = false.
Proof. intros Hm Hne. destruct (starts_with S_ _) eqn:E; [|done]. by apply sentinel_at in E. Qed.

Lemma transcript_found : find_sentinel_output transcript S_ = Some P.
Proof.
  pose proof echo_before_P as HP. unfold find_sentinel_output.
  assert (exists k, String.length transcript = S k) as [k ->].
  { unfold P in HP. destruct (String.length transcript) as [|k] eqn:E; [|by exists k].
    unfold transcript in E. rewrite str_length_app in HP. rewrite !str_length_app in E. lia. }
  cbn [find_sentinel_from]. change (str_drop 0 transcript) with transcript.
  rewrite (str_find_at S_ transcript (String.length pre + 6)).
  2: { rewrite transcript_echo. apply starts_with_app. }
  2: { intros m Hm. apply no_sentinel; lia. }
  change (0 + (String.length pre + 6))%nat with (String.length pre + 6)%nat.
  rewrite (str_find_at S_ _ (P - (String.length pre + 6 + String.length S_))).
  - replace (String.length pre + 6 + String.length S_ +
      (P - (String.length pre + 6 + String.length S_)))%nat with P by lia.
    rewrite <- (str_drop_drop (String.length S_) (String.length pre + 6)), transcript_echo, str_drop_app.
    rewrite <- (str_drop_drop (String.length S_) P), transcript_sentinel, str_drop_app.
    destruct (show_code code Hcode) as (c & d & -> & Hd & _). cbn [String.append]. by rewrite Hd.
  - rewrite str_drop_drop.
    replace (String.length pre + 6 + String.length S_ +
      (P - (String.length pre + 6 + String.length S_)))%nat with P by lia.
    rewrite transcript_sentinel. apply starts_with_app.
  - intros m Hm. rewrite str_drop_drop. apply no_sentinel; [lia|].
    destruct (decide (String.length S_ = O)) as [Hs|Hs]; [|lia].
    (* an empty sentinel would occur everywhere *)
    exfalso. assert (S_ = ""%string) as E by (destruct S_; [done|done]).
    assert (O = String.length pre + 6)%nat; [|lia].
    apply sentinel_at; [lia|]. rewrite E. unfold starts_with. by destruct (str_drop 0 transcript).
Qed.

Lemma transcript_output_start :
  (str_find echoed transcript ≫= fun pos =>
     find_char LF (str_drop pos transcript) ≫= fun nl => Some (pos + nl + 1)%nat)
  = Some (String.length transcript_head).
Proof.
  assert (transcript = (pre ++ echoed ++ mid ++ String LF (out ++ S_ ++ show_Z code ++ rest))%string) as Et.
  { unfold transcript, transcript_head. by rewrite !str_app_assoc. }
  rewrite (str_find_at echoed transcript (String.length pre)).
  - cbn [mbind option_bind]. rewrite Et, str_drop_app, <- str_app_assoc, find_char_app by done.
    cbn [mbind option_bind]. unfold transcript_head. rewrite !str_length_app. simpl. f_equal. lia.
  - rewrite Et, str_drop_app. apply starts_with_app.
  - intros m Hm. destruct (starts_with echoed (str_drop m transcript)) eqn:E; [|done].
    apply starts_with_spec in E as [r Er]. pose proof echo_before_P.
    pose proof (sentinel_at (m + 6) ltac:(lia)) as Hu. rewrite <- str_drop_drop, Er in Hu.
    unfold echoed in Hu. rewrite !str_app_assoc in Hu.
    change 6%nat with (String.length "echo '") in Hu. rewrite str_drop_app in Hu.
    specialize (Hu ltac:(apply starts_with_app)). simpl in Hu. lia.
Qed.

Lemma transcript_line_start :
  default O (S <$> rfind_char LF (str_take P transcript)) =
  (String.length transcript_head + String.length (complete_lines out))%nat.
Proof.
  assert (str_take P transcript = ((pre ++ echoed ++ mid) ++ String LF out)%string) as ->.
  { unfold transcript, P. rewrite <- str_app_assoc, str_take_app. unfold transcript_head.
    by rewrite !str_app_assoc. }
  rewrite rfind_char_app. cbn [fmap option_fmap option_map default from_option].
  unfold transcript_head, complete_lines. rewrite !str_length_app.
  destruct (rfind_char LF out) as [n|] eqn:E.
  - apply rfind_char_lt in E. 
    rewrite str_length_take by lia.
    simpl. lia.
  - simpl. lia.
Qed.

Lemma transcript_parsed :
  parse_exec_output transcript S_ = (trim_end_matches [CR; LF] (complete_lines out), code).
Proof.
  unfold parse_exec_output. rewrite transcript_found. fold echoed.
  rewrite transcript_output_start. cbn [default from_option id]. rewrite transcript_line_start.
  f_equal.
  - unfold complete_lines. destruct (rfind_char LF out) as [n|] eqn:E.
    + assert (exists r, out = (str_take (S n) out ++ r)%string) as [r Er]
        by (exists (str_drop (S n) out); by rewrite str_take_drop).
      assert (String.length (str_take (S n) out) <> O) as Hne.
      { apply rfind_char_lt in E. rewrite str_length_take; lia. }
      rewrite (proj2 (Nat.ltb_lt _ _)) by lia. f_equal.
      unfold transcript. rewrite Er at 2. rewrite str_app_assoc. apply str_slice_app.
    + cbn [String.length]. rewrite Nat.add_0_r, Nat.ltb_irrefl. done.
  - rewrite <- str_drop_drop, transcript_sentinel, str_drop_app.
    destruct (show_code code Hcode) as (c & d & _ & _ & Hall).
    rewrite leading_digits_app by done. unfold parse_i32.
    rewrite parse_show_Z; [done| |done]. unfold i32_min, i32_max in *. lia.
Qed.
End transcript.

(** ** Running a command to its end *)

Section exec_run.
Context (C : CryptoLib) (P : ProtoCodec Message) (Zs : Zstd).
Abbreviation St := (ExecState NetTransport).

(** A terminal receive as the exec loops use it: in time, using up a message when it has one,
    and leaving the service id alone. *)
Lemma wp_recv_data d t (s : St) (Q : Res TerminalEvent -> Z -> St -> Prop) R :
  0 <= d ->
  (forall ev t' s', t <= t' <= t + d -> ex_service_id s' = ex_service_id s ->
     (ex_pending s' < ex_pending s)%nat -> Q (Ok ev) t' s') ->
  (forall e t' s', t <= t' <= t + d -> ex_service_id s' = ex_service_id s -> Q (Err e) t' s') ->
  wp (try (on_stream (recv_terminal_data_with_timeout d))) t s Q R.
Proof.
  intros Hd Hok Herr. apply wp_try, wp_zoom. unfold wp, run.
  pose proof (recv_terminal_data_takes d Hd t (ex_stream s)) as B. unfold run in B.
  destruct (recv_terminal_data_with_timeout d None t (ex_stream s)) as [[[ev|e| | |] t'] x] eqn:E; try done.
  - apply Hok; [done|done|]. by apply recv_terminal_data_uses in E.
  - by apply Herr.
Qed.

Lemma wp_close_quietly tid t (s : St) (Q : unit -> Z -> St -> Prop) R :
  (forall s', ex_service_id s' = ex_service_id s -> Q tt t s') -> wp (close_quietly tid) t s Q R.
Proof.
  intros HQ. unfold close_quietly. apply wp_bind, wp_try, wp_zoom. unfold wp, run.
  pose proof (close_terminal_instant tid None t (ex_stream s)) as B.
  destruct (close_terminal tid None t (ex_stream s)) as [[[u|e| | |] t'] x]; try done;
    subst; by apply HQ.
Qed.

Lemma wp_set_service id t (s : St) (Q : unit -> Z -> St -> Prop) R :
  (forall s', ex_service_id s' = id -> Q tt t s') -> wp (set_service id) t s Q R.
Proof. intros HQ. by apply HQ. Qed.

Lemma wp_set_service_run id t (s : St) (Q : unit -> Z -> St -> Prop) R :
  Q tt t (mkExecState (ex_stream s) id (ex_writer s)) -> wp (set_service id) t s Q R.
Proof. done. Qed.

Lemma exec_send_wp tid data t (s : St) :
  wp (on_stream (send_terminal_data tid data)) t s (fun _ t' _ => t' = t) (fun _ t' _ => t' = t).
Proof.
  apply wp_zoom. unfold wp, run. pose proof (send_terminal_data_instant tid data None t (ex_stream s)) as B.
  by destruct (send_terminal_data tid data None t (ex_stream s)) as [[[u|e| | |] t'] x].
Qed.

Lemma exec_open_wp t (s : St) :
  wp (timeout_or EXEC_TERMINAL_OPEN_TIMEOUT (anyhow "terminal open timed out")
        (on_stream (open_terminal 24 80))) t s
    (fun _ t' s' => t <= t' <= t + 15000 /\ (ex_pending s' <= ex_pending s)%nat)
    (fun _ t' _ => t <= t' <= t + 15000).
Proof.
  unfold wp. pose proof (timeout_or_bounded EXEC_TERMINAL_OPEN_TIMEOUT (anyhow "terminal open timed out")
    (on_stream (open_terminal 24 80)) t s ltac:(done)
    (timely_zoom _ _ _ (open_terminal_timely 24 80)) (spinless_zoom _ _ _ (open_terminal_spinless 24 80))) as B.
  unfold EXEC_TERMINAL_OPEN_TIMEOUT at 2 in B. unfold EXEC_TERMINAL_OPEN_TIMEOUT at 2 in B.
  destruct (run _ t s) as [[[info|e| | |] t'] s'] eqn:E; try done. split; [done|].
  apply timeout_or_done_inv in E as [dl E]. unfold on_stream, zoom in E.
  destruct (open_terminal 24 80 dl t (ex_stream s)) as [[o t2] x] eqn:E2. simplify_eq.
  by apply open_terminal_uses in E2.
Qed.

(** Closing the terminal and forgetting the service, then the rest. *)
Lemma wp_close_then {A} tid (k : M St A) t (s : St) Q R :
  (forall s', ex_service_id s' = None -> wp k t s' Q R) ->
  wp (bind (close_quietly tid) (fun _ => bind (set_service None) (fun _ => k))) t s Q R.
Proof.
  intros Hk. apply wp_bind, wp_close_quietly. intros s1 _. apply wp_bind, wp_set_service. auto.
Qed.

(** Draining ends: every round takes at most two seconds and uses up a message. *)
Lemma drain_wp command tid t (s : St) :
  wp (loop ex_pending (drain_step command tid) tt) t s
    (fun r t' s' => t <= t' <= t + 2000 * (1 + Z.of_nat (ex_pending s)) /\
       (r <> None -> ex_service_id s' = None))
    (fun _ t' _ => t <= t' <= t + 2000 * (1 + Z.of_nat (ex_pending s))).
Proof.
  apply (wp_loop _ _ (fun _ t' s' => t <= t' /\
    t' + 2000 * (1 + Z.of_nat (ex_pending s')) <= t + 2000 * (1 + Z.of_nat (ex_pending s)))); [|lia].
  intros [] t1 s1 [H1 H2]. unfold drain_step. change EXEC_PROMPT_DRAIN_TIMEOUT with 2000.
  apply wp_bind, wp_recv_data; [lia| |].
  - intros [b|c|m] t2 s2 Ht Hs Hp.
    + apply wp_ret. lia.
    + apply wp_bind, wp_set_service. intros s3 Hs3. apply wp_ret. split; [lia|done].
    + apply wp_close_then. intros s3 Hs3. apply wp_fail. lia.
  - intros e t2 s2 Ht Hs. destruct (is_terminal_response_timeout e).
    + apply wp_ret. split; [lia|done].
    + apply wp_bind, wp_close_quietly. intros s3 _. apply wp_fail. lia.
Qed.

(** Collecting ends by the deadline. *)
Lemma collect_wp command sentinel tid D streaming t (s : St) :
  t <= D ->
  wp (loop ex_pending (collect_step command sentinel tid D streaming) []) t s
    (fun r t' s' => t <= t' <= D /\ match r with inl _ => ex_service_id s' = None | inr _ => True end)
    (fun _ t' _ => t <= t' <= D).
Proof.
  intros HD. apply (wp_loop _ _ (fun _ t' _ => t <= t' <= D)); [|lia].
  intros collected t1 s1 Ht1. unfold collect_step. apply wp_bind.
  change (wp now t1 s1 ?Q ?R) with (Q t1 t1 s1). cbv beta. rewrite Z.max_r by lia.
  destruct (D - t1 =? 0) eqn:E0; rd_bool; [apply wp_ret; split; [lia|done]|].
  apply wp_bind, wp_recv_data; [lia| |].
  - intros [data|c|m] t2 s2 Ht Hs Hp.
    + apply wp_bind. eapply wp_mono with (Q := fun _ t' s' => t' = t2 /\ ex_stream s' = ex_stream s2)
        (R := fun _ t' _ => t' = t2).
      * destruct streaming; [|by apply wp_ret]. apply wp_zoom. unfold wp, run, send_response, uds_write.
        by destruct (uw_faults (ex_writer s2)) as [|[e|] fs].
      * intros _ t3 s3 [-> Hs3]. destruct (find_sentinel_output _ _); apply wp_ret; [lia|].
        split; [lia|]. unfold ex_pending in *. by rewrite Hs3.
      * intros e t3 s3 ->. lia.
    + apply wp_close_then. intros s3 Hs3. apply wp_ret. split; [lia|done].
    + apply wp_close_then. intros s3 Hs3. apply wp_fail. lia.
  - intros e t2 s2 Ht Hs. destruct (is_terminal_response_timeout e).
    + apply wp_ret. split; [lia|done].
    + apply wp_close_then. intros s3 Hs3. apply wp_fail. lia.
Qed.
End exec_run.

(** ** Properties of remote execution *)

(** Reading a command's output and exit code from the terminal.  For a transcript in which the
    sentinel occurs only in the echoed command and in front of the exit code, [parse_exec_output]
    returns exactly that exit code, and as output the complete lines between the two, without the
    trailing line ends.  A last line of output that has no newline, which the shell prints on the
    line of the sentinel, is not returned. *)
Theorem exec_output_parsed sentinel pre mid out rest code :
  sentinel_unique sentinel pre mid out rest code ->
  0 <= code <= i32_max -> starts_digit rest = false ->
  find_char LF (echoed sentinel ++ mid)%string = None ->
  let raw := transcript sentinel pre mid out rest code in
  parse_exec_output raw sentinel = (trim_end_matches [CR; LF] (complete_lines out), code) /\
  (find_char LF out = None -> (parse_exec_output raw sentinel).1 = ""%string).
Proof.
  intros Hu Hc Hr Hl raw. unfold raw. rewrite transcript_parsed by done. split; [done|].
  intros Ho. simpl. unfold complete_lines.
  by rewrite rfind_char_absent.
Qed.

Lemma exec_output_parsed_witness :
  let s := "__RDCLI_00__"%string in
  let mid := ("$?" ++ String CR "")%string in
  let out := ("one" ++ String CR (String LF "two"))%string in
  parse_exec_output (transcript s "ls" mid out "$ " 127) s = ("one"%string, 127).
Proof.
  intros s mid out.
  destruct (exec_output_parsed s "ls" mid out "$ " 127) as [H _].
  - intros m Hm E. 
    assert (forallb (fun k => negb (starts_with s (str_drop k (transcript s "ls" mid out "$ " 127)))
              || (k =? 8)%nat) (seq 0 33) = true) as Hall by (vm_compute; reflexivity).
    rewrite forallb_forall in Hall. specialize (Hall m). rewrite in_seq in Hall.
    change (String.length (transcript_head s "ls" mid ++ out)) with 33%nat in Hm.
    specialize (Hall ltac:(lia)). rewrite E in Hall. simpl negb in Hall. cbn [orb] in Hall.
    by apply Nat.eqb_eq in Hall.
  - vm_compute. split; congruence.
  - reflexivity.
  - vm_compute. reflexivity.
  - rewrite H. vm_compute. reflexivity.
Defined.

(** The bound of a command, with what it leaves of the service id. *)
Lemma exec_wp (C : CryptoLib) (P : ProtoCodec Message) (Zs : Zstd) nanos command timeout_secs streaming t
    (s : ExecState NetTransport) :
  let budget := 15000 + 2000 * (1 + Z.of_nat (ex_pending s)) + exec_completion_timeout timeout_secs in
  0 <= exec_completion_timeout timeout_secs ->
  wp (exec_command_inner nanos command timeout_secs streaming) t s
    (fun _ t' s' => t <= t' <= t + budget /\ ex_service_id s' = None)
    (fun _ t' _ => t <= t' <= t + budget).
Proof.
  intros budget Hc.
  unfold exec_command_inner. apply wp_bind. eapply wp_mono; [apply exec_open_wp| |unfold budget; intros; lia].
  intros info t1 s1 [Ht1 Hp1]. apply wp_bind, wp_set_service_run.
  set (s2 := mkExecState _ _ _). assert (ex_pending s2 <= ex_pending s)%nat as Hp2 by done.
  clearbody s2. apply wp_bind. eapply wp_mono; [apply drain_wp| |unfold budget; intros; lia].
  intros early t2 s3 [Ht2 Hs3]. destruct early as [r|].
  { apply wp_ret. split; [unfold budget; lia|by apply Hs3]. }
  apply wp_bind. eapply wp_mono; [apply exec_send_wp| |unfold budget; intros; lia].
  intros _ t3 s4 ->. apply wp_bind. change (wp now t2 s4 ?Q ?R) with (Q t2 t2 s4). cbv beta.
  apply wp_bind. eapply wp_mono; [apply collect_wp; lia| |unfold budget; intros; lia].
  intros [r|[collected timed_out]] t4 s5 [Ht4 Hs5].
  { apply wp_ret. split; [unfold budget; lia|done]. }
  apply wp_close_then. intros s6 Hs6. destruct (parse_exec_output _ _).
  apply wp_ret. split; [unfold budget; lia|done].
Qed.

(** C22: a remote command always ends.  Whatever the peer does, [exec_command_inner] returns a
    response or an error within 15 seconds to open the terminal, two seconds for every message
    that can still arrive while the prompt is drained, and the completion timeout, which is at most
    an hour; and when it returns a response the daemon's service id is cleared. *)
Theorem exec_bounded (C : CryptoLib) (P : ProtoCodec Message) (Zs : Zstd) nanos command timeout_secs streaming t
    (s : ExecState NetTransport) :
  let budget := 15000 + 2000 * (1 + Z.of_nat (ex_pending s)) + exec_completion_timeout timeout_secs in
  match timeout_secs with Some n => 0 <= n | None => True end ->
  exec_completion_timeout timeout_secs <= 3600000 /\
  match run (exec_command_inner nanos command timeout_secs streaming) t s with
  | (Done _, t', s') => t <= t' <= t + budget /\ ex_service_id s' = None
  | (Fail _, t', _) => t <= t' <= t + budget
  | _ => False
  end.
Proof.
  intros budget Hn. assert (0 <= exec_completion_timeout timeout_secs <= 3600000) as Hc.
  { unfold exec_completion_timeout, MAX_EXEC_COMPLETION_TIMEOUT, DEFAULT_EXEC_COMPLETION_TIMEOUT.
    destruct timeout_secs; lia. }
  split; [lia|]. exact (exec_wp C P Zs nanos command timeout_secs streaming t s (proj1 Hc)).
Qed.

Lemma exec_bounded_witness :
  let s := mkExecState (es_new (mkNet [] Never [] [] false) [x01] 0) None (mkUdsWriter [] []) in
  match run (@exec_command_inner NetTransport _ toy_crypto (toy_codec MessageUnion) toy_zstd
               7 "ls" (Some 5) false) 100 s with
  | (Done _, t', s') => 100 <= t' <= 100 + 22000 /\ ex_service_id s' = None
  | (Fail _, t', _) => 100 <= t' <= 100 + 22000
  | _ => False
  end.
Proof.
  intros s. destruct (exec_bounded toy_crypto (toy_codec MessageUnion) toy_zstd 7 "ls" (Some 5) false 100 s)
    as [_ H]; [lia|].
  exact H.
Defined.

(** The two readers of a transcript compared.  The daemon and the direct path use different readers.
    Where no marker is found both return the trimmed transcript and -1.  Where one is found they
    agree on the exit code if it fits 32 bits, and otherwise the daemon reports -1 and the direct
    path 0. *)
Theorem exec_readers_agree raw sentinel :
  match find_sentinel_output raw sentinel with
  | None => parse_exec_output raw sentinel = (trim raw, -1) /\
            parse_direct_exec_output raw sentinel = (trim raw, -1)
  | Some pos =>
    match parse_i32 (leading_digits (str_drop (pos + String.length sentinel) raw)) with
    | Some code => (parse_exec_output raw sentinel).2 = code /\ (parse_direct_exec_output raw sentinel).2 = code
    | None => (parse_exec_output raw sentinel).2 = -1 /\ (parse_direct_exec_output raw sentinel).2 = 0
    end
  end.
Proof.
  unfold parse_exec_output, parse_direct_exec_output.
  destruct (find_sentinel_output raw sentinel) as [pos|]; [|done]. cbn [snd].
  by destruct (parse_i32 _).
Qed.
