(* ===== verification/ExecStream.v ===== *)
(** * What a streamed command tells its client (src/daemon.rs)

    While [exec_command_inner] collects a command's output it passes every piece on to the client;
    the response it returns is made from the same pieces. *)

From Stdlib Require Import ZArith Lia.
From Stdlib Require Import Strings.Byte Strings.Ascii Strings.String.
From stdpp Require Import base list option numbers.
From S2P Require Import Prelude RustStr Async Transport Crypto Json Session Proto Inbox.
From S2P Require Import Terminal Exec.

Local Open Scope Z_scope.
Local Open Scope async_scope.

Section stream.
Context {T : Type} `{Transport T} `{CryptoLib} `{ProtoCodec Message} `{Zstd}.

(** The pieces were passed on, and nothing else. *)
Definition told (pieces : list bytes) (s : ExecState T) : Prop :=
  ex_writer s = mkUdsWriter (map (fun b => ULine (exec_output_chunk_response b)) pieces) [].

(** What the response says, by the way the command ended: the terminal closed while the prompt was
    awaited, it closed later, or the collection ended, with the marker unless the time was up. *)
Definition exec_says (command sentinel : string) (pieces : list bytes) (resp : SessionResponse) : Prop :=
  let raw := from_utf8_lossy (List.concat pieces) in
  exists msg stdout code timed_out, resp = exec_response msg command stdout code timed_out /\
    (pieces = [] /\ stdout = ""%string /\ timed_out = false \/
     stdout = trim raw /\ timed_out = false \/
     parse_exec_output raw sentinel = (stdout, code) /\
       (timed_out = false -> is_Some (find_sentinel_output raw sentinel))).

Abbreviation anything := (fun _ : ExecState T => True).

Lemma on_stream_told {A} (m : M (EncryptedStream T) A) ps :
  triple (told ps) (on_stream m) (fun _ => told ps) anything.
Proof. by apply triple_zoom. Qed.
Lemma set_service_told v ps : triple (told ps) (set_service v) (fun _ => told ps) anything.
Proof. by apply triple_modify. Qed.
Lemma close_told tid ps : triple (told ps) (close_quietly tid) (fun _ => told ps) anything.
Proof.
  unfold close_quietly. apply triple_bind with (Q1 := fun _ => told ps); [|intros r; by apply triple_ret].
  apply (triple_try _ _ (fun _ => told ps)), triple_zoom; [done|]. by intros x s Hs e.
Qed.
Lemma recv_told {A} (m : M (EncryptedStream T) A) ps :
  triple (told ps) (try (on_stream m)) (fun _ => told ps) anything.
Proof. apply (triple_try _ _ (fun _ => told ps)), triple_zoom; [done|]. by intros x s Hs e. Qed.
Lemma piece_told b ps :
  triple (told ps) (on_writer (send_response (exec_output_chunk_response b)))
    (fun _ => told (ps ++ [b])) anything.
Proof.
  intros dl t s Hs. unfold told in *. unfold on_writer, zoom, send_response, uds_write. rewrite Hs. cbn.
  by rewrite map_app.
Qed.

(** Leaving: the terminal is closed and the command ends with a value or an error. *)
Lemma leave_told {A} tid ps (k : M (ExecState T) A) (Q : A -> ExecState T -> Prop) :
  triple (told ps) k Q anything ->
  triple (told ps) (close_quietly tid ;;; set_service None ;;; k) Q anything.
Proof.
  intros Hk. eapply triple_bind; [apply close_told|]. intros u1.
  eapply triple_bind; [apply set_service_told|]. intros u2. exact Hk.
Qed.

Lemma drain_told command sentinel tid :
  triple (told []) (loop ex_pending (drain_step command tid) tt)
    (fun r s => told [] s /\ forall resp, r = Some resp -> exec_says command sentinel [] resp) anything.
Proof.
  apply (triple_loop_inv _ _ _ (fun _ => told [])). intros []. unfold drain_step.
  eapply triple_bind; [apply recv_told|]. intros [[data|code|msg]|e].
  - by apply triple_ret.
  - eapply triple_bind; [apply set_service_told|]. intros u0. apply triple_ret. intros s Hs.
    split; [done|]. intros resp [= <-]. unfold exec_says. eexists _, _, _, _. split; [reflexivity|]. by left.
  - apply leave_told. by apply triple_fail.
  - case_match; [by apply triple_ret|].
    eapply triple_bind; [apply close_told|]. intros u0. by apply triple_fail.
Qed.

(** The loop's variable is what was passed on, and what ended the loop with the marker has it. *)
Definition collected_told (command sentinel : string) (r : SessionResponse + bytes * bool) (s : ExecState T) : Prop :=
  exists ps, told ps s /\
    match r with
    | inl resp => exec_says command sentinel ps resp
    | inr (collected, timed_out) => collected = List.concat ps /\
        (timed_out = false -> is_Some (find_sentinel_output (from_utf8_lossy collected) sentinel))
    end.

Lemma collect_step_told command sentinel tid deadline ps :
  triple (told ps) (collect_step command sentinel tid deadline true (List.concat ps))
    (fun r s => match r with
      | inl c => exists ps, told ps s /\ c = List.concat ps
      | inr r => collected_told command sentinel r s
      end) anything.
Proof.
  unfold collect_step. eapply triple_bind; [apply (triple_now _ (fun _ => told ps)); done|]. intros t.
  case_match; [apply triple_ret; intros s Hs; by exists ps|].
  eapply triple_bind; [apply recv_told|]. intros [[data|code|msg]|e].
  - eapply triple_bind; [apply piece_told|]. intros u0.
    assert (List.concat ps ++ data = List.concat (ps ++ [data])) as -> by (by rewrite concat_app; cbn; rewrite app_nil_r).
    destruct (find_sentinel_output _ _) as [n|] eqn:Ef; apply triple_ret; intros s Hs; exists (ps ++ [data]); [|done].
    split_and!; [done..|]. intros _. by rewrite Ef.
  - apply leave_told, triple_ret. intros s Hs. exists ps. split; [done|]. unfold exec_says.
    eexists _, _, _, _. split; [reflexivity|]. right. by left.
  - apply leave_told. by apply triple_fail.
  - case_match; [apply triple_ret; intros s Hs; by exists ps|]. apply leave_told. by apply triple_fail.
Qed.

Lemma collect_told command sentinel tid deadline :
  triple (told []) (loop ex_pending (collect_step command sentinel tid deadline true) [])
    (collected_told command sentinel) anything.
Proof.
  eapply triple_mono.
  - apply (triple_loop_inv _ _ [] (fun c s => exists ps, told ps s /\ c = List.concat ps)).
    intros c. apply triple_exists. intros ps dl t s [Hs ->]. by apply collect_step_told.
  - intros s Hs. by exists [].
  - done.
  - done.
Qed.

(** A command that gets a response: all the client was told before are the pieces of output, and
    the response is what they make. *)
Lemma exec_streams nanos command timeout_secs :
  triple (told []) (exec_command_inner nanos command timeout_secs true)
    (fun resp s => exists ps, told ps s /\ exec_says command (exec_sentinel nanos) ps resp) anything.
Proof.
  unfold exec_command_inner. eapply triple_bind; [apply triple_timeout_or, on_stream_told|]. intros info.
  eapply triple_bind; [apply set_service_told|]. intros u0.
  eapply triple_bind; [apply (drain_told _ (exec_sentinel nanos))|]. intros [r|].
  { apply triple_ret. intros s [Hs Hr]. exists []. auto. }
  eapply triple_bind with (Q1 := fun _ => told []).
  { eapply triple_mono; [apply on_stream_told|by intros s []|done|done]. }
  intros u1. eapply triple_bind; [by apply (triple_now _ (fun _ => told []))|]. intros t.
  eapply triple_bind; [apply collect_told|]. intros [r|[c timed_out]].
  { by apply triple_ret. }
  apply triple_exists. intros ps dl t1 s [Hs [-> Ht]]. revert dl t1 s Hs.
  change (triple (told ps) (close_quietly (ti_terminal_id info) ;;; set_service None ;;;
    (let '(stdout, exit_code) := parse_exec_output (from_utf8_lossy (List.concat ps)) (exec_sentinel nanos) in
     ret (exec_response ("Executed `" ++ command ++ "`")%string command stdout exit_code timed_out)))
    (fun resp s => exists ps, told ps s /\ exec_says command (exec_sentinel nanos) ps resp) anything).
  apply leave_told. destruct (parse_exec_output _ _) as [stdout code] eqn:Ep.
  apply triple_ret. intros s Hs. exists ps. split; [done|]. unfold exec_says.
  eexists _, _, _, _. split; [reflexivity|]. right. right. auto.
Qed.
End stream.
