(* ===== verification/ExecRun.v ===== *)
(** * A remote command from its start to its end (src/daemon.rs)

    What [exec_command_inner] returns, when, and what it has sent and passed on by then, for a peer
    that opens the terminal, shows a prompt, falls silent, prints output in any number of pieces
    with other traffic between them, and then completes the marker, closes the terminal, or says no
    more until the time is up. *)

From Stdlib Require Import ZArith Lia.
From Stdlib Require Import Strings.Byte Strings.Ascii Strings.String.
From stdpp Require Import base list option numbers.
From S2P Require Import Prelude RustStr Async Transport Crypto Json Session Proto Inbox.
From S2P Require Import Terminal Exec.

Local Open Scope Z_scope.
Local Open Scope async_scope.

(** ** What the peer does *)

(** The end of a command: the piece that completes the marker, silence, or a closed terminal. *)
Inductive Ending : Type :=
| Marker (c : Chunk) (data : bytes)
| TimesUp (noise : inbox)
| Closes (noise : inbox) (a tid code : Z).

Definition terminal_msg (r : TerminalResponseUnion) : option Message := Some (Some (UTerminalResponse (Some r))).

Definition ending_msgs (e : Ending) : inbox :=
  match e with
  | Marker c _ => chunk_msgs c
  | TimesUp noise => noise
  | Closes noise a tid code => noise ++ [(a, terminal_msg (TRClosed tid code))]
  end.
(** When it ends, given when the last piece before came and when the time is up. *)
Definition ending_clock (t deadline : Z) (e : Ending) : Z :=
  match e with
  | Marker c _ => chunk_clock t c
  | TimesUp _ => deadline
  | Closes noise a _ _ => Z.max (arrival t noise) a
  end.

Record ExecScript : Type := mkExecScript {
  sc_noise : inbox;              (* before the terminal opens *)
  sc_opened_at : Z;
  sc_opened : TerminalOpened;
  sc_prompt : list Chunk;
  sc_prompt_texts : list bytes;
  sc_quiet : inbox;              (* while the prompt is awaited in vain *)
  sc_output : list Chunk;        (* before the last piece *)
  sc_texts : list bytes;
  sc_ending : Ending;
  sc_rest : inbox
}.

Section script.
Context (Zs : Zstd) (nanos : Z) (command : string) (timeout_secs : option Z) (sc : ExecScript).

Abbreviation sentinel := (exec_sentinel nanos).
Abbreviation tid := (topen_terminal_id (sc_opened sc)).

Definition replies : inbox := concat (map chunk_msgs (sc_output sc)) ++ ending_msgs (sc_ending sc) ++ sc_rest sc.
Definition script_msgs : inbox :=
  sc_noise sc ++ (sc_opened_at sc, terminal_msg (TROpened (sc_opened sc))) ::
  concat (map chunk_msgs (sc_prompt sc)) ++ sc_quiet sc ++ replies.

(** The moments: the terminal is open, the command is sent, the time is up, the last piece but one. *)
Definition opened_at (t : Z) : Z := Z.max (arrival t (sc_noise sc)) (sc_opened_at sc).
Definition sent_at (t : Z) : Z := clock_after (opened_at t) (sc_prompt sc) + EXEC_PROMPT_DRAIN_TIMEOUT.
Definition up_at (t : Z) : Z := sent_at t + exec_completion_timeout timeout_secs.
Definition output_at (t : Z) : Z := clock_after (sent_at t) (sc_output sc).
Definition ended_at (t : Z) : Z := ending_clock (output_at t) (up_at t) (sc_ending sc).

(** No marker after the next piece. *)
Definition unfinished (collected data : bytes) : Prop :=
  find_sentinel_output (from_utf8_lossy (collected ++ data)) sentinel = None.

Definition raw_before : bytes := concat (sc_texts sc).

Definition ending_ok (t deadline : Z) : Prop :=
  t < deadline /\
  match sc_ending sc with
  | Marker c data => by_time deadline c /\ terminal_data (ck_data c) = Ok data /\
      is_Some (find_sentinel_output (from_utf8_lossy (raw_before ++ data)) sentinel)
  | TimesUp noise => terminal_noise deadline noise /\ first_after deadline (sc_rest sc)
  | Closes noise a _ _ => terminal_noise deadline noise /\ a <= deadline
  end.

(** The peer keeps to the times, and the marker is complete with the last piece and not before. *)
Record script_ok (t : Z) : Prop := {
  ok_noise : terminal_noise (t + EXEC_TERMINAL_OPEN_TIMEOUT) (sc_noise sc);
  ok_opened_at : sc_opened_at sc <= t + EXEC_TERMINAL_OPEN_TIMEOUT;
  ok_success : topen_success (sc_opened sc) = true;
  ok_prompt : paced EXEC_PROMPT_DRAIN_TIMEOUT (opened_at t) (sc_prompt sc);
  ok_prompt_texts : chunk_texts Zs (sc_prompt sc) (sc_prompt_texts sc);
  ok_quiet : terminal_noise (sent_at t) (sc_quiet sc);
  ok_silence : first_after (sent_at t) replies;
  ok_output : in_pace (fun t' c => t' < up_at t /\ by_time (up_at t) c) (sent_at t) (sc_output sc);
  ok_texts : chunk_texts Zs (sc_output sc) (sc_texts sc);
  ok_unfinished : goes_on (@app byte) unfinished [] (sc_texts sc);
  ok_ending : ending_ok (output_at t) (up_at t)
}.

(** ** What the command gives *)

Definition sent_command : string :=
  (command ++ String LF "" ++ "echo '" ++ sentinel ++ "'$?" ++ String LF "")%string.

Definition answer (stdout : string) (code : Z) (timed_out : bool) : SessionResponse :=
  exec_response ("Executed `" ++ command ++ "`")%string command stdout code timed_out.

Definition exec_answer : SessionResponse :=
  match sc_ending sc with
  | Marker _ data =>
    let '(stdout, code) := parse_exec_output (from_utf8_lossy (raw_before ++ data)) sentinel in
    answer stdout code false
  | TimesUp _ =>
    let '(stdout, code) := parse_exec_output (from_utf8_lossy raw_before) sentinel in
    answer stdout code true
  | Closes _ _ _ code => answer (trim (from_utf8_lossy raw_before)) code false
  end.
Definition pieces : list bytes :=
  sc_texts sc ++ match sc_ending sc with Marker _ data => [data] | _ => [] end.

Definition exec_sends (payload : bytes) (flag : bool) : list Message :=
  map (fun a => Some (UTerminalAction (Some a)))
    [TAOpen 0 24 80; TAData (mkTerminalData tid payload flag); TAClose tid].
End script.

(** ** The run *)

Section run.
Context (C : CryptoLib) {L : CryptoLaws C} (P : ProtoCodec Message) {PL : ProtoLaws P} (Zs : Zstd).
Context (nanos : Z) (command : string) (timeout_secs : option Z) (streaming : bool) (sc : ExecScript).
Context (s0 : ExecState NetTransport) (payload : bytes) (flag : bool).
Abbreviation St := (ExecState NetTransport).
Abbreviation sentinel := (exec_sentinel nanos).
Abbreviation tid := (topen_terminal_id (sc_opened sc)).
Abbreviation service := (Some (topen_service_id (sc_opened sc))).
Abbreviation said n := (take n (exec_sends sc payload flag)).

Hypothesis (Hpay : terminal_payload (as_bytes (sent_command nanos command)) = Ok (payload, flag)).
Hypothesis (Hfits : Forall (fits P) (exec_sends sc payload flag)).
Hypothesis (Hwriter : uw_faults (ex_writer s0) = []).

(** The client has been passed the pieces [h], if it gets any. *)
Definition passed (h : list bytes) : UdsWriter :=
  mkUdsWriter (uw_sent (ex_writer s0) ++
    (if streaming then map (fun b => ULine (exec_output_chunk_response b)) h else [])) [].

(** The state after [n] of the messages were sent and the pieces [h] passed on. *)
Record going (n : nat) (id : option string) (h : list bytes) (s : St) : Prop := {
  go_sent : has_sent C P (ex_stream s0) (said n) (ex_stream s);
  go_service : ex_service_id s = id;
  go_writer : ex_writer s = passed h
}.

Lemma say n m dl t s :
  has_sent C P (ex_stream s0) (said n) s -> exec_sends sc payload flag !! n = Some m ->
  exists s', es_send (encode m) dl t s = (Done tt, t, s') /\
    has_sent C P (ex_stream s0) (said (S n)) s' /\ same_inbox s s'.
Proof.
  intros Hs Hm. rewrite (take_S_r _ _ _ Hm). apply (has_sent_send C P); [done|].
  rewrite Forall_lookup in Hfits. eauto.
Qed.

(** Anything on the stream that keeps what was said. *)
Lemma on_stream_run {A} (m : M (EncryptedStream NetTransport) A) n n' id h dl t s o t' x :
  going n id h s -> m dl t (ex_stream s) = (o, t', x) -> has_sent C P (ex_stream s0) (said n') x ->
  exists s', on_stream m dl t s = (o, t', s') /\ ex_stream s' = x /\ going n' id h s'.
Proof.
  intros [Hs Hi Hw] E Hx. eexists. unfold on_stream, zoom. rewrite E. split; [done|]. by split.
Qed.

Lemma close_run id h t s : going 2 id h s ->
  exists s', (close_quietly tid ;;; set_service None) None t s = (Done tt, t, s') /\ going 3 None h s' /\
    same_inbox (ex_stream s) (ex_stream s').
Proof.
  intros Hg. destruct (say 2 _ None t (ex_stream s) (go_sent _ _ _ _ Hg) eq_refl) as (x & E & Hx & Hin).
  destruct (on_stream_run (close_terminal tid) 2 3 id h None t s (Done tt) t x Hg) as (s' & E' & Hs' & Hg');
    [|done|].
  { unfold close_terminal, context, send_action. by rewrite E. }
  exists (mkExecState (ex_stream s') None (ex_writer s')).
  unfold close_quietly, bind, try. rewrite E'. cbn [ex_stream]. subst x.
  split; [done|]. split; [|done]. by destruct Hg'.
Qed.

(** *** Opening *)

Lemma open_run t :
  script_ok Zs nanos timeout_secs sc t -> going 0 (ex_service_id s0) [] s0 ->
  delivers_msgs C P (script_msgs sc) (ex_stream s0) ->
  exists s', timeout_or EXEC_TERMINAL_OPEN_TIMEOUT (anyhow "terminal open timed out")
      (on_stream (open_terminal 24 80)) None t s0 =
    (Done (mkTerminalInfo tid (topen_pid (sc_opened sc)) (topen_service_id (sc_opened sc))), opened_at sc t, s') /\
    going 1 (ex_service_id s0) [] s' /\
    delivers_msgs C P (concat (map chunk_msgs (sc_prompt sc)) ++ sc_quiet sc ++ replies sc) (ex_stream s').
Proof.
  intros Hok Hg Hd.
  destruct (open_terminal_at C P 24 80 (sc_noise sc) (sc_opened_at sc) (sc_opened sc)
    (concat (map chunk_msgs (sc_prompt sc)) ++ sc_quiet sc ++ replies sc) t (ex_stream s0) [] (ex_stream s0))
    as (y & Ey & Hy & Hdy); try apply Hok; try done; [apply Hg|by apply Forall_cons_1 in Hfits as [? _]|].
  destruct (on_stream_run (open_terminal 24 80) 0 1 (ex_service_id s0) [] _ t s0 _ _ y Hg Ey) as (s' & Es & Hs & Hg');
    [done|].
  exists s'. unfold timeout_or, timeout, bind. change EXEC_TERMINAL_OPEN_TIMEOUT with OPEN_TERMINAL_TIMEOUT.
  rewrite Es, Hs. by split.
Qed.

(** *** The prompt *)

Lemma drain_run t s :
  script_ok Zs nanos timeout_secs sc t -> going 1 service [] s ->
  delivers_msgs C P (concat (map chunk_msgs (sc_prompt sc)) ++ sc_quiet sc ++ replies sc) (ex_stream s) ->
  exists s', loop ex_pending (drain_step command tid) tt None (opened_at sc t) s =
    (Done None, sent_at sc t, s') /\ going 1 service [] s' /\ delivers_msgs C P (replies sc) (ex_stream s').
Proof.
  intros Hok Hg Hd.
  destruct (loop_chunks C P Zs ex_stream (drain_step command tid) (fun _ _ => tt)
    (fun t c => by_time (t + EXEC_PROMPT_DRAIN_TIMEOUT) c) (fun _ _ => True) (fun _ _ => going 1 service []))
    with (meas := @ex_pending NetTransport _) (l := sc_prompt sc) (datas := sc_prompt_texts sc)
      (rest := sc_quiet sc ++ replies sc) (t := opened_at sc t) (s := s) (x := tt)
    as (s1 & fuel & E & _ & Hd1 & Hg1); try apply Hok; try done.
  { intros h [] c data rest t1 s1 Hc Hx _ Hd1 Hg1.
    destruct (recv_data_chunk C P Zs _ None EXEC_PROMPT_DRAIN_TIMEOUT c data rest t1 (ex_stream s1)
      (fun i l t s => has_sent_recv C P _ _ i l t s) Hc Hx Hd1 (go_sent _ _ _ _ Hg1)) as (x & Ex & Hdx & Hx').
    destruct (on_stream_run _ 1 1 service [] None t1 s1 _ _ x Hg1 Ex Hx') as (s2 & E2 & Hs2 & Hg2).
    exists s2. unfold drain_step, bind, try. rewrite E2, Hs2. by split. }
  { clear. by induction (sc_prompt_texts sc); cbn. }
  destruct (recv_terminal_response_expires C P (has_sent C P (ex_stream s0) (said 1)) EXEC_PROMPT_DRAIN_TIMEOUT
    None (sc_quiet sc) (replies sc) (clock_after (opened_at sc t) (sc_prompt sc)) (ex_stream s1)
    (fun i l t s => has_sent_recv C P _ _ i l t s) (fun s Hs => hs_end _ _ _ _ _ Hs) ltac:(done) I
    (ok_quiet _ _ _ _ _ Hok) (ok_silence _ _ _ _ _ Hok) Hd1 (go_sent _ _ _ _ Hg1)) as (x & Ex & Hdx & Hx).
  destruct (on_stream_run (recv_terminal_data_with_timeout EXEC_PROMPT_DRAIN_TIMEOUT) 1 1 service [] None
    (clock_after (opened_at sc t) (sc_prompt sc)) s1
    (Fail (add_context "receiving terminal data" (terminal_response_timeout_error EXEC_PROMPT_DRAIN_TIMEOUT)))
    (sent_at sc t) x Hg1)
    as (s2 & E2 & Hs2 & Hg2); [|done|].
  { unfold recv_terminal_data_with_timeout, bind, context. by rewrite Ex. }
  exists s2. rewrite E, iter_S. unfold bind at 1, drain_step, bind at 1, try. cbn [foldl].
  destruct (foldl _ tt _). rewrite E2, Hs2. split; [|done].
  by rewrite terminal_timeout_recognised.
Qed.

(** *** The output *)

Lemma pass_run data n id h t s : going n id h s ->
  exists s', (if streaming then on_writer (send_response (exec_output_chunk_response data)) else ret tt) None t s =
    (Done tt, t, s') /\ going n id (h ++ [data]) s' /\ ex_stream s' = ex_stream s.
Proof.
  intros [Hs Hi Hw]. destruct s as [x i w]. cbn in Hw. subst w. unfold passed in *.
  destruct streaming eqn:Es; eexists; (split; [reflexivity|]); (split; [|done]); constructor; cbn; try done.
  all: unfold passed; rewrite Es; by rewrite ?map_app, ?app_assoc.
Qed.

Section collect.
Context (D : Z).
Abbreviation step := (collect_step command sentinel tid D streaming).

(** A round that gets a piece: the piece is passed on, and the round decides by the marker. *)
Lemma collect_piece h collected c data rest t s :
  t < D -> by_time D c -> terminal_data (ck_data c) = Ok data ->
  delivers_msgs C P (chunk_msgs c ++ rest) (ex_stream s) -> going 2 service h s ->
  exists s', step collected None t s =
      (Done (match find_sentinel_output (from_utf8_lossy (collected ++ data)) sentinel with
             | Some _ => inr (inr (collected ++ data, false))
             | None => inl (collected ++ data)
             end), chunk_clock t c, s') /\
    delivers_msgs C P rest (ex_stream s') /\ going 2 service (h ++ [data]) s'.
Proof.
  intros Ht Hc Hx Hd Hg. assert (t + (D - t) = D) as HD by lia.
  destruct (recv_data_chunk C P Zs _ None (D - t) c data rest t (ex_stream s)
    (fun i l t s => has_sent_recv C P _ _ i l t s) ltac:(by rewrite HD) Hx Hd (go_sent _ _ _ _ Hg))
    as (x & Ex & Hdx & Hx').
  destruct (on_stream_run _ 2 2 service h None t s _ _ x Hg Ex Hx') as (s2 & E2 & Hs2 & Hg2).
  destruct (pass_run data 2 service h (chunk_clock t c) s2 Hg2) as (s3 & E3 & Hg3 & Hs3).
  exists s3. rewrite Hs3, Hs2. split; [|done].
  unfold collect_step, bind at 1. cbn [now]. rewrite Z.max_r by lia.
  rewrite (proj2 (Z.eqb_neq _ _)) by lia.
  unfold bind at 1, try. rewrite E2. unfold bind. rewrite E3. by destruct (find_sentinel_output _ _).
Qed.

(** The last round, by the way the command ends. *)
Definition final : SessionResponse + bytes * bool :=
  match sc_ending sc with
  | Marker _ data => inr (raw_before sc ++ data, false)
  | TimesUp _ => inr (raw_before sc, true)
  | Closes _ _ _ code => inl (answer command (trim (from_utf8_lossy (raw_before sc))) code false)
  end.
Definition done_by (s : St) : Prop :=
  match sc_ending sc with
  | Closes _ _ _ _ => going 3 None (pieces sc) s
  | _ => going 2 service (pieces sc) s
  end.

Lemma collect_last t s :
  ending_ok Zs nanos sc t D ->
  delivers_msgs C P (ending_msgs (sc_ending sc) ++ sc_rest sc) (ex_stream s) -> going 2 service (sc_texts sc) s ->
  exists s', step (raw_before sc) None t s = (Done (inr final), ending_clock t D (sc_ending sc), s') /\
    delivers_msgs C P (sc_rest sc) (ex_stream s') /\ done_by s'.
Proof.
  intros [Ht He] Hd Hg. assert (t + (D - t) = D) as HD by lia. unfold final, done_by, pieces.
  destruct (sc_ending sc) as [c data|noise|noise a tid' code]; cbn [ending_msgs ending_clock] in *.
  - destruct He as (Hc & Hx & [n Hn]).
    destruct (collect_piece (sc_texts sc) (raw_before sc) c data _ t s Ht Hc Hx Hd Hg) as (s' & E & Hd' & Hg').
    exists s'. rewrite E, Hn. done.
  - destruct He as [Hn Hl].
    destruct (recv_terminal_response_expires C P _ (D - t) None noise (sc_rest sc) t (ex_stream s)
      (fun i l t s => has_sent_recv C P _ _ i l t s) (fun s Hs => hs_end _ _ _ _ _ Hs) ltac:(lia) I
      ltac:(by rewrite HD) ltac:(by rewrite HD) Hd (go_sent _ _ _ _ Hg)) as (x & Ex & Hdx & Hx).
    destruct (on_stream_run (recv_terminal_data_with_timeout (D - t)) 2 2 service (sc_texts sc) None t s
      (Fail (add_context "receiving terminal data" (terminal_response_timeout_error (D - t)))) D x Hg)
      as (s2 & E2 & Hs2 & Hg2); [|done|].
    { unfold recv_terminal_data_with_timeout, bind, context. by rewrite Ex, HD. }
    exists s2. rewrite Hs2, app_nil_r. split; [|done].
    unfold collect_step, bind at 1. cbn [now]. rewrite Z.max_r by lia. rewrite (proj2 (Z.eqb_neq _ _)) by lia.
    unfold bind at 1, try. rewrite E2. by rewrite terminal_timeout_recognised.
  - destruct He as [Hn Ha]. rewrite <- app_assoc in Hd.
    destruct (recv_terminal_response_at C P (has_sent C P (ex_stream s0) (said 2)) None (D - t) noise a (TRClosed tid' code) (sc_rest sc) t (ex_stream s)
      (fun i l t s => has_sent_recv C P _ _ i l t s)) as (x & Ex & Hdx & Hx); cbn zeta;
      [by rewrite HD|by rewrite HD|done|apply Hg|].
    destruct (on_stream_run (recv_terminal_data_with_timeout (D - t)) 2 2 service (sc_texts sc) None t s
      (Done (TClosed code)) (Z.max (arrival t noise) a) x Hg) as (s2 & E2 & Hs2 & Hg2); [|done|].
    { unfold recv_terminal_data_with_timeout, bind, context. by rewrite Ex. }
    destruct (close_run service _ (Z.max (arrival t noise) a) s2 Hg2) as (s3 & E3 & Hg3 & Hin).
    exists s3. rewrite app_nil_r. split; [|split; [|done]].
    + unfold collect_step, bind at 1. cbn [now]. rewrite Z.max_r by lia. rewrite (proj2 (Z.eqb_neq _ _)) by lia.
      unfold bind at 1, try. rewrite E2.
      rewrite <- (bind_assoc (close_quietly tid) (fun _ => set_service None)). unfold bind at 1. by rewrite E3.
    + eapply delivers_same_inbox; [done|]. by rewrite Hs2.
Qed.
End collect.

Lemma collect_run t s :
  script_ok Zs nanos timeout_secs sc t -> going 2 service [] s ->
  delivers_msgs C P (replies sc) (ex_stream s) ->
  exists s', loop ex_pending (collect_step command sentinel tid (up_at timeout_secs sc t) streaming) []
      None (sent_at sc t) s = (Done final, ended_at timeout_secs sc t, s') /\
    delivers_msgs C P (sc_rest sc) (ex_stream s') /\ done_by s'.
Proof.
  intros Hok Hg Hd. set (D := up_at timeout_secs sc t) in *.
  destruct (loop_chunks C P Zs ex_stream (collect_step command sentinel tid D streaming) (@app byte)
    (fun t c => t < D /\ by_time D c) (unfinished nanos) (fun h _ => going 2 service h))
    with (meas := @ex_pending NetTransport _) (l := sc_output sc) (datas := sc_texts sc)
      (rest := ending_msgs (sc_ending sc) ++ sc_rest sc) (t := sent_at sc t) (s := s) (x := @nil byte)
    as (s1 & fuel & E & _ & Hd1 & Hg1); try apply Hok; try done.
  { intros h collected c data rest t1 s1 [Ht Hc] Hx Hu Hd1 Hg1.
    destruct (collect_piece D h collected c data rest t1 s1 Ht Hc Hx Hd1 Hg1) as (s2 & E2 & Hd2 & Hg2).
    exists s2. unfold unfinished in Hu. by rewrite E2, Hu. }
  rewrite foldl_app_concat in E. cbn [app] in E. fold (raw_before sc) in E.
  destruct (collect_last D _ s1 (ok_ending _ _ _ _ _ Hok) Hd1 Hg1) as (s2 & E2 & Hd2 & Hg2).
  exists s2. rewrite E, iter_S. unfold bind at 1.
  change (clock_after (sent_at sc t) (sc_output sc)) with (output_at sc t). by rewrite E2.
Qed.

Lemma send_run n_t s : going 1 service [] s ->
  exists s', on_stream (send_terminal_data tid (as_bytes (sent_command nanos command))) None n_t s = (Done tt, n_t, s') /\
    going 2 service [] s' /\ same_inbox (ex_stream s) (ex_stream s').
Proof.
  intros Hg. destruct (say 1 _ None n_t (ex_stream s) (go_sent _ _ _ _ Hg) eq_refl) as (x & E & Hx & Hin).
  destruct (on_stream_run (send_terminal_data tid (as_bytes (sent_command nanos command))) 1 2 service [] None n_t s
    (Done tt) n_t x Hg) as (s' & E' & Hs' & Hg'); [|done|].
  { unfold send_terminal_data, bind. rewrite Hpay. cbn [lift ret]. unfold context, send_action. by rewrite E. }
  exists s'. by rewrite Hs'.
Qed.

Lemma script_run t :
  script_ok Zs nanos timeout_secs sc t -> going 0 (ex_service_id s0) [] s0 ->
  delivers_msgs C P (script_msgs sc) (ex_stream s0) ->
  exists s', exec_command_inner nanos command timeout_secs streaming None t s0 =
      (Done (exec_answer nanos command sc), ended_at timeout_secs sc t, s') /\
    going 3 None (pieces sc) s' /\ delivers_msgs C P (sc_rest sc) (ex_stream s').
Proof.
  intros Hok Hg Hd. destruct (open_run t Hok Hg Hd) as (s1 & E1 & Hg1 & Hd1).
  set (s2 := mkExecState (ex_stream s1) service (ex_writer s1)).
  assert (going 1 service [] s2) as Hg2 by (by destruct Hg1).
  destruct (drain_run t s2 Hok Hg2 Hd1) as (s3 & E3 & Hg3 & Hd3).
  destruct (send_run (sent_at sc t) s3 Hg3) as (s4 & E4 & Hg4 & Hin4).
  destruct (collect_run t s4 Hok Hg4) as (s5 & E5 & Hd5 & Hby); [by eapply delivers_same_inbox|].
  unfold exec_command_inner, bind at 1. rewrite E1. unfold bind at 1. cbn [set_service modify].
  cbn [ti_terminal_id ti_service_id]. fold s2. unfold bind at 1. rewrite E3.
  fold (sent_command nanos command).
  unfold bind at 1. rewrite E4. unfold bind at 1. cbn [now]. unfold bind at 1.
  change (sent_at sc t + exec_completion_timeout timeout_secs) with (up_at timeout_secs sc t). rewrite E5.
  unfold done_by, final, exec_answer in *. destruct (sc_ending sc) as [c data|noise|noise a tid' code]; [| |by exists s5].
  all: destruct (close_run service _ (ended_at timeout_secs sc t) s5 Hby) as (s6 & E6 & Hg6 & Hin6); exists s6.
  all: rewrite <- (bind_assoc (close_quietly tid) (fun _ => set_service None)); unfold bind at 1; rewrite E6.
  all: destruct (parse_exec_output _ _); split; [done|]; split; [done|by eapply delivers_same_inbox].
Qed.
End run.

(** What the answer holds when the pieces make up the transcript of a shell. *)
Lemma exec_answer_shell nanos command sc c data pre mid out rest code :
  sc_ending sc = Marker c data ->
  from_utf8_lossy (concat (pieces sc)) = transcript (exec_sentinel nanos) pre mid out rest code ->
  sentinel_unique (exec_sentinel nanos) pre mid out rest code ->
  0 <= code <= i32_max -> starts_digit rest = false ->
  find_char LF (echoed (exec_sentinel nanos) ++ mid)%string = None ->
  exec_answer nanos command sc = answer command (trim_end_matches [CR; LF] (complete_lines out)) code false.
Proof.
  intros He Ht Hu Hc Hr Hl. unfold exec_answer, pieces, raw_before in *. rewrite He in *.
  rewrite concat_app in Ht. cbn [concat] in Ht. rewrite app_nil_r in Ht.
  by rewrite Ht, transcript_parsed.
Qed.

(** ** The property of a whole run *)

(** A remote command, from its start to its end.  Against a peer that opens the terminal within 15
    seconds and shows its prompt in pieces less than two seconds apart, whatever other traffic comes
    between, [exec_command_inner] sends the command exactly two seconds after the prompt's last
    piece.  It then returns when the piece that completes the marker arrives, when the terminal
    closes, or when the time is up, with the output and exit code read from exactly the pieces
    received; a streaming client was passed those pieces, one by one; the peer was sent exactly
    three messages (open, the command, close); the daemon's service id is cleared; and later traffic
    is untouched.  When the pieces make up a shell's transcript, the answer has the complete lines
    of the command's output and its exit code. *)
Theorem exec_runs (C : CryptoLib) (L : CryptoLaws C) (P : ProtoCodec Message) (PL : ProtoLaws P) (Zs : Zstd)
    nanos command timeout_secs streaming sc t (s : ExecState NetTransport) payload flag :
  script_ok Zs nanos timeout_secs sc t ->
  delivers_msgs C P (script_msgs sc) (ex_stream s) ->
  net_faults (es_inner (ex_stream s)) = [] -> net_end (es_inner (ex_stream s)) = Never ->
  uw_faults (ex_writer s) = [] ->
  terminal_payload (as_bytes (sent_command nanos command)) = Ok (payload, flag) ->
  Forall (fits P) (exec_sends sc payload flag) ->
  (exists s', run (exec_command_inner nanos command timeout_secs streaming) t s =
      (Done (exec_answer nanos command sc), ended_at timeout_secs sc t, s') /\
    ex_service_id s' = None /\
    uw_sent (ex_writer s') = uw_sent (ex_writer s) ++
      (if streaming then map (fun b => ULine (exec_output_chunk_response b)) (pieces sc) else []) /\
    net_out (es_inner (ex_stream s')) = net_out (es_inner (ex_stream s)) ++
      sealed_frames (es_key (ex_stream s)) (send_seq (ex_stream s)) (sent_items P (exec_sends sc payload flag)) /\
    delivers_msgs C P (sc_rest sc) (ex_stream s')) /\
  (forall c data pre mid out rest code,
    sc_ending sc = Marker c data ->
    from_utf8_lossy (concat (pieces sc)) = transcript (exec_sentinel nanos) pre mid out rest code ->
    sentinel_unique (exec_sentinel nanos) pre mid out rest code ->
    0 <= code <= i32_max -> starts_digit rest = false ->
    find_char LF (echoed (exec_sentinel nanos) ++ mid)%string = None ->
    exec_answer nanos command sc = answer command (trim_end_matches [CR; LF] (complete_lines out)) code false).
Proof.
  intros Hok Hd Hf He Hw Hp Hfit. split; [|intros; by eapply exec_answer_shell].
  destruct (script_run C P Zs nanos command timeout_secs streaming sc s payload flag Hp Hfit t Hok)
    as (s' & E & [Hs Hi Hpass] & Hd'); [|done|].
  { constructor; [by apply has_sent_nil|done|]. unfold passed. destruct s as [x i [sent faults]]. cbn in *. subst.
    by destruct streaming; rewrite app_nil_r. }
  exists s'. split_and!; [exact E|done|by rewrite Hpass|apply Hs|done].
Qed.

(** *** Evaluating a run *)

Definition toy_opened : TerminalOpened := mkTerminalOpened 3 true "" 42 "svc" [].
Definition toy_piece (a : Z) (text : string) : Chunk := mkChunk [] a (mkTerminalData 3 (as_bytes text) false).
Definition toy_nanos : Z := 7.
Definition toy_echo : string := ("ls" ++ String LF "echo '" ++ exec_sentinel toy_nanos ++ "'$?" ++ String LF "")%string.
Definition toy_output_text (code : string) : string :=
  ("one" ++ String LF "" ++ exec_sentinel toy_nanos ++ code)%string.

(** A prompt, the echo, and then the output with the marker; [code] is what follows the marker in
    the piece that completes it, and [t] when the command is given. *)
Definition toy_script_at (t : Z) (code : string) (rest : inbox) : ExecScript :=
  mkExecScript [(t + 10, None)] (t + 20) toy_opened [toy_piece (t + 100) "$ "] [as_bytes "$ "] [(t + 500, None)]
    [toy_piece (t + 3000) toy_echo] [as_bytes toy_echo]
    (Marker (toy_piece (t + 3100) (toy_output_text code)) (as_bytes (toy_output_text code))) rest.
Definition toy_script : string -> inbox -> ExecScript := toy_script_at 0.

Lemma toy_script_at_ok t code rest :
  is_Some (find_sentinel_output (from_utf8_lossy (as_bytes toy_echo ++ as_bytes (toy_output_text code)))
             (exec_sentinel toy_nanos)) ->
  script_ok toy_zstd toy_nanos (Some 30) (toy_script_at t code rest) t.
Proof.
  intros Hm.
  assert (opened_at (toy_script_at t code rest) t = t + 20) as Eo by (unfold opened_at; cbn; lia).
  assert (sent_at (toy_script_at t code rest) t = t + 2100) as Es.
  { unfold sent_at. rewrite Eo. unfold EXEC_PROMPT_DRAIN_TIMEOUT. cbn. unfold chunk_clock. cbn. lia. }
  assert (up_at (Some 30) (toy_script_at t code rest) t = t + 32100) as Eu.
  { unfold up_at. rewrite Es. change (exec_completion_timeout (Some 30)) with 30000. lia. }
  assert (output_at (toy_script_at t code rest) t = t + 3000) as Ep by (unfold output_at; rewrite Es; cbn; unfold chunk_clock; cbn; lia).
  constructor; rewrite ?Eo, ?Es, ?Eu, ?Ep.
  - apply Forall_cons_2; [|apply Forall_nil_2]. unfold EXEC_TERMINAL_OPEN_TIMEOUT. split; [cbn; lia|done].
  - cbn. unfold EXEC_TERMINAL_OPEN_TIMEOUT. lia.
  - reflexivity.
  - unfold EXEC_PROMPT_DRAIN_TIMEOUT. split; [split; [constructor|cbn; lia]|done].
  - repeat constructor.
  - apply Forall_cons_2; [|apply Forall_nil_2]. split; [cbn; lia|done].
  - cbn. lia.
  - split; [split; [lia|split; [constructor|cbn; lia]]|done].
  - repeat constructor.
  - split; [vm_compute; reflexivity|exact I].
  - split; [lia|]. split; [split; [constructor|cbn; lia]|]. split; [reflexivity|].
    unfold raw_before. cbn [toy_script_at sc_texts concat]. by rewrite app_nil_r.
Qed.
Lemma toy_script_ok code rest :
  is_Some (find_sentinel_output (from_utf8_lossy (as_bytes toy_echo ++ as_bytes (toy_output_text code)))
             (exec_sentinel toy_nanos)) ->
  script_ok toy_zstd toy_nanos (Some 30) (toy_script code rest) 0.
Proof. apply toy_script_at_ok. Qed.

Definition toy_exec_state (l : inbox) : ExecState NetTransport :=
  mkExecState (es_new (mkNet (@sealed_arrivals toy_crypto [x01] 0 (@wire_items (toy_codec MessageUnion) l))
                         Never [] [] false) [x01] 0) None (mkUdsWriter [] []).

Lemma toy_exec_delivers l :
  Forall (fun x => sendable x.2) (@wire_items (toy_codec MessageUnion) l) ->
  delivers_msgs toy_crypto (toy_codec MessageUnion) l (ex_stream (toy_exec_state l)).
Proof. by split. Qed.

Lemma exec_runs_witness :
  let sc := toy_script ("5" ++ String LF "$ ") [] in
  exists s', run (@exec_command_inner _ _ toy_crypto (toy_codec MessageUnion) toy_zstd toy_nanos "ls" (Some 30) true)
      0 (toy_exec_state (script_msgs sc)) =
    (Done (exec_response "Executed `ls`" "ls" "one" 5 false), 3100, s') /\ length (net_out (es_inner (ex_stream s'))) = 3%nat.
Proof.
  intros sc.
  destruct (exec_runs toy_crypto toy_crypto_laws (toy_codec MessageUnion) (toy_codec_laws MessageUnion) toy_zstd
    toy_nanos "ls" (Some 30) true sc 0 (toy_exec_state (script_msgs sc))
    (as_bytes (sent_command toy_nanos "ls")) false) as [(s' & E & _ & _ & Ho & _) _].
  - apply toy_script_ok. vm_compute. by eexists.
  - apply toy_exec_delivers. repeat (apply Forall_cons_2 || apply Forall_nil_2); first [exact I | vm_compute; congruence].
  - reflexivity.
  - reflexivity.
  - reflexivity.
  - vm_compute. reflexivity.
  - repeat (apply Forall_cons_2 || apply Forall_nil_2); vm_compute; congruence.
  - exists s'. split.
    + rewrite E. vm_compute. reflexivity.
    + rewrite Ho. vm_compute. reflexivity.
Defined.

(** The command ends with the first digit of its exit code: a code of 127 that arrives as "1" and
    "27" is reported as 1, and the other digits stay unread. *)
Example exec_code_cut :
  let late := toy_piece 3101 ("27" ++ String LF "") in
  let sc := toy_script "1" (chunk_msgs late) in
  script_ok toy_zstd toy_nanos (Some 30) sc 0 /\
  exec_answer toy_nanos "ls" sc = exec_response "Executed `ls`" "ls" "one" 1 false /\
  (parse_exec_output (from_utf8_lossy (concat (pieces sc) ++ tdata_data (ck_data late))) (exec_sentinel toy_nanos)).2 = 127.
Proof.
  split; [|vm_compute; split; reflexivity]. apply toy_script_ok. vm_compute. by eexists.
Qed.
