(* ===== verification/Lockfile.v ===== *)
(** * The daemon's files (src/daemon.rs)

    The daemon announces itself with a Unix socket, a lock file with its process id, and, when it
    cannot start, a file with the reason.  This file models the part of the file system that holds
    them, the liveness checks, and the removal of what a dead daemon left behind. *)

From Stdlib Require Import ZArith Lia.
From Stdlib Require Import Strings.Byte Strings.Ascii Strings.String.
From stdpp Require Import base list option numbers gmap strings.
From S2P Require Import Prelude RustStr Async.

Local Open Scope Z_scope.
Local Open Scope async_scope.

Definition SOCKET_PATH : string := "/tmp/rustdesk-cli.sock".
Definition LOCK_PATH : string := "/tmp/rustdesk-cli.lock".
Definition ERROR_PATH : string := "/tmp/rustdesk-cli.error".

(** ** The file system *)

(** A file's text, and its mode once it was set. *)
Record File : Type := mkFile {
  f_content : string;
  f_mode : option Z
}.

(** The files by path, the sockets somebody listens on, and what the coming system calls do. *)
Record Disk : Type := mkDisk {
  dk_files : gmap string File;
  dk_live : gset string;
  dk_faults : list (option Error)
}.

Definition dk_exists (path : string) (d : Disk) : bool := bool_decide (is_Some (dk_files d !! path)).

(** A system call: it fails with the next fault, or does its work. *)
Definition syscall {A} (f : Disk -> Res A * Disk) : M Disk A := fun dl t d =>
  match dk_faults d with
  | Some e :: fs => (Fail e, t, mkDisk (dk_files d) (dk_live d) fs)
  | fs => let '(r, d') := f (mkDisk (dk_files d) (dk_live d) (tail fs)) in
          match r with Ok a => (Done a, t, d') | Err e => (Fail e, t, d') end
  end.

Definition no_such_file : Error := anyhow "No such file or directory (os error 2)".

(** [fs::remove_file] *)
Definition remove_file (path : string) : M Disk unit := syscall (fun d =>
  match dk_files d !! path with
  | Some _ => (Ok tt, mkDisk (delete path (dk_files d)) (dk_live d) (dk_faults d))
  | None => (Err no_such_file, d)
  end).

(** [fs::read_to_string] *)
Definition read_to_string (path : string) : M Disk string := syscall (fun d =>
  match dk_files d !! path with Some f => (Ok (f_content f), d) | None => (Err no_such_file, d) end).

(** [fs::write]: keeps the mode of an existing file. *)
Definition fs_write_file (path content : string) : M Disk unit := syscall (fun d =>
  let mode := dk_files d !! path ≫= f_mode in
  (Ok tt, mkDisk (<[path := mkFile content mode]> (dk_files d)) (dk_live d) (dk_faults d))).

(** [fs::set_permissions] *)
Definition set_permissions (path : string) (mode : Z) : M Disk unit := syscall (fun d =>
  match dk_files d !! path with
  | Some f => (Ok tt, mkDisk (<[path := mkFile (f_content f) (Some mode)]> (dk_files d))
                        (dk_live d) (dk_faults d))
  | None => (Err no_such_file, d)
  end).

(** [UnixListener::bind]: refuses a path that exists. *)
Definition bind_socket (path : string) : M Disk unit := syscall (fun d =>
  match dk_files d !! path with
  | Some _ => (Err (anyhow "Address already in use (os error 98)"), d)
  | None => (Ok tt, mkDisk (<[path := mkFile "" None]> (dk_files d)) ({[path]} ∪ dk_live d) (dk_faults d))
  end).

(** ** The lock file *)

Record LockFile : Type := mkLockFile {
  lock_pid : Z;
  lock_socket : string
}.

(** What serde and the operating system give: the JSON of a lock file, and [kill(pid, 0)], which
    returns [None] for success and the error number otherwise. *)
Class LockLib : Type := {
  lock_to_string : LockFile -> string;
  lock_from_str : string -> Res LockFile;
  kill0 : Z -> option Z
}.
Class LockLaws (L : LockLib) : Prop := {
  lock_round : forall l, lock_from_str (lock_to_string l) = Ok l
}.

Definition EPERM : Z := 1.
Definition owner_only : Z := 384. (* 0o600 *)

Section files.
Context `{LockLib}.

(** [LockFile::read] *)
Definition lock_read : M Disk LockFile :=
  let* data := context "No active session (lock file not found). Run `rustdesk-cli connect` first."
                 (read_to_string LOCK_PATH) in
  lift (lock_from_str data).

(** [LockFile::write], by the process [pid]. *)
Definition lock_write (pid : Z) (socket : string) : M Disk unit :=
  fs_write_file LOCK_PATH (lock_to_string (mkLockFile pid socket)) ;;;
  set_permissions LOCK_PATH owner_only.

(** [LockFile::remove] *)
Definition lock_remove : M Disk unit := quietly (remove_file LOCK_PATH).

(** [pid_is_alive], of a [u32] *)
Definition pid_is_alive (pid : Z) : bool :=
  if i32_max <? pid then false
  else if pid <=? 0 then false
  else match kill0 pid with
       | None => true
       | Some code => code =? EPERM
       end.

(** [is_socket_alive] *)
Definition is_socket_alive (path : string) (d : Disk) : bool :=
  dk_exists path d && bool_decide (path ∈ dk_live d).

(** [cleanup_stale_daemon_artifacts] *)
Definition cleanup_stale_daemon_artifacts (socket_path lock_path error_path : string) : M Disk unit :=
  let* d := get in
  let socket_exists := dk_exists socket_path d in
  let lock_exists := dk_exists lock_path d in
  if negb socket_exists && negb lock_exists then
    quietly (remove_file error_path)
  else
    let socket_alive := socket_exists && is_socket_alive socket_path d in
    let* lock_alive :=
      (if lock_exists then
         let* r := try (read_to_string lock_path) in
         ret match ok r ≫= fun data => ok (lock_from_str data) with
             | Some lock => pid_is_alive (lock_pid lock)
             | None => false
             end
       else ret false) in
    if socket_alive || lock_alive then
      fail (anyhow "Daemon already running. Disconnect first, or use other commands.")
    else
      quietly (remove_file socket_path) ;;;
      quietly (remove_file lock_path) ;;;
      quietly (remove_file error_path).

(** [is_daemon_running] *)
Definition is_daemon_running : M Disk bool :=
  let* d := get in
  if is_socket_alive SOCKET_PATH d then ret true
  else let* r := try lock_read in
       ret match r with Ok lock => pid_is_alive (lock_pid lock) | Err _ => false end.

(** [cleanup], also run by [DaemonCleanupGuard] *)
Definition cleanup : M Disk unit :=
  quietly (remove_file SOCKET_PATH) ;;;
  quietly (remove_file ERROR_PATH) ;;;
  lock_remove.

(** [write_startup_error] *)
Definition write_startup_error (message : string) : M Disk unit :=
  fs_write_file ERROR_PATH message ;;;
  set_permissions ERROR_PATH owner_only.
End files.

(** ** Starting a daemon *)

(** The files as the spawning process sees them: what the daemon changes, and when. *)
Record SpawnWorld : Type := mkSpawnWorld {
  sw_disk : Disk;
  sw_changes : list (Z * (Disk -> Disk))
}.

(** The changes up to the time [t] have happened. *)
Fixpoint settle (t : Z) (d : Disk) (l : list (Z * (Disk -> Disk))) : Disk * list (Z * (Disk -> Disk)) :=
  match l with
  | (a, f) :: l' => if a <=? t then settle t (f d) l' else (d, l)
  | [] => (d, [])
  end.

Definition on_disk {A} (m : M Disk A) : M SpawnWorld A := fun dl t w =>
  let '(d, l) := settle t (sw_disk w) (sw_changes w) in
  let '(o, t', d') := m dl t d in (o, t', mkSpawnWorld d' l).

(** The arguments [spawn_daemon] starts the daemon with. *)
Definition opt_arg (flag : string) (v : option string) : list string :=
  match v with Some x => [flag; x] | None => [] end.
Definition spawn_args (peer_id : string) (password server id_server relay_server key : option string)
    (timeout : option Z) : list string :=
  ["--daemon"; "--peer-id"; peer_id]%string
  ++ opt_arg "--password" password ++ opt_arg "--server" server ++ opt_arg "--id-server" id_server
  ++ opt_arg "--relay-server" relay_server ++ opt_arg "--key" key
  ++ opt_arg "--connect-timeout" (show_Z <$> timeout).

(** [daemon_arg_value]: the value after the first occurrence of a flag (src/main.rs). *)
Fixpoint daemon_arg_value (args : list string) (flag : string) : option string :=
  match args with
  | a :: ((b :: _) as rest) => if String.eqb a flag then Some b else daemon_arg_value rest flag
  | _ => None
  end.

Record DaemonArgs : Type := mkDaemonArgs {
  da_peer_id : string;
  da_password : option string;
  da_server : option string;
  da_id_server : option string;
  da_relay_server : option string;
  da_key : option string;
  da_connect_timeout : option Z;
  da_timeout : option Z
}.

(** What [run_daemon_mode] reads from its arguments; without a peer id it panics. *)
Definition daemon_args (args : list string) : option DaemonArgs :=
  peer_id ← daemon_arg_value args "--peer-id";
  Some (mkDaemonArgs peer_id (daemon_arg_value args "--password") (daemon_arg_value args "--server")
          (daemon_arg_value args "--id-server") (daemon_arg_value args "--relay-server")
          (daemon_arg_value args "--key") (daemon_arg_value args "--connect-timeout" ≫= parse_u64)
          (daemon_arg_value args "--timeout" ≫= parse_u64)).

Section spawn.
Context `{LockLib}.

(** One round of the wait for the lock file; [n] rounds are left. *)
Definition spawn_wait_step (n : nat) : M SpawnWorld (nat + bool) :=
  match n with
  | O => ret (inr false)
  | S n' =>
    let* d := on_disk get in
    if dk_exists LOCK_PATH d then ret (inr true)
    else sleep 100 ;;; ret (inl n')
  end.

(** [spawn_daemon]; [child] is the outcome of [cmd.spawn()]. *)
Definition spawn_daemon (child : Res unit) (timeout : option Z) : M SpawnWorld unit :=
  on_disk (cleanup_stale_daemon_artifacts SOCKET_PATH LOCK_PATH ERROR_PATH) ;;;
  lift (map_err (add_context "Failed to spawn daemon process") child) ;;;
  let wait_secs := wrap 64 (default 30 timeout + 5) in
  let wait_iters := Z.to_nat (wrap 64 (wait_secs * 10)) in
  let* ready := iter (S wait_iters) spawn_wait_step wait_iters in
  if (ready : bool) then ret tt
  else
    let* d := on_disk get in
    if dk_exists ERROR_PATH d then
      let* r := try (on_disk (read_to_string ERROR_PATH)) in
      let error := match r with Ok e => e | Err _ => "daemon startup failed"%string end in
      on_disk (quietly (remove_file ERROR_PATH)) ;;;
      fail (anyhow ("Daemon failed to start: " ++ trim error)%string)
    else
      fail (anyhow ("Daemon started but lock file not created within " ++ show_Z wait_secs
                      ++ " seconds")%string).
End spawn.

(** ** What the calls do *)

Lemma quietly_run {S A} (m : M S A) dl t s :
  instant m -> quietly m dl t s = (Done tt, t, (m dl t s).2).
Proof.
  intros Hm. specialize (Hm dl t s). unfold quietly, bind, try.
  destruct (m dl t s) as [[[a|e| | |] t'] s']; try done; by subst.
Qed.

Lemma syscall_instant {A} (f : Disk -> Res A * Disk) : instant (syscall f).
Proof.
  intros dl t d. unfold syscall. destruct (dk_faults d) as [|[e|] fs]; try done;
    (destruct (f _) as [r d']; by destruct r).
Qed.
#[export] Hint Resolve syscall_instant : instant.

Lemma remove_file_instant p : instant (remove_file p).
Proof. apply syscall_instant. Qed.
#[export] Hint Resolve remove_file_instant : instant.

(** A disk on which no call fails for a reason of its own. *)
Definition healthy (d : Disk) : Prop := dk_faults d = [].
Definition without (paths : list string) (d : Disk) : Disk :=
  mkDisk (foldr (fun p m => delete p m) (dk_files d) paths) (dk_live d) (dk_faults d).

Lemma quiet_remove p dl t d :
  healthy d -> quietly (remove_file p) dl t d = (Done tt, t, without [p] d).
Proof.
  intros Hd. rewrite quietly_run by auto with instant. destruct d as [fm lv fs]. unfold healthy in Hd.
  cbn in Hd. subst fs. unfold remove_file, syscall, without. cbn.
  destruct (fm !! p) eqn:E; cbn; [done|]. by rewrite delete_id.
Qed.

Lemma healthy_without ps d : healthy d -> healthy (without ps d).
Proof. done. Qed.

Lemma without_without ps qs d : without ps (without qs d) = without (ps ++ qs) d.
Proof. unfold without. cbn. by rewrite foldr_app. Qed.

Lemma without_lookup ps d p : p ∈ ps -> dk_files (without ps d) !! p = None.
Proof.
  unfold without. cbn. induction ps as [|q ps IH]; [by intros ?%elem_of_nil|].
  intros [->|Hp]%elem_of_cons; cbn; [apply lookup_delete_eq|].
  destruct (decide (p = q)) as [->|Hne]; [apply lookup_delete_eq|].
  rewrite lookup_delete_ne by done. auto.
Qed.

Lemma without_keeps ps d p : p ∉ ps -> dk_files (without ps d) !! p = dk_files d !! p.
Proof.
  unfold without. cbn. induction ps as [|q ps IH]; [done|].
  intros [Hne Hp]%not_elem_of_cons. cbn. rewrite lookup_delete_ne by done. auto.
Qed.

Lemma cleanup_run dl t d :
  healthy d -> cleanup dl t d = (Done tt, t, without [LOCK_PATH; ERROR_PATH; SOCKET_PATH] d).
Proof.
  intros Hd. unfold cleanup, lock_remove, bind.
  rewrite !quiet_remove by (repeat apply healthy_without; done). by rewrite !without_without.
Qed.

Lemma exists_false p d : dk_exists p d = false <-> dk_files d !! p = None.
Proof.
  unfold dk_exists. rewrite bool_decide_eq_false. destruct (dk_files d !! p); [|by split].
  split; [|done]. intros Hn. exfalso. eauto.
Qed.

(** ** Arguments as flags with values *)

Definition flags : list string :=
  ["--peer-id"; "--password"; "--server"; "--id-server"; "--relay-server"; "--key";
   "--connect-timeout"; "--timeout"]%string.

Definition flatten (l : list (string * string)) : list string := concat (map (fun kv => [kv.1; kv.2]) l).

Fixpoint assoc (k : string) (l : list (string * string)) : option string :=
  match l with [] => None | (k', v) :: l' => if String.eqb k' k then Some v else assoc k l' end.

Definition opt_pair (flag : string) (v : option string) : list (string * string) :=
  match v with Some x => [(flag, x)] | None => [] end.

Lemma arg_value_skip x l flag : x <> flag -> daemon_arg_value (x :: l) flag = daemon_arg_value l flag.
Proof. intros Hx. destruct l as [|y l]; [done|]. cbn. by destruct (String.eqb_spec x flag). Qed.

Lemma arg_value_flatten l flag :
  Forall (fun kv => kv.2 <> flag) l -> daemon_arg_value (flatten l) flag = assoc flag l.
Proof.
  induction 1 as [|[k v] l Hv _ IH]; [done|].
  change (flatten ((k, v) :: l)) with (k :: v :: flatten l). cbn [assoc].
  destruct (String.eqb_spec k flag) as [->|Hne].
  - cbn. by rewrite String.eqb_refl.
  - rewrite !arg_value_skip by done. done.
Qed.

Lemma assoc_app k l1 l2 :
  assoc k (l1 ++ l2) = match assoc k l1 with Some v => Some v | None => assoc k l2 end.
Proof. induction l1 as [|[k' v] l1 IH]; [done|]. cbn. by destruct (String.eqb k' k). Qed.

Lemma assoc_opt_pair k f v : assoc k (opt_pair f v) = if String.eqb f k then v else None.
Proof. destruct v; cbn; by destruct (String.eqb f k). Qed.

Lemma spawn_args_pairs p pw sv ids rl ky to :
  spawn_args p pw sv ids rl ky to =
  "--daemon"%string :: flatten (("--peer-id", p) :: opt_pair "--password" pw ++ opt_pair "--server" sv
    ++ opt_pair "--id-server" ids ++ opt_pair "--relay-server" rl ++ opt_pair "--key" ky
    ++ opt_pair "--connect-timeout" (show_Z <$> to))%string.
Proof. by destruct pw, sv, ids, rl, ky, to. Qed.

Lemma values_not_flag flag (f : string) (v : option string) :
  (forall x, v = Some x -> x ∉ flags) -> flag ∈ flags ->
  Forall (fun kv => kv.2 <> flag) (opt_pair f v).
Proof.
  intros Hv Hf. destruct v as [x|]; [|constructor]. repeat constructor. cbn. intros ->.
  by apply (Hv flag).
Qed.

Lemma show_not_flag n : 0 <= n -> show_Z n ∉ flags.
Proof.
  intros Hn Hin. assert (exists c d, show_Z n = String c d /\ is_ascii_digit c = true) as (c & d & E & Hc).
  { destruct n as [|p|p]; [by exists "0"%char, ""%string| |lia].
    destruct (show_N_digits (N.pos p)) as (c & d & E & Hd & _). by exists c, d. }
  rewrite E in Hin. unfold flags in Hin.
  repeat (apply elem_of_cons in Hin as [Hin|Hin]; [injection Hin as -> _; done|]). by apply elem_of_nil in Hin.
Qed.

(** A toy lock format, for evaluating the model: the process id in decimal. *)
Definition toy_lock : LockLib := {|
  lock_to_string := fun l => (show_Z (lock_pid l) ++ " " ++ lock_socket l)%string;
  lock_from_str := fun s => match str_find " " s with
    | Some n => match parse_u32 (str_take n s) with
                | Some p => Ok (mkLockFile p (str_drop (S n) s))
                | None => Err (anyhow "expected value")
                end
    | None => Err (anyhow "expected value")
    end;
  kill0 := fun _ => Some 3
|}.

(** ** Properties of the daemon's files *)

Lemma lock_check_run `{LockLib} path dl t d :
  healthy d ->
  forall B (k : bool -> M Disk B),
  bind (if dk_exists path d then
      let* r := try (read_to_string path) in
      ret match ok r ≫= fun data => ok (lock_from_str data) with
          | Some lock => pid_is_alive (lock_pid lock) | None => false end
    else ret false) k dl t d =
  k match dk_files d !! path with
    | Some f => match lock_from_str (f_content f) with
                | Ok lock => pid_is_alive (lock_pid lock) | Err _ => false end
    | None => false end dl t d.
Proof.
  intros Hd B k. destruct d as [fm lv fs]. unfold healthy in Hd. cbn in Hd. subst fs.
  unfold dk_exists. cbn. destruct (fm !! path) as [f|] eqn:E.
  - rewrite bool_decide_eq_true_2 by eauto. unfold bind, try, read_to_string, syscall. cbn. rewrite E. cbn.
    by destruct (lock_from_str (f_content f)).
  - rewrite bool_decide_eq_false_2 by (intros [? ?]; done). done.
Qed.

(** What the code takes for a daemon that is still there. *)
Definition daemon_alive `{LockLib} (socket_path lock_path : string) (d : Disk) : bool :=
  is_socket_alive socket_path d ||
  match dk_files d !! lock_path with
  | Some f => match lock_from_str (f_content f) with
              | Ok lock => pid_is_alive (lock_pid lock)
              | Err _ => false
              end
  | None => false
  end.

(** The two outcomes of the check. *)
Lemma stale_cases (L : LockLib) socket_path lock_path error_path dl t d :
  healthy d ->
  cleanup_stale_daemon_artifacts socket_path lock_path error_path dl t d =
    (if daemon_alive socket_path lock_path d
     then (Fail ["Daemon already running. Disconnect first, or use other commands."%string], t, d)
     else (Done tt, t, without [error_path; lock_path; socket_path] d)).
Proof.
  intros Hd. unfold cleanup_stale_daemon_artifacts, daemon_alive. unfold bind at 1. cbn [get].
  destruct (negb (dk_exists socket_path d) && negb (dk_exists lock_path d)) eqn:E.
  - apply andb_true_iff in E as [Es El]. rewrite negb_true_iff in Es, El.
    unfold is_socket_alive. rewrite Es. apply exists_false in Es, El. rewrite El. cbn [orb andb].
    rewrite quiet_remove by done. f_equal. destruct d as [fm lv fs]. unfold without. cbn in *.
    rewrite (delete_id fm socket_path), (delete_id fm lock_path) by done. done.
  - assert ((dk_exists socket_path d && is_socket_alive socket_path d) = is_socket_alive socket_path d) as ->.
    { unfold is_socket_alive. by destruct (dk_exists socket_path d). }
    rewrite (lock_check_run lock_path dl t d Hd).
    destruct (is_socket_alive socket_path d || _); [done|].
    unfold bind. rewrite !quiet_remove by (repeat apply healthy_without; done).
    by rewrite !without_without.
Qed.

Lemma stale_run (L : LockLib) socket_path lock_path error_path dl t d :
  healthy d -> daemon_alive socket_path lock_path d = false ->
  cleanup_stale_daemon_artifacts socket_path lock_path error_path dl t d =
  (Done tt, t, without [error_path; lock_path; socket_path] d).
Proof. intros Hd Ha. by rewrite stale_cases, Ha. Qed.

(** C36: what a dead daemon left behind is removed, and a live one is left alone.  When somebody
    listens on the socket or the process of the lock file is alive,
    [cleanup_stale_daemon_artifacts] refuses and changes nothing; otherwise it succeeds, exactly
    the socket, the lock and the error file are gone, and the socket can be bound. *)
Theorem stale_artifacts_removed (L : LockLib) socket_path lock_path error_path t d :
  healthy d ->
  let done_ := without [error_path; lock_path; socket_path] d in
  run (cleanup_stale_daemon_artifacts socket_path lock_path error_path) t d =
    (if daemon_alive socket_path lock_path d
     then (Fail ["Daemon already running. Disconnect first, or use other commands."%string], t, d)
     else (Done tt, t, done_)) /\
  (forall p, dk_files done_ !! p =
     if decide (p ∈ [error_path; lock_path; socket_path]) then None else dk_files d !! p) /\
  (run (bind_socket socket_path) t done_).1.1 = Done tt.
Proof.
  intros Hd done_. split_and!.
  - by apply stale_cases.
  - intros p. unfold done_. case_decide; [by apply without_lookup|by apply without_keeps].
  - assert (dk_files done_ !! socket_path = None) as Hs by (apply without_lookup; set_solver).
    destruct done_ as [fm lv fs] eqn:Ed. assert (fs = []) as ->.
    { change fs with (dk_faults (mkDisk fm lv fs)). rewrite <- Ed. done. }
    cbn in Hs. unfold run, bind_socket, syscall. cbn. by rewrite Hs.
Qed.

Lemma stale_artifacts_removed_witness :
  let d := mkDisk (<[SOCKET_PATH := mkFile "" None]> (<[LOCK_PATH := mkFile "4242" None]> ∅)) ∅ [] in
  (run (@cleanup_stale_daemon_artifacts toy_lock SOCKET_PATH LOCK_PATH ERROR_PATH) 5 d).1 = (Done tt, 5).
Proof.
  intros d. destruct (stale_artifacts_removed toy_lock SOCKET_PATH LOCK_PATH ERROR_PATH 5 d) as [-> _].
  - reflexivity.
  - vm_compute. reflexivity.
Defined.

(** The daemon reads back the arguments it is started with.  For values that are not
    themselves one of the flags, what [run_daemon_mode] parses from the command line
    [spawn_daemon] builds is what [spawn_daemon] was given; the idle timeout is not passed on. *)
Theorem daemon_args_roundtrip peer_id password server id_server relay_server key timeout :
  peer_id ∉ flags ->
  Forall (fun v => v ∉ flags) (omap id [password; server; id_server; relay_server; key]) ->
  match timeout with Some n => 0 <= n < 2 ^ 64 | None => True end ->
  daemon_args (spawn_args peer_id password server id_server relay_server key timeout) =
  Some (mkDaemonArgs peer_id password server id_server relay_server key timeout None).
Proof.
  intros Hp Hv Ht. rewrite spawn_args_pairs.
  set (l := ("--peer-id"%string, peer_id) :: _). assert (forall f, f ∈ flags -> Forall (fun kv => kv.2 <> f) l) as Hl.
  { intros f Hf. unfold l. constructor; [cbn; by intros ->|].
    repeat apply Forall_app_2; apply values_not_flag; try done; intros x Hx;
      try (rewrite Forall_forall in Hv; apply Hv; apply list_elem_of_omap; exists (Some x); split; [set_solver|done]).
    destruct timeout as [n|]; [|done]. injection Hx as <-. apply show_not_flag; lia. }
  assert (forall f, f ∈ flags -> daemon_arg_value ("--daemon"%string :: flatten l) f = assoc f l) as Ha.
  { intros f Hf. rewrite arg_value_skip, arg_value_flatten; [done|by apply Hl|].
    intros <-. set_solver. }
  unfold daemon_args. rewrite !Ha by set_solver. unfold l.
  cbn [assoc String.eqb]. rewrite !assoc_app, !assoc_opt_pair. cbn.
  destruct password, server, id_server, relay_server, key, timeout as [n|]; cbn; try done;
    unfold parse_u64; rewrite parse_show_Z; try done; lia.
Qed.

Lemma daemon_args_roundtrip_witness :
  daemon_args (spawn_args "123" (Some "pw") None None (Some "r:1") None (Some 30)) =
  Some (mkDaemonArgs "123" (Some "pw") None None (Some "r:1") None (Some 30) None)%string.
Proof.
  apply (daemon_args_roundtrip "123" (Some "pw") None None (Some "r:1") None (Some 30))%string.
  - set_solver.
  - repeat constructor; set_solver.
  - lia.
Defined.
