(* ===== verification/Daemon.v ===== *)
(** * The parts of the daemon (src/daemon.rs)

    What the event loop is made of: connection types, the reconnect schedule, the messages of a
    fresh session, the handling of peer messages, and the commands that are not sessions of their
    own: pushing a file, a shell, and everything [execute_daemon_command] covers. *)

From Stdlib Require Import ZArith Lia.
From Stdlib Require Import Strings.Byte Strings.Ascii Strings.String.
From stdpp Require Import base list option numbers.
From S2P Require Import Prelude RustStr Async Transport Crypto Base64 Json Session Proto.
From S2P Require Import Inbox Terminal Capture FileTransfer Rendezvous Connection Exec.

Local Open Scope Z_scope.
Local Open Scope async_scope.

Definition DEFAULT_IDLE_TIMEOUT : Z := 300000.
Definition SHELL_TERMINAL_OPEN_TIMEOUT : Z := 15000.
Definition KEEPALIVE_TIMEOUT : Z := 90000.
Definition RECONNECT_BACKOFFS : list Z := [1000; 2000; 4000; 8000; 16000; 30000].

Definition conn_type_for_command (cmd : SessionCommand) : ConnType :=
  match cmd with
  | CmdShell | CmdExec _ _ => ConnTerminal
  | _ => DefaultConn
  end.

Definition login_union_for_conn_type (conn_type : ConnType) (service_id : option string)
    : option LoginUnion :=
  match conn_type with
  | ConnTerminal => Some (LTerminal (default ""%string service_id))
  | _ => None
  end.

(** [s.split(':').next().unwrap_or(s)] *)
Definition host_of (s : string) : string :=
  match split_char ":" s with host :: _ => host | [] => s end.

Definition build_connection_config (peer : string) (pw server id_srv relay_srv key : option string)
    : ConnConfig :=
  let with_port port := match server with
    | Some s => (host_of s ++ port)%string
    | None => ("localhost" ++ port)%string
    end in
  mkConnConfig (match id_srv with Some s => s | None => with_port ":21116"%string end)
               (match relay_srv with Some s => s | None => with_port ":21117"%string end)
               (default ""%string key) peer (default ""%string pw) 2.

(** ** Reconnecting *)

Definition reconnecting_response (attempt total_attempts : nat) (backoff : Z) : SessionResponse :=
  resp_error ("reconnecting... attempt " ++ show_nat attempt ++ "/" ++ show_nat total_attempts
                ++ " in " ++ show_Z (backoff / 1000) ++ "s")%string.

Section retry.
Context {S A : Type} (connect : M S A) (notify : SessionResponse -> M S unit).

(** The [for] loop over the back-offs that are left; [idx] of [total] are done. *)
Fixpoint retry_from (total idx : nat) (backoffs : list Z) (last_error : option Error) : M S A :=
  match backoffs with
  | [] => fail (default (anyhow "reconnect failed") last_error)
  | backoff :: rest =>
    let attempt := Datatypes.S idx in
    notify (reconnecting_response attempt total backoff) ;;;
    sleep backoff ;;;
    let* r := try connect in
    match r with
    | Ok value => ret value
    | Err err => retry_from total attempt rest (Some err)
    end
  end.

Definition reconnect_with_retry_backoffs (backoffs : list Z) : M S A :=
  retry_from (length backoffs) 0 backoffs None.
Definition reconnect_with_retry : M S A := reconnect_with_retry_backoffs RECONNECT_BACKOFFS.
End retry.

Definition reconnect_needles : list string :=
  ["decryption failed"; "broken pipe"; "connection reset"; "connection aborted"; "unexpected eof";
   "failed to fill whole buffer"; "connection refused"; "transport"; "closed"; "timed out"]%string.

Definition should_reconnect (err : Error) : bool :=
  let message := to_ascii_lowercase (error_render err) in
  existsb (fun needle => contains needle message) reconnect_needles.

(** ** Messages of a fresh session *)

Definition build_option_message : OptionMessage :=
  mkOptionMessage ImageQuality_Best 0 BoolOption_Yes BoolOption_Yes BoolOption_Yes BoolOption_Yes
    (Some (mkSupportedDecoding 1 [])) [].

(** [is_keepalive_expired], in milliseconds *)
Definition is_keepalive_expired (recv_idle timeout : Z) : bool := timeout <? recv_idle.

(** The peer's answer to the login, as the session keeps it. *)
Definition display_of (d : PDisplay) : DisplayInfo :=
  mkDisplayInfo (pd_x d) (pd_y d) (pd_width d) (pd_height d) (pd_name d) (pd_online d)
    (pd_cursor_embedded d).
Definition peer_info_state (p : PeerInfo) : PeerInfoState :=
  mkPeerInfoState (pi_username p) (pi_username p) (pi_hostname p) (map display_of (pi_displays p)).

Section stream.
Context {T : Type} `{Transport T} `{CryptoLib} `{ProtoCodec Message} `{Zstd}.

Definition send_option_message : M (EncryptedStream T) unit :=
  context "sending OptionMessage" (send_message (Some (UMisc (Some (MOption build_option_message))))).

Definition send_session_init : M (EncryptedStream T) unit :=
  context "sending CaptureDisplays" (send_message (Some (UMisc (Some (MCaptureDisplays [0] [] []))))) ;;;
  context "sending refresh_video" (send_message (Some (UMisc (Some (MRefreshVideo true))))).

Definition initialize_stream_for_mode (conn_type : ConnType) : M (EncryptedStream T) unit :=
  if decide (conn_type = DefaultConn) then send_option_message ;;; send_session_init else ret tt.

(** [handle_peer_message]: whether the session goes on. *)
Definition handle_peer_message (data : bytes) : M (EncryptedStream T) bool :=
  let* msg := lift (decode data) in
  match msg with
  | Some (UTestDelay td) =>
    context "echoing TestDelay" (send_message (Some (UTestDelay
      (mkTestDelay (td_time td) true (td_last_delay td) (td_target_bitrate td))))) ;;;
    ret true
  | Some (UMisc (Some (MCloseReason _))) => ret false
  | _ => ret true
  end.

(** ** Pushing a file *)

Definition push_progress_response (remote_path : string) (p : PushProgress) : SessionResponse :=
  resp_ok_with_data ("push progress " ++ show_Z (pp_sent_bytes p) ++ "/" ++ show_Z (pp_total_bytes p))%string
    (object [("kind", Str "progress"); ("remote_path", Str remote_path);
             ("sent_bytes", Number (pp_sent_bytes p)); ("total_bytes", Number (pp_total_bytes p));
             ("transferred_bytes", Number (pp_transferred_bytes p));
             ("resumed_bytes", Number (pp_resumed_bytes p))]%string).

(** One round of the block loop, which carries the count last reported. *)
Definition push_step (remote_path : string) (last_reported : Z)
    : M (PushTransfer * ExecState T) (Z + unit) :=
  let* more := zoom (fun st => (st.1, ex_stream st.2))
                    (fun x st => (x.1, mkExecState x.2 (ex_service_id st.2) (ex_writer st.2)))
                    send_next_block in
  if (more : bool) then
    let* st := get in
    let p := progress st.1 in
    if (pp_sent_bytes p =? pp_total_bytes p)
       || (1024 * 1024 <=? Z.max 0 (pp_sent_bytes p - last_reported))
    then
      zoom snd (fun x st => (st.1, x)) (on_writer (send_response (push_progress_response remote_path p))) ;;;
      ret (inl (pp_sent_bytes p))
    else ret (inl last_reported)
  else ret (inr tt).

Definition push_left (st : PushTransfer * ExecState T) : nat :=
  length (fh_content (pt_file st.1)) - fh_pos (pt_file st.1).

Definition push_complete_response (r : PushResult) : SessionResponse :=
  resp_ok_with_data ("Pushed `" ++ pr_local_path r ++ "` to `" ++ pr_remote_path r ++ "`")%string
    (object [("kind", Str "complete"); ("job_id", Number (pr_job_id r));
             ("local_path", Str (pr_local_path r)); ("remote_path", Str (pr_remote_path r));
             ("total_bytes", Number (pr_total_bytes r)); ("sent_bytes", Number (pr_sent_bytes r));
             ("transferred_bytes", Number (pr_transferred_bytes r));
             ("resumed_bytes", Number (pr_resumed_bytes r))]%string).

(** [push_file_command]; [lf] is the local file, [nanos] the clock. *)
Definition push_file_command (lf : LocalFile) (nanos : Z) (local_path remote_path : string)
    : M (ExecState T) SessionResponse :=
  let* transfer := on_stream (begin_push lf nanos local_path remote_path) in
  on_writer (send_response (push_progress_response remote_path (progress transfer))) ;;;
  let* '(_, transfer) := threaded transfer
    (loop push_left (push_step remote_path) (pp_sent_bytes (progress transfer))) in
  on_stream (wait_for_done transfer) ;;;
  ret (push_complete_response (push_result transfer)).

(** ** The shell *)

(** The client's lines as they reach the channel, and when its end closes, if it does. *)
Record UdsReader : Type := mkUdsReader {
  ud_lines : list (Z * string);
  ud_eof : option Z
}.
Definition ShellState : Type := ExecState T * UdsReader.

Definition in_exec {A} (m : M (ExecState T) A) : M ShellState A := zoom fst (fun x st => (x, st.2)) m.

(** When [line_rx.recv()] is ready next. *)
Definition next_line_at (r : UdsReader) : option Z :=
  match ud_lines r with (a, _) :: _ => Some a | [] => ud_eof r end.

(** One turn of the loop: a line of the client, its end, or something from the terminal;
    [inr] leaves the loop.  When both are ready the terminal goes first. *)
Definition shell_step (tid : Z) (_ : unit) : M ShellState (unit + unit) :=
  let* st := get in
  let* event := match next_line_at st.2 with
                | Some a => race a (in_exec (on_stream recv_terminal_data))
                | None => let* r := try (in_exec (on_stream recv_terminal_data)) in ret (Some r)
                end in
  match event with
  | None =>
    match ud_lines st.2 with
    | (_, line) :: rest =>
      modify (fun st => (st.1, mkUdsReader rest (ud_eof st.2))) ;;;
      in_exec (on_stream (send_terminal_data tid (as_bytes line))) ;;;
      ret (inl tt)
    | [] => in_exec (close_quietly tid ;;; set_service None) ;;; ret (inr tt)
    end
  | Some (Ok (TData data)) => in_exec (on_writer (uds_write (URaw data))) ;;; ret (inl tt)
  | Some (Ok (TClosed _)) | Some (Ok (TError _)) | Some (Err _) =>
    in_exec (set_service None) ;;; ret (inr tt)
  end.

Definition shell_left (st : ShellState) : nat := length (ud_lines st.2) + ex_pending st.1.

Definition shell_ack (tid : Z) : SessionResponse :=
  resp_ok_with_data "Shell session started"
    (object [("mode", Str "interactive"); ("terminal_id", Number tid)]%string).

(** [shell_session] *)
Definition shell_session : M ShellState unit :=
  let refuse (reply err : string) : M ShellState TerminalInfo :=
    in_exec (quietly (on_writer (send_response (resp_error reply)))) ;;; fail (anyhow err) in
  let* r := timeout SHELL_TERMINAL_OPEN_TIMEOUT (in_exec (on_stream (open_terminal 24 80))) in
  let* info := match r with
               | Some (Ok info) => ret info
               | Some (Err e) => refuse ("terminal open failed: " ++ error_render e)%string
                                        ("shell: terminal open failed: " ++ error_render e)%string
               | None => refuse "terminal open timed out"%string "shell: terminal open timed out"%string
               end in
  in_exec (set_service (Some (ti_service_id info))) ;;;
  let tid := ti_terminal_id info in
  in_exec (on_writer (send_response (shell_ack tid))) ;;;
  loop shell_left (shell_step tid) tt.

(** ** The other commands *)

Context {Img : Type} `{ImageLib Img}.

Definition capture_response (data : bytes) : SessionResponse :=
  resp_ok_with_data "Screenshot captured"
    (object [("bytes_b64", Str (base64_encode data)); ("bytes", Number (Z.of_nat (length data)));
             ("format", Str "png")]%string).

Definition on_session {A} (m : M (EncryptedStream T) A) : M (Session * EncryptedStream T) A :=
  zoom snd (fun x st => (st.1, x)) m.

(** [execute_daemon_command], by the process [pid] at the clock reading [nanos]. *)
Definition execute_daemon_command (pid nanos : Z) (cmd : SessionCommand)
    : M (Session * EncryptedStream T) SessionResponse :=
  match cmd with
  | CmdExec command timeout_secs => on_session (exec_command nanos command timeout_secs)
  | CmdClipboardGet => on_session (clipboard_get nanos)
  | CmdClipboardSet text => on_session (clipboard_set nanos text)
  | CmdCapture _ format quality region display timeout_secs =>
    let* data := timeout_or (1000 * default 10 timeout_secs) (anyhow "screenshot request timed out")
      (on_session (request_screenshot pid nanos (mkCaptureOptions format quality region display))) in
    ret (capture_response data)
  | other =>
    let* st := get in
    let '(session, reply) := dispatch st.1 other in
    modify (fun st => (session, st.2)) ;;;
    let* '(resp, _) := lift reply in
    ret resp
  end.

(** [graceful_shutdown], up to the removal of the files. *)
Definition shutdown_stream : M (EncryptedStream T) unit :=
  quietly (send_message (Some (UMisc (Some (MCloseReason ""))))) ;;;
  context "closing encrypted transport" es_close.
End stream.

(** ** The service id is only touched by shells and executed commands *)

Section service.
Context {T : Type} `{Transport T} `{CryptoLib} `{ProtoCodec Message} `{Zstd}.
Context (v : option string).
Abbreviation has := (fun x : ExecState T => ex_service_id x = v).

Lemma on_stream_service {A} (m : M (EncryptedStream T) A) : triple has (on_stream m) (fun _ => has) has.
Proof. apply triple_zoom; done. Qed.
Lemma on_writer_service {A} (m : M UdsWriter A) : triple has (on_writer m) (fun _ => has) has.
Proof. apply triple_zoom; done. Qed.

Lemma push_file_command_service lf nanos local_path remote_path :
  triple has (push_file_command lf nanos local_path remote_path) (fun _ => has) has.
Proof.
  unfold push_file_command. eapply triple_bind; [apply on_stream_service|]. intros transfer.
  eapply triple_bind; [apply on_writer_service|]. intros u0.
  eapply triple_bind; [apply triple_threaded, triple_loop|].
  - intros last. unfold push_step.
    eapply triple_bind; [apply triple_zoom with (Q := fun _ st => has st.2); cbn|].
    + done.
    + done.
    + intros [|]; [|by apply triple_ret]. cbn.
      eapply triple_bind; [by apply triple_get with (Q := fun _ st => has st.2)|]. intros st.
      destruct (_ || _); [|by apply triple_ret].
      eapply triple_bind with (Q1 := fun _ st => has st.2); [|intros u; by apply triple_ret].
      eapply (triple_zoom_keeps _ _ _ (fun _ => has)); [|done|done].
      intros st1 Hst1. split; [exact Hst1|apply on_writer_service].
  - intros [u transfer1]. eapply triple_bind; [apply on_stream_service|]. intros u2. by apply triple_ret.
Qed.
End service.

(** ** The reconnect schedule *)

(** Connection attempts by script: how long each takes and what it gives; and the notices shown. *)
Section scripted.
Context {A : Type}.
Definition Script : Type := list (Z * Res A) * list SessionResponse.
Definition scripted_connect : M Script A := fun dl t s =>
  match s.1 with
  | [] => pending dl t s
  | (d, r) :: rest => (sleep d ;;; modify (fun s => (rest, s.2)) ;;; lift r) dl t s
  end.
Definition scripted_notify (r : SessionResponse) : M Script unit := modify (fun s => (s.1, s.2 ++ [r])).

Definition failing (fails : list (Z * Error)) : list (Z * Res A) := map (fun x => (x.1, Err x.2)) fails.
Definition attempts_took (fails : list (Z * Error)) : Z := foldr (fun x n => x.1 + n) 0 fails.
Definition waited (backoffs : list Z) : Z := foldr Z.add 0 backoffs.
Definition notices (total idx : nat) (backoffs : list Z) : list SessionResponse :=
  imap (fun i b => reconnecting_response (S (idx + i)) total b) backoffs.

Lemma notices_cons total idx b bs :
  notices total idx (b :: bs) = reconnecting_response (S idx) total b :: notices total (S idx) bs.
Proof.
  unfold notices. rewrite imap_cons. rewrite Nat.add_0_r. f_equal. apply imap_ext. intros i x _.
  cbn. by rewrite Nat.add_succ_r.
Qed.

Lemma retry_round total idx b bs last d r rest log t :
  0 <= b -> 0 <= d ->
  retry_from scripted_connect scripted_notify total idx (b :: bs) last None t ((d, r) :: rest, log) =
  match r with
  | Ok v => (Done v, t + b + d, (rest, log ++ [reconnecting_response (S idx) total b]))
  | Err e => retry_from scripted_connect scripted_notify total (S idx) bs (Some e) None (t + b + d)
               (rest, log ++ [reconnecting_response (S idx) total b])
  end.
Proof.
  intros Hb Hd. cbn [retry_from]. unfold bind at 1. cbn. unfold bind at 1.
  rewrite sleep_run by done. unfold bind at 1. unfold try, scripted_connect. cbn.
  unfold bind at 1. rewrite sleep_run by done. cbn. by destruct r.
Qed.

Lemma retry_script fails v dv rest total idx bs last log t :
  Forall (fun b => 0 <= b) bs -> Forall (fun x => 0 <= x.1) fails -> 0 <= dv ->
  (length fails < length bs)%nat ->
  retry_from scripted_connect scripted_notify total idx bs last None t
    (failing fails ++ (dv, Ok v) :: rest, log) =
  (Done v, t + waited (take (S (length fails)) bs) + attempts_took fails + dv,
   (rest, log ++ notices total idx (take (S (length fails)) bs))).
Proof.
  revert idx bs last log t. induction fails as [|[d e] fails IH]; intros idx bs last log t Hb Hf Hdv Hl;
    (destruct bs as [|b bs]; [cbn in Hl; lia|]); apply Forall_cons_1 in Hb as [Hb Hbs].
  - cbn [failing map app]. rewrite retry_round by done. cbn [length].
    rewrite firstn_cons, notices_cons, take_0. cbn.
    replace (t + (b + 0) + 0 + dv) with (t + b + dv) by lia. done.
  - apply Forall_cons_1 in Hf as [Hd Hf]. cbn in Hd, Hl. cbn [failing map app].
    rewrite retry_round by done. cbn [fst snd]. fold (failing fails). rewrite IH by (try done; lia).
    cbn [length]. rewrite !firstn_cons, notices_cons. cbn [waited attempts_took foldr fst].
    rewrite <- app_assoc. cbn [app]. f_equal. f_equal. unfold waited, attempts_took. lia.
Qed.

Lemma retry_exhausted fails rest total idx bs last log t :
  Forall (fun b => 0 <= b) bs -> Forall (fun x => 0 <= x.1) fails -> length fails = length bs ->
  retry_from scripted_connect scripted_notify total idx bs last None t (failing fails ++ rest, log) =
  (Fail (default (default (anyhow "reconnect failed") last) (snd <$> list.last fails)),
   t + waited bs + attempts_took fails, (rest, log ++ notices total idx bs)).
Proof.
  revert idx bs last log t. induction fails as [|[d e] fails IH]; intros idx bs last log t Hb Hf Hl;
    (destruct bs as [|b bs]; try (cbn in Hl; lia)).
  - cbn. rewrite app_nil_r. by replace (t + 0 + 0) with t by lia.
  - apply Forall_cons_1 in Hb as [Hb Hbs]. apply Forall_cons_1 in Hf as [Hd Hf]. cbn in Hd, Hl.
    cbn [failing map app]. rewrite retry_round by done. cbn [fst snd]. fold (failing fails).
    rewrite IH by (try done; lia). rewrite notices_cons, <- app_assoc. cbn [app].
    rewrite last_cons. replace (t + b + d + waited bs + attempts_took fails)
      with (t + waited (b :: bs) + attempts_took ((d, e) :: fails))
      by (unfold waited, attempts_took; cbn [foldr fst]; lia).
    by destruct (list.last fails).
Qed.
End scripted.

(** C35: a lost connection is retried on a fixed schedule.  [reconnect_with_retry] waits 1, 2, 4, 8,
    16 and 30 seconds before its attempts and stops at the first that succeeds; when all six fail
    it returns the last error, after 61 seconds of waiting.  A notice with the attempt's number
    precedes every wait. *)
Theorem reconnect_schedule (A : Type) (fails : list (Z * Error)) (log : list SessionResponse) t
    (rest : list (Z * Res A)) :
  Forall (fun x => 0 <= x.1) fails ->
  ((length fails < 6)%nat -> forall v dv, 0 <= dv ->
     run (reconnect_with_retry scripted_connect scripted_notify) t (failing fails ++ (dv, Ok v) :: rest, log) =
     (Done v, t + waited (take (S (length fails)) RECONNECT_BACKOFFS) + attempts_took fails + dv,
      (rest, log ++ notices 6 0 (take (S (length fails)) RECONNECT_BACKOFFS)))) /\
  (forall d e, 0 <= d -> length fails = 5%nat ->
     run (reconnect_with_retry scripted_connect scripted_notify) t (failing (fails ++ [(d, e)]) ++ rest, log) =
     (Fail e, t + 61000 + attempts_took fails + d, (rest, log ++ notices 6 0 RECONNECT_BACKOFFS))).
Proof.
  intros Hf. assert (Forall (fun b => 0 <= b) RECONNECT_BACKOFFS) as Hb by (repeat constructor; lia).
  split.
  - intros Hl v dv Hdv. by apply retry_script.
  - intros d e Hd Hl. unfold run, reconnect_with_retry, reconnect_with_retry_backoffs.
    rewrite retry_exhausted; [|done|apply Forall_app; split; [done|by repeat constructor]|].
    + rewrite last_snoc. cbn [fmap option_fmap option_map default from_option snd id].
      do 2 f_equal. unfold attempts_took. rewrite foldr_app. cbn [foldr fst].
      change (waited RECONNECT_BACKOFFS) with 61000.
      assert (forall l n, foldr (fun (x : Z * Error) n => x.1 + n) n l = foldr (fun x n => x.1 + n) 0 l + n) as E.
      { clear. intros l n. induction l as [|x l IH]; cbn; lia. }
      rewrite E. lia.
    + rewrite length_app, Hl. done.
Qed.

Lemma reconnect_schedule_witness :
  run (reconnect_with_retry (A := nat) scripted_connect scripted_notify) 0
    ([(10, Err ["refused"%string]); (20, Ok 7%nat)], []) =
  (Done 7%nat, 3030, ([], notices 6 0 [1000; 2000])).
Proof.
  destruct (reconnect_schedule nat [(10, ["refused"%string])] [] 0 []) as [H _].
  - repeat constructor. cbn. lia.
  - exact (H ltac:(cbn; lia) 7%nat 20 ltac:(lia)).
Defined.

(** ** Commands and the peer *)

(** The commands that drive the remote keyboard and mouse. *)
Definition is_input (cmd : SessionCommand) : bool :=
  match cmd with
  | CmdType _ | CmdKey _ | CmdClick _ _ _ _ | CmdDrag _ _ _ _ _ | CmdScroll _ _ _ | CmdMove _ _ => true
  | _ => false
  end.

(** Input commands are acknowledged but never sent.  On a connected session
    [execute_daemon_command] answers a keyboard or mouse command with success, and the messages
    [Session::dispatch] produced for it are dropped: the encrypted stream, and so the peer, is not
    touched. *)
Theorem input_never_sent `{Transport T} `{CryptoLib} `{ProtoCodec Message} `{Zstd} `{ImageLib Img}
    pid nanos cmd t session (stream : EncryptedStream T) :
  s_state session = Connected -> is_input cmd = true ->
  exists resp msgs, dispatch session cmd = (session, Ok (resp, msgs)) /\ sr_success resp = true /\
    run (execute_daemon_command pid nanos cmd) t (session, stream) = (Done resp, t, (session, stream)) /\
    match cmd with
    | CmdKey _ | CmdClick _ _ _ _ | CmdDrag _ _ _ _ _ | CmdMove _ _ => msgs <> []
    | CmdType text => text <> ""%string -> msgs <> []
    | _ => True
    end.
Proof.
  intros Hc Hi. pose proof (require_connected_ok session Hc) as Hr.
  destruct cmd; try discriminate Hi; cbn [dispatch execute_daemon_command];
    unfold dispatch_type, dispatch_key, dispatch_click, dispatch_drag, dispatch_scroll, dispatch_move;
    rewrite Hr; cbn [mbind result_bind]; eexists _, _; (split; [reflexivity|]); (split; [reflexivity|]);
    (split; [unfold run, bind; cbn [get modify dispatch fst];
       unfold dispatch_type, dispatch_key, dispatch_click, dispatch_drag, dispatch_scroll, dispatch_move;
       rewrite Hr; reflexivity|]); try done.
  - intros Ht. destruct text as [|c s]; [done|]. unfold chars. cbn. done.
  - by destruct double.
Qed.

Lemma input_never_sent_witness :
  let session := mkSession Connected (Some (mkConnectionConfig "p" None None)) None in
  let s := es_new (mkNet [] Never [] [] false) [] 0 in
  exists resp, run (@execute_daemon_command NetTransport _ toy_crypto (toy_codec MessageUnion) toy_zstd
    _ toy_image 1 2 (CmdKey "a")) 3 (session, s) = (Done resp, 3, (session, s)).
Proof.
  intros session s.
  destruct (@input_never_sent NetTransport _ toy_crypto (toy_codec MessageUnion) toy_zstd _ toy_image
    1 2 (CmdKey "a") 3 session s) as (resp & msgs & _ & _ & H & _).
  - reflexivity.
  - reflexivity.
  - exists resp. exact H.
Defined.

(** ** A shell to its end *)

Section shell_run.
Context (C : CryptoLib) (P : ProtoCodec Message) (Zs : Zstd).
Abbreviation St := (ShellState (T := NetTransport)).
Abbreviation recv_shell := (in_exec (on_stream recv_terminal_data) : M St TerminalEvent).

Lemma recv_shell_facts dl t (st : St) o t' st' :
  recv_shell dl t st = (o, t', st') ->
  st'.2 = st.2 /\ ex_service_id st'.1 = ex_service_id st.1 /\ (ex_pending st'.1 <= ex_pending st.1)%nat /\
  (forall ev, o = Done ev -> (ex_pending st'.1 < ex_pending st.1)%nat).
Proof.
  unfold in_exec, on_stream, zoom. intros E.
  pose proof (recv_terminal_data_shrinks TERMINAL_RESPONSE_TIMEOUT dl t (ex_stream st.1)) as Hs.
  unfold recv_terminal_data in E.
  destruct (recv_terminal_data_with_timeout _ dl t (ex_stream st.1)) as [[o1 t1] x] eqn:E1.
  simplify_eq. split_and!; try done. intros ev ->. by apply recv_terminal_data_uses in E1.
Qed.

Lemma recv_shell_timely : timely recv_shell.
Proof. apply timely_zoom, timely_zoom. by apply recv_terminal_data_timely. Qed.
Lemma recv_shell_spinless : spinless recv_shell.
Proof. apply spinless_zoom, spinless_zoom, recv_terminal_data_spinless. Qed.

(** Waiting for the next event always ends: an event of the terminal uses up a message, and a
    line of the client is only announced when there is one. *)
Lemma wp_shell_event t (st : St) Q (R : Error -> Z -> St -> Prop) :
  (forall ev t' st', st'.2 = st.2 -> (ex_pending st'.1 < ex_pending st.1)%nat -> Q (Some (Ok ev)) t' st') ->
  (forall e t' st', st'.2 = st.2 -> Q (Some (Err e)) t' st') ->
  (forall t' st', next_line_at st.2 <> None -> st'.2 = st.2 ->
     (ex_pending st'.1 <= ex_pending st.1)%nat -> Q None t' st') ->
  wp (match next_line_at st.2 with
      | Some a => race a recv_shell
      | None => let* r := try recv_shell in ret (Some r)
      end) t st Q R.
Proof.
  intros Hok Herr Hline. destruct (next_line_at st.2) as [a|].
  - unfold race. change (wp (timeout (Z.max 0 (a - t)) recv_shell) t st Q R).
    apply wp_timeout; [lia|apply recv_shell_timely|apply recv_shell_spinless|..].
    + intros ev t' st' _ E. apply recv_shell_facts in E as (? & ? & ? & H). eauto.
    + intros e t' st' _ E. apply recv_shell_facts in E as (? & ? & ? & H). eauto.
    + intros st' E. apply recv_shell_facts in E as (? & ? & ? & H). eauto.
  - apply wp_bind, wp_try. unfold wp.
    assert (takes 15000 recv_shell) as B.
    { intros t0 s0. pose proof (recv_terminal_data_takes 15000 ltac:(lia) t0 (ex_stream s0.1)) as B.
      unfold run, in_exec, on_stream, zoom in *. unfold recv_terminal_data.
      change TERMINAL_RESPONSE_TIMEOUT with 15000.
      by destruct (recv_terminal_data_with_timeout 15000 None t0 (ex_stream s0.1)) as [[o t1] x]. }
    specialize (B t st). unfold run in *.
    destruct (recv_shell None t st) as [[[ev|e| | |] t'] st'] eqn:E; try done;
      apply recv_shell_facts in E as (? & ? & ? & H).
    + apply wp_ret, Hok; eauto.
    + apply wp_ret, Herr; eauto.
Qed.

Lemma wp_set_service_shell id t (st : St) Q (R : Error -> Z -> St -> Prop) :
  (forall st', ex_service_id st'.1 = id -> st'.2 = st.2 -> Q tt t st') ->
  wp (in_exec (set_service id)) t st Q R.
Proof. intros HQ. by apply HQ. Qed.

Lemma shell_step_wp tid t (st : St) :
  wp (shell_step tid tt) t st
    (fun r _ st' => match r with
       | inl _ => (shell_left st' < shell_left st)%nat
       | inr _ => ex_service_id st'.1 = None
       end) (fun _ _ _ => True).
Proof.
  unfold shell_step. apply wp_bind. change (wp get t st ?Q ?R) with (Q st t st). cbv beta.
  apply wp_bind, wp_shell_event.
  - intros [data|c|m] t' st' H2 Hp.
    + apply wp_bind. unfold wp, run, in_exec, on_writer, zoom, uds_write.
      destruct (uw_faults (ex_writer st'.1)) as [|[e|] fs]; try done; cbn;
        unfold shell_left, ex_pending in *; cbn in *; rewrite H2; lia.
    + apply wp_bind, wp_set_service_shell. intros st2 Hs _. by apply wp_ret.
    + apply wp_bind, wp_set_service_shell. intros st2 Hs _. by apply wp_ret.
  - intros e t' st' H2. apply wp_bind, wp_set_service_shell. intros st2 Hs _. by apply wp_ret.
  - intros t' st' Hn H2 Hp. destruct (ud_lines st.2) as [|[a line] rest] eqn:El.
    + apply wp_bind. apply wp_zoom, wp_bind, wp_close_quietly. intros s1 _.
      apply wp_set_service. intros s2 Hs2. by apply wp_ret.
    + apply wp_bind. unfold wp at 1. unfold run. cbn [modify].
      apply wp_bind, wp_zoom, wp_zoom. unfold wp at 1, run.
      pose proof (send_terminal_data_instant tid (as_bytes line) None t' (ex_stream st'.1)) as Hi.
      pose proof (send_terminal_data_keeps tid (as_bytes line) None t' (ex_stream st'.1)) as Hk.
      cbn [fst]. destruct (send_terminal_data tid (as_bytes line) None t' (ex_stream st'.1))
        as [[[u|e| | |] t2] x]; try done.
      apply wp_ret. unfold shell_left, ex_pending in *. cbn in *. rewrite El. cbn. lia.
Qed.

Lemma shell_loop_wp tid t (st : St) :
  wp (loop shell_left (shell_step tid) tt) t st (fun _ _ st' => ex_service_id st'.1 = None)
    (fun _ _ _ => True).
Proof.
  apply (wp_loop _ _ (fun _ _ _ => True)); [|done]. intros [] t1 st1 _.
  eapply wp_mono; [apply shell_step_wp| |done]. intros [u|u] t' st' H'; [|done]. by split.
Qed.
End shell_run.

Lemma shell_session_wp (C : CryptoLib) (P : ProtoCodec Message) (Zs : Zstd) t
    (st : ShellState (T := NetTransport)) :
  wp shell_session t st (fun _ _ st' => ex_service_id st'.1 = None) (fun _ _ _ => True).
Proof.
  assert (forall reply err t (st : ShellState (T := NetTransport)) (Q : TerminalInfo -> Z -> _ -> Prop),
    wp (in_exec (quietly (on_writer (send_response (resp_error reply)))) ;;; fail (anyhow err)) t st Q
      (fun _ _ _ => True)) as Hrefuse.
  { intros reply err t0 st0 Q. apply wp_bind, wp_zoom, wp_bind, wp_try, wp_zoom.
    unfold wp, run, send_response, uds_write.
    by destruct (uw_faults (ex_writer st0.1)) as [|[e|] fs]. }
  unfold shell_session. apply wp_bind, wp_timeout; [done| | |..].
  { apply timely_zoom, timely_zoom, open_terminal_timely. }
  { apply spinless_zoom, spinless_zoom, open_terminal_spinless. }
  - intros info t1 st1 _ _. apply wp_bind, wp_ret, wp_bind, wp_set_service_shell. intros st2 _ _.
    apply wp_bind, wp_zoom, wp_zoom. unfold wp at 1, run, send_response, uds_write.
    destruct (uw_faults (ex_writer st2.1)) as [|[e|] fs]; try done; apply shell_loop_wp.
  - intros e t1 st1 _ _. apply wp_bind, Hrefuse.
  - intros st1 _. apply wp_bind, Hrefuse.
Qed.

(** A shell always comes to an end.  Whatever the client types and the peer answers, once the
    peer sends nothing more [shell_session] returns: it never blocks for ever, not even when the
    client stays connected; and when it returns without an error the service id is cleared. *)
Theorem shell_session_ends (C : CryptoLib) (P : ProtoCodec Message) (Zs : Zstd) t
    (st : ShellState (T := NetTransport)) :
  match run shell_session t st with
  | (Done _, _, st') => ex_service_id st'.1 = None
  | (Fail _, _, _) => True
  | _ => False
  end.
Proof. apply shell_session_wp. Qed.

(** An idle shell is cut off after fifteen seconds.  When neither the client nor the terminal
    says anything for 15 seconds, the receive timeout ends the shell although both ends are still
    there; the daemon forgets the service id and the peer is not told to close the terminal. *)
Theorem shell_cut_by_silence (C : CryptoLib) (L : CryptoLaws C) (P : ProtoCodec Message) (PL : ProtoLaws P)
    (Zs : Zstd) tid t (st : ShellState (T := NetTransport)) noise late :
  let s := ex_stream st.1 in
  net_end (es_inner s) = Never -> terminal_noise (t + 15000) noise ->
  match late with [] => True | (a, _) :: _ => t + 15000 < a end ->
  delivers_msgs C P (noise ++ late) s ->
  match next_line_at st.2 with Some a => t + 15000 <= a | None => True end ->
  exists st', run (loop shell_left (shell_step tid) tt) t st = (Done tt, t + 15000, st') /\
    ex_service_id st'.1 = None /\
    net_out (es_inner (ex_stream st'.1)) = net_out (es_inner s) /\
    uw_sent (ex_writer st'.1) = uw_sent (ex_writer st.1).
Proof.
  intros s He Hn Hlate Hd Hline.
  assert (forall dl, match dl with Some o => t + 15000 <= o | None => True end ->
    exists x, in_exec (on_stream recv_terminal_data) dl t st =
      (Fail (add_context "receiving terminal data" (terminal_response_timeout_error 15000)), t + 15000,
       (mkExecState x (ex_service_id st.1) (ex_writer st.1), st.2)) /\
      net_out (es_inner x) = net_out (es_inner s)) as Hrecv.
  { intros dl Hdl. destruct (recv_terminal_response_times_out C P 15000 noise late t s ltac:(lia) Hn Hlate Hd He dl Hdl)
      as (x & E & _ & _ & Ho & _). exists x. split; [|done].
    unfold in_exec, on_stream, zoom, recv_terminal_data, recv_terminal_data_with_timeout, bind, context.
    change TERMINAL_RESPONSE_TIMEOUT with 15000. fold s. by rewrite E. }
  unfold run, loop. rewrite iter_S. unfold bind at 1. unfold shell_step. unfold bind at 1. cbn [get].
  unfold bind at 1. destruct (next_line_at st.2) as [a|].
  - unfold race, timeout.
    replace (t + Z.max 0 (a - t)) with a by lia.
    destruct (Hrecv (Some a) Hline) as (x & -> & Ho).
    eexists. split; [reflexivity|]. done.
  - destruct (Hrecv None I) as (x & E & Ho). unfold bind at 1, try. rewrite E.
    eexists. split; [reflexivity|]. done.
Qed.

Lemma shell_cut_by_silence_witness :
  let s := es_new (mkNet [] Never [] [] false) [x01] 0 in
  let st := (mkExecState s (Some "svc"%string) (mkUdsWriter [] []), mkUdsReader [] None) in
  exists st', run (loop shell_left (@shell_step _ _ toy_crypto (toy_codec MessageUnion) toy_zstd 3) tt) 7 st
    = (Done tt, 15007, st') /\ ex_service_id st'.1 = None.
Proof.
  intros s st.
  destruct (shell_cut_by_silence toy_crypto toy_crypto_laws (toy_codec MessageUnion)
    (toy_codec_laws MessageUnion) toy_zstd 3 7 st [] []) as (st' & E & Hs & _).
  - reflexivity.
  - constructor.
  - exact I.
  - split; [reflexivity|constructor].
  - exact I.
  - exists st'. split; [exact E|exact Hs].
Defined.
