(* ===== verification/PushRun.v ===== *)
(** * A push from its start to its end (src/daemon.rs, src/file_transfer.rs)

    [push_file_command] against a peer that answers the announcement: what is sent, what a receiver
    makes of it, what the client is told, and when the command returns.  A peer that does not
    answer blocks it for ever. *)

From Stdlib Require Import ZArith Lia.
From Stdlib Require Import Strings.Byte Strings.Ascii Strings.String.
From stdpp Require Import base list option numbers.
From S2P Require Import Prelude RustStr Async Transport Crypto Json Session Proto Inbox.
From S2P Require Import Terminal FileTransfer Exec Daemon.

Local Open Scope Z_scope.
Local Open Scope async_scope.

(** ** What the peer answers *)

(** The peer answers the announcement with a digest of the file it has, or says where to start. *)
Inductive Answer : Type :=
| AnswerDigest (d : FileTransferDigest)
| AnswerConfirm (c : FileTransferSendConfirmRequest).

Definition answer_msg (x : Answer) : Message :=
  match x with
  | AnswerDigest d => Some (UFileResponse (Some (FRDigest d)))
  | AnswerConfirm c => Some (UFileAction (Some (FASendConfirm c)))
  end.
Definition answer_event (x : Answer) : FileTransferEvent :=
  match x with AnswerDigest d => EvDigest d | AnswerConfirm c => EvConfirm c end.
Definition answer_for (job : Z) (x : Answer) : Prop :=
  match x with AnswerDigest d => fd_id d = job | AnswerConfirm c => fsc_id c = job end.

(** The byte the upload starts at, and whether there is one at all. *)
Definition start_of (x : Answer) (total : Z) : Z :=
  match x with
  | AnswerDigest d => resume_offset d total
  | AnswerConfirm c =>
    match fsc_union c with
    | Some (FCSkip true) => total
    | Some (FCOffsetBlk offset) => Z.min offset total
    | _ => 0
    end
  end.
Definition skips (x : Answer) : bool :=
  match x with
  | AnswerConfirm c => match fsc_union c with Some (FCSkip true) => true | _ => false end
  | AnswerDigest _ => false
  end.
(** A size or an offset the wire format admits. *)
Definition answer_ok (x : Answer) : Prop :=
  match x with
  | AnswerDigest d => 0 <= fd_transferred_size d
  | AnswerConfirm c => match fsc_union c with Some (FCOffsetBlk offset) => 0 <= offset | _ => True end
  end.

(** What is said back to the answer. *)
Definition confirmation (job total : Z) (x : Answer) : list Message :=
  match x with
  | AnswerDigest d =>
    [Some (UFileAction (Some (FASendConfirm
       (mkFileTransferSendConfirmRequest job (fd_file_num d) (Some (FCOffsetBlk (start_of x total)))))))]
  | AnswerConfirm _ => []
  end.

Definition announcement (job total mtime : Z) (target : RemoteTarget) : list Message :=
  [receive_request job total mtime target;
   Some (UFileResponse (Some (FRDigest (mkFileTransferDigest job 0 mtime total false false 0 true))))].
Definition completion (job : Z) : Message :=
  Some (UFileResponse (Some (FRDone (mkFileTransferDone job 0)))).

Lemma start_of_range x total : 0 <= total -> answer_ok x -> 0 <= start_of x total <= total.
Proof.
  intros Ht Hx. destruct x as [d|c]; cbn in *.
  - unfold resume_offset, u32_max. destruct (fd_is_identical d); lia.
  - destruct (fsc_union c) as [[[]|o]|]; cbn in *; lia.
Qed.

(** ** A receiver *)

(** The file of a receiver that has [have] and appends the blocks of the job. *)
Fixpoint received `{Zstd} (job : Z) (have : bytes) (l : list Message) : Res bytes :=
  match l with
  | [] => Ok have
  | Some (UFileResponse (Some (FRBlock b))) :: l' =>
    if fb_id b =? job
    then data ← expand (fb_data b, fb_compressed b); received job (have ++ data) l'
    else received job have l'
  | _ :: l' => received job have l'
  end.

Lemma received_blocks (Zs : Zstd) {ZL : ZstdLaws Zs} job have cs bs tail :
  Forall2 (fun c b => compress_chunk c = Ok b) cs bs ->
  received job have (map (block_message job) bs ++ tail) = received job (have ++ concat cs) tail.
Proof.
  intros Hb. revert have. induction Hb as [|c [data flag] cs bs Hcb _ IH]; intros have; cbn [map app concat].
  - by rewrite app_nil_r.
  - cbn [block_message received fb_id fb_data fb_compressed fst snd]. rewrite Z.eqb_refl.
    apply (compress_expand Zs) in Hcb as [-> _]. cbn [mbind result_bind]. by rewrite IH, app_assoc.
Qed.

(** ** What the client is told *)

(** The progress after a chunk that went out as [b]. *)
Definition progress_after (p : PushProgress) (x : bytes * (bytes * bool)) : PushProgress :=
  mkPushProgress (pp_sent_bytes p + Z.of_nat (length x.1)) (pp_total_bytes p)
    (pp_transferred_bytes p + Z.of_nat (length x.2.1)) (pp_resumed_bytes p).

(** A report when everything is sent, or a mebibyte more than at the last report. *)
Fixpoint push_reports (p : PushProgress) (last : Z) (l : list (bytes * (bytes * bool))) : list PushProgress :=
  match l with
  | [] => []
  | x :: l' =>
    let p' := progress_after p x in
    if (pp_sent_bytes p' =? pp_total_bytes p') || (1024 * 1024 <=? Z.max 0 (pp_sent_bytes p' - last))
    then p' :: push_reports p' (pp_sent_bytes p') l'
    else push_reports p' last l'
  end.

(** The reports grow, stay within the file, and end with everything sent. *)
Lemma push_reports_spec l p last :
  Forall (fun x => x.1 <> []) l -> pp_sent_bytes p + total_length (map fst l) = pp_total_bytes p ->
  Forall (fun q => pp_total_bytes q = pp_total_bytes p /\ pp_sent_bytes p < pp_sent_bytes q <= pp_total_bytes p)
    (push_reports p last l) /\
  (l <> [] -> exists q, list.last (push_reports p last l) = Some q /\ pp_sent_bytes q = pp_total_bytes p).
Proof.
  revert p last. induction l as [|x l IH]; intros p last Hne Ht; [done|].
  apply Forall_cons_1 in Hne as [Hx Hne]. cbn [map] in Ht. rewrite total_length_cons in Ht.
  assert (0 < Z.of_nat (length x.1)) as Hpos by (destruct x.1; [done|cbn; lia]).
  assert (0 <= total_length (map fst l)) as Hl by (rewrite total_length_concat; lia).
  cbn [push_reports]. set (p' := progress_after p x). set (n := pp_sent_bytes p') in *.
  assert (n = pp_sent_bytes p + Z.of_nat (length x.1)) as Hn by done.
  assert (forall last', Forall (fun q => pp_total_bytes q = pp_total_bytes p /\
    pp_sent_bytes p < pp_sent_bytes q <= pp_total_bytes p) (push_reports p' last' l) /\
    (l <> [] -> exists q, list.last (push_reports p' last' l) = Some q /\ pp_sent_bytes q = pp_total_bytes p)) as IH'.
  { intros last'. destruct (IH p' last' Hne) as [H1 H2]; [change (pp_total_bytes p') with (pp_total_bytes p); lia|].
    split; [|exact H2]. eapply Forall_impl; [|exact H1]. cbn. intros q [-> ?]. split; [done|].
    change (pp_total_bytes p') with (pp_total_bytes p) in *. lia. }
  destruct (_ || _) eqn:Ec; destruct (IH' last) as [H1 H2]; destruct (IH' n) as [H3 H4].
  - split; [constructor; [split; [done|lia]|done]|]. intros _. destruct l as [|y l].
    + exists p'. cbn in *. split; [done|]. fold n. lia.
    + destruct H4 as (q & Hq & Hs); [done|]. exists q. split; [|done].
      destruct (push_reports p' n (y :: l)); [done|exact Hq].
  - split; [done|]. intros _. destruct l as [|y l]; [|by apply H2].
    apply orb_false_iff in Ec as [Ec _]. cbn in Ht. rd_bool. fold n in Ec.
    change (pp_total_bytes p') with (pp_total_bytes p) in Ec. lia.
Qed.

Lemma zip_fst {A B} (f : A -> B -> Prop) l k : Forall2 f l k -> map fst (zip l k) = l.
Proof. intros Hf. apply fst_zip. by rewrite (Forall2_length Hf). Qed.

Lemma push_reports_resumed l p last :
  Forall (fun q => pp_resumed_bytes q = pp_resumed_bytes p) (push_reports p last l).
Proof.
  revert p last. induction l as [|x l IH]; intros p last; [constructor|]. cbn [push_reports].
  destruct (_ || _); [constructor; [done|]|]; apply (IH (progress_after p x)).
Qed.

Definition report_line (remote_path : string) (p : PushProgress) : UdsItem :=
  ULine (push_progress_response remote_path p).

(** ** The run *)

Section run.
Context (C : CryptoLib) {L : CryptoLaws C} (P : ProtoCodec Message) {PL : ProtoLaws P}
  (Zs : Zstd) {ZL : ZstdLaws Zs}.
Context (lf : LocalFile) (nanos : Z) (local_path remote_path : string) (s0 : ExecState NetTransport).
Abbreviation St := (ExecState NetTransport).
Abbreviation job := (new_job_id nanos).

(** The messages [l] went out, and the client was told the reports [rs]. *)
Record pushing (l : list Message) (rs : list PushProgress) (s : St) : Prop := {
  pu_sent : has_sent C P (ex_stream s0) l (ex_stream s);
  pu_service : ex_service_id s = ex_service_id s0;
  pu_writer : ex_writer s = mkUdsWriter (uw_sent (ex_writer s0) ++ map (report_line remote_path) rs) []
}.

Lemma push_report_run p l rs t s : pushing l rs s ->
  exists s', on_writer (send_response (push_progress_response remote_path p)) None t s = (Done tt, t, s') /\
    pushing l (rs ++ [p]) s' /\ ex_stream s' = ex_stream s.
Proof.
  intros [Hs Hi Hw]. destruct s as [x i w]. cbn in Hw. subst w. eexists. split; [reflexivity|].
  split; [|done]. constructor; cbn; try done. by rewrite map_app, app_assoc.
Qed.

(** *** The blocks *)

Lemma chunk_fits chunk b : compress_chunk chunk = Ok b -> chunk_sendable P Zs job chunk -> fits P (block_message job b).
Proof. unfold chunk_sendable, block_item, fits. intros ->. done. Qed.

Lemma sendable_compresses chunk : chunk_sendable P Zs job chunk -> exists b, compress_chunk chunk = Ok b.
Proof. unfold chunk_sendable, block_item. destruct (compress_chunk chunk); [eauto|done]. Qed.

(** One round that reads a chunk. *)
Lemma push_step_chunk x c f' p l rs last t s :
  pt_skip_transfer p = false -> pt_job_id p = job -> pushing l rs s ->
  file_read BLOCK (pt_file p) = (Ok (x :: c), f') -> chunk_sendable P Zs job (x :: c) ->
  exists b s' rs' last', compress_chunk (x :: c) = Ok b /\
    let p' := advanced p f' (Z.of_nat (length (x :: c))) (Z.of_nat (length b.1)) in
    push_step remote_path last None t (p, s) = (Done (inl last'), t, (p', s')) /\
    pushing (l ++ [block_message job b]) (rs ++ rs') s' /\ same_inbox (ex_stream s) (ex_stream s') /\
    forall tail, rs' ++ push_reports (progress p') last' tail = push_reports (progress p) last ((x :: c, b) :: tail).
Proof.
  intros Hs Hj Hp Hr Hc. destruct (sendable_compresses _ Hc) as [b Hb]. exists b.
  destruct (has_sent_send C P (ex_stream s0) l (block_message job b) None t (ex_stream s) (pu_sent _ _ _ Hp)
    (chunk_fits _ _ Hb Hc)) as (y & Ey & Hy & Hin).
  set (p' := advanced p f' _ _).
  set (s1 := mkExecState y (ex_service_id s) (ex_writer s)).
  assert (pushing (l ++ [block_message job b]) rs s1) as Hp1 by (by destruct Hp).
  assert (send_next_block None t (p, ex_stream s) = (Done true, t, (p', y))) as Ek.
  { unfold send_next_block, bind. cbn [get fst snd]. rewrite Hs, Hr. cbn. rewrite Hb. destruct b as [data flag]. cbn.
    unfold context, zoom, send_message. cbn [snd]. rewrite Hj. unfold block_message in Ey. cbn [fst snd] in Ey.
    rewrite Ey. unfold p', advanced. by rewrite Hs, Hj. }
  destruct (push_report_run (progress p') _ rs t s1 Hp1) as (s2 & E2 & Hp2 & Hs2).
  assert (forall k : bool -> M (PushTransfer * St) (Z + unit),
    bind (zoom (fun st : PushTransfer * St => (st.1, ex_stream st.2))
            (fun x st => (x.1, mkExecState x.2 (ex_service_id st.2) (ex_writer st.2))) send_next_block) k None t (p, s)
    = k true None t (p', s1)) as Ez.
  { intros k. unfold bind, zoom. cbn [fst snd]. by rewrite Ek. }
  cbn [push_reports]. change (progress_after (progress p) (x :: c, b)) with (progress p').
  destruct ((pp_sent_bytes (progress p') =? pp_total_bytes (progress p')) ||
            (1024 * 1024 <=? Z.max 0 (pp_sent_bytes (progress p') - last))) eqn:Ec.
  - exists s2, [progress p'], (pp_sent_bytes (progress p')). split_and!; [done| |done|by rewrite Hs2|done].
    unfold push_step. rewrite Ez. unfold bind at 1. cbn [get fst]. rewrite Ec.
    unfold bind, zoom. cbn [snd]. rewrite E2. done.
  - exists s1, [], last. rewrite app_nil_r. split_and!; [done| |done|done|done].
    unfold push_step. rewrite Ez. unfold bind at 1. cbn [get fst]. by rewrite Ec.
Qed.

Lemma push_loop_run fuel cs p l rs last t s :
  pt_skip_transfer p = false -> pt_job_id p = job -> pushing l rs s ->
  read_chunks fuel (pt_file p) = Some cs -> Forall (chunk_sendable P Zs job) cs ->
  Forall (fun r => is_ok r = true) (fh_reads (pt_file p)) ->
  exists bs f' s', Forall2 (fun c b => compress_chunk c = Ok b) cs bs /\
    iter fuel (push_step remote_path) last None t (p, s) =
      (Done tt, t, (advanced p f' (total_length cs) (total_length (map fst bs)), s')) /\
    pushing (l ++ map (block_message job) bs) (rs ++ push_reports (progress p) last (zip cs bs)) s' /\
    same_inbox (ex_stream s) (ex_stream s').
Proof.
  revert cs p l rs last s. induction fuel as [|fuel IH]; intros cs p l rs last s Hs Hj Hp Hr Hc Hok; [done|].
  cbn [read_chunks] in Hr.
  destruct (file_read_ok BLOCK (pt_file p) BLOCK_pos Hok) as (b & f' & E & _ & _ & _ & _ & Hok').
  rewrite E in Hr. rewrite iter_S. destruct b as [|x c].
  - simplify_eq. exists [], f', s. split_and!; [constructor| |by rewrite !app_nil_r|done].
    unfold bind at 1, push_step, bind at 1, zoom. cbn [fst snd]. unfold send_next_block, bind. cbn [get fst snd].
    rewrite Hs, E. cbn. unfold advanced. cbn. rewrite !Z.add_0_r, Hs. by destruct s.
  - apply fmap_Some in Hr as (cs' & Hr & ->). apply Forall_cons_1 in Hc as [Hc Hcs].
    destruct (push_step_chunk x c f' p l rs last t s Hs Hj Hp E Hc) as (b & s1 & rs1 & last1 & Hb & E1 & Hp1 & Hin & Hrep).
    destruct (IH cs' (advanced p f' (Z.of_nat (length (x :: c))) (Z.of_nat (length b.1))) _ _ last1 s1 Hs Hj Hp1 Hr Hcs Hok') as (bs & f2 & s2 & Hbs & E2 & Hp2 & Hin2).
    exists (b :: bs), f2, s2. split; [by constructor|]. split.
    { unfold bind at 1. rewrite E1, E2. cbn [map]. rewrite !total_length_cons. unfold advanced.
      cbn [pt_sent_bytes pt_transferred_bytes]. by rewrite !Z.add_assoc. }
    split.
    + cbn [map zip zip_with]. rewrite <- app_assoc in Hp2. cbn [app] in Hp2.
      rewrite <- app_assoc, Hrep in Hp2. exact Hp2.
    + by eapply same_inbox_trans.
Qed.

(** *** The announcement and the answer *)

Context (content : bytes) (mtime : option Z) (reads : list (Res nat)) (target : RemoteTarget).
Context (noise : inbox) (a : Z) (x : Answer) (tail : inbox).
Abbreviation total := (Z.of_nat (length content)).
Abbreviation start := (start_of x total).
Definition hello : list Message :=
  announcement job total (default 0 mtime) target ++ confirmation job total x.

(** The file can be read, the peer answers, and what is sent fits into frames. *)
Record push_ready : Prop := {
  pr_metadata : lf_metadata lf = Ok (mkMetadata true total mtime);
  pr_open : lf_open lf = Ok (mkFileHandle content 0 reads);
  pr_seek : lf_seek lf = Ok tt;
  pr_reads : Forall (fun r => is_ok r = true) reads;
  pr_target : parse_remote_target remote_path local_path = Ok target;
  pr_noise : Forall (fun m => file_noise C P job (seen m.2)) noise;
  pr_answer : answer_for job x;
  pr_answer_ok : answer_ok x;
  pr_hello : Forall (fits P) hello;
  pr_chunks : Forall (chunk_sendable P Zs job)
    (file_chunks (mkFileHandle content (Z.to_nat start) reads));
  pr_completion : fits P (completion job)
}.

Definition begun : PushTransfer :=
  mkPushTransfer local_path remote_path (mkFileHandle content (Z.to_nat start) reads) total start 0 start job (skips x).
Definition answered_at (t : Z) : Z := Z.max (arrival t noise) a.

Lemma answer_is_event : answer_for job x -> is_event C P job (answer_msg x) (answer_event x).
Proof. destruct x as [d|c]; unfold is_event; cbn; intros ->; by rewrite Z.eqb_refl. Qed.

Lemma await_run t y :
  push_ready -> has_sent C P (ex_stream s0) (announcement job total (default 0 mtime) target) y ->
  delivers_msgs C P (noise ++ (a, Some (answer_msg x)) :: tail) y ->
  exists y', await_confirmation job total None t y = (Done (start, skips x), answered_at t, y') /\
    has_sent C P (ex_stream s0) hello y' /\ delivers_msgs C P tail y'.
Proof.
  intros Hr Hs Hd.
  destruct (recv_file_event_at C P (has_sent C P (ex_stream s0) (announcement job total (default 0 mtime) target))
    job None noise a (Some (answer_msg x)) (answer_event x) tail t y (fun i l t s => has_sent_recv C P _ _ i l t s))
    as (y1 & E & Hd1 & Hs1); try done.
  { eapply Forall_impl; [|exact (pr_noise Hr)]. by intros m Hm. }
  { apply answer_is_event, (pr_answer Hr). }
  pose proof (start_of_range x total ltac:(lia) (pr_answer_ok Hr)) as Hst.
  pose proof (pr_hello Hr) as Hfit. unfold hello in *. apply Forall_app in Hfit as [_ Hfit].
  unfold await_confirmation. destruct x as [d|c]; cbn [answer_event confirmation skips] in *.
  - apply Forall_cons_1 in Hfit as [Hfit _].
    destruct (has_sent_send C P _ _ _ None (answered_at t) y1 Hs1 Hfit) as (y2 & E2 & Hs2 & Hin).
    exists y2. split_and!; [|done|by eapply delivers_same_inbox].
    apply loop_once. unfold bind at 1, context at 1. rewrite E.
    unfold bind at 1, confirm_upload_from_remote_digest, bind at 1, send_confirm, send_message, context.
    assert (wrap 32 (resume_offset d total) = resume_offset d total) as ->.
    { unfold wrap. apply Z.mod_small. cbn in Hst. split; [lia|]. unfold resume_offset, u32_max.
      destruct (fd_is_identical d); lia. }
    change (Z.max (arrival t noise) a) with (answered_at t). cbn [start_of] in E2. rewrite E2. done.
  - exists y1. rewrite app_nil_r. split_and!; [|done|done].
    apply loop_once. unfold bind at 1, context at 1. rewrite E. cbn [start_of].
    by destruct (fsc_union c) as [[[]|o]|].
Qed.

Lemma begin_run t :
  push_ready -> pushing [] [] s0 ->
  delivers_msgs C P (noise ++ (a, Some (answer_msg x)) :: tail) (ex_stream s0) ->
  exists s', on_stream (begin_push lf nanos local_path remote_path) None t s0 = (Done begun, answered_at t, s') /\
    pushing hello [] s' /\ delivers_msgs C P tail (ex_stream s').
Proof.
  intros Hr [Hs Hi Hw] Hd. pose proof (pr_hello Hr) as Hfit. unfold hello in Hfit.
  apply Forall_app in Hfit as [Hfit _]. apply Forall_cons_1 in Hfit as [Hf1 Hfit].
  apply Forall_cons_1 in Hfit as [Hf2 _].
  destruct (has_sent_send C P _ _ _ None t _ Hs Hf1) as (y1 & E1 & Hs1 & Hin1).
  destruct (has_sent_send C P _ _ _ None t _ Hs1 Hf2) as (y2 & E2 & Hs2 & Hin2).
  destruct (await_run t y2 Hr Hs2) as (y3 & E3 & Hs3 & Hd3).
  { eapply delivers_same_inbox; [exact Hin2|]. by eapply delivers_same_inbox. }
  exists (mkExecState y3 (ex_service_id s0) (ex_writer s0)). split; [|by split].
  unfold on_stream, zoom, begin_push. rewrite (pr_metadata Hr), (pr_target Hr), (pr_open Hr), (pr_seek Hr).
  unfold bind at 1. cbn [map_err lift ret md_is_file negb md_len md_modified].
  unfold bind at 1. cbn [lift ret]. unfold bind at 1, context at 1, send_message. rewrite E1.
  unfold bind at 1, context at 1, send_local_digest, send_message. rewrite E2.
  unfold bind at 1. rewrite E3. unfold bind at 1. cbn [map_err lift ret].
  unfold begun. destruct (Z.ltb_spec 0 start) as [Hlt|Hge].
  - unfold bind. by cbn.
  - pose proof (start_of_range x total ltac:(lia) (pr_answer_ok Hr)) as Hst. unfold bind. cbn.
    by replace start with 0 by lia.
Qed.

(** *** The end *)

(** What comes within half a second of the completion: an event that is no error, or none. *)
Inductive Ack : Type :=
| AckEvent (quiet : inbox) (at_ : Z) (m : option Message) (ev : FileTransferEvent)
| AckNone (quiet : inbox).
Definition ack_msgs (k : Ack) : inbox :=
  match k with AckEvent quiet at_ m _ => quiet ++ [(at_, m)] | AckNone quiet => quiet end.
Definition ack_ok (t : Z) (rest : inbox) (k : Ack) : Prop :=
  match k with
  | AckEvent quiet at_ m ev =>
    Forall (fun m => m.1 <= t + 500 /\ file_noise C P job (seen m.2)) quiet /\ at_ <= t + 500 /\
    is_event C P job (seen m) ev /\ (forall e, ev <> EvError e)
  | AckNone quiet =>
    Forall (fun m => m.1 <= t + 500 /\ file_noise C P job (seen m.2)) quiet /\
    match rest with [] => True | (at_, _) :: _ => t + 500 < at_ end
  end.
Definition acked_at (t : Z) (k : Ack) : Z :=
  match k with AckEvent quiet at_ _ _ => Z.max (arrival t quiet) at_ | AckNone _ => t + 500 end.

Lemma wait_run p l rs t s k rest :
  pt_skip_transfer p = false -> pt_job_id p = job -> fits P (completion job) -> pushing l rs s ->
  ack_ok t rest k -> delivers_msgs C P (ack_msgs k ++ rest) (ex_stream s) ->
  exists s', on_stream (wait_for_done p) None t s = (Done tt, acked_at t k, s') /\
    pushing (l ++ [completion job]) rs s' /\ delivers_msgs C P rest (ex_stream s').
Proof.
  intros Hs Hj Hfit [Hh Hi Hw] Hk Hd.
  destruct (has_sent_send C P _ _ _ None t _ Hh Hfit) as (y & E & Hy & Hin).
  assert (delivers_msgs C P (ack_msgs k ++ rest) y) as Hdy by (by eapply delivers_same_inbox).
  assert (exists r y', timeout 500 (recv_file_event job) None t y = (Done r, acked_at t k, y') /\
    delivers_msgs C P rest y' /\ has_sent C P (ex_stream s0) (l ++ [completion job]) y' /\
    (forall e, r <> Some (Ok (EvError e)))) as (r & y' & Er & Hd' & Hh' & Hne).
  { unfold timeout. destruct k as [quiet at_ m ev|quiet]; cbn [ack_msgs acked_at ack_ok] in *.
    - destruct Hk as (Hq & Ha & Hev & Hne). rewrite <- app_assoc in Hdy.
      destruct (recv_file_event_at C P _ job (Some (t + 500)) quiet at_ m ev rest t y
        (fun i l t s => has_sent_recv C P _ _ i l t s) Hq Ha Hev Hdy Hy) as (y' & E' & Hd' & Hh').
      eexists _, y'. rewrite E'. split; [done|]. split_and!; [done|done|]. intros e [= ->]. by eapply Hne.
    - destruct Hk as (Hq & Hl).
      destruct (recv_file_event_cut C P _ job (t + 500) quiet rest t y
        (fun i l t s => has_sent_recv C P _ _ i l t s) (fun s Hs => hs_end _ _ _ _ _ Hs) Hq ltac:(lia) Hl Hdy Hy)
        as (y' & E' & Hd' & Hh').
      exists None, y'. rewrite E', Z.leb_refl. by split_and!. }
  exists (mkExecState y' (ex_service_id s) (ex_writer s)). split; [|by split].
  unfold on_stream, zoom, wait_for_done. rewrite Hs, Hj. fold (completion job).
  unfold bind at 1, context, send_message. rewrite E. unfold bind. rewrite Er.
  destruct r as [[[]|]|]; try done. by destruct (Hne e).
Qed.

(** *** The whole command *)

Definition first_progress : PushProgress := mkPushProgress start total 0 start.
(** The chunks read, none when the peer wants none. *)
Definition chunks_sent : list bytes :=
  if skips x then [] else file_chunks (mkFileHandle content (Z.to_nat start) reads).
Definition all_sent (bs : list (bytes * bool)) : list Message :=
  hello ++ map (block_message job) bs ++ (if skips x then [] else [completion job]).
Definition all_told (bs : list (bytes * bool)) : list PushProgress :=
  first_progress :: push_reports first_progress start (zip chunks_sent bs).
Definition pushed (bs : list (bytes * bool)) : PushResult :=
  mkPushResult local_path remote_path total total (total_length (map fst bs)) start job.

Lemma chunks_sent_spec : push_ready ->
  concat chunks_sent = drop (Z.to_nat start) content /\ Forall (fun c => c <> []) chunks_sent /\
  start + total_length chunks_sent = total.
Proof.
  intros Hr. pose proof (start_of_range x total ltac:(lia) (pr_answer_ok Hr)) as Hst. unfold chunks_sent.
  destruct (skips x) eqn:Ek.
  - assert (start = total) as Hs.
    { destruct x as [|c]; [done|]. cbn in *. by destruct (fsc_union c) as [[[]|]|]. }
    split_and!; [|done|cbn; lia]. symmetry. apply drop_ge. lia.
  - set (f := mkFileHandle content (Z.to_nat start) reads).
    destruct (read_chunks_spec (S (length (file_left f))) f (pr_reads Hr) ltac:(lia)) as (cs & E & Hc & Hall).
    unfold file_chunks. rewrite E. cbn [default from_option id]. change (file_left f) with (drop (Z.to_nat start) content) in Hc.
    split_and!; [done| |].
    + eapply Forall_impl; [|exact Hall]. by intros c [].
    + rewrite total_length_concat, Hc, length_drop. lia.
Qed.

Lemma all_told_spec bs : push_ready -> Forall2 (fun c b => compress_chunk c = Ok b) chunks_sent bs ->
  exists reports, all_told bs = first_progress :: reports /\
    Forall (fun q => pp_total_bytes q = total /\ start < pp_sent_bytes q <= total /\ pp_resumed_bytes q = start) reports /\
    (start < total -> exists q, list.last reports = Some q /\ pp_sent_bytes q = total).
Proof.
  intros Hr Hbs. destruct (chunks_sent_spec Hr) as (_ & Hne & Htot). pose proof (zip_fst _ _ _ Hbs) as Ez.
  destruct (push_reports_spec (zip chunks_sent bs) first_progress start) as [H1 H2].
  { rewrite Forall_forall in Hne |- *. intros y Hy. apply Hne. rewrite <- Ez. by apply (in_map fst). }
  { by rewrite Ez. }
  exists (push_reports first_progress start (zip chunks_sent bs)). split_and!; [done| |].
  - pose proof (push_reports_resumed (zip chunks_sent bs) first_progress start) as H3.
    rewrite Forall_forall in H1, H3 |- *. intros q Hq. destruct (H1 q Hq). split; [done|]. split; [done|]. by apply H3.
  - intros Hlt. apply H2. intros Hz. rewrite Hz in Ez. cbn in Ez. rewrite <- Ez in Htot. cbn in Htot. lia.
Qed.

Lemma push_blocks_run t s : push_ready -> pushing hello [first_progress] s ->
  exists bs f' s', Forall2 (fun c b => compress_chunk c = Ok b) chunks_sent bs /\
    loop push_left (push_step remote_path) start None t (begun, s) =
      (Done tt, t, (advanced begun f' (total_length chunks_sent) (total_length (map fst bs)), s')) /\
    pushing (hello ++ map (block_message job) bs) (all_told bs) s' /\ same_inbox (ex_stream s) (ex_stream s').
Proof.
  intros Hr Hp. unfold all_told, chunks_sent. destruct (skips x) eqn:Ek.
  - exists [], (mkFileHandle content (Z.to_nat start) reads), s. cbn [map zip zip_with push_reports].
    rewrite app_nil_r. split_and!; [constructor| |done|done]. unfold loop. rewrite iter_S.
    unfold bind at 1, push_step, bind at 1, zoom. cbn [fst snd]. unfold send_next_block, bind. cbn [get fst begun pt_skip_transfer].
    rewrite Ek. cbn. unfold advanced, begun. cbn. rewrite !Z.add_0_r, Ek. by destruct s.
  - set (f := mkFileHandle content (Z.to_nat start) reads).
    destruct (read_chunks_spec (S (length (file_left f))) f (pr_reads Hr) ltac:(lia)) as (cs & E & _).
    pose proof (pr_chunks Hr) as Hc. unfold file_chunks in Hc |- *. fold f in Hc. rewrite E in Hc |- *.
    destruct (push_loop_run (S (length (file_left f))) cs begun hello [first_progress] start t s)
      as (bs & f' & s' & Hbs & El & Hp' & Hin); try done; [apply Hr|].
    exists bs, f', s'. split_and!; [done| |done|done]. unfold loop, push_left. cbn [fst begun pt_file fh_content fh_pos].
    unfold file_left in El. cbn [f fh_pos fh_content] in El. rewrite length_drop in El. exact El.
Qed.

Lemma push_run t k rest :
  push_ready -> pushing [] [] s0 ->
  delivers_msgs C P (noise ++ (a, Some (answer_msg x)) :: tail) (ex_stream s0) ->
  (skips x = false -> tail = ack_msgs k ++ rest /\ ack_ok (answered_at t) rest k) ->
  exists bs s', Forall2 (fun c b => compress_chunk c = Ok b) chunks_sent bs /\
    push_file_command lf nanos local_path remote_path None t s0 =
      (Done (push_complete_response (pushed bs)),
       if skips x then answered_at t else acked_at (answered_at t) k, s') /\
    pushing (all_sent bs) (all_told bs) s' /\ delivers_msgs C P (if skips x then tail else rest) (ex_stream s').
Proof.
  intros Hr Hp Hd Hk. destruct (begin_run t Hr Hp Hd) as (s1 & E1 & Hp1 & Hd1).
  destruct (push_report_run first_progress hello [] (answered_at t) s1 Hp1) as (s2 & E2 & Hp2 & Hs2).
  destruct (push_blocks_run (answered_at t) s2 Hr Hp2) as (bs & f' & s3 & Hbs & E3 & Hp3 & Hin3).
  assert (delivers_msgs C P tail (ex_stream s3)) as Hd3 by (eapply delivers_same_inbox; [done|by rewrite Hs2]).
  set (p' := advanced begun f' _ _) in E3.
  assert (push_result p' = pushed bs) as Er.
  { unfold pushed, p', push_result. cbn. by rewrite (proj2 (proj2 (chunks_sent_spec Hr))). }
  assert (exists s', on_stream (wait_for_done p') None (answered_at t) s3 =
      (Done tt, if skips x then answered_at t else acked_at (answered_at t) k, s') /\
    pushing (all_sent bs) (all_told bs) s' /\ delivers_msgs C P (if skips x then tail else rest) (ex_stream s'))
    as (s4 & E4 & Hp4 & Hd4).
  { unfold all_sent. destruct (skips x) eqn:Ek.
    - exists s3. rewrite app_nil_r. split_and!; [|done|done]. unfold on_stream, zoom, wait_for_done. cbn [p' advanced begun pt_skip_transfer].
      rewrite Ek. by destruct s3.
    - destruct (Hk eq_refl) as [-> Hok]. rewrite app_assoc.
      eapply wait_run; try done. exact (pr_completion Hr). }
  exists bs, s4. split_and!; [done| |done|done].
  unfold push_file_command, bind at 1. rewrite E1. unfold bind at 1. change (progress begun) with first_progress. rewrite E2.
  unfold bind at 1, threaded. change (pp_sent_bytes first_progress) with start. rewrite E3. cbn [fst snd].
  unfold bind. rewrite E4, Er. done.
Qed.
End run.

(** ** Properties of whole pushes *)

Lemma received_hello `{Zstd} job total mtime target x have l :
  received job have ((announcement job total mtime target ++ confirmation job total x) ++ l) = received job have l.
Proof. by destruct x. Qed.


(** A push that is not answered blocks the daemon for ever.  Nothing limits the wait for the peer's
    answer to the announcement: if the peer keeps the connection and never mentions the job,
    [push_file_command] never returns, and with it the daemon's event loop. *)
Theorem push_hangs_unanswered (C : CryptoLib) (L : CryptoLaws C) (P : ProtoCodec Message) (PL : ProtoLaws P)
    (Zs : Zstd) lf nanos local_path remote_path (s : ExecState NetTransport) md target noise t :
  lf_metadata lf = Ok md -> md_is_file md = true -> parse_remote_target remote_path local_path = Ok target ->
  net_faults (es_inner (ex_stream s)) = [] -> net_end (es_inner (ex_stream s)) = Never ->
  Forall (fits P) (announcement (new_job_id nanos) (md_len md) (default 0 (md_modified md)) target) ->
  Forall (fun m => file_noise C P (new_job_id nanos) (seen m.2)) noise ->
  delivers_msgs C P noise (ex_stream s) ->
  exists s', run (push_file_command lf nanos local_path remote_path) t s = (Hang, arrival t noise, s').
Proof.
  intros Hm Hfile Ht Hf He Hfit Hn Hd. set (job := new_job_id nanos) in *.
  apply Forall_cons_1 in Hfit as [Hf1 Hfit]. apply Forall_cons_1 in Hfit as [Hf2 _].
  destruct (has_sent_send C P _ _ _ None t _ (has_sent_nil C P _ Hf He) Hf1) as (y1 & E1 & Hs1 & Hin1).
  destruct (has_sent_send C P _ _ _ None t _ Hs1 Hf2) as (y2 & E2 & Hs2 & Hin2).
  destruct (recv_loop_hangs C P "receiving file transfer message" "decoding file transfer message"
    (on_file_message job)
    (has_sent C P (ex_stream s) (announcement job (md_len md) (default 0 (md_modified md)) target)) noise t y2
    (fun i l t s => has_sent_recv C P _ _ i l t s)
    (fun s Hs => hs_end _ _ _ _ _ Hs)) as (y3 & E3 & _); [|by do 2 (eapply delivers_same_inbox; [done|])|exact Hs2|].
  { apply skip_pure. eapply Forall_impl; [|exact Hn]. by intros m Hx. }
  eexists. unfold run, push_file_command, bind at 1, on_stream at 1, zoom at 1, begin_push. rewrite Hm, Ht.
  unfold bind at 1. cbn [map_err lift ret]. rewrite Hfile. cbn [negb]. fold job.
  unfold bind at 1. cbn [lift ret]. unfold bind at 1, context at 1, send_message. rewrite E1.
  unfold bind at 1, context at 1, send_local_digest, send_message. rewrite E2.
  unfold bind at 1, await_confirmation, loop. rewrite iter_S. unfold bind at 1, bind at 1, context at 1.
  rewrite (recv_file_event_loop C P), E3. reflexivity.
Qed.

(** *** Evaluating a push *)

Definition toy_content : bytes := [x01; x02; x03; x04; x05].
Definition toy_local : LocalFile :=
  mkLocalFile (Ok (mkMetadata true 5 None)) (Ok (mkFileHandle toy_content 0 [Ok 2%nat])) (Ok tt).
(** The peer has two bytes already. *)
Definition toy_answer : Answer :=
  AnswerConfirm (mkFileTransferSendConfirmRequest 8 0 (Some (FCOffsetBlk 2))).
Definition toy_done : Message := Some (UFileResponse (Some (FRDone (mkFileTransferDone 8 0)))).
Definition toy_ack : Ack := AckEvent [] 30 (Some toy_done) (EvDone (mkFileTransferDone 8 0)).
Definition toy_push_state (l : inbox) : ExecState NetTransport :=
  mkExecState (es_new (mkNet (@sealed_arrivals toy_crypto [x01] 0 (@wire_items (toy_codec MessageUnion) l))
                         Never [] [] false) [x01] 0) None (mkUdsWriter [] []).

Lemma toy_push_ready :
  push_ready toy_crypto (toy_codec MessageUnion) toy_zstd toy_local 7 "f.bin" "/tmp/" toy_content None [Ok 2%nat]
    (mkRemoteTarget "/tmp" "f.bin") [(1, None)] toy_answer.
Proof.
  constructor; try reflexivity.
  - repeat constructor.
  - repeat constructor.
  - cbn. lia.
  - repeat (apply Forall_cons_2 || apply Forall_nil_2); vm_compute; congruence.
  - assert (file_chunks (mkFileHandle toy_content (Z.to_nat (start_of toy_answer 5)) [Ok 2%nat]) = [[x03; x04]; [x05]])
      as Ec by (vm_compute; reflexivity).
    change (Z.of_nat (length toy_content)) with 5. rewrite Ec.
    repeat (apply Forall_cons_2 || apply Forall_nil_2); vm_compute; congruence.
  - vm_compute. congruence.
Qed.


Lemma push_hangs_unanswered_witness :
  exists s', run (@push_file_command _ _ toy_crypto (toy_codec MessageUnion) toy_zstd toy_local 7 "f.bin" "/tmp/")
      0 (toy_push_state [(1, None)]) = (Hang, 1, s').
Proof.
  apply (push_hangs_unanswered toy_crypto toy_crypto_laws (toy_codec MessageUnion) (toy_codec_laws MessageUnion)
    toy_zstd toy_local 7 "f.bin" "/tmp/" (toy_push_state [(1, None)]) (mkMetadata true 5 None)
    (mkRemoteTarget "/tmp" "f.bin") [(1, None)] 0); try reflexivity.
  - repeat (apply Forall_cons_2 || apply Forall_nil_2); vm_compute; congruence.
  - repeat constructor.
  - split; [vm_compute; reflexivity|]. repeat constructor.
Defined.
