(* ===== verification/ShellRun.v ===== *)
(** * A shell from its start to its end (src/daemon.rs, [shell_session])

    What an interactive shell relays, for a client that types lines at given times and a peer that
    shows output at given times, in any order and with other traffic between them, until the client
    hangs up, the peer closes the terminal, or both fall silent. *)

From Stdlib Require Import ZArith Lia.
From Stdlib Require Import Strings.Byte Strings.Ascii Strings.String.
From stdpp Require Import base list option numbers.
From S2P Require Import Prelude RustStr Async Transport Crypto Json Session Proto Inbox.
From S2P Require Import Terminal Capture FileTransfer Exec ExecRun Daemon.

Local Open Scope Z_scope.
Local Open Scope async_scope.

(** ** What the two sides do *)

(** A line is typed, while the noise arrives; or a piece of output is shown. *)
Inductive Turn : Type :=
| Types (a : Z) (line : string) (noise : inbox)
| Shows (c : Chunk) (data : bytes).

(** The client's end of input is seen, the peer closes the terminal, or nothing comes for 15 s. *)
Inductive Leaving : Type :=
| HangsUp (noise : inbox)
| PeerCloses (noise : inbox) (a tid code : Z)
| FallsSilent (noise : inbox).

Definition turn_lines (l : list Turn) : list (Z * string) :=
  omap (fun x => match x with Types a line _ => Some (a, line) | Shows _ _ => None end) l.
Definition turn_msgs (x : Turn) : inbox := match x with Types _ _ noise => noise | Shows c _ => chunk_msgs c end.
Definition turn_clock (t : Z) (x : Turn) : Z :=
  match x with Types a _ _ => Z.max t a | Shows c _ => chunk_clock t c end.
Definition leaving_msgs (x : Leaving) : inbox :=
  match x with
  | HangsUp noise | FallsSilent noise => noise
  | PeerCloses noise a tid code => noise ++ [(a, terminal_msg (TRClosed tid code))]
  end.

Record ShellScript : Type := mkShellScript {
  ss_noise : inbox;              (* before the terminal opens *)
  ss_opened_at : Z;
  ss_opened : TerminalOpened;
  ss_turns : list Turn;
  ss_leaving : Leaving;
  ss_later : UdsReader;          (* what the client does after the end, or its hanging up *)
  ss_rest : inbox                (* what the peer sends after the end *)
}.

(** What the client types from here on. *)
Definition reader_of (l : list Turn) (later : UdsReader) : UdsReader :=
  mkUdsReader (turn_lines l ++ ud_lines later) (ud_eof later).

(** How long the terminal is waited for. *)
Definition patience (t : Z) (next : option Z) : Z :=
  match next with Some a => Z.min (Z.max t a) (t + 15000) | None => t + 15000 end.

Section shell.
Context (Zs : Zstd) (sc : ShellScript).
Abbreviation tid := (topen_terminal_id (ss_opened sc)).

(** What the peer is sent for a turn; a line goes out in one message, compressed when it is long. *)
Definition turn_sends (x : Turn) : list Message :=
  match x with
  | Types _ line _ =>
    match terminal_payload (as_bytes line) with
    | Ok (payload, flag) => [Some (UTerminalAction (Some (TAData (mkTerminalData tid payload flag))))]
    | Err _ => []
    end
  | Shows _ _ => []
  end.
(** What the client is written. *)
Definition turn_writes (x : Turn) : list UdsItem := match x with Types _ _ _ => [] | Shows _ data => [URaw data] end.
Definition open_msg : Message := Some (UTerminalAction (Some (TAOpen 0 24 80))).
Definition close_msg : Message := Some (UTerminalAction (Some (TAClose tid))).
Definition closing : list Message := match ss_leaving sc with HangsUp _ => [close_msg] | _ => [] end.
(** All the peer is sent. *)
Definition shell_sends : list Message := open_msg :: concat (map turn_sends (ss_turns sc)) ++ closing.

(** Each turn is the next thing to happen. *)
Definition turn_ok (t : Z) (next : option Z) (following : inbox) (x : Turn) : Prop :=
  match x with
  | Types a line noise =>
    Z.max t a < t + 15000 /\ terminal_noise (Z.max t a) noise /\ first_after (Z.max t a) following /\
    exists payload flag, terminal_payload (as_bytes line) = Ok (payload, flag)
  | Shows c data => by_time (patience t next) c /\ terminal_data (ck_data c) = Ok data
  end.
Definition following (l : list Turn) : inbox :=
  concat (map turn_msgs l) ++ leaving_msgs (ss_leaving sc) ++ ss_rest sc.
Definition leaving_ok (t : Z) : Prop :=
  match ss_leaving sc with
  | HangsUp noise => ud_lines (ss_later sc) = [] /\ exists a, ud_eof (ss_later sc) = Some a /\
      Z.max t a < t + 15000 /\ terminal_noise (Z.max t a) noise /\ first_after (Z.max t a) (ss_rest sc)
  | PeerCloses noise a _ _ =>
      let d := patience t (next_line_at (ss_later sc)) in terminal_noise d noise /\ a <= d
  | FallsSilent noise => terminal_noise (t + 15000) noise /\ first_after (t + 15000) (ss_rest sc) /\
      match next_line_at (ss_later sc) with Some a => t + 15000 <= a | None => True end
  end.
Definition leaving_clock (t : Z) : Z :=
  match ss_leaving sc with
  | HangsUp _ => Z.max t (default t (ud_eof (ss_later sc)))
  | PeerCloses noise a _ _ => Z.max (arrival t noise) a
  | FallsSilent _ => t + 15000
  end.
Fixpoint turns_ok (t : Z) (l : list Turn) : Prop :=
  match l with
  | [] => leaving_ok t
  | x :: l' => turn_ok t (next_line_at (reader_of l (ss_later sc))) (following l') x /\ turns_ok (turn_clock t x) l'
  end.

Definition shell_opened_at (t : Z) : Z := Z.max (arrival t (ss_noise sc)) (ss_opened_at sc).
Definition shell_ended_at (t : Z) : Z := leaving_clock (foldl turn_clock (shell_opened_at t) (ss_turns sc)).
Definition shell_msgs : inbox :=
  ss_noise sc ++ (ss_opened_at sc, terminal_msg (TROpened (ss_opened sc))) :: following (ss_turns sc).

Record shell_ok (t : Z) : Prop := {
  so_noise : terminal_noise (t + 15000) (ss_noise sc);
  so_opened : ss_opened_at sc <= t + 15000;
  so_success : topen_success (ss_opened sc) = true;
  so_turns : turns_ok (shell_opened_at t) (ss_turns sc)
}.
End shell.

(** ** The run *)

Section run.
Context (C : CryptoLib) {L : CryptoLaws C} (P : ProtoCodec Message) {PL : ProtoLaws P} (Zs : Zstd).
Context (sc : ShellScript) (st0 : ShellState (T := NetTransport)).
Abbreviation St := (ShellState (T := NetTransport)).
Abbreviation tid := (topen_terminal_id (ss_opened sc)).
Abbreviation service := (Some (topen_service_id (ss_opened sc))).
Abbreviation later := (ss_later sc).

(** The state after the messages [ms] were sent and [items] written to the client. *)
Record relayed (ms : list Message) (items : list UdsItem) (id : option string) (rd : UdsReader) (st : St) : Prop := {
  re_sent : has_sent C P (ex_stream st0.1) ms (ex_stream st.1);
  re_service : ex_service_id st.1 = id;
  re_writer : ex_writer st.1 = mkUdsWriter (uw_sent (ex_writer st0.1) ++ items) [];
  re_reader : st.2 = rd
}.

(** The state with another stream. *)
Definition on_wire (x : EncryptedStream NetTransport) (st : St) : St :=
  (mkExecState x (ex_service_id st.1) (ex_writer st.1), st.2).
Lemma relayed_on_wire ms ms' items id rd st x :
  relayed ms items id rd st -> has_sent C P (ex_stream st0.1) ms' x -> relayed ms' items id rd (on_wire x st).
Proof. by intros [] Hx. Qed.

(** *** What wakes the loop *)

Definition event (st : St) : M St (option (Res TerminalEvent)) :=
  match next_line_at st.2 with
  | Some a => race a (in_exec (on_stream recv_terminal_data))
  | None => let* r := try (in_exec (on_stream recv_terminal_data)) in ret (Some r)
  end.
Definition limit (t : Z) (st : St) : option Z := (fun a => Z.max t a) <$> next_line_at st.2.

Lemma race_limit t a : t + Z.max 0 (a - t) = Z.max t a.
Proof. lia. Qed.

Lemma event_hears t st ev t' x :
  recv_terminal_data (limit t st) t (ex_stream st.1) = (Done ev, t', x) ->
  event st None t st = (Done (Some (Ok ev)), t', on_wire x st).
Proof.
  unfold limit, event. destruct (next_line_at st.2) as [a|]; cbn [fmap option_fmap option_map]; intros E.
  - unfold race, timeout, in_exec, on_stream, zoom. rewrite race_limit, E. done.
  - unfold bind, try, in_exec, on_stream, zoom. by rewrite E.
Qed.
Lemma event_fails t st e t' x :
  recv_terminal_data (limit t st) t (ex_stream st.1) = (Fail e, t', x) ->
  event st None t st = (Done (Some (Err e)), t', on_wire x st).
Proof.
  unfold limit, event. destruct (next_line_at st.2) as [a|]; cbn [fmap option_fmap option_map]; intros E.
  - unfold race, timeout, in_exec, on_stream, zoom. rewrite race_limit, E. done.
  - unfold bind, try, in_exec, on_stream, zoom. by rewrite E.
Qed.

(** The client is first. *)
Lemma event_line t a st ms items id rd noise rest :
  relayed ms items id rd st -> next_line_at rd = Some a -> Z.max t a < t + 15000 ->
  terminal_noise (Z.max t a) noise -> first_after (Z.max t a) rest ->
  delivers_msgs C P (noise ++ rest) (ex_stream st.1) ->
  exists st', event st None t st = (Done None, Z.max t a, st') /\ relayed ms items id rd st' /\
    delivers_msgs C P rest (ex_stream st'.1).
Proof.
  intros Hr Hl Ha Hn Hf Hd.
  destruct (recv_terminal_response_cut C P (has_sent C P (ex_stream st0.1) ms) TERMINAL_RESPONSE_TIMEOUT (Z.max t a)
    noise rest t (ex_stream st.1) (fun i l t s => has_sent_recv C P _ _ i l t s) (fun s Hs => hs_end _ _ _ _ _ Hs))
    as (x & E & Hdx & Hx); try done; [lia|apply Hr|].
  exists (on_wire x st). split; [|split; [by eapply relayed_on_wire|done]].
  unfold event. rewrite (re_reader _ _ _ _ _ Hr), Hl.
  unfold race, timeout, in_exec, on_stream, zoom, recv_terminal_data, recv_terminal_data_with_timeout, bind, context.
  by rewrite race_limit, E, Z.leb_refl.
Qed.

(** *** One turn *)

Lemma step_event t st o t' st' :
  event st None t st = (Done o, t', st') ->
  shell_step tid tt None t st =
  (match o with
   | None =>
     match ud_lines st.2 with
     | (_, line) :: rest =>
       modify (fun st => (st.1, mkUdsReader rest (ud_eof st.2))) ;;;
       in_exec (on_stream (send_terminal_data tid (as_bytes line))) ;;;
       ret (inl tt)
     | [] => in_exec (close_quietly tid ;;; set_service None) ;;; ret (inr tt)
     end
   | Some (Ok (TData data)) => in_exec (on_writer (uds_write (URaw data))) ;;; ret (inl tt)
   | Some _ => in_exec (set_service None) ;;; ret (inr tt)
   end) None t' st'.
Proof.
  intros E. unfold shell_step, bind at 1. cbn [get]. unfold bind at 1. unfold event in E. rewrite E.
  by destruct o as [[[| |]|]|].
Qed.

Lemma step_types a line noise l t st ms items m :
  relayed ms items service (reader_of (Types a line noise :: l) later) st ->
  turn_ok Zs t (Some a) (following sc l) (Types a line noise) -> turn_sends Zs sc (Types a line noise) = [m] -> fits P m ->
  delivers_msgs C P (noise ++ following sc l) (ex_stream st.1) ->
  exists st', shell_step tid tt None t st = (Done (inl tt), Z.max t a, st') /\
    relayed (ms ++ [m]) items service (reader_of l later) st' /\ delivers_msgs C P (following sc l) (ex_stream st'.1).
Proof.
  intros Hr (Ha & Hn & Hf & payload & flag & Hp) Hm Hfit Hd.
  destruct (event_line t a st ms items service _ noise (following sc l) Hr) as (st1 & E & Hr1 & Hd1); try done.
  destruct (has_sent_send C P _ ms m None (Z.max t a) (ex_stream st1.1) (re_sent _ _ _ _ _ Hr1) Hfit)
    as (x & Ex & Hx & Hin).
  exists (on_wire x (st1.1, reader_of l later)). split_and!.
  - rewrite (step_event t st None _ st1 E), (re_reader _ _ _ _ _ Hr). cbn [reader_of turn_lines omap list_omap ud_lines app].
    unfold bind at 1. cbn [modify fst snd]. rewrite (re_reader _ _ _ _ _ Hr1).
    cbn in Hm. rewrite Hp in Hm. injection Hm as <-.
    unfold bind, in_exec, on_stream, zoom, send_terminal_data, bind. rewrite Hp. cbn [lift ret].
    unfold context, send_action. cbn [fst snd]. by rewrite Ex.
  - by destruct Hr1.
  - by eapply delivers_same_inbox.
Qed.

Lemma step_shows c data l t st ms items :
  relayed ms items service (reader_of (Shows c data :: l) later) st ->
  turn_ok Zs t (next_line_at (reader_of (Shows c data :: l) later)) (following sc l) (Shows c data) ->
  delivers_msgs C P (chunk_msgs c ++ following sc l) (ex_stream st.1) ->
  exists st', shell_step tid tt None t st = (Done (inl tt), chunk_clock t c, st') /\
    relayed ms (items ++ [URaw data]) service (reader_of l later) st' /\
    delivers_msgs C P (following sc l) (ex_stream st'.1).
Proof.
  intros Hr [Hc Hx] Hd.
  destruct (recv_data_chunk C P Zs (has_sent C P (ex_stream st0.1) ms) (limit t st) TERMINAL_RESPONSE_TIMEOUT c data
    (following sc l) t (ex_stream st.1) (fun i l t s => has_sent_recv C P _ _ i l t s)) as (x & E & Hdx & Hsx);
    try done; [|apply Hr|].
  { unfold limit. rewrite (re_reader _ _ _ _ _ Hr). unfold patience in Hc. by destruct (next_line_at _). }
  apply event_hears in E. destruct Hr as [Hs Hi Hw Hrd].
  exists (mkExecState x (ex_service_id st.1) (mkUdsWriter (uw_sent (ex_writer st0.1) ++ items ++ [URaw data]) []), st.2).
  split_and!; [|by constructor|done].
  rewrite (step_event t st _ _ _ E). unfold bind, in_exec, on_writer, zoom, uds_write, on_wire. cbn. rewrite Hw. cbn.
  by rewrite <- app_assoc.
Qed.

(** *** All turns *)

Abbreviation sends := (turn_sends Zs sc).

Lemma turns_run l t st ms items fuel :
  turns_ok Zs sc t l -> relayed ms items service (reader_of l later) st ->
  delivers_msgs C P (following sc l) (ex_stream st.1) -> Forall (fits P) (concat (map sends l)) ->
  exists st', iter (length l + fuel) (shell_step tid) tt None t st =
      iter fuel (shell_step tid) tt None (foldl turn_clock t l) st' /\
    relayed (ms ++ concat (map sends l)) (items ++ concat (map turn_writes l)) service (reader_of [] later) st' /\
    delivers_msgs C P (following sc []) (ex_stream st'.1) /\ leaving_ok sc (foldl turn_clock t l).
Proof.
  revert t st ms items. induction l as [|x l IH]; intros t st ms items Hok Hr Hd Hfit.
  { exists st. cbn. by rewrite !app_nil_r. }
  destruct Hok as [Hx Hok]. cbn [map concat] in Hfit. apply Forall_app in Hfit as [Hf1 Hf2].
  assert (delivers_msgs C P (turn_msgs x ++ following sc l) (ex_stream st.1)) as Hd1.
  { unfold following in Hd |- *. cbn [map concat] in Hd. by rewrite <- app_assoc in Hd. }
  assert (exists st1, shell_step tid tt None t st = (Done (inl tt), turn_clock t x, st1) /\
    relayed (ms ++ sends x) (items ++ turn_writes x) service (reader_of l later) st1 /\
    delivers_msgs C P (following sc l) (ex_stream st1.1)) as (st1 & E & Hr1 & Hd2).
  { destruct x as [a line noise|c data].
    - destruct Hx as (Ha & Hn & Hfol & payload & flag & Hp).
      assert (exists m, sends (Types a line noise) = [m]) as [m Hm] by (cbn; rewrite Hp; by eexists).
      rewrite Hm in Hf1 |- *. apply Forall_cons_1 in Hf1 as [Hf1 _]. cbn [turn_writes]. rewrite app_nil_r.
      eapply step_types; [done| |done|done|done]. split_and!; eauto.
    - cbn [turn_sends turn_writes]. rewrite app_nil_r. by apply step_shows. }
  destruct (IH _ st1 _ _ Hok Hr1 Hd2 Hf2) as (st2 & E2 & Hr2 & Hd3 & Hl).
  exists st2. cbn [map concat foldl length Nat.add]. rewrite !app_assoc. split; [|done].
  rewrite iter_S. unfold bind at 1. by rewrite E.
Qed.

(** *** The end *)

(** Any event of the terminal but data ends the shell. *)
Lemma step_ends t st ms items o t' x :
  relayed ms items service (reader_of [] later) st -> has_sent C P (ex_stream st0.1) ms x ->
  event st None t st = (Done (Some o), t', on_wire x st) ->
  match o with Ok (TData _) => False | _ => True end ->
  exists st', shell_step tid tt None t st = (Done (inr tt), t', st') /\
    relayed ms items None (reader_of [] later) st' /\ ex_stream st'.1 = x.
Proof.
  intros [Hs Hi Hw Hr] Hx E Ho. exists (mkExecState x None (ex_writer st.1), st.2). split; [|by split].
  rewrite (step_event t st _ _ _ E). by destruct o as [[| |]|].
Qed.

Lemma leave_run t st ms items :
  leaving_ok sc t -> relayed ms items service (reader_of [] later) st ->
  delivers_msgs C P (following sc []) (ex_stream st.1) -> Forall (fits P) (closing sc) ->
  exists st', shell_step tid tt None t st = (Done (inr tt), leaving_clock sc t, st') /\
    relayed (ms ++ closing sc) items None (reader_of [] later) st' /\ delivers_msgs C P (ss_rest sc) (ex_stream st'.1).
Proof.
  unfold leaving_ok, leaving_clock, closing, following. intros Hok Hr Hd Hfit. cbn [map concat app] in Hd.
  assert (next_line_at (reader_of [] later) = next_line_at later) as Hnext by done.
  destruct (ss_leaving sc) as [noise|noise a tid' code|noise]; cbn [leaving_msgs] in Hd.
  - destruct Hok as (Hl & a & He & Ha & Hn & Hf). rewrite He. cbn [default].
    destruct (event_line t a st ms items service _ noise (ss_rest sc) Hr) as (st1 & E & Hr1 & Hd1); try done.
    { rewrite Hnext. unfold next_line_at. by rewrite Hl. }
    apply Forall_cons_1 in Hfit as [Hfit _].
    destruct (has_sent_send C P _ ms _ None (Z.max t a) (ex_stream st1.1) (re_sent _ _ _ _ _ Hr1) Hfit)
      as (x & Ex & Hx & Hin).
    exists (mkExecState x None (ex_writer st1.1), st1.2). split_and!; [|by destruct Hr1|by eapply delivers_same_inbox].
    rewrite (step_event t st None _ st1 E), (re_reader _ _ _ _ _ Hr). cbn [reader_of turn_lines omap list_omap ud_lines app].
    rewrite Hl. unfold bind, in_exec, zoom, close_quietly, bind, try, on_stream, zoom, close_terminal, context, send_action.
    cbn [fst snd]. unfold close_msg in Ex. by rewrite Ex.
  - destruct Hok as [Hn Ha]. rewrite app_nil_r. rewrite <- app_assoc in Hd.
    assert (match limit t st with Some o => Z.min o (t + 15000) | None => t + 15000 end =
      patience t (next_line_at later)) as HD.
    { unfold limit. rewrite (re_reader _ _ _ _ _ Hr), Hnext. by destruct (next_line_at later). }
    destruct (recv_terminal_response_at C P (has_sent C P (ex_stream st0.1) ms) (limit t st) 15000 noise a
      (TRClosed tid' code) (ss_rest sc) t (ex_stream st.1) (fun i l t s => has_sent_recv C P _ _ i l t s))
      as (x & Ex & Hdx & Hx); cbn zeta; [by rewrite HD|by rewrite HD|done|apply Hr|].
    assert (recv_terminal_data (limit t st) t (ex_stream st.1) = (Done (TClosed code), Z.max (arrival t noise) a, x)) as E.
    { unfold recv_terminal_data, recv_terminal_data_with_timeout, bind, context.
      change TERMINAL_RESPONSE_TIMEOUT with 15000. by rewrite Ex. }
    apply event_hears in E. destruct (step_ends t st ms items _ _ x Hr Hx E I) as (st' & E' & Hr' & Hs').
    exists st'. rewrite Hs'. by split.
  - destruct Hok as (Hn & Hf & Hl). rewrite app_nil_r.
    destruct (recv_terminal_response_expires C P (has_sent C P (ex_stream st0.1) ms) 15000 (limit t st) noise
      (ss_rest sc) t (ex_stream st.1) (fun i l t s => has_sent_recv C P _ _ i l t s)
      (fun s Hs => hs_end _ _ _ _ _ Hs)) as (x & Ex & Hdx & Hx); try done; [|apply Hr|].
    { unfold limit. rewrite (re_reader _ _ _ _ _ Hr), Hnext. destruct (next_line_at later); cbn; lia. }
    assert (recv_terminal_data (limit t st) t (ex_stream st.1) =
      (Fail (add_context "receiving terminal data" (terminal_response_timeout_error 15000)), t + 15000, x)) as E.
    { unfold recv_terminal_data, recv_terminal_data_with_timeout, bind, context.
      change TERMINAL_RESPONSE_TIMEOUT with 15000. by rewrite Ex. }
    apply event_fails in E. destruct (step_ends t st ms items _ _ x Hr Hx E I) as (st' & E' & Hr' & Hs').
    exists st'. rewrite Hs'. by split.
Qed.

(** *** The session *)

(** There are as many lines and messages as turns. *)
Lemma turns_counted l : (length l <= length (turn_lines l) + length (following sc l))%nat.
Proof.
  unfold following. rewrite length_app. enough (length l <= length (turn_lines l) + length (concat (map turn_msgs l)))%nat by lia.
  induction l as [|[a line noise|c data] l IH]; [done|..]; cbn [map concat turn_msgs]; rewrite length_app; cbn [length turn_lines omap list_omap].
  - unfold turn_lines in IH. lia.
  - unfold turn_lines in IH. unfold chunk_msgs. rewrite length_app. cbn. lia.
Qed.

Lemma shell_run t :
  shell_ok Zs sc t -> relayed [] [] (ex_service_id st0.1) (reader_of (ss_turns sc) later) st0 ->
  delivers_msgs C P (shell_msgs sc) (ex_stream st0.1) -> Forall (fits P) (shell_sends Zs sc) ->
  exists st', run shell_session t st0 = (Done tt, shell_ended_at sc t, st') /\
    relayed (shell_sends Zs sc) (ULine (shell_ack tid) :: concat (map turn_writes (ss_turns sc))) None
      (reader_of [] later) st' /\
    delivers_msgs C P (ss_rest sc) (ex_stream st'.1).
Proof.
  intros Hok Hr Hd Hfit. unfold shell_sends in Hfit. apply Forall_cons_1 in Hfit as [Hopen Hfit].
  apply Forall_app in Hfit as [Hfit Hclose].
  destruct (open_terminal_at C P 24 80 (ss_noise sc) (ss_opened_at sc) (ss_opened sc) (following sc (ss_turns sc)) t
    (ex_stream st0.1) [] (ex_stream st0.1)) as (y & Ey & Hy & Hdy); try apply Hok; try done; [apply Hr|].
  set (st1 := (mkExecState y service (mkUdsWriter (uw_sent (ex_writer st0.1) ++ [ULine (shell_ack tid)]) []), st0.2)).
  assert (relayed [open_msg] [ULine (shell_ack tid)] service (reader_of (ss_turns sc) later) st1) as Hr1.
  { by constructor; [..|apply Hr]. }
  pose proof (turns_counted (ss_turns sc)) as Hcount.
  set (fuel := (length (turn_lines (ss_turns sc) ++ ud_lines later) + length (following sc (ss_turns sc))
                - length (ss_turns sc))%nat).
  destruct (turns_run (ss_turns sc) (shell_opened_at sc t) st1 _ _ (S fuel) (so_turns _ _ _ Hok) Hr1 Hdy Hfit)
    as (st2 & E2 & Hr2 & Hd2 & Hl).
  destruct (leave_run _ st2 _ _ Hl Hr2 Hd2 Hclose) as (st3 & E3 & Hr3 & Hd3).
  exists st3. split; [|split; [|done]].
  - unfold run, shell_session, bind at 1. unfold timeout, in_exec at 1, on_stream, zoom at 1. unfold zoom at 1.
    change SHELL_TERMINAL_OPEN_TIMEOUT with OPEN_TERMINAL_TIMEOUT. rewrite Ey.
    unfold bind at 1. cbn [ret]. unfold bind at 1, in_exec at 1, zoom at 1, set_service. cbn [modify ret].
    unfold bind at 1, in_exec at 1, on_writer, zoom at 1. unfold zoom at 1, send_response, uds_write. cbn [fst snd ex_writer].
    rewrite (re_writer _ _ _ _ _ Hr). cbn [uw_faults uw_sent ex_stream ex_service_id ti_service_id ti_terminal_id].
    rewrite app_nil_r. change (_, st0.2) with st1. unfold loop.
    assert (shell_left st1 = (length (ss_turns sc) + fuel)%nat) as ->.
    { unfold shell_left, st1. cbn [fst snd ex_pending ex_stream]. rewrite (re_reader _ _ _ _ _ Hr).
      unfold ex_pending. cbn [ex_stream]. rewrite (delivers_pending _ _ _ _ Hdy). cbn [reader_of ud_lines].
      unfold fuel. rewrite length_app. lia. }
    rewrite <- Nat.add_succ_r. unfold shell_ended_at, shell_opened_at in *. rewrite E2, iter_S. unfold bind. by rewrite E3.
  - unfold shell_sends. by rewrite <- app_assoc in Hr3.
Qed.
End run.


(** *** Evaluating a shell *)

Definition toy_shell : ShellScript :=
  mkShellScript [(10, None)] 20 toy_opened
    [Shows (toy_piece 100 "$ ") (as_bytes "$ "); Types 900 "ls" [(500, None)];
     Shows (toy_piece 950 "ls") (as_bytes "ls"); Shows (toy_piece 960 "one") (as_bytes "one")]
    (HangsUp [(1000, None)]) (mkUdsReader [] (Some 2000)) [].

