(* ===== verification/DaemonLoop.v ===== *)
(** * The daemon's event loop (src/daemon.rs, [run_daemon])

    The daemon binds its socket, connects to the peer, and then serves events one at a time:
    commands of CLI clients, messages of the peer, heartbeat ticks, signals, and the idle timeout.
    Lost connections are re-established, and commands that need another connection type
    reconnect. *)

From Stdlib Require Import ZArith Lia.
From Stdlib Require Import Strings.Byte Strings.Ascii Strings.String.
From stdpp Require Import base list option numbers gmap strings.
From S2P Require Import Prelude RustStr Async Transport Crypto Base64 Json Session Proto.
From S2P Require Import Inbox Terminal Capture FileTransfer Rendezvous Connection Exec Lockfile Daemon.

Local Open Scope Z_scope.
Local Open Scope async_scope.

(** ** State *)

(** What the daemon reads from the system: fresh randomness and the UDP socket of the n-th
    connection attempt, the wall clock in nanoseconds, its process id, and local files. *)
Record World : Type := mkWorld {
  w_rnd : nat -> ConnRandom;
  w_udp : nat -> Res unit;
  w_nanos : Z -> Z;
  w_pid : Z;
  w_file : string -> LocalFile
}.

(** A CLI client: its first line and when it comes, if ever; the lines of a shell behind it; and
    what writing to it does. *)
Record Client : Type := mkClient {
  cl_line : option (Z * Res string);
  cl_reader : UdsReader;
  cl_faults : list (option Error)
}.

(** What can wake the loop besides the peer and the idle timeout. *)
Inductive External : Type :=
| XClient (c : Client)
| XAcceptError (e : Error)
| XTick
| XSignal (name : string).

(** The loop's local variables. *)
Record Link (T : Type) : Type := mkLink {
  lk_stream : EncryptedStream T;
  lk_session : Session;
  lk_conn_type : ConnType;
  lk_service : option string
}.
Arguments mkLink {T} _ _ _ _.
Arguments lk_stream {T} _.
Arguments lk_session {T} _.
Arguments lk_conn_type {T} _.
Arguments lk_service {T} _.

Record Daemon (T : Type) : Type := mkDaemon {
  dm_link : Link T;
  dm_net : ConnEnv T * nat;            (* the network, and the connection attempts so far *)
  dm_disk : Disk;
  dm_client : UdsReader * UdsWriter;   (* the client being served *)
  dm_last_activity : Z;
  dm_heartbeat : bool;                 (* the heartbeat task is running *)
  dm_events : list (Z * External)      (* what is to come *)
}.
Arguments mkDaemon {T} _ _ _ _ _ _ _.
Arguments dm_link {T} _.
Arguments dm_net {T} _.
Arguments dm_disk {T} _.
Arguments dm_client {T} _.
Arguments dm_last_activity {T} _.
Arguments dm_heartbeat {T} _.
Arguments dm_events {T} _.

Inductive DaemonEvent : Type :=
| EvClient (c : Client)
| EvAcceptError (e : Error)
| EvIdle
| EvPeer (r : Res bytes)
| EvTick
| EvSignal (name : string).
Definition event_of (x : External) : DaemonEvent :=
  match x with
  | XClient c => EvClient c | XAcceptError e => EvAcceptError e | XTick => EvTick | XSignal n => EvSignal n
  end.

(** What [serde_json::from_str::<SessionCommand>] makes of a line. *)
Class CommandLib : Type := { cmd_from_str : string -> Res SessionCommand }.

Section loop.
Context {T : Type} `{Transport T} `{CryptoLib} `{ProtoCodec Message} `{ProtoCodec IdPk}
  `{ProtoCodec RendezvousMessage} `{ServerKeyLib} `{Zstd} {Img : Type} `{ImageLib Img}
  `{LockLib} `{CommandLib}.
Context (w : World).

(** *** Parts of the state *)

Definition with_link (l : Link T) (d : Daemon T) : Daemon T :=
  mkDaemon l (dm_net d) (dm_disk d) (dm_client d) (dm_last_activity d) (dm_heartbeat d) (dm_events d).
Definition with_stream (x : EncryptedStream T) (d : Daemon T) : Daemon T :=
  with_link (mkLink x (lk_session (dm_link d)) (lk_conn_type (dm_link d)) (lk_service (dm_link d))) d.
Definition with_net (n : ConnEnv T * nat) (d : Daemon T) : Daemon T :=
  mkDaemon (dm_link d) n (dm_disk d) (dm_client d) (dm_last_activity d) (dm_heartbeat d) (dm_events d).
Definition with_disk (k : Disk) (d : Daemon T) : Daemon T :=
  mkDaemon (dm_link d) (dm_net d) k (dm_client d) (dm_last_activity d) (dm_heartbeat d) (dm_events d).
Definition with_client (c : UdsReader * UdsWriter) (d : Daemon T) : Daemon T :=
  mkDaemon (dm_link d) (dm_net d) (dm_disk d) c (dm_last_activity d) (dm_heartbeat d) (dm_events d).

Definition on_enc {A} (m : M (EncryptedStream T) A) : M (Daemon T) A :=
  zoom (fun d => lk_stream (dm_link d)) with_stream m.
Definition on_files {A} (m : M Disk A) : M (Daemon T) A := zoom dm_disk with_disk m.
(** A command that works on the stream, the service id and the client. *)
Definition on_shell {A} (m : M (ShellState (T := T)) A) : M (Daemon T) A :=
  zoom (fun d => (mkExecState (lk_stream (dm_link d)) (lk_service (dm_link d)) (snd (dm_client d)),
                  fst (dm_client d)))
       (fun x d => with_client (x.2, ex_writer x.1)
          (with_link (mkLink (ex_stream x.1) (lk_session (dm_link d)) (lk_conn_type (dm_link d))
                        (ex_service_id x.1)) d)) m.
Definition on_exec {A} (m : M (ExecState T) A) : M (Daemon T) A := on_shell (in_exec m).
Definition on_control {A} (m : M (Session * EncryptedStream T) A) : M (Daemon T) A :=
  zoom (fun d => (lk_session (dm_link d), lk_stream (dm_link d)))
       (fun x d => with_link (mkLink x.2 x.1 (lk_conn_type (dm_link d)) (lk_service (dm_link d))) d) m.

(** [let _ = send_response(&mut writer, &resp).await] *)
Definition reply (resp : SessionResponse) : M (Daemon T) unit :=
  quietly (on_exec (on_writer (send_response resp))).

(** *** Shutting down *)

(** [graceful_shutdown] *)
Definition graceful_shutdown : M (Daemon T) unit :=
  on_enc shutdown_stream ;;; on_files cleanup.

(** [heartbeat_task.abort(); graceful_shutdown(..).await?; return ..] *)
Definition stop (e : option Error) {A} (a : A) : M (Daemon T) A :=
  modify (fun d => mkDaemon (dm_link d) (dm_net d) (dm_disk d) (dm_client d) (dm_last_activity d)
                     false (dm_events d)) ;;;
  graceful_shutdown ;;;
  match e with Some err => fail err | None => ret a end.

(** *** Connecting *)

(** One attempt of [connection::connect_with_mode]. *)
Definition connect_attempt (config : ConnConfig) (conn_type : ConnType) (service_id : option string)
    : M (ConnEnv T * nat) (PeerInfo * EncryptedStream T) :=
  let* s := get in
  modify (fun s => (s.1, S s.2)) ;;;
  zoom fst (fun x s => (x, s.2))
    (connect_with_mode (w_rnd w s.2) (w_udp w s.2) config conn_type
       (login_union_for_conn_type conn_type service_id)).

(** [connect_with_timeout], with its two kinds of error. *)
Definition connect_with_timeout (config : ConnConfig) (timeout_secs : Z) (conn_type : ConnType)
    : M (ConnEnv T * nat) (Res (PeerInfo * EncryptedStream T) + Z) :=
  let* r := timeout (1000 * timeout_secs) (connect_attempt config conn_type None) in
  ret (match r with Some r => inl r | None => inr timeout_secs end).

(** [reconnect_encrypted_stream], with the active service id; the caller takes the stream. *)
Definition reconnect_encrypted_stream (config : ConnConfig) (conn_type : ConnType)
    : M (Daemon T) (EncryptedStream T) :=
  let* d := get in
  let* '(peer_info, encrypted) :=
    zoom dm_net with_net
      (reconnect_with_retry (connect_attempt config conn_type (lk_service (dm_link d))) (fun _ => ret tt)) in
  let* '(_, encrypted) := locally encrypted (initialize_stream_for_mode conn_type) in
  modify (fun d => with_link
    (mkLink (lk_stream (dm_link d))
       (mkSession Connected (s_config (lk_session (dm_link d))) (Some (peer_info_state peer_info)))
       (lk_conn_type (dm_link d)) (lk_service (dm_link d))) d) ;;;
  ret encrypted.

(** Reconnect in the active mode; without success the daemon stops. *)
Definition reconnect_or_stop (config : ConnConfig) : M (Daemon T) (unit + unit) :=
  let* d := get in
  let* r := try (reconnect_encrypted_stream config (lk_conn_type (dm_link d))) in
  match r with
  | Ok encrypted => modify (with_stream encrypted) ;;; ret (inl tt)
  | Err reconnect_err => stop (Some reconnect_err) (inr tt)
  end.

(** *** Peer messages and heartbeats *)

Definition on_peer_message (config : ConnConfig) (r : Res bytes) : M (Daemon T) (unit + unit) :=
  match r with
  | Ok [] => ret (inl tt)
  | Ok data =>
    let* go := try (on_enc (handle_peer_message data)) in
    match go with
    | Ok false => stop None (inr tt)
    | Ok true | Err _ => ret (inl tt)
    end
  | Err _ => reconnect_or_stop config
  end.

Definition on_heartbeat_tick (config : ConnConfig) : M (Daemon T) (unit + unit) :=
  let* sent := try (on_enc send_heartbeat) in
  match sent with
  | Err _ => reconnect_or_stop config
  | Ok _ =>
    let* idle := on_enc recv_idle_for in
    if is_keepalive_expired idle KEEPALIVE_TIMEOUT then reconnect_or_stop config else ret (inl tt)
  end.

(** *** Clients *)

(** Bring the connection to the type the command needs; [false] when that failed and the client
    was told. *)
Definition ensure_conn_type (config : ConnConfig) (cmd : SessionCommand) : M (Daemon T) bool :=
  let* d := get in
  let desired := conn_type_for_command cmd in
  if decide (desired = lk_conn_type (dm_link d)) then ret true
  else
    (if decide (desired = ConnTerminal) then ret tt
     else modify (fun d => with_link (mkLink (lk_stream (dm_link d)) (lk_session (dm_link d))
                                        (lk_conn_type (dm_link d)) None) d)) ;;;
    let* r := try (reconnect_encrypted_stream config desired) in
    match r with
    | Ok encrypted =>
      modify (fun d => with_link (mkLink encrypted (lk_session (dm_link d)) desired
                                    (lk_service (dm_link d))) d) ;;;
      ret true
    | Err reconnect_err => reply (resp_error (error_render reconnect_err)) ;;; ret false
    end.

(** Run a command; when the connection is the problem, reconnect and run it once more. *)
Definition with_retry (config : ConnConfig) (what : string) (run : M (Daemon T) SessionResponse)
    : M (Daemon T) SessionResponse :=
  let* r := try run in
  match r with
  | Ok resp => ret resp
  | Err command_err =>
    if should_reconnect command_err then
      let* d := get in
      let* rr := try (reconnect_encrypted_stream config (lk_conn_type (dm_link d))) in
      match rr with
      | Ok encrypted =>
        modify (with_stream encrypted) ;;;
        let* r2 := try run in
        match r2 with
        | Ok resp => ret resp
        | Err retry_err =>
          ret (resp_error (what ++ " failed after reconnect: " ++ error_render retry_err)%string)
        end
      | Err reconnect_err =>
        let resp := resp_error ("connection lost: " ++ error_render command_err
                                  ++ "; reconnect failed: " ++ error_render reconnect_err)%string in
        reply resp ;;; stop (Some reconnect_err) resp
      end
    else ret (resp_error (error_render command_err))
  end.

Definition serve_shell (config : ConnConfig) : M (Daemon T) (unit + unit) :=
  let* r := try (on_shell shell_session) in
  match r with
  | Err e => if should_reconnect e then reconnect_or_stop config else ret (inl tt)
  | Ok _ => ret (inl tt)
  end.

(** What the other commands run. *)
Definition run_command (cmd : SessionCommand) : M (Daemon T) SessionResponse :=
  let* t := now in
  match cmd with
  | CmdPush local_path remote_path =>
    on_exec (push_file_command (w_file w local_path) (w_nanos w t) local_path remote_path)
  | CmdExec command timeout_secs =>
    on_exec (exec_command_inner (w_nanos w t) command timeout_secs true)
  | cmd => on_control (execute_daemon_command (w_pid w) (w_nanos w t) cmd)
  end.
Definition command_name (cmd : SessionCommand) : string :=
  match cmd with CmdPush _ _ => "push" | CmdExec _ _ => "exec" | _ => "command" end.

Definition serve_command (config : ConnConfig) (cmd : SessionCommand) : M (Daemon T) (unit + unit) :=
  let* go := ensure_conn_type config cmd in
  if negb go then ret (inl tt)
  else match cmd with
       | CmdShell => serve_shell config
       | _ =>
         let* response := with_retry config (command_name cmd) (run_command cmd) in
         reply response ;;;
         match cmd with
         | CmdDisconnect => stop None (inr tt)
         | _ => ret (inl tt)
         end
       end.

(** A client's first line; reading it has no time limit. *)
Definition read_first_line (c : Client) : M (Daemon T) string :=
  match cl_line c with
  | Some (a, r) => wait_until a ;;; lift r
  | None => pending
  end.

Definition on_accept (config : ConnConfig) (c : Client) : M (Daemon T) (unit + unit) :=
  let* t := now in
  modify (fun d => mkDaemon (dm_link d) (dm_net d) (dm_disk d) (cl_reader c, mkUdsWriter [] (cl_faults c))
                     t (dm_heartbeat d) (dm_events d)) ;;;
  let* r := try (read_first_line c) in
  match r with
  | Err _ => ret (inl tt)
  | Ok line =>
    match cmd_from_str (trim line) with
    | Err e => reply (resp_error ("Invalid command: " ++ error_to_string e)%string) ;;; ret (inl tt)
    | Ok cmd => serve_command config cmd
    end
  end.

(** *** The loop *)

(** [tokio::select!] over the listener with the idle timeout, the peer, the heartbeat channel
    and the signals.  A receive that does not finish first is dropped; when it is ready at the
    same time it goes first. *)
Definition wait_event (idle_timeout : Z) : M (Daemon T) DaemonEvent :=
  let* d := get in
  let* t := now in
  let idle_at := t + Z.max 0 (idle_timeout - (t - dm_last_activity d)) in
  let '(at_, ev, rest) :=
    match dm_events d with
    | (a, x) :: rest => if a <=? idle_at then (a, event_of x, rest) else (idle_at, EvIdle, dm_events d)
    | [] => (idle_at, EvIdle, [])
    end in
  let* r := race at_ (on_enc es_recv) in
  match r with
  | Some r => ret (EvPeer r)
  | None =>
    modify (fun d => mkDaemon (dm_link d) (dm_net d) (dm_disk d) (dm_client d) (dm_last_activity d)
                       (dm_heartbeat d) rest) ;;;
    ret ev
  end.

Definition handle_event (config : ConnConfig) (ev : DaemonEvent) : M (Daemon T) (unit + unit) :=
  match ev with
  | EvPeer r => on_peer_message config r
  | EvTick => on_heartbeat_tick config
  | EvClient c => on_accept config c
  | EvAcceptError _ => ret (inl tt)
  | EvIdle | EvSignal _ => stop None (inr tt)
  end.

Definition daemon_step (idle_timeout : Z) (config : ConnConfig) (_ : unit) : M (Daemon T) (unit + unit) :=
  let* ev := wait_event idle_timeout in handle_event config ev.

(** *** Starting up *)

(** What the process has before it is connected. *)
Record Startup : Type := mkStartup {
  st_net : ConnEnv T * nat;
  st_disk : Disk;
  st_events : list (Z * External)
}.
Definition on_st_disk {A} (m : M Disk A) : M Startup A :=
  zoom st_disk (fun k s => mkStartup (st_net s) k (st_events s)) m.
Definition on_st_net {A} (m : M (ConnEnv T * nat) A) : M Startup A :=
  zoom st_net (fun n s => mkStartup n (st_disk s) (st_events s)) m.

(** [let _ = write_startup_error(..); cleanup(); let _ = write_startup_error(..)] *)
Definition report_startup_error (message : string) : M Startup unit :=
  on_st_disk (quietly (write_startup_error message) ;;; cleanup ;;; quietly (write_startup_error message)).

Definition initial_session (args : DaemonArgs) (peer_info : PeerInfo) : Session :=
  mkSession Connected
    (Some (mkConnectionConfig (da_peer_id args) (da_password args) (da_server args)))
    (Some (peer_info_state peer_info)).

Definition config_of (args : DaemonArgs) : ConnConfig :=
  build_connection_config (da_peer_id args) (da_password args) (da_server args) (da_id_server args)
    (da_relay_server args) (da_key args).

Definition idle_timeout_of (args : DaemonArgs) : Z := 1000 * default 300 (da_timeout args).

(** The body under the [DaemonCleanupGuard], up to the event loop: the daemon's state, or
    nothing when it gave up. *)
Definition start_up (args : DaemonArgs) : M Startup (option (Link T)) :=
  on_st_disk (set_permissions SOCKET_PATH owner_only) ;;;
  let timeout_secs := default 30 (da_connect_timeout args) in
  let* r := on_st_net (connect_with_timeout (config_of args) timeout_secs DefaultConn) in
  match r with
  | inl (Err e) => report_startup_error (error_render e) ;;; ret None
  | inr secs => report_startup_error ("connect timed out after " ++ show_Z secs ++ "s")%string ;;; ret None
  | inl (Ok (peer_info, encrypted)) =>
    let* init := locally encrypted (try (initialize_stream_for_mode DefaultConn)) in
    match init with
    | (Err e, encrypted) =>
      on_st_disk (quietly (write_startup_error ("daemon init failed: " ++ error_render e)%string)) ;;;
      quietly (locally encrypted es_close) ;;;
      on_st_disk cleanup ;;;
      ret None
    | (Ok _, encrypted) =>
      on_st_disk (lock_write (w_pid w) SOCKET_PATH) ;;;
      ret (Some (mkLink encrypted (initial_session args peer_info) DefaultConn None))
    end
  end.

(** The process: its start, and the daemon once it serves. *)
Inductive Process : Type :=
| Starting (s : Startup)
| Serving (d : Daemon T).
Definition proc_disk (p : Process) : Disk :=
  match p with Starting s => st_disk s | Serving d => dm_disk d end.
Definition set_proc_disk (k : Disk) (p : Process) : Process :=
  match p with
  | Starting s => Starting (mkStartup (st_net s) k (st_events s))
  | Serving d => Serving (with_disk k d)
  end.

(** The daemon as it enters the loop, at time [t]. *)
Definition first_state (lk : Link T) (t : Z) (s : Startup) : Daemon T :=
  mkDaemon lk (st_net s) (st_disk s) (mkUdsReader [] None, mkUdsWriter [] []) t true (st_events s).

(** The loop from a link, for at most [fuel] events. *)
Definition serve (fuel : nat) (args : DaemonArgs) (lk : Link T) : M Process unit := fun dl t p =>
  match p with
  | Starting s =>
    let '(o, t', d') := iter fuel (daemon_step (idle_timeout_of args) (config_of args)) tt dl t
                          (first_state lk t s) in
    (o, t', Serving d')
  | Serving _ => (Done tt, t, p)
  end.

Definition starting {A} (m : M Startup A) : M Process A := fun dl t p =>
  match p with
  | Starting s => let '(o, t', s') := m dl t s in (o, t', Starting s')
  | Serving _ => (Hang, t, p)
  end.

(** [run_daemon], serving at most [fuel] events. *)
Definition run_daemon (fuel : nat) (args : DaemonArgs) : M Process unit :=
  starting (on_st_disk (cleanup_stale_daemon_artifacts SOCKET_PATH LOCK_PATH ERROR_PATH)) ;;;
  starting (on_st_disk (context "Failed to bind Unix socket" (bind_socket SOCKET_PATH))) ;;;
  guarded
    (let* lk := starting (start_up args) in
     match lk with
     | Some lk => serve fuel args lk
     | None => ret tt
     end)
    (zoom proc_disk set_proc_disk cleanup).
End loop.

(** ** The loop's invariant *)

(** The daemon between two events: the session is connected, with the configuration it was started
    with and a peer; the connection is of one of the two types in use; only a terminal connection
    has a service id; and the heartbeat task runs. *)
Record daemon_ok {T} (args : DaemonArgs) (d : Daemon T) : Prop := {
  ok_state : s_state (lk_session (dm_link d)) = Connected;
  ok_config : s_config (lk_session (dm_link d)) =
    Some (mkConnectionConfig (da_peer_id args) (da_password args) (da_server args));
  ok_peer : is_Some (s_peer_info (lk_session (dm_link d)));
  ok_type : lk_conn_type (dm_link d) = DefaultConn \/ lk_conn_type (dm_link d) = ConnTerminal;
  ok_service : is_Some (lk_service (dm_link d)) -> lk_conn_type (dm_link d) = ConnTerminal;
  ok_heartbeat : dm_heartbeat d = true
}.

Lemma dispatch_connected s cmd :
  s_state s = Connected -> cmd <> CmdDisconnect -> (dispatch s cmd).1 = s.
Proof.
  intros Hs Hc. destruct cmd; try done. cbn. unfold dispatch_connect. by rewrite decide_True.
Qed.

Section invariant.
Context {T : Type} `{Transport T} `{CryptoLib} `{ProtoCodec Message} `{ProtoCodec IdPk}
  `{ProtoCodec RendezvousMessage} `{ServerKeyLib} `{Zstd} {Img : Type} `{ImageLib Img}
  `{LockLib} `{CommandLib}.
Context (w : World) (args : DaemonArgs).
Abbreviation ok := (@daemon_ok T args).

Lemma ok_with_stream x d : ok d -> ok (with_stream x d).
Proof. intros []. by constructor. Qed.
Lemma ok_with_net x d : ok d -> ok (with_net x d).
Proof. intros []. by constructor. Qed.
Lemma ok_with_disk x d : ok d -> ok (with_disk x d).
Proof. intros []. by constructor. Qed.

(** Work on the stream, the network or the files keeps the invariant. *)
Lemma ok_on_enc {A} (m : M (EncryptedStream T) A) : triple ok (on_enc m) (fun _ => ok) ok.
Proof. apply triple_zoom; auto using ok_with_stream. Qed.

(** A client's command keeps it on a terminal connection, or when it leaves the service id. *)
Lemma ok_on_shell {A} (m : M (ShellState (T := T)) A) :
  triple (fun d => ok d /\ lk_conn_type (dm_link d) = ConnTerminal) (on_shell m) (fun _ => ok) ok.
Proof. apply triple_zoom; [intros a x d [[] Ht]|intros x d [[] Ht]]; by constructor. Qed.

Lemma ok_on_exec {A} (m : M (ExecState T) A) :
  (forall v, triple (fun x => ex_service_id x = v) m (fun _ x => ex_service_id x = v)
               (fun x => ex_service_id x = v)) ->
  triple ok (on_exec m) (fun _ => ok) ok.
Proof.
  intros Hm. apply (triple_zoom_keeps _ _ _ (fun d x => ex_service_id x.1 = lk_service (dm_link d))).
  - intros d Hd. split; [done|].
    apply (triple_zoom_keeps _ _ _ (fun _ x => ex_service_id x = lk_service (dm_link d))); auto.
  - intros _ x d [] Hx. constructor; cbn; try done. by rewrite Hx.
  - intros x d [] Hx. constructor; cbn; try done. by rewrite Hx.
Qed.

Lemma ok_reply resp (E : Daemon T -> Prop) : triple ok (reply resp) (fun _ => ok) E.
Proof. apply triple_quietly, ok_on_exec. intros v. apply on_writer_service. Qed.

(** Reconnecting leaves the service id and the connection type alone. *)
Lemma ok_reconnect_keeps config conn_type v :
  let I := fun d : Daemon T => ok d /\ (lk_service (dm_link d), lk_conn_type (dm_link d)) = v in
  triple I (reconnect_encrypted_stream w config conn_type) (fun _ => I) I.
Proof.
  intros I. unfold reconnect_encrypted_stream.
  eapply triple_bind; [by apply triple_get with (Q := fun _ => I)|].
  intros d. eapply triple_bind; [apply triple_zoom with (Q := fun _ => I)|].
  - intros a x d1 []. split; [by apply ok_with_net|done].
  - intros x d1 []. split; [by apply ok_with_net|done].
  - intros [peer_info encrypted]. eapply triple_bind; [by apply triple_locally with (Q := fun _ => I)|].
    intros [[] encrypted']. eapply triple_bind; [apply triple_modify with (Q := fun _ => I)|].
    + intros d1 [[] Hv]. split; [|done]. constructor; cbn; eauto.
    + intros u. by apply triple_ret.
Qed.

Lemma ok_reconnect_prop config conn_type (Pr : option string * ConnType -> Prop) :
  let I := fun d : Daemon T => ok d /\ Pr (lk_service (dm_link d), lk_conn_type (dm_link d)) in
  triple I (reconnect_encrypted_stream w config conn_type) (fun _ => I) I.
Proof.
  intros I dl t d [Hd Hp]. pose proof (ok_reconnect_keeps config conn_type _ dl t d (conj Hd eq_refl)) as X.
  unfold I. destruct (reconnect_encrypted_stream w config conn_type dl t d) as [[[a|e| | |] t'] d']; try done;
    destruct X as [? ->]; done.
Qed.

Lemma ok_reconnect config conn_type :
  triple ok (reconnect_encrypted_stream w config conn_type) (fun _ => ok) ok.
Proof.
  eapply triple_mono; [apply (ok_reconnect_prop config conn_type (fun _ => True))|..].
  - by intros d.
  - by intros a d [].
  - by intros d [].
Qed.

(** [stop] never lets the loop go on. *)
Lemma stop_ends (I E : Daemon T -> Prop) e :
  (forall d, E d) -> triple I (stop e (inr tt : unit + unit)) (fun r d => r = inl tt -> ok d) E.
Proof.
  intros HE dl t d Hd. unfold stop.
  destruct (bind _ _ dl t d) as [[[r|err| | |] t'] d'] eqn:X; try done.
  apply bind_done_inv in X as (u1 & t1 & d1 & _ & X). apply bind_done_inv in X as (u2 & t2 & d2 & _ & X).
  destruct e; cbn in X; by simplify_eq.
Qed.

Abbreviation stays := (fun (r : unit + unit) (d : Daemon T) => r = inl tt -> ok d).
Abbreviation anything := (fun _ : Daemon T => True).

Lemma ok_reconnect_or_stop config : triple ok (reconnect_or_stop w config) stays anything.
Proof.
  unfold reconnect_or_stop. eapply triple_bind; [by apply triple_get with (Q := fun _ => ok)|]. intros d.
  eapply triple_bind; [apply triple_try with (Q := fun _ => ok)|].
  - eapply triple_mono; [apply ok_reconnect|auto..].
  - intros [encrypted|e]; [|by apply stop_ends].
    eapply triple_bind; [apply triple_modify with (Q := fun _ => ok); auto using ok_with_stream|].
    intros u0. by apply triple_ret.
Qed.

Lemma ok_on_peer_message config r : triple ok (on_peer_message w config r) stays anything.
Proof.
  destruct r as [[|b data]|e]; cbn [on_peer_message]; [by apply triple_ret| |apply ok_reconnect_or_stop].
  eapply triple_bind; [apply triple_try with (Q := fun _ => ok)|].
  - eapply triple_mono; [apply ok_on_enc|auto..].
  - intros [[|]|e]; [by apply triple_ret|by apply stop_ends|by apply triple_ret].
Qed.

Lemma ok_on_heartbeat_tick config : triple ok (on_heartbeat_tick w config) stays anything.
Proof.
  unfold on_heartbeat_tick. eapply triple_bind; [apply triple_try with (Q := fun _ => ok)|].
  - eapply triple_mono; [apply ok_on_enc|auto..].
  - intros [u|e]; [|apply ok_reconnect_or_stop].
    eapply triple_bind with (Q1 := fun _ => ok); [eapply triple_mono; [apply ok_on_enc|auto..]|]. intros idle.
    destruct (is_keepalive_expired idle KEEPALIVE_TIMEOUT); [apply ok_reconnect_or_stop|by apply triple_ret].
Qed.

(** When the command goes ahead, the connection is of the type it needs. *)
Lemma ok_ensure_conn_type config cmd :
  triple ok (ensure_conn_type w config cmd)
    (fun go d => ok d /\ (go = true -> lk_conn_type (dm_link d) = conn_type_for_command cmd)) anything.
Proof.
  unfold ensure_conn_type.
  eapply triple_bind; [apply triple_get with (Q := fun d0 d => ok d /\ d0 = d); auto|]. intros d0.
  destruct (decide _) as [E|E]; [apply triple_ret; intros d [Hd ->]; done|].
  set (I := fun d : Daemon T => ok d /\
    (conn_type_for_command cmd <> ConnTerminal -> lk_service (dm_link d) = None)).
  eapply triple_bind with (Q1 := fun _ => I).
  { destruct (decide (_ = ConnTerminal)); [apply triple_ret; by intros d []|].
    apply triple_modify. intros d [[] ->]. split; [|done]. constructor; cbn; try done. }
  intros u. eapply triple_bind; [apply triple_try with (Q := fun _ => I)|].
  - eapply triple_mono; [apply (ok_reconnect_prop config _
      (fun v => conn_type_for_command cmd <> ConnTerminal -> v.1 = None))|auto..].
  - intros [encrypted|e].
    + eapply triple_bind; [apply triple_modify with
        (Q := fun _ d => ok d /\ lk_conn_type (dm_link d) = conn_type_for_command cmd)|].
      * intros d [[] Hs]. split; [|done]. constructor; cbn; try done.
        -- destruct cmd; cbn; auto.
        -- intros Hsome. destruct (decide (conn_type_for_command cmd = ConnTerminal)) as [|Hn]; [done|].
           rewrite Hs in Hsome by done. by destruct Hsome.
      * intros u1. apply triple_ret. by intros d [].
    + eapply triple_bind with (Q1 := fun _ => ok);
        [eapply triple_mono; [apply (ok_reply _ anything)|by intros d []|auto..]|].
      intros u1. by apply triple_ret.
Qed.

Lemma ok_stop_some (I E : Daemon T -> Prop) {A} err (a : A) (Q : A -> Daemon T -> Prop) :
  (forall d, E d) -> triple I (stop (Some err) a) Q E.
Proof.
  intros HE dl t d Hd. unfold stop.
  destruct (bind _ _ dl t d) as [[[r|e| | |] t'] d'] eqn:X; try done.
  apply bind_done_inv in X as (u1 & t1 & d1 & _ & X). apply bind_done_inv in X as (u2 & t2 & d2 & _ & X).
  done.
Qed.

(** A command that keeps the invariant, on connections of some types, keeps it with its retry. *)
Lemma ok_with_retry config what run (Pr : ConnType -> Prop) :
  let I := fun d : Daemon T => ok d /\ Pr (lk_conn_type (dm_link d)) in
  triple I run (fun _ => I) I ->
  triple I (with_retry w config what run) (fun _ => I) anything.
Proof.
  intros I Hrun. unfold with_retry.
  assert (forall E : Daemon T -> Prop, triple I (try run) (fun _ => I) E) as Htry.
  { intros E. apply triple_try. eapply triple_mono; [apply Hrun|auto..]. }
  eapply triple_bind; [apply Htry|]. intros [resp|command_err]; [by apply triple_ret|].
  destruct (should_reconnect command_err); [|by apply triple_ret].
  eapply triple_bind; [apply triple_get with (Q := fun d0 d => I d /\ d0 = d); auto|]. intros d0.
  eapply triple_bind with (Q1 := fun _ => I).
  { apply triple_try. eapply triple_mono;
      [apply (ok_reconnect_prop config _ (fun v => Pr v.2))|by intros d []|auto..]. }
  intros [encrypted|e].
  - eapply triple_bind; [apply triple_modify with (Q := fun _ => I)|].
    + intros d [Hd Hp]. split; [by apply ok_with_stream|done].
    + intros u. eapply triple_bind; [apply Htry|]. intros [resp|e]; by apply triple_ret.
  - eapply triple_bind with (Q1 := fun _ => anything).
    + eapply triple_mono; [apply (ok_reply _ anything)|by intros d []|auto..].
    + intros u. by apply ok_stop_some.
Qed.

(** On a connected session only [Disconnect] changes it. *)
Lemma execute_keeps_session pid nanos cmd s0 :
  s_state s0 = Connected -> cmd <> CmdDisconnect ->
  let J := fun x : Session * EncryptedStream T => x.1 = s0 in
  triple J (execute_daemon_command pid nanos cmd) (fun _ => J) J.
Proof.
  intros Hc Hcmd J. assert (forall A (m : M (EncryptedStream T) A), triple J (on_session m) (fun _ => J) J) as Hon.
  { intros A m. by apply triple_zoom. }
  assert (triple J (let* st := get in let '(session, r) := dispatch st.1 cmd in
    modify (fun st => (session, st.2)) ;;; let* '(resp, _) := lift r in ret resp) (fun _ => J) J) as Hd.
  { eapply triple_bind; [apply triple_get with (Q := fun st0 st => J st /\ st0 = st); auto|]. intros st0.
    destruct (dispatch st0.1 cmd) as [session r] eqn:E.
    eapply triple_bind; [apply triple_modify with (Q := fun _ => J)|].
    - intros st [Hst ->]. unfold J in *. cbn. rewrite <- Hst in Hc.
      pose proof (dispatch_connected st.1 cmd Hc Hcmd) as X. rewrite E in X. cbn in X. by subst.
    - intros u. eapply triple_bind; [by apply triple_lift with (Q := fun _ => J)|].
      intros [resp msgs]. by apply triple_ret. }
  destruct cmd; try done; cbn [execute_daemon_command]; try apply Hon; try apply Hd.
  eapply triple_bind with (Q1 := fun _ => J); [|intros data; by apply triple_ret].
  intros dl t st Hst. unfold timeout_or, bind, timeout. set (dl' := Some _).
  unfold on_session, zoom. destruct (request_screenshot _ _ _ dl' t st.2) as [[[a|e| | |] t'] x]; try done.
  by destruct (_ <=? _).
Qed.

Lemma ok_run_command cmd :
  cmd <> CmdDisconnect -> cmd <> CmdShell ->
  let I := fun d : Daemon T => ok d /\ lk_conn_type (dm_link d) = conn_type_for_command cmd in
  triple I (run_command w cmd) (fun _ => I) I.
Proof.
  intros Hd Hs I. unfold run_command.
  eapply triple_bind; [by apply triple_now with (Q := fun _ => I)|]. intros t.
  assert (triple I (on_control (execute_daemon_command (w_pid w) (w_nanos w t) cmd)) (fun _ => I) I) as Hctl.
  { apply (triple_zoom_keeps _ _ _ (fun d x => x.1 = lk_session (dm_link d))).
    - intros d [[] _]. split; [done|]. by apply execute_keeps_session.
    - intros a x d [[] Ht] Hx. split; [constructor; cbn; rewrite ?Hx; done|done].
    - intros x d [[] Ht] Hx. split; [constructor; cbn; rewrite ?Hx; done|done]. }
  destruct cmd; try done; try apply Hctl.
  - apply triple_zoom; [intros a x d [[] Ht]|intros x d [[] Ht]]; (split; [by constructor|done]).
  - unfold I. intros dl t0 d [Hok Ht].
    pose proof (ok_on_exec _ (fun v => push_file_command_service v (w_file w local_path) (w_nanos w t)
      local_path remote_path) dl t0 d Hok) as X.
    unfold on_exec, on_shell, zoom in *.
    destruct (in_exec (push_file_command _ _ _ _) dl t0 _) as [[[a|e| | |] t'] x]; done.
Qed.

Lemma ok_serve_command config cmd : triple ok (serve_command w config cmd) stays anything.
Proof.
  unfold serve_command. eapply triple_bind; [apply ok_ensure_conn_type|]. intros [|]; cbn [negb];
    [|apply triple_ret; by intros d [Hd _]].
  destruct (decide (cmd = CmdDisconnect)) as [->|Hd].
  { intros dl t d _. destruct (bind _ _ dl t d) as [[[r|e| | |] t'] d'] eqn:X; try done.
    apply bind_done_inv in X as (resp & t1 & d1 & _ & X). apply bind_done_inv in X as (u & t2 & d2 & _ & X).
    pose proof (stop_ends anything anything None (fun _ => I) dl t2 d2 I) as Y. by rewrite X in Y. }
  destruct (decide (cmd = CmdShell)) as [->|Hs].
  { unfold serve_shell. eapply triple_bind with (Q1 := fun _ => ok).
    - apply triple_try. eapply triple_mono; [apply ok_on_shell| |auto..]. intros d [Hok Ht]. auto.
    - intros [u|e]; [by apply triple_ret|].
      destruct (should_reconnect e); [apply ok_reconnect_or_stop|by apply triple_ret]. }
  set (I := fun d : Daemon T => ok d /\ lk_conn_type (dm_link d) = conn_type_for_command cmd).
  assert (triple I (let* response := with_retry w config (command_name cmd) (run_command w cmd) in
    reply response ;;; ret (inl tt)) stays anything) as Hmain.
  { eapply triple_bind; [apply (ok_with_retry config _ _ (fun c => c = conn_type_for_command cmd));
      by apply ok_run_command|].
    intros resp. eapply triple_bind with (Q1 := fun _ => ok).
    - eapply triple_mono; [apply (ok_reply _ anything)|by intros d []|auto..].
    - intros u. by apply triple_ret. }
  assert (forall d, (ok d /\ (true = true -> lk_conn_type (dm_link d) = conn_type_for_command cmd)) -> I d) as HI
    by (intros d []; split; auto).
  destruct cmd; try done; (eapply triple_mono; [exact Hmain|exact HI|done|done]).
Qed.

Lemma ok_on_accept config c : triple ok (on_accept w config c) stays anything.
Proof.
  unfold on_accept. eapply triple_bind; [by apply triple_now with (Q := fun _ => ok)|]. intros t.
  eapply triple_bind; [apply triple_modify with (Q := fun _ => ok); intros d []; by constructor|]. intros u.
  eapply triple_bind with (Q1 := fun _ => ok).
  { apply triple_try. unfold read_first_line. destruct (cl_line c) as [[a r]|]; [|apply triple_pending].
    eapply triple_bind; [apply triple_wait_until|]. intros u1. apply triple_lift; auto. }
  intros [line|e]; [|by apply triple_ret].
  destruct (cmd_from_str (trim line)) as [cmd|e]; [apply ok_serve_command|].
  eapply triple_bind; [apply ok_reply|]. intros u1. by apply triple_ret.
Qed.

Lemma ok_daemon_step idle_timeout config :
  triple ok (daemon_step w idle_timeout config tt) stays anything.
Proof.
  unfold daemon_step. eapply triple_bind with (Q1 := fun _ => ok).
  - unfold wait_event. eapply triple_bind; [by apply triple_get with (Q := fun _ => ok)|]. intros d.
    eapply triple_bind; [by apply triple_now with (Q := fun _ => ok)|]. intros t.
    destruct (match dm_events d with [] => _ | _ => _ end) as [[at_ ev] rest].
    eapply triple_bind; [apply triple_race_zoom; auto using ok_with_stream|].
    intros [r|]; [by apply triple_ret|].
    eapply triple_bind; [apply triple_modify with (Q := fun _ => ok); intros d1 []; by constructor|].
    intros u. by apply triple_ret.
  - intros [c|e| |r| |n]; cbn [handle_event].
    + apply ok_on_accept.
    + by apply triple_ret.
    + by apply stop_ends.
    + apply ok_on_peer_message.
    + apply ok_on_heartbeat_tick.
    + by apply stop_ends.
Qed.
End invariant.

(** ** A daemon left alone with its peer *)

Section peer.
Context (C : CryptoLib) {L : CryptoLaws C} (P : ProtoCodec Message) {PL : ProtoLaws P}.
Context `{ProtoCodec IdPk} `{ProtoCodec RendezvousMessage} `{ServerKeyLib} `{Zstd} {Img : Type}
  `{ImageLib Img} `{LockLib} `{CommandLib}.
Context (w : World) (config : ConnConfig).
Abbreviation D := (Daemon NetTransport).

(** What the daemon answers to a message, and the messages that do not end the session. *)
Definition echo_of (m : Message) : list (option bytes) :=
  match m with
  | Some (UTestDelay td) =>
    [Some (encode (Some (UTestDelay
       (mkTestDelay (td_time td) true (td_last_delay td) (td_target_bitrate td)))))]
  | _ => []
  end.
Definition echoes (l : inbox) : list (option bytes) := concat (map (fun x => echo_of (seen x.2)) l).
Definition stays_open (m : Message) : Prop :=
  match m with Some (UMisc (Some (MCloseReason _))) => False | _ => True end.
Definition close_item : option bytes := Some (encode (Some (UMisc (Some (MCloseReason ""))))).

Lemma handle_peer_message_run m dl t s :
  stays_open m -> Forall sendable (echo_of m) -> net_faults (es_inner s) = [] ->
  handle_peer_message (encode m) dl t s = (Done true, t, with_sent C (echo_of m) s).
Proof.
  intros Hm Hs Hf. unfold handle_peer_message, bind. rewrite decode_encode. cbn [lift ret].
  destruct m as [[| |td| | | | | |[[]|]| | | | | |]|]; try done; cbn [echo_of] in *;
    rewrite ?with_sent_nil; try done.
  apply Forall_cons_1 in Hs as [Hs _]. unfold context, send_message.
  by rewrite (es_send_run C) by done.
Qed.

(** The instant the loop gives up waiting, as the code computes it. *)
Lemma idle_instant t last idle : t <= last + idle -> t + Z.max 0 (idle - (t - last)) = last + idle.
Proof. lia. Qed.

(** What wakes the loop when the peer does not: the next event, or the idle timeout. *)
Definition next_wake (idle : Z) (d : D) : Z * DaemonEvent * list (Z * External) :=
  let idle_at := dm_last_activity d + idle in
  match dm_events d with
  | (a, x) :: rest => if a <=? idle_at then (a, event_of x, rest) else (idle_at, EvIdle, dm_events d)
  | [] => (idle_at, EvIdle, [])
  end.
Definition woken (rest : list (Z * External)) (d : D) : D :=
  mkDaemon (dm_link d) (dm_net d) (dm_disk d) (dm_client d) (dm_last_activity d) (dm_heartbeat d) rest.

(** A message of the peer comes first. *)
Lemma wait_hears idle a m l t (d : D) at_ ev rest :
  delivers_msgs C P ((a, m) :: l) (lk_stream (dm_link d)) -> t <= dm_last_activity d + idle ->
  next_wake idle d = (at_, ev, rest) -> a <= at_ ->
  wait_event idle None t d =
  (Done (EvPeer (Ok (item_text (encode <$> m)))), Z.max t a,
   with_stream (after_recv C (encode <$> m) (wire_items l) (Z.max t a) (lk_stream (dm_link d))) d).
Proof.
  intros Hd Ht Hn Ha. unfold wait_event, bind at 1. cbn [get]. unfold bind at 1. cbn [now].
  rewrite idle_instant by done. unfold next_wake in Hn. rewrite Hn. unfold bind at 1, race, timeout, on_enc, zoom.
  rewrite (es_recv_wait C a (encode <$> m) (wire_items l)) by done. unfold bind at 1.
  rewrite wait_until_on_time by (cbn; lia). done.
Qed.

(** Nothing comes from the peer before the next event. *)
Lemma wait_wakes idle l t (d : D) at_ ev rest :
  delivers_msgs C P l (lk_stream (dm_link d)) -> net_end (es_inner (lk_stream (dm_link d))) = Never ->
  t <= dm_last_activity d + idle -> next_wake idle d = (at_, ev, rest) -> t <= at_ -> first_after at_ l ->
  wait_event idle None t d = (Done ev, at_, woken rest d).
Proof.
  intros Hd He Ht Hn Ha Hl. unfold wait_event, bind at 1. cbn [get]. unfold bind at 1. cbn [now].
  rewrite idle_instant by done. unfold next_wake in Hn. rewrite Hn. unfold bind at 1, race, timeout, on_enc, zoom.
  replace (t + Z.max 0 (at_ - t)) with at_ by lia. rewrite (es_recv_late C P l) by done.
  rewrite Z.leb_refl. unfold bind. cbn. by destruct d as [[? ? ? ?] ? ? ? ? ? ?].
Qed.

Lemma peer_step idle a m l t (d : D) :
  let s := lk_stream (dm_link d) in
  net_faults (es_inner s) = [] -> delivers_msgs C P ((a, m) :: l) s ->
  t <= dm_last_activity d + idle -> a <= (next_wake idle d).1.1 ->
  stays_open (seen m) -> Forall sendable (echo_of (seen m)) ->
  daemon_step w idle config tt None t d =
  (Done (inl tt), Z.max t a,
   with_stream (with_sent C (echo_of (seen m)) (after_recv C (encode <$> m) (wire_items l) (Z.max t a) s)) d).
Proof.
  intros s Hf Hd Ht Ha Hm Hs. destruct (next_wake idle d) as [[at_ ev] rest] eqn:En.
  unfold daemon_step, bind at 1. rewrite (wait_hears idle a m l t d at_ ev rest) by done.
  fold s. cbn [handle_event on_peer_message].
  set (s1 := after_recv _ _ _ _ _). assert (net_faults (es_inner s1) = []) as Hf1 by done.
  destruct (item_text (encode <$> m)) as [|b bs] eqn:Eb.
  - (* nothing to decode *)
    assert (seen m = None) as ->.
    { pose proof (decode_seen P m) as X. rewrite Eb, decode_nil in X. by injection X. }
    cbn [echo_of]. by rewrite with_sent_nil.
  - unfold bind at 1, try, on_enc, zoom. cbn [lk_stream dm_link with_stream with_link].
    assert (b :: bs = encode (seen m)) as -> by (destruct m; [done|discriminate Eb]).
    rewrite handle_peer_message_run by done. done.
Qed.

Lemma with_sent_sent i1 i2 s : with_sent C i2 (with_sent C i1 s) = with_sent C (i1 ++ i2) s.
Proof.
  revert s. induction i1 as [|i i1 IH]; intros s; [by rewrite with_sent_nil|].
  rewrite <- (with_sent_cons C i), IH, with_sent_cons. done.
Qed.

(** Shutting down: the close message, the transport, the files. *)
Lemma stop_run t (d : D) {A} (a : A) :
  let s := lk_stream (dm_link d) in
  net_faults (es_inner s) = [] -> sendable close_item -> healthy (dm_disk d) ->
  exists d', stop None a None t d = (Done a, t, d') /\
    net_out (es_inner (lk_stream (dm_link d'))) =
      net_out (es_inner s) ++ sealed_frames (es_key s) (send_seq s) [close_item] /\
    net_shut (es_inner (lk_stream (dm_link d'))) = true /\
    dm_disk d' = without [LOCK_PATH; ERROR_PATH; SOCKET_PATH] (dm_disk d) /\
    dm_heartbeat d' = false /\ dm_client d' = dm_client d.
Proof.
  intros s Hf Hs Hk. unfold stop, bind at 1. cbn [modify]. unfold graceful_shutdown, bind, on_enc, zoom.
  cbn [lk_stream dm_link with_stream with_link]. fold s. unfold shutdown_stream, bind.
  rewrite quietly_run by (apply es_send_instant).
  unfold send_message. rewrite (es_send_run C) by done. cbn [snd].
  unfold context, es_close, zoom. cbn. unfold net_close, bind, net_step. cbn. rewrite Hf. cbn.
  unfold on_files, zoom. cbn. rewrite cleanup_run by done. cbn. eexists. split; [reflexivity|]. done.
Qed.

(** The daemon as it stops: it said goodbye, closed the transport and removed its files. *)
Definition stopped (d d' : D) : Prop :=
  let s := lk_stream (dm_link d) in
  net_out (es_inner (lk_stream (dm_link d'))) =
    net_out (es_inner s) ++ sealed_frames (es_key s) (send_seq s) [close_item] /\
  net_shut (es_inner (lk_stream (dm_link d'))) = true /\
  dm_disk d' = without [LOCK_PATH; ERROR_PATH; SOCKET_PATH] (dm_disk d) /\
  dm_heartbeat d' = false /\ dm_client d' = dm_client d.

(** Nothing comes from the peer before the loop is woken to end: the daemon stops there. *)
Lemma daemon_ends idle l t (d : D) at_ ev rest :
  let s := lk_stream (dm_link d) in
  healthy (dm_disk d) -> t <= dm_last_activity d + idle -> net_faults (es_inner s) = [] ->
  net_end (es_inner s) = Never -> delivers_msgs C P l s -> sendable close_item ->
  next_wake idle d = (at_, ev, rest) -> t <= at_ -> first_after at_ l ->
  match ev with EvIdle | EvSignal _ => True | _ => False end ->
  exists d', daemon_step w idle config tt None t d = (Done (inr tt), at_, d') /\ stopped d d'.
Proof.
  intros s Hk Ht Hf Hn Hd Hc En Ha Hl Hev. unfold daemon_step, bind at 1.
  rewrite (wait_wakes idle l t d at_ ev rest) by done.
  destruct (stop_run at_ (woken rest d) (inr tt : unit + unit)) as (d' & E & X); try done.
  exists d'. by destruct ev.
Qed.

Lemma sealed_frames_app key seq l1 l2 :
  sealed_frames key seq (l1 ++ l2) = sealed_frames key seq l1 ++ sealed_frames key (seq_after seq l1) l2.
Proof.
  revert seq. induction l1 as [|[p|] l1 IH]; intros seq; cbn; [done| |]; by rewrite IH.
Qed.

Lemma sealed_after_sent items s more :
  net_out (es_inner (with_sent C items s))
    ++ sealed_frames (es_key (with_sent C items s)) (send_seq (with_sent C items s)) more =
  net_out (es_inner s) ++ sealed_frames (es_key s) (send_seq s) (items ++ more).
Proof. cbn. by rewrite sealed_frames_app, (assoc_L (++)). Qed.
End peer.

(** ** Properties of the daemon *)

(** A toy instance of what the loop takes from outside, for evaluating it. *)
Definition toy_commands : CommandLib := {|
  cmd_from_str := fun s => if String.eqb s "disconnect" then Ok CmdDisconnect else Err (anyhow "unknown variant")
|}.
Definition toy_file : LocalFile :=
  mkLocalFile (Err (anyhow "no file")) (Err (anyhow "no file")) (Ok tt).
Definition toy_world : World :=
  mkWorld (fun _ => toy_random) (fun _ => Err (anyhow "network unreachable")) (fun t => 1000000 * t) 4242
    (fun _ => toy_file).
Definition toy_args : DaemonArgs := mkDaemonArgs "123" None None None None None None None.
Definition toy_server_keys : ServerKeyLib := {|
  verifying_key := fun b => Some b;
  ed25519_verify := fun _ _ _ => false;
  base64_standard := fun _ => Err (anyhow "no key")
|}.
#[local] Instance toy_crypto_i : CryptoLib := toy_crypto.
#[local] Instance toy_messages_i : ProtoCodec Message := toy_codec MessageUnion.
#[local] Instance toy_rendezvous_i : ProtoCodec RendezvousMessage := toy_codec RendezvousUnion.
#[local] Instance toy_idpk_i : ProtoCodec IdPk := toy_idpk.
#[local] Instance toy_server_keys_i : ServerKeyLib := toy_server_keys.
#[local] Instance toy_zstd_i : Zstd := toy_zstd.
#[local] Instance toy_image_i : ImageLib (Z * Z) := toy_image.
#[local] Instance toy_lock_i : LockLib := toy_lock.
#[local] Instance toy_commands_i : CommandLib := toy_commands.

Definition toy_daemon (s : EncryptedStream NetTransport) (conn_type : ConnType)
    (events : list (Z * External)) : Daemon NetTransport :=
  mkDaemon (mkLink s (initial_session toy_args toy_info) conn_type None)
    (mkConnEnv (mkNet [] Never [] [] false) [], O)
    (mkDisk (<[SOCKET_PATH := mkFile "" (Some owner_only)]> (<[LOCK_PATH := mkFile "" None]> ∅)) ∅ [])
    (mkUdsReader [] None, mkUdsWriter [] []) 0 true events.
Definition toy_stream (l : inbox) : EncryptedStream NetTransport :=
  es_new (mkNet (sealed_arrivals [x01] 0 (wire_items l)) Never [] [] false) [x01] 0.

(** The states the loop reaches, with the clock. *)
Inductive daemon_reach `{Transport T} `{CryptoLib} `{ProtoCodec Message} `{ProtoCodec IdPk}
    `{ProtoCodec RendezvousMessage} `{ServerKeyLib} `{Zstd} `{ImageLib Img} `{LockLib} `{CommandLib}
    (w : World) (idle : Z) (config : ConnConfig) : Z -> Daemon T -> Z -> Daemon T -> Prop :=
| reach_refl t d : daemon_reach w idle config t d t d
| reach_step t d t1 d1 t2 d2 :
    daemon_step w idle config tt None t d = (Done (inl tt), t1, d1) ->
    daemon_reach w idle config t1 d1 t2 d2 -> daemon_reach w idle config t d t2 d2.

Lemma reach_trans `{Transport T} `{CryptoLib} `{ProtoCodec Message} `{ProtoCodec IdPk}
    `{ProtoCodec RendezvousMessage} `{ServerKeyLib} `{Zstd} `{ImageLib Img} `{LockLib} `{CommandLib}
    (w : World) (idle : Z) (config : ConnConfig) t (d : Daemon T) t1 d1 t2 d2 :
  daemon_reach w idle config t d t1 d1 -> daemon_reach w idle config t1 d1 t2 d2 ->
  daemon_reach w idle config t d t2 d2.
Proof. induction 1; intros R; [done|]. econstructor; eauto. Qed.

(** C1: the daemon's invariant.  The state it starts serving with, and every state its event loop
    reaches whatever clients, peer, timers and the network do, has a connected session with the
    configuration the daemon was started with and a peer; its connection is of the default or the
    terminal type; a service id is kept only on a terminal connection; and the heartbeat task
    runs. *)
Theorem daemon_invariant `{Transport T} `{CryptoLib} `{ProtoCodec Message} `{ProtoCodec IdPk}
    `{ProtoCodec RendezvousMessage} `{ServerKeyLib} `{Zstd} `{ImageLib Img} `{LockLib} `{CommandLib}
    (w : World) (args : DaemonArgs) :
  (forall dl t0 s0 t s (lk : Link T),
     start_up w args dl t0 s0 = (Done (Some lk), t, s) -> daemon_ok args (first_state lk t s)) /\
  (forall idle config t (d : Daemon T) t' d',
     daemon_ok args d -> daemon_reach w idle config t d t' d' -> daemon_ok args d').
Proof.
  split.
  - intros dl t0 s0 t s lk E. unfold start_up in E.
    apply bind_done_inv in E as (u & t1 & s1 & _ & E). apply bind_done_inv in E as (r & t2 & s2 & _ & E).
    destruct r as [[[peer_info enc]|e]|secs];
      [|by apply bind_done_inv in E as (u1 & t3 & s3 & _ & E); simplify_eq..].
    apply bind_done_inv in E as ([[u1|e] enc1] & t3 & s3 & _ & E).
    + apply bind_done_inv in E as (u2 & t4 & s4 & _ & E). cbn in E. simplify_eq.
      constructor; cbn; eauto. by intros [].
    + apply bind_done_inv in E as (u2 & t4 & s4 & _ & E). apply bind_done_inv in E as (u3 & t5 & s5 & _ & E).
      apply bind_done_inv in E as (u4 & t6 & s6 & _ & E). by simplify_eq.
  - intros idle config t d t' d' Hok Hr. induction Hr as [|t d t1 d1 t2 d2 E _ IH]; [done|]. apply IH.
    pose proof (ok_daemon_step w args idle config None t d Hok) as X. rewrite E in X. by apply X.
Qed.

Lemma toy_daemon_ok s events : daemon_ok toy_args (toy_daemon s DefaultConn events).
Proof. constructor; cbn; eauto. by intros []. Qed.

Lemma daemon_invariant_witness :
  let d := toy_daemon (toy_stream []) DefaultConn [(10, XTick)] in
  exists t' d', d' <> d /\ daemon_reach toy_world 300000 (config_of toy_args) 0 d t' d' /\
    daemon_ok toy_args d'.
Proof.
  intros d.
  assert (exists t' d', daemon_step toy_world 300000 (config_of toy_args) tt None 0 d
            = (Done (inl tt), t', d') /\ dm_events d' = []) as (t' & d' & E & He).
  { eexists _, _. split; [vm_compute; reflexivity|reflexivity]. }
  exists t', d'. split; [intros ->; discriminate He|].
  assert (daemon_reach toy_world 300000 (config_of toy_args) 0 d t' d') as R.
  { eapply reach_step; [exact E|apply reach_refl]. }
  split; [exact R|].
  apply (proj2 (daemon_invariant toy_world toy_args) 300000 (config_of toy_args) 0 d t' d').
  - apply toy_daemon_ok.
  - exact R.
Defined.

(** Left alone with its peer, the daemon serves it until the idle timeout.  With no client
    calling and a peer that sends anything but a close reason, the loop echoes every [TestDelay]
    marked as the client's, in order, ignores the rest, and ends exactly at the idle timeout: it
    says goodbye with an empty close reason, closes the transport, and removes the socket, the
    lock and the error file. *)
Theorem daemon_serves_until_idle (C : CryptoLib) (L : CryptoLaws C) (P : ProtoCodec Message) (PL : ProtoLaws P)
    `{ProtoCodec IdPk} `{ProtoCodec RendezvousMessage} `{ServerKeyLib} `{Zstd} `{ImageLib Img} `{LockLib}
    `{CommandLib} (w : World) config idle (l : inbox) fuel t (d : Daemon NetTransport) :
  let s := lk_stream (dm_link d) in
  let idle_at := dm_last_activity d + idle in
  dm_events d = [] -> healthy (dm_disk d) -> t <= idle_at ->
  net_faults (es_inner s) = [] -> net_end (es_inner s) = Never -> delivers_msgs C P l s ->
  Forall (fun x => x.1 <= idle_at /\ stays_open (seen x.2) /\ Forall sendable (echo_of P (seen x.2))) l ->
  sendable (close_item P) -> (length l < fuel)%nat ->
  exists d', run (iter fuel (daemon_step w idle config) tt) t d = (Done tt, idle_at, d') /\
    net_out (es_inner (lk_stream (dm_link d'))) =
      net_out (es_inner s) ++ sealed_frames (es_key s) (send_seq s) (echoes P l ++ [close_item P]) /\
    net_shut (es_inner (lk_stream (dm_link d'))) = true /\
    dm_disk d' = without [LOCK_PATH; ERROR_PATH; SOCKET_PATH] (dm_disk d).
Proof.
  intros s idle_at He Hk Ht Hf Hn Hd Hl Hc. subst s idle_at. revert fuel t d He Hk Ht Hf Hn Hd Hl.
  induction l as [|[a m] l IH]; intros fuel t d He Hk Ht Hf Hn Hd Hl Hfuel;
    (destruct fuel as [|fuel]; [cbn in Hfuel; lia|]); unfold run; rewrite iter_S; unfold bind at 1.
  - destruct (daemon_ends C P w config idle [] t d (dm_last_activity d + idle) EvIdle [])
      as (d' & -> & Ho & Hs & Hdk & _); try done.
    { unfold next_wake. by rewrite He. }
    exists d'. split; [done|]. split_and!; done.
  - apply Forall_cons_1 in Hl as [(Ha & Hm & Hs) Hl]. cbn [fst snd] in Ha, Hm, Hs.
    rewrite (peer_step C P w config idle a m l) by (done || (unfold next_wake; by rewrite He)).
    set (s1 := with_sent C _ _). set (d1 := with_stream s1 d).
    destruct (IH fuel (Z.max t a) d1) as (d' & E & Ho & Hsh & Hdk); try done; try (cbn; lia).
    { cbn. apply (delivers_same_inbox C P l (after_recv C (encode <$> m) (wire_items l) (Z.max t a)
        (lk_stream (dm_link d)))); [done|]. by eapply delivers_msgs_after. }
    { cbn in Hfuel. lia. }
    exists d'. split; [exact E|]. split; [|done].
    rewrite Ho. change (lk_stream (dm_link d1)) with s1. unfold s1.
    by rewrite sealed_after_sent, (assoc_L (++)).
Qed.

Lemma daemon_serves_until_idle_witness :
  let l : inbox := [(10, None); (20, Some (Some (UTestDelay (mkTestDelay 7 false 1 2))))] in
  let d := toy_daemon (toy_stream l) DefaultConn [] in
  exists d', run (iter 3 (daemon_step toy_world 300000 (config_of toy_args)) tt) 5 d = (Done tt, 300000, d') /\
    length (net_out (es_inner (lk_stream (dm_link d')))) = 2%nat /\
    dk_files (dm_disk d') !! LOCK_PATH = None.
Proof.
  intros l d.
  destruct (daemon_serves_until_idle toy_crypto toy_crypto_laws (toy_codec MessageUnion)
    (toy_codec_laws MessageUnion) toy_world (config_of toy_args) 300000 l 3 5 d) as (d' & E & Ho & _ & Hk).
  - reflexivity.
  - reflexivity.
  - vm_compute. congruence.
  - reflexivity.
  - reflexivity.
  - split; [reflexivity|]. repeat constructor. vm_compute. congruence.
  - repeat constructor; vm_compute; congruence.
  - vm_compute. congruence.
  - cbn. lia.
  - exists d'. split; [exact E|]. split; [rewrite Ho; vm_compute; reflexivity|].
    rewrite Hk. vm_compute. reflexivity.
Defined.

(** C37: disconnecting ends the daemon.  On a default connection, a [Disconnect] command is answered
    with success, the peer gets an empty close reason, the transport is closed, the socket, lock
    and error files are removed, and the loop ends. *)
Theorem disconnect_shuts_down (C : CryptoLib) (L : CryptoLaws C) (P : ProtoCodec Message) (PL : ProtoLaws P)
    `{ProtoCodec IdPk} `{ProtoCodec RendezvousMessage} `{ServerKeyLib} `{Zstd} `{ImageLib Img} `{LockLib}
    `{CommandLib} (w : World) config args t (d : Daemon NetTransport) :
  let s := lk_stream (dm_link d) in
  daemon_ok args d -> lk_conn_type (dm_link d) = DefaultConn -> healthy (dm_disk d) ->
  net_faults (es_inner s) = [] -> sendable (close_item P) -> uw_faults (dm_client d).2 = [] ->
  exists d', run (serve_command w config CmdDisconnect) t d = (Done (inr tt), t, d') /\
    uw_sent (dm_client d').2 =
      uw_sent (dm_client d).2 ++ [ULine (resp_ok ("Disconnected from " ++ da_peer_id args))] /\
    net_out (es_inner (lk_stream (dm_link d'))) =
      net_out (es_inner s) ++ sealed_frames (es_key s) (send_seq s) [close_item P] /\
    net_shut (es_inner (lk_stream (dm_link d'))) = true /\
    dm_disk d' = without [LOCK_PATH; ERROR_PATH; SOCKET_PATH] (dm_disk d) /\ dm_heartbeat d' = false.
Proof.
  intros s Hok Ht Hk Hf Hc Hw. destruct Hok as [Hst Hcf _ _ _ _].
  set (d1 := with_client ((dm_client d).1, mkUdsWriter
      (uw_sent (dm_client d).2 ++ [ULine (resp_ok ("Disconnected from " ++ da_peer_id args))]) [])
    (with_link (mkLink s (mkSession Disconnected None None) DefaultConn (lk_service (dm_link d))) d)).
  destruct (stop_run C P t d1 (inr tt : unit + unit)) as (d' & E & Ho & Hs & Hdk & Hh & Hcl); try done.
  exists d'. split; [|rewrite Hcl; by split_and!].
  rewrite <- E. unfold run, serve_command. unfold bind at 1.
  assert (ensure_conn_type w config CmdDisconnect None t d = (Done true, t, d)) as ->.
  { unfold ensure_conn_type, bind at 1. cbn [get conn_type_for_command]. by rewrite decide_True. }
  cbn [negb]. unfold bind at 1. unfold with_retry, bind at 1. unfold try, run_command, bind at 1. cbn [now].
  unfold on_control, zoom at 1. cbn [execute_daemon_command]. unfold bind at 1. cbn [get fst dispatch].
  unfold dispatch_disconnect. rewrite require_connected_ok by done. rewrite Hcf.
  unfold bind. cbn. unfold reply, quietly, bind, try, on_exec, on_shell, in_exec, on_writer, zoom, send_response, uds_write.
  cbn. rewrite Hw. unfold d1, s. destruct d as [[? ? ct ?] ? ? [? ?] ? ? ?]. cbn in Ht. by subst ct.
Qed.

Lemma disconnect_shuts_down_witness :
  let d := toy_daemon (toy_stream []) DefaultConn [] in
  exists d', run (serve_command toy_world (config_of toy_args) CmdDisconnect) 9 d = (Done (inr tt), 9, d') /\
    uw_sent (dm_client d').2 = [ULine (resp_ok "Disconnected from 123")].
Proof.
  intros d.
  destruct (disconnect_shuts_down toy_crypto toy_crypto_laws (toy_codec MessageUnion)
    (toy_codec_laws MessageUnion) toy_world (config_of toy_args) toy_args 9 d) as (d' & E & Hu & _).
  - apply toy_daemon_ok.
  - reflexivity.
  - reflexivity.
  - reflexivity.
  - vm_compute. congruence.
  - reflexivity.
  - exists d'. split; [exact E|exact Hu].
Defined.

(** ** Connections that cannot be made *)

Section refused.
Context `{Transport T} `{CryptoLib} `{ProtoCodec Message} `{ProtoCodec IdPk}
  `{ProtoCodec RendezvousMessage} `{ServerKeyLib}.
Context (w : World) (e : Error).
Hypothesis (Hudp : forall n, w_udp w n = Err e).

Definition refusal : Error := add_context "failed to connect to rendezvous server" e.

Lemma connect_refused config ct sid dl t (s : ConnEnv T * nat) :
  connect_attempt w config ct sid dl t s = (Fail refusal, t, (s.1, S s.2)).
Proof.
  unfold connect_attempt, bind at 1. cbn [get]. unfold bind at 1. cbn [modify]. unfold zoom, connect_with_mode.
  rewrite Hudp. done.
Qed.

Lemma retry_refused config ct sid total idx bs last t (s : ConnEnv T * nat) :
  Forall (fun b => 0 <= b) bs -> bs <> [] \/ last = Some refusal ->
  retry_from (connect_attempt w config ct sid) (fun _ => ret tt) total idx bs last None t s =
  (Fail refusal, t + waited bs, (s.1, (s.2 + length bs)%nat)).
Proof.
  revert idx last t s. induction bs as [|b bs IH]; intros idx last t s Hb Hl.
  - destruct Hl as [Hl|Hl]; [done|subst last]. cbn. rewrite Z.add_0_r, Nat.add_0_r. by destruct s.
  - apply Forall_cons_1 in Hb as [Hb Hbs]. cbn [retry_from]. unfold bind at 1. cbn [ret]. unfold bind at 1.
    rewrite sleep_run by done. unfold bind at 1, try. rewrite connect_refused. cbn [fst snd].
    rewrite IH by auto. cbn. f_equal; [f_equal; unfold waited; lia|f_equal; lia].
Qed.

Lemma reconnect_refused config ct t (d : Daemon T) :
  reconnect_encrypted_stream w config ct None t d =
  (Fail refusal, t + 61000, with_net ((dm_net d).1, (6 + (dm_net d).2)%nat) d).
Proof.
  unfold reconnect_encrypted_stream, bind at 1. cbn [get]. unfold bind, zoom, reconnect_with_retry,
    reconnect_with_retry_backoffs.
  rewrite retry_refused; [|repeat constructor; lia|by left].
  by rewrite Nat.add_comm.
Qed.
End refused.

(** Disconnecting from a terminal connection first reconnects.  After a shell or an executed
    command the connection is of the terminal type, so a [Disconnect] opens a default connection
    just to close it; when no connection can be made, it is answered with the error 61 seconds
    later, nothing is closed, and the daemon goes on running. *)
Theorem disconnect_may_be_refused `{Transport T} `{CryptoLib} `{ProtoCodec Message} `{ProtoCodec IdPk}
    `{ProtoCodec RendezvousMessage} `{ServerKeyLib} `{Zstd} `{ImageLib Img} `{LockLib} `{CommandLib}
    (w : World) e config t (d : Daemon T) :
  (forall n, w_udp w n = Err e) -> lk_conn_type (dm_link d) = ConnTerminal -> uw_faults (dm_client d).2 = [] ->
  exists d', run (serve_command w config CmdDisconnect) t d = (Done (inl tt), t + 61000, d') /\
    uw_sent (dm_client d').2 = uw_sent (dm_client d).2 ++
      [ULine (resp_error (error_render (add_context "failed to connect to rendezvous server" e)))] /\
    lk_stream (dm_link d') = lk_stream (dm_link d) /\ lk_session (dm_link d') = lk_session (dm_link d) /\
    dm_disk d' = dm_disk d.
Proof.
  intros Hudp Ht Hw. unfold run, serve_command, bind at 1. unfold ensure_conn_type, bind at 1.
  cbn [get conn_type_for_command]. rewrite Ht. rewrite decide_False by done. rewrite decide_False by done.
  unfold bind at 1. cbn [modify]. unfold bind at 1, try. rewrite (reconnect_refused w e Hudp).
  unfold bind, reply, quietly, bind, try, on_exec, on_shell, in_exec, on_writer, zoom, send_response, uds_write.
  cbn. rewrite Hw. cbn. eexists. split; [reflexivity|]. done.
Qed.

Lemma report_run `{Transport T} message t (s : Startup (T := T)) :
  healthy (st_disk s) ->
  exists k, report_startup_error message None t s = (Done tt, t, mkStartup (st_net s) k (st_events s)) /\ healthy k.
Proof.
  intros Hk. unfold report_startup_error, on_st_disk, zoom.
  assert (forall k, healthy k -> exists k', quietly (write_startup_error message) None t k = (Done tt, t, k') /\ healthy k') as Hw.
  { intros [fm lv fs] Hf. unfold healthy in Hf. cbn in Hf. subst fs.
    unfold write_startup_error, quietly, try, bind, fs_write_file, set_permissions, syscall. cbn.
    rewrite lookup_insert_eq. cbn. eexists. split; [reflexivity|done]. }
  destruct (Hw (st_disk s) Hk) as (k1 & E1 & H1).
  destruct (Hw (without [LOCK_PATH; ERROR_PATH; SOCKET_PATH] k1)) as (k2 & E2 & H2); [done|].
  exists k2. split; [|done]. unfold bind. rewrite E1, cleanup_run by done. by rewrite E2.
Qed.

(** The reason of a failed start is lost.  When the first connection fails or times out,
    [run_daemon] writes the reason to the error file and returns without an error, but the cleanup
    guard then removes the error file with the socket and the lock: the process that started the
    daemon finds none of the three. *)
Theorem startup_error_lost `{Transport T} `{CryptoLib} `{ProtoCodec Message} `{ProtoCodec IdPk}
    `{ProtoCodec RendezvousMessage} `{ServerKeyLib} `{Zstd} `{ImageLib Img} (L : LockLib) `{CommandLib}
    (w : World) args fuel (net net' : ConnEnv T * nat) k events t t' r :
  healthy k -> daemon_alive SOCKET_PATH LOCK_PATH k = false ->
  run (connect_with_timeout w (config_of args) (default 30 (da_connect_timeout args)) DefaultConn) t net =
    (Done r, t', net') ->
  match r with inl (Ok _) => False | _ => True end ->
  exists k', run (run_daemon w fuel args) t (Starting (mkStartup net k events)) =
      (Done tt, t', Starting (mkStartup net' k' events)) /\
    dk_files k' !! ERROR_PATH = None /\ dk_files k' !! LOCK_PATH = None /\ dk_files k' !! SOCKET_PATH = None.
Proof.
  intros Hk Ha Hc Hr. unfold run in Hc.
  set (k1 := without [ERROR_PATH; LOCK_PATH; SOCKET_PATH] k).
  assert (dk_files k1 !! SOCKET_PATH = None) as Hs by (apply without_lookup; set_solver).
  set (k2 := mkDisk (<[SOCKET_PATH := mkFile "" None]> (dk_files k1)) ({[SOCKET_PATH]} ∪ dk_live k1) []).
  set (k3 := mkDisk (<[SOCKET_PATH := mkFile "" (Some owner_only)]> (dk_files k2)) (dk_live k2) []).
  assert (exists k4, healthy k4 /\ start_up w args None t (mkStartup net k2 events) =
    (Done None, t', mkStartup net' k4 events)) as (k4 & Hk4 & E4).
  { unfold start_up, bind at 1. unfold on_st_disk, zoom at 1. cbn [st_disk].
    assert (set_permissions SOCKET_PATH owner_only None t k2 = (Done tt, t, k3)) as ->.
    { unfold set_permissions, syscall, k2. cbn [dk_faults]. cbn [dk_files tail].
      by rewrite lookup_insert_eq. }
    unfold bind at 1. unfold on_st_net, zoom. cbn [st_net st_disk st_events]. rewrite Hc.
    destruct r as [[?|e]|secs]; [done| |].
    - destruct (report_run (error_render e) t' (mkStartup net' k3 events)) as (k4 & E & Hh); [done|].
      exists k4. split; [done|]. unfold bind. by rewrite E.
    - destruct (report_run ("connect timed out after " ++ show_Z secs ++ "s")%string t'
        (mkStartup net' k3 events)) as (k4 & E & Hh); [done|].
      exists k4. split; [done|]. unfold bind. by rewrite E. }
  exists (without [LOCK_PATH; ERROR_PATH; SOCKET_PATH] k4). split;
    [|split_and!; apply without_lookup; set_solver].
  unfold run, run_daemon, bind at 1. unfold starting at 1, on_st_disk, zoom. cbn [st_disk st_net st_events].
  pose proof (stale_run L SOCKET_PATH LOCK_PATH ERROR_PATH None t k Hk Ha) as ->.
  unfold bind at 1. unfold starting at 1, context. cbn [st_disk st_net st_events].
  assert (bind_socket SOCKET_PATH None t k1 = (Done tt, t, k2)) as E2.
  { unfold bind_socket, syscall. change (dk_faults k1) with (dk_faults k). rewrite Hk. cbn [tail].
    cbn [dk_files]. by rewrite Hs. }
  fold k1. rewrite E2. unfold guarded, bind at 1. unfold starting. rewrite E4. cbn [ret].
  unfold zoom. cbn [proc_disk st_disk]. rewrite cleanup_run by done. done.
Qed.

Lemma disconnect_may_be_refused_witness :
  let d := toy_daemon (toy_stream []) ConnTerminal [] in
  exists d', run (serve_command toy_world (config_of toy_args) CmdDisconnect) 9 d = (Done (inl tt), 61009, d') /\
    dm_disk d' = dm_disk d.
Proof.
  intros d.
  destruct (disconnect_may_be_refused toy_world (anyhow "network unreachable") (config_of toy_args) 9 d)
    as (d' & E & _ & _ & _ & Hk).
  - intros n. reflexivity.
  - reflexivity.
  - reflexivity.
  - exists d'. split; [exact E|exact Hk].
Defined.

Lemma startup_error_lost_witness :
  let net := (mkConnEnv (mkNet [] Never [] [] false) [], O) in
  exists p, run (run_daemon toy_world 9 toy_args) 3 (Starting (mkStartup net (mkDisk ∅ ∅ []) [])) =
      (Done tt, 3, p) /\ dk_files (proc_disk p) !! ERROR_PATH = None.
Proof.
  intros net.
  destruct (startup_error_lost toy_lock toy_world toy_args 9 net (net.1, 1%nat) (mkDisk ∅ ∅ []) [] 3 3
    (inl (Err ["failed to connect to rendezvous server"; "network unreachable"]%string))) as (k' & E & He & _).
  - reflexivity.
  - reflexivity.
  - vm_compute. reflexivity.
  - exact I.
  - eexists. split; [exact E|exact He].
Defined.

Lemma send_heartbeat_run `{CryptoLib} t (s : EncryptedStream NetTransport) :
  net_faults (es_inner s) = [] ->
  send_heartbeat None t s = (Done tt, t, set_inner (net_sent [[]] (es_inner s)) s).
Proof.
  intros Hf. unfold send_heartbeat, zoom. cbn [t_send NetTransport_transport].
  destruct s as [[i e o f h] ? ? ? ?]. cbn in Hf. by subst f.
Qed.
Lemma send_heartbeat_fails `{CryptoLib} t (s : EncryptedStream NetTransport) e fs :
  net_faults (es_inner s) = Some e :: fs -> exists x, send_heartbeat None t s = (Fail e, t, x).
Proof.
  intros Hf. unfold send_heartbeat, zoom. cbn [t_send NetTransport_transport].
  destruct s as [[i en o f h] ? ? ? ?]. cbn in Hf. subst f. eexists. reflexivity.
Qed.

(** A heartbeat keeps the connection or replaces it.  On every tick one empty frame goes out
    without using up a nonce; when the peer was heard within the last 90 seconds the loop goes on
    at once, and otherwise, or when the frame cannot be sent, the daemon reconnects. *)
Theorem heartbeat_tick_resends (C : CryptoLib) (P : ProtoCodec Message) `{ProtoCodec IdPk}
    `{ProtoCodec RendezvousMessage} `{ServerKeyLib} (w : World) config t (d : Daemon NetTransport) :
  let s := lk_stream (dm_link d) in
  let beat := with_stream (set_inner (net_sent [[]] (es_inner s)) s) d in
  (net_faults (es_inner s) = [] ->
   run (on_heartbeat_tick w config) t d =
     if 90000 <? t - last_recv_at s then run (reconnect_or_stop w config) t beat
     else (Done (inl tt), t, beat)) /\
  (forall e fs, net_faults (es_inner s) = Some e :: fs ->
   exists d', lk_session (dm_link d') = lk_session (dm_link d) /\
     run (on_heartbeat_tick w config) t d = run (reconnect_or_stop w config) t d').
Proof.
  intros s beat. split.
  - intros Hf. unfold run at 1. unfold on_heartbeat_tick, bind at 1. unfold try, on_enc, zoom at 1. fold s.
    rewrite send_heartbeat_run by done.
    unfold bind at 1. unfold on_enc, zoom. cbn. unfold is_keepalive_expired, KEEPALIVE_TIMEOUT.
    by destruct (90000 <? t - last_recv_at s).
  - intros e fs Hf. unfold run, on_heartbeat_tick, bind at 1. unfold try, on_enc, zoom at 1. fold s.
    destruct (send_heartbeat_fails t s e fs Hf) as [x ->].
    exists (with_stream x d). done.
Qed.

(** A silent client blocks the daemon.  The first line of a client is read without a time
    limit, so after accepting a client that sends nothing the daemon never handles another event:
    no command, no peer message, no heartbeat, no signal. *)
Theorem silent_client_blocks `{Transport T} `{CryptoLib} `{ProtoCodec Message} `{ProtoCodec IdPk}
    `{ProtoCodec RendezvousMessage} `{ServerKeyLib} `{Zstd} `{ImageLib Img} `{LockLib} `{CommandLib}
    (w : World) idle config c fuel t (d : Daemon T) t1 d1 :
  cl_line c = None ->
  run (wait_event idle) t d = (Done (EvClient c), t1, d1) ->
  exists d', run (iter (S fuel) (daemon_step w idle config) tt) t d = (Hang, t1, d').
Proof.
  intros Hc E. unfold run in *. rewrite iter_S. unfold bind at 1. unfold daemon_step, bind at 1. rewrite E.
  cbn [handle_event]. unfold on_accept, bind at 1. cbn [now]. unfold bind at 1. cbn [modify].
  unfold bind at 1, try, read_first_line. rewrite Hc. cbn. eauto.
Qed.

Lemma silent_client_blocks_witness :
  let c := mkClient None (mkUdsReader [] None) [] in
  let d := toy_daemon (toy_stream []) DefaultConn [(50, XClient c); (60, XSignal "SIGTERM")] in
  exists d', run (iter 10 (daemon_step toy_world 300000 (config_of toy_args)) tt) 0 d = (Hang, 50, d').
Proof.
  intros c d.
  destruct (run (wait_event 300000) 0 d) as [[o t1] d1] eqn:E.
  assert (o = Done (EvClient c) /\ t1 = 50) as [-> ->].
  { vm_compute in E. injection E as <- <- _. split; reflexivity. }
  apply (silent_client_blocks toy_world 300000 (config_of toy_args) c 9 0 d 50 d1).
  - reflexivity.
  - exact E.
Defined.
