(* ===== verification/Serving.v ===== *)
(** * The daemon serving its clients and its peer (src/daemon.rs, [run_daemon])

    The event loop over a whole agenda: clients that call, messages of the peer, heartbeat ticks and
    failed accepts in any order, up to a signal or the idle timeout.  Requests that need the peer
    are the subject of [ExecRun], [PushRun] and [ShellRun]; those here are the ones the session
    answers by itself, requests that cannot be read, and lines that are no commands. *)

From Stdlib Require Import ZArith Lia.
From Stdlib Require Import Strings.Byte Strings.Ascii Strings.String.
From stdpp Require Import base list option numbers gmap strings.
From S2P Require Import Prelude RustStr Async Transport Crypto Base64 Json Session Proto.
From S2P Require Import Inbox Terminal Capture FileTransfer Rendezvous Connection Exec Lockfile Daemon DaemonLoop.

Local Open Scope Z_scope.
Local Open Scope async_scope.

(** ** Requests the session answers by itself *)

Definition by_session (cmd : SessionCommand) : bool :=
  is_input cmd || match cmd with CmdStatus | CmdDisplays => true | _ => false end.

Lemma by_session_dispatch s cmd : s_state s = Connected -> by_session cmd = true ->
  exists resp msgs, dispatch s cmd = (s, Ok (resp, msgs)) /\ sr_success resp = true.
Proof.
  intros Hc Hi. pose proof (require_connected_ok s Hc) as Hr.
  destruct cmd; try discriminate Hi; cbn [dispatch];
    unfold dispatch_type, dispatch_key, dispatch_click, dispatch_drag, dispatch_scroll, dispatch_move,
      dispatch_displays; rewrite ?Hr; cbn [mbind result_bind]; by eexists _, _.
Qed.

(** ** Replies *)

Section replies.
Context {T : Type} `{Transport T} `{CryptoLib} `{ProtoCodec Message} `{ProtoCodec IdPk}
  `{ProtoCodec RendezvousMessage} `{ServerKeyLib} `{Zstd} {Img : Type} `{ImageLib Img} `{LockLib} `{CommandLib}.
Context (w : World) (config : ConnConfig).

(** The client's socket works, and has been written the responses [rs]. *)
Definition wrote (rs : list SessionResponse) (d : Daemon T) : Prop :=
  (dm_client d).2 = mkUdsWriter (map ULine rs) [].
Definition replied (rs : list SessionResponse) (d : Daemon T) : Daemon T :=
  with_client ((dm_client d).1, mkUdsWriter (map ULine rs) []) d.

Lemma reply_exact resp rs t (d : Daemon T) : wrote rs d ->
  reply resp None t d = (Done tt, t, replied (rs ++ [resp]) d).
Proof.
  unfold wrote, replied. intros Hw. destruct d as [[s ss ct sv] n k [r wr] la hb ev]. cbn in Hw. subst wr.
  unfold reply, quietly, bind, try, on_exec, on_shell, in_exec, on_writer, zoom, send_response, uds_write. cbn.
  by rewrite map_app.
Qed.

Lemma session_command_run pid nanos s cmd resp msgs t (x : EncryptedStream T) :
  by_session cmd = true -> dispatch s cmd = (s, Ok (resp, msgs)) ->
  execute_daemon_command pid nanos cmd None t (s, x) = (Done resp, t, (s, x)).
Proof.
  intros Hb Hd.
  destruct cmd; try discriminate Hb; cbn [execute_daemon_command]; unfold bind at 1; cbn [get fst]; rewrite Hd; reflexivity.
Qed.

(** The daemon when it has accepted a client. *)
Definition accepts (t : Z) (reader : UdsReader) (d : Daemon T) : Daemon T :=
  mkDaemon (dm_link d) (dm_net d) (dm_disk d) (reader, mkUdsWriter [] []) t (dm_heartbeat d) (dm_events d).

Lemma run_by_session cmd resp msgs t (d : Daemon T) :
  by_session cmd = true -> dispatch (lk_session (dm_link d)) cmd = (lk_session (dm_link d), Ok (resp, msgs)) ->
  run_command w cmd None t d = (Done resp, t, d).
Proof.
  intros Hb Hd. pose proof (session_command_run (w_pid w) (w_nanos w t) _ cmd resp msgs t (lk_stream (dm_link d)) Hb Hd) as E.
  unfold run_command, bind at 1. cbn [now]. destruct d as [[st ss ct sv] n k cl la hb ev].
  destruct cmd; try discriminate Hb; unfold on_control, zoom; cbn [dm_link lk_session lk_stream] in *;
    rewrite E; reflexivity.
Qed.

(** A request the session answers, on a default connection. *)
Lemma serve_by_session_run cmd resp msgs t (d : Daemon T) :
  by_session cmd = true -> lk_conn_type (dm_link d) = DefaultConn -> wrote [] d ->
  dispatch (lk_session (dm_link d)) cmd = (lk_session (dm_link d), Ok (resp, msgs)) ->
  serve_command w config cmd None t d = (Done (inl tt), t, replied [resp] d).
Proof.
  intros Hb Hc Hw Hd. unfold serve_command, bind at 1, ensure_conn_type, bind at 1. cbn [get].
  rewrite decide_True by (by destruct cmd). cbn [ret negb].
  assert ((let* response := with_retry w config (command_name cmd) (run_command w cmd) in
           reply response ;;; (ret (inl tt) : M (Daemon T) (unit + unit))) None t d
          = (Done (inl tt), t, replied [resp] d)) as E.
  { unfold bind at 1, with_retry, bind at 1, try at 1. rewrite (run_by_session cmd resp msgs) by done. cbn [ret].
    unfold bind. by rewrite (reply_exact resp []). }
  destruct cmd; try discriminate Hb; exact E.
Qed.
End replies.

(** ** What happens to a daemon *)

(** A message of the peer; a tick of the heartbeat; an accept that fails; a client, with the moment
    its first line is there, what reading it gives, and the answers it should get. *)
Inductive Happening : Type :=
| Hears (a : Z) (m : option Message)
| Ticks (a : Z)
| Refuses (a : Z) (e : Error)
| Calls (a b : Z) (line : Res string) (reader : UdsReader) (answers : list SessionResponse).

(** When it comes, and when the loop is done with it. *)
Definition comes (h : Happening) : Z :=
  match h with Hears a _ | Ticks a | Refuses a _ | Calls a _ _ _ _ => a end.
Definition over (h : Happening) : Z :=
  match h with Calls a b _ _ _ => Z.max b a | _ => comes h end.

Definition said_by_peer (l : list Happening) : inbox :=
  omap (fun h => match h with Hears a m => Some (a, m) | _ => None end) l.
Definition external_of (h : Happening) : option (Z * External) :=
  match h with
  | Hears _ _ => None
  | Ticks a => Some (a, XTick)
  | Refuses a e => Some (a, XAcceptError e)
  | Calls a b line reader _ => Some (a, XClient (mkClient (Some (b, line)) reader []))
  end.
Definition externals (l : list Happening) : list (Z * External) := omap external_of l.

(** The idle timeout counts from the last client. *)
Definition active_after (active : Z) (l : list Happening) : Z :=
  foldl (fun active h => match h with Calls a _ _ _ _ => a | _ => active end) active l.

Section agenda.
Context `{CommandLib} (P : ProtoCodec Message).

(** The answers to a first line, on a connected session. *)
Definition answers_of (s : Session) (line : Res string) : option (list SessionResponse) :=
  match line with
  | Err _ => Some []
  | Ok line =>
    match cmd_from_str (trim line) with
    | Err e => Some [resp_error ("Invalid command: " ++ error_to_string e)%string]
    | Ok cmd =>
      if by_session cmd then
        match (dispatch s cmd).2 with Ok (resp, _) => Some [resp] | Err _ => None end
      else None
    end
  end.

(** The end: a signal, or nothing. *)
Context (idle : Z) (session : Session) (ending : option (Z * string)) (later : inbox).
Definition last_events : list (Z * External) :=
  match ending with Some (a, name) => [(a, XSignal name)] | None => [] end.
Definition ends_at (active : Z) : Z :=
  match ending with Some (a, _) => a | None => active + idle end.

(** The agenda is in order, from the clock [t], the last client [active] and the last message
    [heard]: nothing comes after the idle timeout; a message of the peer that comes with an event is
    heard first; no tick finds the peer silent for more than 90 seconds; and what the peer says
    neither ends the session nor has an answer too long for a frame. *)
Fixpoint in_order (t active heard : Z) (l : list Happening) : Prop :=
  match l with
  | [] => t <= ends_at active <= active + idle /\ first_after (ends_at active) later
  | h :: l' =>
    t <= comes h <= active + idle /\
    match h with
    | Hears a m => stays_open (seen m) /\ Forall sendable (echo_of P (seen m)) /\ in_order a active a l'
    | Ticks a => a - heard <= KEEPALIVE_TIMEOUT /\
        first_after a (said_by_peer l' ++ later) /\ in_order a active heard l'
    | Refuses a _ => first_after a (said_by_peer l' ++ later) /\ in_order a active heard l'
    | Calls a b line _ rs => answers_of session line = Some rs /\
        first_after a (said_by_peer l' ++ later) /\ in_order (over h) a heard l'
    end
  end.

(** What the daemon sends its peer. *)
Definition items_of (h : Happening) : list (option bytes) :=
  match h with Hears _ m => echo_of P (seen m) | Ticks _ => [None] | _ => [] end.
Definition items (l : list Happening) : list (option bytes) := concat (map items_of l).

Lemma in_order_next t active heard l :
  in_order t active heard l ->
  match externals l ++ last_events with [] => True | (b, _) :: _ => t <= b end.
Proof.
  revert t active heard. induction l as [|h l IH]; intros t active heard; cbn [in_order].
  - intros [Ht _]. unfold last_events, ends_at in *. destruct ending as [[a n]|]; [apply Ht|done].
  - intros (Ht & Hh). destruct h as [a m|a|a e|a b line r rs]; cbn in *; try apply Ht.
    destruct Hh as (_ & _ & Hh). apply IH in Hh. unfold externals in *.
    destruct (omap external_of l ++ last_events) as [|[b x] rest]; [done|lia].
Qed.
End agenda.

(** ** The loop *)

Section serving.
Context (C : CryptoLib) {L : CryptoLaws C} (P : ProtoCodec Message) {PL : ProtoLaws P}.
Context `{ProtoCodec IdPk} `{ProtoCodec RendezvousMessage} `{ServerKeyLib} `{Zstd} {Img : Type}
  `{ImageLib Img} `{LockLib} `{CommandLib}.
Context (w : World) (config : ConnConfig) (idle : Z) (ending : option (Z * string)) (later : inbox).
Abbreviation D := (Daemon NetTransport).
Abbreviation stream d := (lk_stream (dm_link d)).
Abbreviation step := (daemon_step w idle config tt).

(** A daemon with the agenda [l] ahead of it. *)
Record ready (l : list Happening) (t : Z) (d : D) : Prop := {
  rd_connected : s_state (lk_session (dm_link d)) = Connected;
  rd_type : lk_conn_type (dm_link d) = DefaultConn;
  rd_faults : net_faults (es_inner (stream d)) = [];
  rd_end : net_end (es_inner (stream d)) = Never;
  rd_inbox : delivers_msgs C P (said_by_peer l ++ later) (stream d);
  rd_events : dm_events d = externals l ++ last_events ending;
  rd_order : in_order P idle (lk_session (dm_link d)) ending later t (dm_last_activity d)
    (last_recv_at (stream d)) l
}.

(** The daemon has dealt with [h] and gone on from [d] to [d1]: it sent its peer what it had to, and
    told the client what it had to. *)
Record went_on (h : Happening) (d d1 : D) : Prop := {
  wo_out : forall more,
    net_out (es_inner (stream d1)) ++ sealed_frames (es_key (stream d1)) (send_seq (stream d1)) more =
    net_out (es_inner (stream d)) ++ sealed_frames (es_key (stream d)) (send_seq (stream d)) (items_of P h ++ more);
  wo_session : lk_session (dm_link d1) = lk_session (dm_link d);
  wo_disk : dm_disk d1 = dm_disk d;
  wo_active : dm_last_activity d1 = active_after (dm_last_activity d) [h];
  wo_answers : match h with Calls _ _ _ _ rs => wrote rs d1 | _ => True end
}.

Lemma next_wake_event a x rest (d : D) :
  dm_events d = (a, x) :: rest -> a <= dm_last_activity d + idle -> next_wake idle d = (a, event_of x, rest).
Proof. intros He Ha. unfold next_wake. rewrite He. by rewrite (proj2 (Z.leb_le _ _)). Qed.

(** The loop is woken by the next event. *)
Lemma wakes h l a x t d :
  ready (h :: l) t d -> external_of h = Some (a, x) -> comes h = a ->
  first_after a (said_by_peer l ++ later) -> said_by_peer (h :: l) = said_by_peer l ->
  step None t d = handle_event w config (event_of x) None a (woken (externals l ++ last_events ending) d).
Proof.
  intros [_ _ _ He Hd Hev Ho] Hx Hc Hl Hs. cbn [in_order] in Ho. destruct Ho as [Ht _]. rewrite Hc in Ht.
  unfold daemon_step, bind at 1.
  rewrite (wait_wakes C P idle (said_by_peer l ++ later) t d a (event_of x) (externals l ++ last_events ending)).
  - done.
  - by rewrite <- Hs.
  - done.
  - lia.
  - apply next_wake_event; [|lia]. rewrite Hev. unfold externals. cbn [omap list_omap]. by rewrite Hx.
  - lia.
  - done.
Qed.

Lemma hears_step a m l t d : ready (Hears a m :: l) t d ->
  exists d1, step None t d = (Done (inl tt), a, d1) /\ ready l a d1 /\ went_on (Hears a m) d d1.
Proof.
  intros [Hc Hty Hf He Hd Hev Ho]. cbn [in_order comes] in Ho. destruct Ho as (Ht & Hm & Hs & Ho).
  set (s1 := with_sent C (echo_of P (seen m)) (after_recv C (encode <$> m) (wire_items (said_by_peer l ++ later)) a
    (stream d))).
  exists (with_stream s1 d). split_and!.
  - rewrite (peer_step C P w config idle a m (said_by_peer l ++ later)); try done; [|lia|].
    + by rewrite Z.max_r by lia.
    + pose proof (in_order_next _ _ _ _ _ _ _ _ _ Ho) as Hn. unfold next_wake. rewrite Hev.
      change (externals (Hears a m :: l)) with (externals l).
      destruct (externals l ++ last_events ending) as [|[b x] rest]; cbn; [lia|]. case_match; cbn; lia.
  - constructor; try done. cbn [with_stream with_link dm_link lk_stream].
    apply (delivers_same_inbox C P _ (after_recv C (encode <$> m) (wire_items (said_by_peer l ++ later)) a (stream d)));
      [done|exact (delivers_msgs_after C P a m _ _ _ Hd)].
  - constructor; try done. intros more. cbn [with_stream with_link dm_link lk_stream]. unfold s1.
    by rewrite sealed_after_sent.
Qed.

Lemma ticks_step a l t d : ready (Ticks a :: l) t d ->
  exists d1, step None t d = (Done (inl tt), a, d1) /\ ready l a d1 /\ went_on (Ticks a) d d1.
Proof.
  intros Hr. pose proof (rd_order _ _ _ Hr) as Ho. cbn [in_order comes] in Ho. destruct Ho as (Ht & Hk & Hl & Ho).
  set (d0 := woken (externals l ++ last_events ending) d).
  exists (with_stream (with_sent C [None] (stream d)) d0). destruct Hr as [Hc Hty Hf He Hd Hev Ho'] eqn:Er.
  split_and!.
  - rewrite (wakes (Ticks a) l a XTick t d Hr) by done. fold d0. cbn [event_of handle_event].
    unfold on_heartbeat_tick, bind at 1, try, on_enc, zoom.
    pose proof (es_send_item_run C None None a (stream d0) Hf I) as Eh. cbn [es_send_item] in Eh. rewrite Eh.
    unfold bind at 1, recv_idle_for, bind. cbn.
    unfold is_keepalive_expired. by rewrite (proj2 (Z.ltb_ge _ _)) by (cbn; lia).
  - by constructor.
  - constructor; try done. intros more. cbn [with_stream with_link dm_link lk_stream].
    by rewrite sealed_after_sent.
Qed.

Lemma refuses_step a e l t d : ready (Refuses a e :: l) t d ->
  exists d1, step None t d = (Done (inl tt), a, d1) /\ ready l a d1 /\ went_on (Refuses a e) d d1.
Proof.
  intros Hr. pose proof (rd_order _ _ _ Hr) as Ho. cbn [in_order comes] in Ho. destruct Ho as (Ht & Hl & Ho).
  exists (woken (externals l ++ last_events ending) d). split_and!.
  - by rewrite (wakes (Refuses a e) l a (XAcceptError e) t d Hr).
  - destruct Hr. by constructor.
  - by constructor.
Qed.

(** *** Clients *)

Lemma accept_run a b line reader rs (d : D) :
  s_state (lk_session (dm_link d)) = Connected -> lk_conn_type (dm_link d) = DefaultConn ->
  answers_of (lk_session (dm_link d)) line = Some rs ->
  on_accept w config (mkClient (Some (b, line)) reader []) None a d =
  (Done (inl tt), Z.max b a, replied rs (accepts a reader d)).
Proof.
  intros Hc Hty Ha. unfold on_accept, bind at 1. cbn [now]. unfold bind at 1. cbn [modify cl_faults cl_reader].
  change (mkDaemon (dm_link d) _ _ _ a _ _) with (accepts a reader d).
  unfold bind at 1, try at 1, read_first_line. cbn [cl_line]. unfold bind at 1. rewrite wait_until_run.
  destruct line as [line|e]; cbn [lift ret answers_of] in *; [|by simplify_eq].
  destruct (cmd_from_str (trim line)) as [cmd|e]; cbn [lift ret] in *.
  - destruct (by_session cmd) eqn:Hb; [|done].
    destruct (by_session_dispatch _ cmd Hc Hb) as (resp & msgs & Hd & _). rewrite Hd in Ha. cbn in Ha. simplify_eq.
    by rewrite (serve_by_session_run w config cmd resp msgs).
  - simplify_eq. unfold bind. by rewrite (reply_exact _ []).
Qed.

Lemma calls_step a b line reader rs l t d : ready (Calls a b line reader rs :: l) t d ->
  exists d1, step None t d = (Done (inl tt), Z.max b a, d1) /\ ready l (Z.max b a) d1 /\
    went_on (Calls a b line reader rs) d d1.
Proof.
  intros Hr. pose proof (rd_order _ _ _ Hr) as Ho. cbn [in_order comes over] in Ho. destruct Ho as (Ht & Ha & Hl & Ho).
  exists (replied rs (accepts a reader (woken (externals l ++ last_events ending) d))). split_and!.
  - rewrite (wakes (Calls a b line reader rs) l a (XClient (mkClient (Some (b, line)) reader [])) t d Hr) by done.
    cbn [event_of handle_event]. apply accept_run; [apply Hr|apply Hr|exact Ha].
  - destruct Hr. by constructor.
  - by constructor.
Qed.

(** *** The whole agenda *)

Lemma agenda_step h l t d : ready (h :: l) t d ->
  exists d1, step None t d = (Done (inl tt), over h, d1) /\ ready l (over h) d1 /\ went_on h d d1.
Proof. destruct h; [apply hears_step|apply ticks_step|apply refuses_step|apply calls_step]. Qed.

(** Every moment of the agenda is reached. *)
Lemma agenda_reached l1 l2 t d : ready (l1 ++ l2) t d ->
  exists t1 d1, daemon_reach w idle config t d t1 d1 /\ ready l2 t1 d1.
Proof.
  revert t d. induction l1 as [|h l1 IH]; intros t d Hr; [exists t, d; split; [constructor|done]|].
  destruct (agenda_step h (l1 ++ l2) t d Hr) as (d1 & E & Hr1 & _).
  destruct (IH (over h) d1 Hr1) as (t2 & d2 & R & Hr2). exists t2, d2. split; [|done]. by econstructor.
Qed.

Lemma last_wake t d : ready [] t d ->
  exists at_ ev rest, next_wake idle d = (at_, ev, rest) /\ at_ = ends_at idle ending (dm_last_activity d) /\
    match ev with EvIdle | EvSignal _ => True | _ => False end.
Proof.
  intros [_ _ _ _ _ Hev Ho]. cbn in Hev, Ho. unfold next_wake, ends_at, last_events in *. rewrite Hev.
  destruct ending as [[a n]|]; [|by eexists _, _, _].
  rewrite (proj2 (Z.leb_le _ _)) by apply Ho. by eexists _, _, _.
Qed.

Lemma agenda_served l fuel t d :
  ready l t d -> healthy (dm_disk d) -> sendable (close_item P) -> (length l < fuel)%nat ->
  exists d', iter fuel (daemon_step w idle config) tt None t d =
      (Done tt, ends_at idle ending (active_after (dm_last_activity d) l), d') /\
    net_out (es_inner (stream d')) = net_out (es_inner (stream d)) ++
      sealed_frames (es_key (stream d)) (send_seq (stream d)) (items P l ++ [close_item P]) /\
    net_shut (es_inner (stream d')) = true /\
    dm_disk d' = without [LOCK_PATH; ERROR_PATH; SOCKET_PATH] (dm_disk d).
Proof.
  revert fuel t d. induction l as [|h l IH]; intros fuel t d Hr Hk Hc Hl;
    (destruct fuel as [|fuel]; [cbn in Hl; lia|]); rewrite iter_S; unfold bind at 1.
  - destruct (last_wake t d Hr) as (at_ & ev & rest & En & -> & Hev).
    pose proof (rd_order _ _ _ Hr) as [Ho Hla]. destruct Hr as [_ _ Hf He Hd _ _].
    destruct (daemon_ends C P w config idle later t d _ ev rest Hk ltac:(lia) Hf He Hd Hc En ltac:(lia) Hla Hev)
      as (d' & -> & Ho' & Hs & Hdk & _). by exists d'.
  - destruct (agenda_step h l t d Hr) as (d1 & -> & Hr1 & [Hout _ Hdk Hact _]).
    destruct (IH fuel (over h) d1 Hr1) as (d' & E & Ho & Hs & Hdk'); [by rewrite Hdk|done|cbn in Hl; lia|].
    exists d'. rewrite E, Ho, Hout, Hdk', Hdk, Hact. cbn [items map concat]. by rewrite <- (assoc_L (++)).
Qed.
End serving.

(** C14: the daemon serves its clients and its peer.  On a default connection, given any agenda of clients
    (with requests the session answers, lines that are no commands, or sockets that cannot be read),
    messages of the peer, heartbeat ticks and failed accepts, in any order, the event loop goes
    through all of it, one at a time and in that order.  Every client finds exactly its answer on its
    socket; the peer is sent the echo of each of its [TestDelay]s and a heartbeat for each tick, in
    order, and nothing for any client.  The loop ends at the signal, or when the idle time has passed
    since the last client, whatever the peer or the ticks did since: it says goodbye, closes the
    transport and removes its three files. *)
Theorem daemon_serves_agenda (C : CryptoLib) (L : CryptoLaws C) (P : ProtoCodec Message) (PL : ProtoLaws P)
    `{ProtoCodec IdPk} `{ProtoCodec RendezvousMessage} `{ServerKeyLib} `{Zstd} `{ImageLib Img} `{LockLib}
    `{CommandLib} (w : World) config idle ending later (l : list Happening) fuel t (d : Daemon NetTransport) :
  let s := lk_stream (dm_link d) in
  ready C P idle ending later l t d -> healthy (dm_disk d) -> sendable (close_item P) -> (length l < fuel)%nat ->
  (exists d', run (iter fuel (daemon_step w idle config) tt) t d =
      (Done tt, ends_at idle ending (active_after (dm_last_activity d) l), d') /\
    net_out (es_inner (lk_stream (dm_link d'))) =
      net_out (es_inner s) ++ sealed_frames (es_key s) (send_seq s) (items P l ++ [close_item P]) /\
    net_shut (es_inner (lk_stream (dm_link d'))) = true /\
    dm_disk d' = without [LOCK_PATH; ERROR_PATH; SOCKET_PATH] (dm_disk d)) /\
  (forall l1 a b line reader rs l2, l = l1 ++ Calls a b line reader rs :: l2 ->
    exists d1, daemon_reach w idle config t d (Z.max b a) d1 /\ wrote rs d1).
Proof.
  intros s Hr Hk Hc Hl. split; [by apply (agenda_served C P w config idle ending later)|].
  intros l1 a b line reader rs l2 ->.
  destruct (agenda_reached C P w config idle ending later l1 (Calls a b line reader rs :: l2) t d Hr) as (t1 & d1 & R1 & Hr1).
  destruct (agenda_step C P w config idle ending later _ _ t1 d1 Hr1) as (d2 & E & _ & Hw).
  exists d2. split; [|apply Hw]. eapply reach_trans; [exact R1|]. econstructor; [exact E|constructor].
Qed.

(** *** Evaluating an agenda *)

#[local] Instance toy_crypto_s : CryptoLib := toy_crypto.
#[local] Instance toy_messages_s : ProtoCodec Message := toy_codec MessageUnion.
#[local] Instance toy_rendezvous_s : ProtoCodec RendezvousMessage := toy_codec RendezvousUnion.
#[local] Instance toy_idpk_s : ProtoCodec IdPk := toy_idpk.
#[local] Instance toy_server_keys_s : ServerKeyLib := toy_server_keys.
#[local] Instance toy_zstd_s : Zstd := toy_zstd.
#[local] Instance toy_image_s : ImageLib (Z * Z) := toy_image.
#[local] Instance toy_lock_s : LockLib := toy_lock.
Definition toy_status : CommandLib := {|
  cmd_from_str := fun s => if String.eqb s "status" then Ok CmdStatus else Err (anyhow "unknown variant")
|}.
#[local] Instance toy_status_s : CommandLib := toy_status.

(** An echo request, two clients, one of which sends nonsense late, a tick, and a signal. *)
Definition toy_invalid : SessionResponse := resp_error "Invalid command: unknown variant".
Definition toy_status_answer : list SessionResponse :=
  default [] (answers_of (initial_session toy_args toy_info) (Ok "status"%string)).
Definition toy_agenda : list Happening :=
  [Hears 10 (Some (Some (UTestDelay (mkTestDelay 7 false 1 2))));
   Calls 20 20 (Ok "status"%string) (mkUdsReader [] None) toy_status_answer; Ticks 30;
   Calls 40 55 (Ok "nonsense"%string) (mkUdsReader [] None) [toy_invalid]].

Lemma daemon_serves_agenda_witness :
  let d := toy_daemon (toy_stream (said_by_peer toy_agenda)) DefaultConn
             (externals toy_agenda ++ [(60, XSignal "SIGTERM")]) in
  (exists d', run (iter 5 (daemon_step toy_world 300000 (config_of toy_args)) tt) 5 d = (Done tt, 60, d') /\
     length (net_out (es_inner (lk_stream (dm_link d')))) = 3%nat) /\
  (exists d1, daemon_reach toy_world 300000 (config_of toy_args) 5 d 20 d1 /\ wrote toy_status_answer d1) /\
  (exists d2, daemon_reach toy_world 300000 (config_of toy_args) 5 d 55 d2 /\ wrote [toy_invalid] d2).
Proof.
  intros d.
  destruct (daemon_serves_agenda toy_crypto toy_crypto_laws (toy_codec MessageUnion) (toy_codec_laws MessageUnion)
    toy_world (config_of toy_args) 300000 (Some (60, "SIGTERM"%string)) [] toy_agenda 5 5 d) as [(d' & E & Ho & _) Ha].
  - constructor; try reflexivity.
    + split; [vm_compute; reflexivity|]. repeat (apply Forall_cons_2 || apply Forall_nil_2); vm_compute; congruence.
    + cbn [in_order toy_agenda]. unfold KEEPALIVE_TIMEOUT. cbn.
      repeat split; try lia; repeat (apply Forall_cons_2 || apply Forall_nil_2); try (vm_compute; congruence).
  - reflexivity.
  - vm_compute. congruence.
  - cbn. lia.
  - split_and!.
    + exists d'. split; [exact E|]. rewrite Ho. vm_compute. reflexivity.
    + apply (Ha [Hears 10 (Some (Some (UTestDelay (mkTestDelay 7 false 1 2))))] 20 20 (Ok "status"%string)
        (mkUdsReader [] None) toy_status_answer _ eq_refl).
    + apply (Ha (take 3 toy_agenda) 40 55 (Ok "nonsense"%string) (mkUdsReader [] None) [toy_invalid] [] eq_refl).
Defined.
