(* ===== verification/Answered.v ===== *)
(** * Every request has one answer (src/daemon.rs)

    What a client finds on its socket when the daemon has dealt with it.  Whatever the peer and the
    network do, and however often the command is tried, a request is answered by one final response;
    only the pieces of an executed command's output and the progress of a push come before it, and
    only the bytes of a shell come after one. *)

From Stdlib Require Import ZArith Lia.
From Stdlib Require Import Strings.Byte Strings.Ascii Strings.String.
From stdpp Require Import base list option numbers.
From S2P Require Import Prelude RustStr Async Transport Crypto Base64 Json Session Proto Inbox.
From S2P Require Import Terminal Capture FileTransfer Rendezvous Connection Exec ExecRun Lockfile Daemon DaemonLoop.

Local Open Scope Z_scope.
Local Open Scope async_scope.

(** ** The conversation *)

(** What may come before the answer. *)
Definition interim (cmd : SessionCommand) (r : SessionResponse) : Prop :=
  match cmd with
  | CmdExec _ _ => exists data, r = exec_output_chunk_response data
  | CmdPush _ remote_path => exists p, r = push_progress_response remote_path p
  | _ => False
  end.

Definition answered (cmd : SessionCommand) (items : list UdsItem) : Prop :=
  match cmd with
  | CmdShell => exists r raws, items = ULine r :: map URaw raws
  | _ => exists l r, items = map ULine (l ++ [r]) /\ Forall (interim cmd) l /\ ~ interim cmd r
  end.

(** The line of a client, as a command or not. *)
Definition answer_to (request : Res SessionCommand) (items : list UdsItem) : Prop :=
  match request with
  | Ok cmd => answered cmd items
  | Err e => items = [ULine (resp_error ("Invalid command: " ++ error_to_string e)%string)]
  end.

(** The writer so far, without the answer. *)
Definition underway (cmd : SessionCommand) (x : UdsWriter) : Prop :=
  exists l, x = mkUdsWriter (map ULine l) [] /\ Forall (interim cmd) l.

Lemma error_not_interim cmd m : ~ interim cmd (resp_error m).
Proof. destruct cmd; cbn; try tauto; intros [x Hx]; discriminate. Qed.

Lemma underway_nil cmd : underway cmd (mkUdsWriter [] []).
Proof. by exists []. Qed.

Lemma write_interim cmd r : interim cmd r -> stays (underway cmd) (send_response r).
Proof.
  intros Hr dl t x (l & -> & Hl). exists (l ++ [r]). cbn. rewrite map_app. split; [done|].
  apply Forall_app. auto.
Qed.

(** ** Executed commands and pushes *)

Section commands.
Context {T : Type} `{Transport T} `{CryptoLib} `{ProtoCodec Message} `{Zstd}.
Context (cmd : SessionCommand).

Abbreviation onway := (fun s : ExecState T => underway cmd (ex_writer s)).

Lemma on_stream_onway {A} (m : M (EncryptedStream T) A) : stays onway (on_stream m).
Proof. by apply stays_zoom. Qed.
Lemma set_service_onway v : stays onway (set_service v).
Proof. by apply stays_modify. Qed.
Lemma tell_onway r : interim cmd r -> stays onway (on_writer (send_response r)).
Proof. intros Hr. by apply (stays_zoom_part _ (underway cmd)); [|apply write_interim|]. Qed.
Lemma close_onway tid : stays onway (close_quietly tid).
Proof. apply stays_bind; [apply stays_try, on_stream_onway|]. intros r. apply stays_ret. Qed.

Local Hint Resolve on_stream_onway set_service_onway tell_onway close_onway : stays.

Lemma exec_onway nanos command timeout_secs :
  (forall data, interim cmd (exec_output_chunk_response data)) ->
  stays onway (exec_command_inner nanos command timeout_secs true).
Proof.
  intros Hc. unfold exec_command_inner, drain_step, collect_step. stays_tac.
Qed.

Lemma push_step_onway remote_path last :
  (forall p, interim cmd (push_progress_response remote_path p)) ->
  stays (fun st : PushTransfer * ExecState T => onway st.2) (push_step remote_path last).
Proof.
  intros Hc. unfold push_step. apply stays_bind; [by apply stays_zoom|]. intros [|]; [|apply stays_ret].
  apply stays_bind; [apply stays_get|]. intros st. case_match; [|apply stays_ret].
  apply stays_bind; [|intros u; apply stays_ret].
  apply (stays_zoom_part _ onway); [done|by apply tell_onway|done].
Qed.
Local Hint Resolve push_step_onway : stays.

Lemma push_onway lf nanos local_path remote_path :
  (forall p, interim cmd (push_progress_response remote_path p)) ->
  stays onway (push_file_command lf nanos local_path remote_path).
Proof. intros Hc. unfold push_file_command. stays_tac. Qed.

(** The answers themselves are not such lines. *)

Definition exec_report (r : SessionResponse) : Prop :=
  exists msg c out code late, r = Exec.exec_response msg c out code late.

Lemma exec_reports msg c out code late : exec_report (Exec.exec_response msg c out code late).
Proof. by eexists _, _, _, _, _. Qed.

Lemma exec_concludes nanos command timeout_secs streaming :
  gives (S := ExecState T) exec_report (exec_command_inner nanos command timeout_secs streaming).
Proof.
  unfold exec_command_inner. do 2 (apply gives_then; intros ?).
  eapply (gives_bind _ (from_option exec_report True)).
  { apply gives_loop. intros []. unfold drain_step. apply gives_then. intros [[data|code|msg]|e].
    - by apply gives_ret.
    - apply gives_then. intros u. apply gives_ret, exec_reports.
    - do 2 (apply gives_then; intros ?). apply gives_fail.
    - case_match; [by apply gives_ret|]. apply gives_then. intros u. apply gives_fail. }
  intros [r|] Hr; [by apply gives_ret|]. do 2 (apply gives_then; intros ?).
  eapply (gives_bind _ (fun o => match o with inl r => exec_report r | inr _ => True end)).
  { apply gives_loop. intros l. unfold collect_step. apply gives_then. intros t1.
    case_match; [by apply gives_ret|]. apply gives_then. intros [[data|code|msg]|e].
    - apply gives_then. intros u. case_match; by apply gives_ret.
    - do 2 (apply gives_then; intros ?). apply gives_ret, exec_reports.
    - do 2 (apply gives_then; intros ?). apply gives_fail.
    - case_match; [by apply gives_ret|]. do 2 (apply gives_then; intros ?). apply gives_fail. }
  intros [r|[collected late]] Ho; [by apply gives_ret|]. do 2 (apply gives_then; intros ?).
  destruct (parse_exec_output _ _). apply gives_ret, exec_reports.
Qed.

Lemma push_concludes lf nanos local_path remote_path :
  gives (S := ExecState T) (fun r => exists res, r = push_complete_response res)
    (push_file_command lf nanos local_path remote_path).
Proof.
  unfold push_file_command. do 2 (apply gives_then; intros ?). apply gives_then. intros [u transfer].
  apply gives_then. intros u2. apply gives_ret. eauto.
Qed.
End commands.

(** ** The daemon *)

Section daemon.
Context {T : Type} `{Transport T} `{CryptoLib} `{ProtoCodec Message} `{ProtoCodec IdPk}
  `{ProtoCodec RendezvousMessage} `{ServerKeyLib} `{Zstd} {Img : Type} `{ImageLib Img}
  `{LockLib} `{CommandLib}.
Context (w : World) (config : ConnConfig).

(** What is known of the client's socket. *)
Section socket.
Context (W : UdsWriter -> Prop).
Abbreviation sock := (fun d : Daemon T => W (dm_client d).2).

Lemma on_enc_sock {A} (m : M (EncryptedStream T) A) : stays sock (on_enc m).
Proof. by apply stays_zoom. Qed.
Lemma on_files_sock {A} (m : M Disk A) : stays sock (on_files m).
Proof. by apply stays_zoom. Qed.
Lemma on_control_sock {A} (m : M (Session * EncryptedStream T) A) : stays sock (on_control m).
Proof. by apply stays_zoom. Qed.
Lemma stop_sock e {A} (a : A) : stays sock (stop e a).
Proof.
  unfold stop, graceful_shutdown. apply stays_bind; [by apply stays_modify|]. intros u.
  apply stays_bind; [apply stays_bind; [apply on_enc_sock|intros u1; apply on_files_sock]|]. intros u1.
  destruct e; auto with stays.
Qed.
Lemma stop_fails e {A} (a : A) : gives (S := Daemon T) (fun _ => False) (stop (Some e) a).
Proof. unfold stop. do 2 (apply gives_then; intros ?). apply gives_fail. Qed.
Lemma reconnect_sock conn_type : stays sock (reconnect_encrypted_stream w config conn_type).
Proof.
  unfold reconnect_encrypted_stream. apply stays_bind; [apply stays_get|]. intros d.
  apply stays_bind; [by apply stays_zoom|]. intros [peer_info encrypted].
  apply stays_bind; [apply stays_locally|]. intros [u enc].
  apply stays_bind; [by apply stays_modify|]. intros u1. apply stays_ret.
Qed.
Lemma reconnect_or_stop_sock : stays sock (reconnect_or_stop w config).
Proof.
  unfold reconnect_or_stop. apply stays_bind; [apply stays_get|]. intros d.
  apply stays_bind; [apply stays_try, reconnect_sock|]. intros [enc|e]; [|apply stop_sock].
  apply stays_bind; [by apply stays_modify|]. intros u. apply stays_ret.
Qed.
Lemma on_exec_sock {A} (m : M (ExecState T) A) :
  stays (fun s => W (ex_writer s)) m -> stays sock (on_exec m).
Proof.
  intros Hm. apply (stays_zoom_part _ (fun st => W (ex_writer st.1))); [done| |done].
  by apply (stays_zoom_part _ (fun s => W (ex_writer s))).
Qed.
End socket.

(** *** Commands with one answer *)

Section request.
Context (cmd : SessionCommand).
Abbreviation onway := (fun d : Daemon T => underway cmd (dm_client d).2).
Abbreviation finished := (fun d : Daemon T =>
  exists l r, uw_sent (dm_client d).2 = map ULine (l ++ [r]) /\ Forall (interim cmd) l /\ ~ interim cmd r).

Lemma reply_finishes r (E : Daemon T -> Prop) :
  ~ interim cmd r -> triple onway (reply r) (fun _ => finished) E.
Proof.
  intros Hr dl t d (l & Hd & Hl). unfold reply, quietly, bind, try, on_exec, on_shell, in_exec, on_writer, zoom.
  cbn. rewrite Hd. cbn. exists l, r. by rewrite map_app.
Qed.

Lemma stop_sent e {A} (a : A) : stays finished (stop e a).
Proof.
  apply (stop_sock (fun x => exists l r, uw_sent x = map ULine (l ++ [r]) /\ Forall (interim cmd) l /\
    ~ interim cmd r)).
Qed.

Lemma run_command_answers :
  cmd <> CmdShell -> triple onway (run_command w cmd) (fun r d => onway d /\ ~ interim cmd r) onway.
Proof.
  intros Hs. unfold run_command. eapply triple_bind; [by apply triple_now with (Q := fun _ => onway)|]. intros t.
  assert (forall m : M (Session * EncryptedStream T) SessionResponse, (forall r, ~ interim cmd r) ->
    triple onway (on_control m) (fun r d => onway d /\ ~ interim cmd r) onway) as Hctl.
  { intros m Hi. eapply triple_mono; [apply stays_triple, (on_control_sock (underway cmd))|auto..]. }
  destruct cmd; try done; try (apply Hctl; cbn; tauto).
  - apply stays_gives; [apply on_exec_sock, exec_onway; intros data; by exists data|].
    apply gives_zoom, gives_zoom. intros dl t1 s r t' s' E. apply exec_concludes in E as (? & ? & ? & ? & ? & ->).
    intros [data [=]].
  - apply stays_gives; [apply on_exec_sock, push_onway; intros p; by exists p|].
    apply gives_zoom, gives_zoom. intros dl t1 s r t' s' E. apply push_concludes in E as [res ->].
    intros [p [=]].
Qed.

(** A command with its retry: either there is an answer to give, or the client has it and the
    daemon stops. *)
Lemma with_retry_answers what run :
  triple onway run (fun r d => onway d /\ ~ interim cmd r) onway ->
  triple onway (with_retry w config what run) (fun r d => onway d /\ ~ interim cmd r) finished.
Proof.
  intros Hrun.
  assert (forall E : Daemon T -> Prop, triple onway (try run)
    (fun r d => onway d /\ match r with Ok resp => ~ interim cmd resp | Err _ => True end) E) as Htry.
  { intros E. apply triple_try. eapply triple_mono; [apply Hrun|auto..]. }
  unfold with_retry. eapply triple_bind; [apply Htry|]. intros [resp|command_err]; [by apply triple_ret|].
  apply triple_mono with (I := onway) (Q := fun r d => onway d /\ ~ interim cmd r) (E := finished); [|by intros d []|done..].
  destruct (should_reconnect command_err);
    [|apply triple_ret; intros d Hd; split; [done|apply error_not_interim]].
  eapply triple_bind; [by apply triple_get with (Q := fun _ => onway)|]. intros d0.
  eapply triple_bind with (Q1 := fun _ => onway).
  { apply triple_try. eapply triple_mono; [apply stays_triple, (reconnect_sock (underway cmd))|auto..]. }
  intros [encrypted|e].
  - eapply triple_bind; [by apply triple_modify with (Q := fun _ => onway)|]. intros u.
    eapply triple_bind; [apply Htry|]. intros [resp|e]; apply triple_ret; intros d [Hd Hr]; split; try done.
    apply error_not_interim.
  - eapply triple_bind; [apply reply_finishes, error_not_interim|]. intros u.
    eapply triple_mono; [apply stays_gives; [apply stop_sent|apply stop_fails]|done| |done].
    by intros a d [_ []].
Qed.

Lemma ensure_answers :
  triple onway (ensure_conn_type w config cmd) (fun go d => if go then onway d else finished d) finished.
Proof.
  unfold ensure_conn_type. eapply triple_bind; [by apply triple_get with (Q := fun _ => onway)|]. intros d0.
  case_decide; [by apply triple_ret|].
  eapply triple_bind with (Q1 := fun _ => onway); [case_decide; [by apply triple_ret|by apply triple_modify]|].
  intros u. eapply triple_bind with (Q1 := fun _ => onway).
  { apply triple_try. eapply triple_mono; [apply stays_triple, (reconnect_sock (underway cmd))|auto..]. }
  intros [encrypted|e].
  - eapply triple_bind; [by apply triple_modify with (Q := fun _ => onway)|]. intros u1. by apply triple_ret.
  - eapply triple_bind; [apply reply_finishes, error_not_interim|]. intros u1. by apply triple_ret.
Qed.

Lemma serve_answers : cmd <> CmdShell -> triple onway (serve_command w config cmd) (fun _ => finished) finished.
Proof.
  intros Hs. unfold serve_command. eapply triple_bind; [apply ensure_answers|].
  intros [|]; cbn [negb]; [|by apply triple_ret].
  assert (forall k : M (Daemon T) (unit + unit), stays finished k ->
    triple onway (let* r := with_retry w config (command_name cmd) (run_command w cmd) in reply r ;;; k)
      (fun _ => finished) finished) as Hk.
  { intros k Hk. eapply triple_bind; [by apply with_retry_answers, run_command_answers|]. intros r.
    eapply triple_bind with (Q1 := fun _ => finished); [|intros u; by apply stays_triple].
    intros dl t d [Hd Hr]. by apply (reply_finishes r finished Hr). }
  pose proof (stop_sent None (inr tt : unit + unit)) as Hstop.
  destruct cmd; try done; apply Hk; first [apply stays_ret|apply Hstop].
Qed.

End request.

(** *** The shell *)

Definition unheard (x : UdsWriter) : Prop := x = mkUdsWriter [] [].
Definition spoken (x : UdsWriter) : Prop := exists r raws, x = mkUdsWriter (ULine r :: map URaw raws) [].
Abbreviation in_shell W := (fun st : ShellState (T := T) => W (ex_writer st.1)).

Lemma in_exec_shell W {A} (m : M (ExecState T) A) :
  stays (fun s => W (ex_writer s)) m -> stays (in_shell W) (in_exec m).
Proof. intros Hm. by apply (stays_zoom_part _ (fun s => W (ex_writer s))). Qed.

Lemma speak_first r (E : ShellState (T := T) -> Prop) :
  triple (in_shell unheard) (in_exec (on_writer (send_response r))) (fun _ => in_shell spoken) E.
Proof.
  intros dl t [s rd] Hs. unfold in_exec, on_writer, zoom. cbn in *. rewrite Hs. cbn. by exists r, [].
Qed.
Lemma speak_on b : stays (in_shell spoken) (in_exec (on_writer (uds_write (URaw b)))).
Proof.
  apply in_exec_shell, (stays_zoom_part _ spoken); [done| |done].
  intros dl t x (r & raws & ->). exists r, (raws ++ [b]). cbn. by rewrite map_app.
Qed.

Lemma shell_step_speaks tid x : stays (in_shell spoken) (shell_step tid x).
Proof.
  assert (forall A (m : M (EncryptedStream T) A), stays (in_shell spoken) (in_exec (on_stream m))) as Hon.
  { intros A m. apply in_exec_shell. by apply stays_zoom. }
  assert (forall v, stays (in_shell spoken) (in_exec (set_service v))) as Hset.
  { intros v. apply in_exec_shell. by apply stays_modify. }
  unfold shell_step. apply stays_bind; [apply stays_get|]. intros st.
  apply stays_bind.
  { case_match; [apply stays_race, Hon|]. apply stays_bind; [apply stays_try, Hon|]. intros r. apply stays_ret. }
  intros [[[data|code|msg]|e]|].
  - apply stays_bind; [apply speak_on|]. intros u. apply stays_ret.
  - apply stays_bind; [apply Hset|]. intros u. apply stays_ret.
  - apply stays_bind; [apply Hset|]. intros u. apply stays_ret.
  - apply stays_bind; [apply Hset|]. intros u. apply stays_ret.
  - case_match; [|case_match]; subst.
    + apply stays_bind; [|intros u; apply stays_ret]. apply in_exec_shell.
      apply stays_bind; [|intros u; by apply stays_modify].
      apply stays_bind; [apply stays_try; by apply stays_zoom|]. intros r. apply stays_ret.
    + apply stays_bind; [by apply stays_modify|]. intros u.
      apply stays_bind; [apply Hon|]. intros u1. apply stays_ret.
Qed.

Lemma shell_speaks : triple (in_shell unheard) shell_session (fun _ => in_shell spoken) (in_shell spoken).
Proof.
  assert (forall reply err (Q : TerminalInfo -> ShellState (T := T) -> Prop), triple (in_shell unheard)
    (in_exec (quietly (on_writer (send_response (resp_error reply)))) ;;; fail (anyhow err)) Q (in_shell spoken)) as Hno.
  { intros reply err Q dl t [s rd] Hs. unfold bind, quietly, bind, try, in_exec, on_writer, zoom. cbn in *.
    rewrite Hs. cbn. by eexists _, []. }
  unfold shell_session. eapply triple_bind.
  { apply (stays_triple_timeout (in_shell unheard)), in_exec_shell. by apply stays_zoom. }
  intros r. eapply triple_bind with (Q1 := fun _ => in_shell unheard).
  { destruct r as [[info|e]|]; [by apply triple_ret|apply Hno|apply Hno]. }
  intros info. eapply triple_bind with (Q1 := fun _ => in_shell unheard).
  { by intros dl t [s rd] Hs. }
  intros u. eapply triple_bind; [apply speak_first|]. intros u1.
  apply stays_triple, stays_loop, shell_step_speaks.
Qed.

Abbreviation sock W := (fun d : Daemon T => W (dm_client d).2).

Lemma ensure_heard cmd :
  triple (sock unheard) (ensure_conn_type w config cmd) (fun go => sock (if go then unheard else spoken)) (sock spoken).
Proof.
  unfold ensure_conn_type. eapply triple_bind; [by apply triple_get with (Q := fun _ => sock unheard)|]. intros d0.
  case_decide; [by apply triple_ret|].
  eapply triple_bind with (Q1 := fun _ => sock unheard); [case_decide; [by apply triple_ret|by apply triple_modify]|].
  intros u. eapply triple_bind with (Q1 := fun _ => sock unheard).
  { apply triple_try. eapply triple_mono; [apply stays_triple, (reconnect_sock unheard)|auto..]. }
  intros [encrypted|e].
  - eapply triple_bind; [by apply triple_modify with (Q := fun _ => sock unheard)|]. intros u1. by apply triple_ret.
  - eapply triple_bind with (Q1 := fun _ => sock spoken); [|intros u1; by apply triple_ret].
    intros dl t d Hd. unfold reply, quietly, bind, try, on_exec, on_shell, in_exec, on_writer, zoom.
    cbn in *. rewrite Hd. cbn. by eexists _, [].
Qed.

Lemma serve_shell_answers : triple (sock unheard) (serve_command w config CmdShell) (fun _ => sock spoken) (sock spoken).
Proof.
  unfold serve_command. eapply triple_bind; [apply ensure_heard|]. intros [|]; cbn [negb]; [|by apply triple_ret].
  unfold serve_shell. eapply triple_bind with (Q1 := fun _ => sock spoken).
  { apply triple_try. intros dl t d Hd. unfold on_shell, zoom.
    pose proof (shell_speaks dl t (mkExecState (lk_stream (dm_link d)) (lk_service (dm_link d)) (dm_client d).2,
      (dm_client d).1) Hd) as X.
    by destruct (shell_session dl t _) as [[[a|e| | |] t'] x]. }
  intros [u|e]; [by apply triple_ret|].
  case_match; [apply stays_triple, (reconnect_or_stop_sock spoken)|by apply triple_ret].
Qed.
End daemon.

(** However a client's request is dealt with, its socket holds the answer. *)
Lemma accept_answers `{Transport T} `{CryptoLib} `{ProtoCodec Message} `{ProtoCodec IdPk}
    `{ProtoCodec RendezvousMessage} `{ServerKeyLib} `{Zstd} `{ImageLib Img} `{LockLib} `{CommandLib}
    (w : World) config c a line :
  cl_line c = Some (a, Ok line) -> cl_faults c = [] ->
  let told := fun d : Daemon T => answer_to (cmd_from_str (trim line)) (uw_sent (dm_client d).2) in
  triple (fun _ => True) (on_accept w config c) (fun _ => told) told.
  intros Hl Hf told. unfold told. clear told. unfold on_accept. eapply triple_bind; [by apply triple_now with (Q := fun _ _ => True)|]. intros t.
  eapply triple_bind with (Q1 := fun _ d => (dm_client d).2 = mkUdsWriter [] []).
  { apply triple_modify. intros d _. cbn. by rewrite Hf. }
  intros u. eapply triple_bind with
    (Q1 := fun r d => (dm_client d).2 = mkUdsWriter [] [] /\ r = Ok line).
  { apply triple_try. unfold read_first_line. rewrite Hl. eapply triple_bind; [apply triple_wait_until|].
    intros u1. by apply triple_ret. }
  intros r dl t1 d [Hd ->]. revert dl t1 d Hd. destruct (cmd_from_str (trim line)) as [cmd|e]; cbn [answer_to].
  - destruct (decide (cmd = CmdShell)) as [->|Hs].
    + eapply triple_mono; [apply serve_shell_answers|done|intros a1|];
        intros d (r & raws & Hd); cbn; rewrite Hd; by exists r, raws.
    + eapply triple_mono; [by apply (serve_answers w config cmd)| |..].
      * intros d Hd. cbn. rewrite Hd. apply underway_nil.
      * intros a1 d Hd. by destruct cmd.
      * intros d Hd. by destruct cmd.
  - intros dl t1 d Hd. unfold bind, reply, quietly, bind, try, on_exec, on_shell, in_exec, on_writer, zoom.
    cbn. by rewrite Hd.
Qed.

(** C7: every request has one answer.  Whatever the peer, the network and the clock do, when the
    daemon has dealt with a client whose socket takes what is written, successfully or ending itself
    with an error, the client's socket holds exactly this: for a line that is no command, one error;
    for a shell, one response and then only the bytes of the terminal; and for any other command one
    final response at the end, preceded by nothing but the pieces of output of an executed command or
    the progress of a push, from which the final response differs.  This includes commands that are
    run a second time after a reconnect, and those whose connection could not be re-established. *)
Theorem request_answered_once `{Transport T} `{CryptoLib} `{ProtoCodec Message} `{ProtoCodec IdPk}
    `{ProtoCodec RendezvousMessage} `{ServerKeyLib} `{Zstd} `{ImageLib Img} `{LockLib} `{CommandLib}
    (w : World) config c a line t (d : Daemon T) :
  cl_line c = Some (a, Ok line) -> cl_faults c = [] ->
  match run (on_accept w config c) t d with
  | (Done _, _, d') | (Fail _, _, d') => answer_to (cmd_from_str (trim line)) (uw_sent (dm_client d').2)
  | _ => True
  end.
Proof. intros Hl Hf. exact (accept_answers w config c a line Hl Hf None t d I). Qed.

(** ** Requests come to an end *)

(** The numbers of a request are unsigned. *)
Definition sound_timeout (cmd : SessionCommand) : Prop :=
  match cmd with
  | CmdExec _ (Some n) => 0 <= n
  | CmdCapture _ _ _ _ _ (Some n) => 0 <= n
  | _ => True
  end.

Section ends.
Context (C : CryptoLib) (P : ProtoCodec Message) `{ProtoCodec IdPk} `{ProtoCodec RendezvousMessage} `{ServerKeyLib}
  (Zs : Zstd) {Img : Type} `{ImageLib Img} `{LockLib} `{CommandLib}.
Context (w : World) (config : ConnConfig).
Abbreviation D := (Daemon NetTransport).

Lemma send_message_ends m : ends (send_message m : M (EncryptedStream NetTransport) unit).
Proof. apply ends_instant, es_send_instant. Qed.
Local Hint Resolve send_message_ends : ends.

Lemma stop_ends_too e {A} (a : A) : ends (stop e a : M D A).
Proof. unfold stop, graceful_shutdown, on_enc, on_files, shutdown_stream, cleanup, lock_remove. ends_tac. Qed.

Lemma uds_write_ends i : ends (uds_write i).
Proof. intros t x. unfold wp, run, uds_write. by destruct (uw_faults x) as [|[e|] fs]. Qed.
Lemma reply_ends r : ends (reply r : M D unit).
Proof. apply ends_quietly, ends_zoom, ends_zoom, ends_zoom, uds_write_ends. Qed.

Lemma exec_ends nanos command timeout_secs streaming :
  match timeout_secs with Some n => 0 <= n | None => True end ->
  ends (exec_command_inner nanos command timeout_secs streaming : M (ExecState NetTransport) SessionResponse).
Proof.
  intros Hn t s. eapply wp_mono; [apply exec_wp|done..].
  unfold exec_completion_timeout, MAX_EXEC_COMPLETION_TIMEOUT, DEFAULT_EXEC_COMPLETION_TIMEOUT. case_match; lia.
Qed.
Lemma exec_command_ends nanos command timeout_secs :
  match timeout_secs with Some n => 0 <= n | None => True end ->
  ends (exec_command nanos command timeout_secs : M (EncryptedStream NetTransport) SessionResponse).
Proof.
  intros Hn t s. pose proof (exec_ends nanos command timeout_secs false Hn t (mkExecState s None (mkUdsWriter [] []))) as X.
  unfold wp, run, exec_command in *. by destruct (exec_command_inner _ _ _ _ _ _ _) as [[[a|e| | |] t'] x].
Qed.

Lemma on_screenshot_timely sid o m : timely (on_screenshot_message sid o m : M (EncryptedStream NetTransport) (unit + bytes)).
Proof. unfold on_screenshot_message. timely_tac. Qed.
Lemma on_screenshot_spinless sid o m : spinless (on_screenshot_message sid o m : M (EncryptedStream NetTransport) (unit + bytes)).
Proof. unfold on_screenshot_message. spinless_tac. Qed.
Lemma on_screenshot_keeps sid o m dl t (s : EncryptedStream NetTransport) :
  (es_pending (on_screenshot_message sid o m dl t s).2 <= es_pending s)%nat.
Proof.
  unfold on_screenshot_message. repeat case_match; try done. by destruct (process_screenshot_bytes _ _).
Qed.

Lemma screenshot_ends secs pid nanos o :
  match secs with Some n => 0 <= n | None => True end ->
  ends (timeout_or (1000 * default 10 secs) (anyhow "screenshot request timed out")
    (on_session (request_screenshot pid nanos o)) : M (Session * EncryptedStream NetTransport) bytes).
Proof.
  intros Hn. apply ends_timeout_or.
  - destruct secs; cbn; lia.
  - apply timely_zoom. unfold request_screenshot, request_screenshot_with_sid.
    apply timely_bind; [apply timely_context, es_send_timely|]. intros u.
    apply recv_loop_timely, on_screenshot_timely.
  - apply spinless_zoom. unfold request_screenshot, request_screenshot_with_sid.
    apply spinless_bind; [apply spinless_context, es_send_spinless|]. intros u.
    apply recv_loop_spinless; [apply on_screenshot_spinless|apply on_screenshot_keeps].
Qed.

Lemma clipboard_ends nanos text :
  ends (clipboard_get nanos : M (EncryptedStream NetTransport) SessionResponse) /\
  ends (clipboard_set nanos text : M (EncryptedStream NetTransport) SessionResponse).
Proof.
  split; (apply ends_bind; [by apply exec_command_ends|]); intros r; apply ends_ret.
Qed.

Lemma control_ends pid nanos cmd :
  sound_timeout cmd ->
  ends (execute_daemon_command pid nanos cmd : M (Session * EncryptedStream NetTransport) SessionResponse).
Proof.
  intros Hs. assert (ends (let* st := get in let '(session, r) := dispatch st.1 cmd in
    modify (fun st => (session, st.2)) ;;; let* '(resp, _) := lift r in ret resp
    : M (Session * EncryptedStream NetTransport) SessionResponse)) as Hd.
  { apply ends_bind; [apply ends_instant, instant_get|]. intros st. destruct (dispatch st.1 cmd).
    repeat (apply ends_bind; [auto with ends|]; intros); auto with ends. by case_match. }
  destruct cmd; cbn [execute_daemon_command]; try apply Hd.
  - apply ends_zoom, exec_command_ends. cbn in Hs. by destruct timeout.
  - apply ends_zoom, (clipboard_ends nanos "").
  - apply ends_zoom, clipboard_ends.
  - apply ends_bind; [|intros data; apply ends_ret]. apply screenshot_ends. cbn in Hs. by case_match.
Qed.

Lemma run_command_ends cmd :
  sound_timeout cmd -> (forall p q, cmd <> CmdPush p q) -> ends (run_command w cmd : M D SessionResponse).
Proof.
  intros Hs Hp. unfold run_command. apply ends_bind; [auto with ends|]. intros t.
  pose proof (control_ends (w_pid w) (w_nanos w t) cmd Hs) as Hc.
  destruct cmd; try (apply ends_zoom, Hc).
  - apply ends_zoom, ends_zoom, exec_ends. cbn in Hs. by destruct timeout.
  - by destruct (Hp local_path remote_path).
Qed.

(** The only other thing a request waits for is a new connection. *)
Hypothesis (Hre : forall conn_type, ends (reconnect_encrypted_stream w config conn_type : M D _)).

Lemma with_retry_ends what run : ends run -> ends (with_retry w config what run : M D SessionResponse).
Proof.
  intros Hrun. unfold with_retry. pose proof stop_ends_too. pose proof reply_ends.
  repeat first [solve [auto with ends] | apply ends_bind; intros | case_match].
Qed.

Lemma serve_ends cmd :
  sound_timeout cmd -> (forall p q, cmd <> CmdPush p q) -> ends (serve_command w config cmd : M D (unit + unit)).
Proof.
  intros Hs Hp. pose proof (@stop_ends_too) as Hstop. pose proof reply_ends as Hrep.
  pose proof (with_retry_ends (command_name cmd) (run_command w cmd) (run_command_ends cmd Hs Hp)) as Hrun.
  unfold serve_command. apply ends_bind.
  { unfold ensure_conn_type. repeat first [solve [auto with ends] | apply ends_bind; intros | case_match | case_decide]. }
  intros [|]; cbn [negb]; [|apply ends_ret].
  destruct cmd; try (apply ends_bind; [exact Hrun|]; intros resp; apply ends_bind; [apply Hrep|]; intros u; auto with ends).
  unfold serve_shell, reconnect_or_stop. apply ends_bind.
  { apply ends_try, ends_zoom. intros t st. eapply wp_mono; [apply shell_session_wp|done..]. }
  intros r. repeat first [solve [auto with ends] | apply ends_bind; intros | case_match].
Qed.

Lemma accept_ends c a line cmd :
  cl_line c = Some (a, Ok line) -> cmd_from_str (trim line) = Ok cmd -> sound_timeout cmd ->
  (forall p q, cmd <> CmdPush p q) -> ends (on_accept w config c : M D (unit + unit)).
Proof.
  intros Hl Hc Hs Hp t d. apply wp_bind. change (wp now t d ?Q ?R) with (Q t t d). cbv beta.
  apply wp_bind, wp_modify, wp_bind, wp_try. unfold read_first_line. rewrite Hl.
  apply wp_bind, wp_wait_until. intros t' _. apply wp_ret. rewrite Hc. by apply serve_ends.
Qed.
End ends.


(** *** Evaluating a request *)

#[local] Instance toy_crypto_a : CryptoLib := toy_crypto.
#[local] Instance toy_messages_a : ProtoCodec Message := toy_codec MessageUnion.
#[local] Instance toy_rendezvous_a : ProtoCodec RendezvousMessage := toy_codec RendezvousUnion.
#[local] Instance toy_idpk_a : ProtoCodec IdPk := toy_idpk.
#[local] Instance toy_server_keys_a : ServerKeyLib := toy_server_keys.
#[local] Instance toy_zstd_a : Zstd := toy_zstd.
#[local] Instance toy_image_a : ImageLib (Z * Z) := toy_image.
#[local] Instance toy_lock_a : LockLib := toy_lock.
#[local] Instance toy_commands_a : CommandLib := {|
  cmd_from_str := fun s => if String.eqb s "exec" then Ok (CmdExec "ls" (Some 30))
    else if String.eqb s "shell" then Ok CmdShell else Err (anyhow "unknown variant")
|}.

(** The world of the evaluation, with the clock of the script. *)
Definition toy_world_a : World := mkWorld (w_rnd toy_world) (w_udp toy_world) (fun _ => toy_nanos) 4242 (w_file toy_world).

(** A command whose connection is lost after two pieces of its output and cannot be made again: the
    client has the two pieces, and then the error. *)
Lemma request_answered_once_witness :
  let l := sc_noise (toy_script "" []) ++ (20, terminal_msg (TROpened toy_opened)) ::
    chunk_msgs (toy_piece 3000 "one") ++ chunk_msgs (toy_piece 3100 "two") in
  let s := es_new (mkNet (sealed_arrivals [x01] 0 (wire_items l)) (ClosedAt 4000 (anyhow "connection reset by peer")) [] [] false) [x01] 0 in
  let c := mkClient (Some (5, Ok "exec"%string)) (mkUdsReader [] None) [] in
  exists e t' d',
    run (on_accept toy_world_a (config_of toy_args) c) 0 (toy_daemon s ConnTerminal []) = (Fail e, t', d') /\
    length (uw_sent (dm_client d').2) = 3%nat /\ answered (CmdExec "ls" (Some 30)) (uw_sent (dm_client d').2).
Proof.
  intros l s c.
  pose proof (request_answered_once toy_world_a (config_of toy_args) c 5 "exec" 0 (toy_daemon s ConnTerminal [])
    eq_refl eq_refl) as X.
  destruct (run (on_accept toy_world_a (config_of toy_args) c) 0 (toy_daemon s ConnTerminal [])) as [[o t'] d'] eqn:E.
  vm_compute in E. injection E as <- <- <-.
  eexists _, _, _. split; [reflexivity|]. split; [vm_compute; reflexivity|exact X].
Defined.

