(* ===== verification/Recover.v ===== *)
(** * Recovering from a lost connection (src/daemon.rs)

    The connection to the peer breaks; attempts to connect fail for a while; then the servers and
    the peer are there again.  What the daemon has then. *)

From Stdlib Require Import ZArith Lia.
From Stdlib Require Import Strings.Byte Strings.Ascii Strings.String.
From stdpp Require Import base list option numbers.
From S2P Require Import Prelude RustStr Async Transport Crypto Base64 Json Session Proto Inbox.
From S2P Require Import Terminal Capture FileTransfer Rendezvous Connection ConnectRun Exec Lockfile Daemon DaemonLoop.

Local Open Scope Z_scope.
Local Open Scope async_scope.

Section recover.
Context (C : CryptoLib) {CL : CryptoLaws C} (P : ProtoCodec RendezvousMessage) {PL : ProtoLaws P}
  (PM : ProtoCodec Message) {PML : ProtoLaws PM} (PI : ProtoCodec IdPk) (K : ServerKeyLib).
Context (w : World) (config : ConnConfig).
Abbreviation N := (ConnEnv NetTransport * nat)%type.

(** The first attempts find no network. *)
Definition down_for (k n : nat) : Prop := forall i, (i < k)%nat -> exists e, w_udp w (n + i) = Err e.

Lemma attempt_down ct sid e dl t (s : N) :
  w_udp w s.2 = Err e -> exists e', connect_attempt w config ct sid dl t s = (Fail e', t, (s.1, S s.2)).
Proof.
  intros He. unfold connect_attempt, bind at 1. cbn [get]. unfold bind at 1. cbn [modify]. unfold zoom, connect_with_mode.
  rewrite He. by eexists.
Qed.

Lemma retry_recovers ct sid total idx bs last k t (s : N) v t' s' :
  Forall (fun b => 0 <= b) bs -> (k < length bs)%nat -> down_for k s.2 ->
  connect_attempt w config ct sid None (t + waited (take (S k) bs)) (s.1, (s.2 + k)%nat) = (Done v, t', s') ->
  retry_from (connect_attempt w config ct sid) (fun _ => ret tt) total idx bs last None t s = (Done v, t', s').
Proof.
  revert idx bs last t s. induction k as [|k IH]; intros idx bs last t s Hb Hk Hdown E;
    (destruct bs as [|b bs]; [cbn in Hk; lia|]); apply Forall_cons_1 in Hb as [Hb Hbs];
    cbn [retry_from]; unfold bind at 1; cbn [ret]; unfold bind at 1; rewrite sleep_run by done;
    unfold bind at 1, try.
  - rewrite firstn_cons, take_0 in E. cbn [waited foldr] in E. rewrite Z.add_0_r, Nat.add_0_r in E.
    destruct s as [s n]. cbn [fst snd] in E. by rewrite E.
  - destruct (Hdown O ltac:(lia)) as [e He]. rewrite Nat.add_0_r in He.
    destruct (attempt_down ct sid e None (t + b) s He) as [e' ->].
    apply IH; [done|cbn in Hk; lia| |].
    + intros i Hi. destruct (Hdown (S i) ltac:(lia)) as [e2 He2]. exists e2. cbn [snd]. by rewrite <- He2, Nat.add_succ_r.
    + cbn [fst snd]. rewrite firstn_cons in E. unfold waited in *. cbn [foldr] in E. rewrite <- Z.add_assoc.
      by rewrite Nat.add_succ_r in E.
Qed.

(** What is sent on a new connection before anything else. *)
Definition init_msgs (ct : ConnType) : list Message :=
  if decide (ct = DefaultConn)
  then [Some (UMisc (Some (MOption build_option_message))); Some (UMisc (Some (MCaptureDisplays [0] [] [])));
        Some (UMisc (Some (MRefreshVideo true)))]
  else [].

Lemma initialize_run ct t s0 l s :
  has_sent C PM s0 l s -> Forall (fits PM) (init_msgs ct) ->
  exists s', initialize_stream_for_mode ct None t s = (Done tt, t, s') /\
    has_sent C PM s0 (l ++ init_msgs ct) s' /\ same_inbox s s'.
Proof.
  unfold initialize_stream_for_mode, init_msgs. intros Hs Hfit. case_decide; [|exists s; by rewrite app_nil_r].
  apply Forall_cons_1 in Hfit as [H1 Hfit]. apply Forall_cons_1 in Hfit as [H2 Hfit]. apply Forall_cons_1 in Hfit as [H3 _].
  destruct (has_sent_send C PM s0 l _ None t s Hs H1) as (s1 & E1 & Hs1 & I1).
  destruct (has_sent_send C PM s0 _ _ None t s1 Hs1 H2) as (s2 & E2 & Hs2 & I2).
  destruct (has_sent_send C PM s0 _ _ None t s2 Hs2 H3) as (s3 & E3 & Hs3 & I3).
  exists s3. rewrite <- !app_assoc in Hs3. split; [|split; [exact Hs3|]].
  - unfold bind at 1, send_option_message, context, send_message. rewrite E1.
    unfold send_session_init, bind, context, send_message. by rewrite E2, E3.
  - eauto using same_inbox_trans.
Qed.

(** *** The daemon *)

Section scene.
Context (ct : ConnType) (k : nat) (sn : Scene) (t : Z) (d : Daemon NetTransport) (u : NetTransport)
  (more : list (Z * Res NetTransport)).
Abbreviation n := (dm_net d).2.
Abbreviation rnd := (w_rnd w (n + k)).
Abbreviation lu := (login_union_for_conn_type ct (lk_service (dm_link d))).
(** When the attempt that succeeds begins. *)
Definition retried_at : Z := t + waited (take (S k) RECONNECT_BACKOFFS).

(** The network is down for [k] attempts, and then the scene is played, for a connection of type [ct]. *)
Record comes_back : Prop := {
  cb_attempts : (k < length RECONNECT_BACKOFFS)%nat;
  cb_down : down_for k n;
  cb_up : w_udp w (n + k) = Ok tt;
  cb_net : (dm_net d).1 = mkConnEnv u (scene_dials C P PM rnd sn more);
  cb_faults : net_faults u = [];
  cb_udp : net_in u = plain_inbox P (udp_inbox (sn_servers sn));
  cb_scene : scene_ok C P PM PI K rnd config ct lu sn retried_at;
  cb_fits : Forall (fits PM) (init_msgs ct)
}.

(** The daemon on its new connection. *)
Record restored (d' : Daemon NetTransport) : Prop := {
  rs_session : lk_session (dm_link d') =
    mkSession Connected (s_config (lk_session (dm_link d))) (Some (peer_info_state (pr_info (sn_peer sn))));
  rs_service : lk_service (dm_link d') = lk_service (dm_link d);
  rs_out : net_out (es_inner (lk_stream (dm_link d'))) =
    scene_sends C P PM rnd config ct lu sn ++ sealed_frames (rnd_session_key rnd) 1 (sent_items PM (init_msgs ct));
  rs_key : es_key (lk_stream (dm_link d')) = rnd_session_key rnd;
  rs_seq : send_seq (lk_stream (dm_link d')) = seq_after 1 (sent_items PM (init_msgs ct));
  rs_faults : net_faults (es_inner (lk_stream (dm_link d'))) = [];
  rs_end : net_end (es_inner (lk_stream (dm_link d'))) = Never;
  rs_heard : last_recv_at (lk_stream (dm_link d')) = connected_at config sn retried_at;
  rs_rest : delivers_msgs C PM (pr_rest (sn_peer sn)) (lk_stream (dm_link d'));
  rs_attempts : (dm_net d').2 = S (n + k);
  rs_dials : ce_dials (dm_net d').1 = more;
  rs_others : dm_disk d' = dm_disk d /\ dm_client d' = dm_client d /\ dm_events d' = dm_events d /\
    dm_heartbeat d' = dm_heartbeat d
}.

Lemma reconnect_run :
  comes_back ->
  exists t' es d', reconnect_encrypted_stream w config ct None t d = (Done es, t', d') /\
    (at_relay config sn retried_at <= t' <= at_relay config sn retried_at + 50000 /\
     t' = connected_at config sn retried_at) /\ lk_conn_type (dm_link d') = lk_conn_type (dm_link d) /\
    restored (with_stream es d').
Proof.
  intros [Hk Hdown Hup Hnet Hf Hin Hscene Hfit].
  destruct (connect_run C P PM PI K rnd config ct lu sn CL PL PML retried_at u more Hscene Hf Hin)
    as (t' & es & E & Ht & Hest & _).
  destruct (initialize_run ct t' es [] es (has_sent_nil C PM es (est_faults _ _ _ _ _ _ _ _ _ _ Hest)
    (est_end _ _ _ _ _ _ _ _ _ _ Hest)) Hfit) as (es' & Ei & [Hk' Hft Hend Hq Ho] & Hinb).
  set (u1 := exchanged P (udp_sends rnd (sn_servers sn)) (sv_udp_rest (sn_servers sn)) u) in *.
  assert (connect_attempt w config ct (lk_service (dm_link d)) None retried_at ((dm_net d).1, (n + k)%nat) =
    (Done (pr_info (sn_peer sn), es), t', (mkConnEnv u1 more, S (n + k)))) as Ea.
  { unfold connect_attempt, bind at 1. cbn [get]. unfold bind at 1. cbn [modify fst snd]. unfold zoom. cbn [fst snd].
    rewrite Hup, Hnet. unfold run in E. by rewrite E. }
  eexists t', es', _. split; [|split; [exact Ht|split]].
  - unfold reconnect_encrypted_stream, bind at 1. cbn [get]. unfold bind at 1, zoom.
    unfold reconnect_with_retry, reconnect_with_retry_backoffs.
    rewrite (retry_recovers ct (lk_service (dm_link d)) _ 0 RECONNECT_BACKOFFS None k t (dm_net d) _ _ _
      ltac:(repeat constructor; lia) Hk Hdown Ea).
    unfold bind at 1, locally. rewrite Ei. unfold bind. cbn [modify ret]. reflexivity.
  - reflexivity.
  - constructor; try done.
    + cbn [with_stream dm_link with_link lk_stream]. rewrite Ho. cbn [app].
      by rewrite (est_out _ _ _ _ _ _ _ _ _ _ Hest), (est_key _ _ _ _ _ _ _ _ _ _ Hest), (est_seq _ _ _ _ _ _ _ _ _ _ Hest).
    + cbn [with_stream dm_link with_link lk_stream]. by rewrite Hk', (est_key _ _ _ _ _ _ _ _ _ _ Hest).
    + cbn [with_stream dm_link with_link lk_stream]. by rewrite Hq, (est_seq _ _ _ _ _ _ _ _ _ _ Hest).
    + cbn [with_stream dm_link with_link lk_stream]. destruct Hinb as (_ & _ & _ & ->). apply Hest.
    + cbn [with_stream dm_link with_link lk_stream]. eapply delivers_same_inbox; [exact Hinb|apply Hest].
Qed.
End scene.
End recover.

(** C10: a lost connection is replaced.  When a receive fails, the daemon reconnects: after [k]
    attempts for which there is no network, spaced by the backoff schedule, and fewer than six, the
    rendezvous server, the relay and the peer are there as for a first connection, and the event loop
    goes on.  The session is connected with its old configuration and the peer's new details, on a
    connection of the same type and service; the peer was sent the login and, on a default connection,
    the options and the request for a picture, under the nonces after the login's; what the peer sends
    next is what the daemon receives; and the files, the client and the pending events are untouched. *)
Theorem lost_connection_replaced (C : CryptoLib) (CL : CryptoLaws C) (P : ProtoCodec RendezvousMessage)
    (PL : ProtoLaws P) (PM : ProtoCodec Message) (PML : ProtoLaws PM) (PI : ProtoCodec IdPk) (K : ServerKeyLib)
    `{Zstd} `{ImageLib Img} `{CommandLib}
    (w : World) config e k sn t (d : Daemon NetTransport) u more :
  let start := at_relay config sn (retried_at k t) in
  let ct := lk_conn_type (dm_link d) in
  comes_back C P PM PI K w config ct k sn t d u more ->
  exists t' d', run (handle_event w config (EvPeer (Err e))) t d = (Done (inl tt), t', d') /\
    t' = connected_at config sn (retried_at k t) /\ start <= t' <= start + 50000 /\
    lk_conn_type (dm_link d') = ct /\ restored C P PM w config ct k sn t d more d'.
Proof.
  intros start ct Hback.
  destruct (reconnect_run C P PM PI K w config ct k sn t d u more Hback) as (t' & es & d' & E & [Ht He] & Hty & Hr).
  exists t', (with_stream es d'). split; [|by split]. subst ct.
  unfold run. cbn [handle_event on_peer_message]. unfold reconnect_or_stop, bind at 1. cbn [get].
  unfold bind at 1, try. rewrite E. done.
Qed.

(** *** Evaluating a recovery *)

#[local] Instance toy_zstd_r : Zstd := toy_zstd.
#[local] Instance toy_image_r : ImageLib (Z * Z) := toy_image.
#[local] Instance toy_commands_r : CommandLib := toy_commands.

(** No network for the first attempt. *)
Definition toy_flaky_world : World :=
  mkWorld (fun _ => toy_random) (fun n => match n with O => Err (anyhow "network unreachable") | _ => Ok tt end)
    (fun t => 1000000 * t) 4242 (fun _ => toy_file).

Lemma lost_connection_replaced_witness :
  let P := toy_codec RendezvousUnion in
  let u := mkNet (plain_inbox P (udp_inbox toy_servers_script)) Never [] [] false in
  let d := with_net (mkConnEnv u (scene_dials toy_crypto P (toy_codec MessageUnion) toy_random toy_scene []), O)
             (toy_daemon (toy_stream []) DefaultConn []) in
  exists t' d', run (@handle_event _ _ toy_crypto (toy_codec MessageUnion) toy_idpk P toy_keys toy_zstd _ toy_image
      toy_commands toy_flaky_world toy_conn_config (EvPeer (Err (anyhow "connection reset")))) 0 d =
      (Done (inl tt), t', d') /\ length (net_out (es_inner (lk_stream (dm_link d')))) = 6%nat.
Proof.
  intros P u d.
  destruct (lost_connection_replaced toy_crypto toy_crypto_laws P (toy_codec_laws RendezvousUnion)
    (toy_codec MessageUnion) (toy_codec_laws MessageUnion) toy_idpk toy_keys toy_flaky_world toy_conn_config
    (anyhow "connection reset") 1 toy_scene 0 d u []) as (t' & d' & E & _ & _ & _ & Hr).
  - constructor.
    + cbn. lia.
    + intros i Hi. assert (i = O) as -> by lia. eexists. reflexivity.
    + reflexivity.
    + reflexivity.
    + reflexivity.
    + reflexivity.
    + apply toy_scene_ok. right. reflexivity.
    + repeat (apply Forall_cons_2 || apply Forall_nil_2); vm_compute; congruence.
  - exists t', d'. split; [exact E|]. rewrite (rs_out _ _ _ _ _ _ _ _ _ _ _ _ Hr). vm_compute. reflexivity.
Defined.
