(* ===== verification/Retry.v ===== *)
(** * Commands on a new connection (src/daemon.rs, [run_daemon])

    A command that needs another type of connection, or that loses its connection on the way, is run
    on a new one.  What the client and the peer see of it, for an executed command. *)

From Stdlib Require Import ZArith Lia.
From Stdlib Require Import Strings.Byte Strings.Ascii Strings.String.
From stdpp Require Import base list option numbers.
From S2P Require Import Prelude RustStr Async Transport Crypto Base64 Json Session Proto Inbox.
From S2P Require Import Terminal Capture FileTransfer Rendezvous Connection ConnectRun Exec ExecRun.
From S2P Require Import Lockfile Daemon DaemonLoop Serving Recover.

Local Open Scope Z_scope.
Local Open Scope async_scope.

Section retry.
Context (C : CryptoLib) {CL : CryptoLaws C} (P : ProtoCodec RendezvousMessage) {PL : ProtoLaws P}
  (PM : ProtoCodec Message) {PML : ProtoLaws PM} (PI : ProtoCodec IdPk) (K : ServerKeyLib) (Zs : Zstd).
Context {Img : Type} `{ImageLib Img} `{CommandLib}.
Context (w : World) (config : ConnConfig).
Abbreviation D := (Daemon NetTransport).
Abbreviation stream d := (lk_stream (dm_link d)).

(** ** Getting a new connection *)

(** The service id survives a change to a terminal connection only. *)
Definition prepared (ct : ConnType) (d : D) : D :=
  if decide (ct = ConnTerminal) then d
  else with_link (mkLink (stream d) (lk_session (dm_link d)) (lk_conn_type (dm_link d)) None) d.

Lemma switch_run cmd k sn t d u more :
  let ct := conn_type_for_command cmd in
  ct <> lk_conn_type (dm_link d) -> comes_back C P PM PI K w config ct k sn t (prepared ct d) u more ->
  exists d2, ensure_conn_type w config cmd None t d = (Done true, connected_at config sn (retried_at k t), d2) /\
    lk_conn_type (dm_link d2) = ct /\ restored C P PM w config ct k sn t (prepared ct d) more d2.
Proof.
  intros ct Hct Hb.
  destruct (reconnect_run C P PM PI K w config ct k sn t (prepared ct d) u more Hb) as (t' & es & d' & E & [_ ->] & _ & Hr).
  exists (with_link (mkLink es (lk_session (dm_link d')) ct (lk_service (dm_link d'))) d').
  unfold ensure_conn_type, bind at 1. cbn [get]. fold ct. rewrite decide_False by done.
  unfold prepared in *. unfold bind at 1. split; [|split; [reflexivity|]].
  - destruct (decide (ct = ConnTerminal)); cbn [ret modify]; unfold bind at 1, try; rewrite E; reflexivity.
  - by destruct Hr.
Qed.

(** The second attempt, and what the client is told when it fails as well. *)
Definition second_attempt (what : string) (cmd : M D SessionResponse) : M D SessionResponse :=
  let* r2 := try cmd in
  ret (match r2 with
       | Ok resp => resp
       | Err e => resp_error (what ++ " failed after reconnect: " ++ error_render e)%string
       end).

Lemma retry_run what cmd t d e t1 d1 k sn u more :
  cmd None t d = (Fail e, t1, d1) -> should_reconnect e = true ->
  let ct := lk_conn_type (dm_link d1) in
  comes_back C P PM PI K w config ct k sn t1 d1 u more ->
  exists d2, with_retry w config what cmd None t d =
      second_attempt what cmd None (connected_at config sn (retried_at k t1)) d2 /\
    lk_conn_type (dm_link d2) = ct /\ restored C P PM w config ct k sn t1 d1 more d2.
Proof.
  intros E He ct Hb.
  destruct (reconnect_run C P PM PI K w config ct k sn t1 d1 u more Hb) as (t' & es & d' & Er & [_ ->] & Hty & Hr).
  exists (with_stream es d'). split; [|by split]. unfold with_retry, bind at 1, try at 1. rewrite E, He.
  unfold bind at 1. cbn [get]. fold ct. unfold bind at 1, try at 1. rewrite Er. unfold bind at 1. cbn [modify].
  unfold second_attempt, bind, try. by destruct (cmd None (connected_at config sn (retried_at k t1)) (with_stream es d')) as [[[r|e2| | |] t2] d2].
Qed.

(** ** Executing a command on the daemon *)

Section exec.
Context (command : string) (timeout_secs : option Z) (sc : ExecScript) (payload : bytes) (flag : bool).
Abbreviation cmd := (CmdExec command timeout_secs).

(** The peer is ready to run the command sent at [t]. *)
Record peer_runs (t : Z) : Prop := {
  pr_script : script_ok Zs (w_nanos w t) timeout_secs sc t;
  pr_payload : terminal_payload (as_bytes (sent_command (w_nanos w t) command)) = Ok (payload, flag);
  pr_fits : Forall (fits PM) (exec_sends sc payload flag)
}.

Lemma exec_command_run rs t d :
  peer_runs t -> delivers_msgs C PM (script_msgs sc) (stream d) ->
  net_faults (es_inner (stream d)) = [] -> net_end (es_inner (stream d)) = Never -> wrote rs d ->
  exists d', run_command w cmd None t d =
      (Done (exec_answer (w_nanos w t) command sc), ended_at timeout_secs sc t, d') /\
    wrote (rs ++ map exec_output_chunk_response (pieces sc)) d' /\ lk_service (dm_link d') = None /\
    lk_session (dm_link d') = lk_session (dm_link d) /\ lk_conn_type (dm_link d') = lk_conn_type (dm_link d) /\
    has_sent C PM (stream d) (exec_sends sc payload flag) (stream d') /\
    delivers_msgs C PM (sc_rest sc) (stream d').
Proof.
  intros [Hok Hpay Hfit] Hd Hf He Hw.
  set (s0 := mkExecState (stream d) (lk_service (dm_link d)) (snd (dm_client d))).
  destruct (script_run C PM Zs (w_nanos w t) command timeout_secs true sc s0 payload flag Hpay Hfit t Hok)
    as (s' & E & [Hs Hi Hp] & Hd'); [|done|].
  { constructor; [by apply has_sent_nil|done|]. unfold passed. cbn. unfold wrote in Hw. rewrite Hw. cbn. by rewrite app_nil_r. }
  eexists. unfold run_command, bind at 1. cbn [now]. unfold on_exec, on_shell, in_exec, zoom. cbn [fst snd].
  fold s0. rewrite E. split; [reflexivity|]. cbn. rewrite Hi. split_and!; try done.
  unfold wrote. cbn. rewrite Hp. unfold passed, wrote in *. cbn. rewrite Hw. cbn. by rewrite map_app, map_map.
Qed.

(** The daemon once the command was run on the connection of the scene. *)
Record ran (ct : ConnType) (k : nat) (sn : Scene) (t : Z) (rs : list SessionResponse) (d0 d' : D) : Prop := {
  ra_client : wrote (rs ++ map exec_output_chunk_response (pieces sc) ++ [exec_answer (w_nanos w t) command sc]) d';
  ra_type : lk_conn_type (dm_link d') = ct;
  ra_service : lk_service (dm_link d') = None;
  ra_session : lk_session (dm_link d') = mkSession Connected (s_config (lk_session (dm_link d0)))
    (Some (peer_info_state (pr_info (sn_peer sn))));
  ra_sent : net_out (es_inner (stream d')) =
    scene_sends C P PM (w_rnd w ((dm_net d0).2 + k)) config ct
      (login_union_for_conn_type ct (lk_service (dm_link d0))) sn ++
    sealed_frames (rnd_session_key (w_rnd w ((dm_net d0).2 + k))) 1
      (sent_items PM (init_msgs ct ++ exec_sends sc payload flag));
  ra_rest : delivers_msgs C PM (sc_rest sc) (stream d')
}.

Abbreviation shown := (map exec_output_chunk_response (pieces sc)).

Lemma exec_on_new ct k sn t0 t rs d0 d more :
  peer_runs t -> pr_rest (sn_peer sn) = script_msgs sc -> lk_conn_type (dm_link d) = ct ->
  restored C P PM w config ct k sn t0 d0 more d -> wrote rs d0 ->
  let answer := exec_answer (w_nanos w t) command sc in
  exists d', run_command w cmd None t d = (Done answer, ended_at timeout_secs sc t, d') /\
    wrote (rs ++ shown) d' /\ ran ct k sn t rs d0 (replied ((rs ++ shown) ++ [answer]) d').
Proof.
  intros Hp Hrest Hct [Hss Hsv Ho Hk Hq Hf He _ Hd _ _ (_ & Hcl & _)] Hw answer. rewrite Hrest in Hd.
  destruct (exec_command_run rs t d Hp Hd Hf He ltac:(unfold wrote; by rewrite Hcl)) as
    (d' & E & Hw' & Hs' & Hss' & Hct' & [_ _ _ _ Hout] & Hd').
  exists d'. split_and!; [exact E|exact Hw'|]. constructor; try done.
  - unfold wrote, replied. cbn. by rewrite <- (assoc_L (++)).
  - cbn. by rewrite Hct'.
  - cbn. by rewrite Hss'.
  - cbn. rewrite Hout, Ho, Hk, Hq. unfold sent_items. rewrite map_app, sealed_frames_app. by rewrite <- (assoc_L (++)).
Qed.

(** A command that is answered, on the right connection. *)
Lemma serve_exec_run t d t1 d1 resp rs t2 d2 :
  ensure_conn_type w config cmd None t d = (Done true, t1, d1) ->
  with_retry w config (command_name cmd) (run_command w cmd) None t1 d1 = (Done resp, t2, d2) -> wrote rs d2 ->
  serve_command w config cmd None t d = (Done (inl tt), t2, replied (rs ++ [resp]) d2).
Proof.
  intros E1 E2 Hw. unfold serve_command, bind at 1. rewrite E1. cbn [negb]. unfold bind at 1. rewrite E2.
  unfold bind. by rewrite (reply_exact resp rs).
Qed.

Lemma exec_switches k sn t d u more :
  let t2 := connected_at config sn (retried_at k t) in
  lk_conn_type (dm_link d) <> ConnTerminal -> wrote [] d ->
  comes_back C P PM PI K w config ConnTerminal k sn t d u more ->
  pr_rest (sn_peer sn) = script_msgs sc -> peer_runs t2 ->
  exists d', serve_command w config cmd None t d = (Done (inl tt), ended_at timeout_secs sc t2, d') /\
    ran ConnTerminal k sn t2 [] d d'.
Proof.
  intros t2 Hct Hw Hb Hrest Hp.
  destruct (switch_run cmd k sn t d u more (not_eq_sym Hct) Hb) as (d2 & E2 & Hty & Hr).
  change (prepared (conn_type_for_command cmd) d) with d in Hr.
  destruct (exec_on_new ConnTerminal k sn t t2 [] d d2 more Hp Hrest Hty Hr Hw) as (d3 & E3 & Hw3 & Hran).
  eexists. split; [|exact Hran]. apply (serve_exec_run t d t2 d2); [exact E2| |exact Hw3].
  unfold with_retry, bind, try. by rewrite E3.
Qed.

Lemma exec_keeps_type t d o t1 d1 :
  run_command w cmd None t d = (o, t1, d1) -> lk_conn_type (dm_link d1) = lk_conn_type (dm_link d).
Proof.
  unfold run_command, bind at 1. cbn [now]. unfold on_exec, on_shell, in_exec, zoom. intros E.
  repeat case_match; by simplify_eq.
Qed.

Lemma exec_retries k sn t d e t1 d1 rs u more :
  let t2 := connected_at config sn (retried_at k t1) in
  lk_conn_type (dm_link d) = ConnTerminal ->
  run_command w cmd None t d = (Fail e, t1, d1) -> should_reconnect e = true -> wrote rs d1 ->
  comes_back C P PM PI K w config ConnTerminal k sn t1 d1 u more ->
  pr_rest (sn_peer sn) = script_msgs sc -> peer_runs t2 ->
  exists d', serve_command w config cmd None t d = (Done (inl tt), ended_at timeout_secs sc t2, d') /\
    ran ConnTerminal k sn t2 rs d1 d'.
Proof.
  intros t2 Hct E He Hw Hb Hrest Hp. pose proof (exec_keeps_type t d _ t1 d1 E) as Hct1. rewrite Hct in Hct1.
  destruct (retry_run (command_name cmd) (run_command w cmd) t d e t1 d1 k sn u more E He) as (d2 & E2 & Hty & Hr);
    [by rewrite Hct1|]. rewrite Hct1 in Hty, Hr.
  destruct (exec_on_new ConnTerminal k sn t1 t2 rs d1 d2 more Hp Hrest Hty Hr Hw) as (d3 & E3 & Hw3 & Hran).
  eexists. split; [|exact Hran]. apply (serve_exec_run t d t d); [|rewrite E2|exact Hw3].
  - unfold ensure_conn_type, bind. cbn [get conn_type_for_command]. by rewrite decide_True.
  - unfold second_attempt, bind, try. fold t2. by rewrite E3.
Qed.
End exec.
End retry.

(** C15: a command runs on a new connection.  A client's [exec] finds the daemon on a connection of another
    type, or loses the terminal connection while it runs.  When the network is there again after
    fewer than six attempts, the daemon connects to the peer as a terminal, with the service id it
    holds, and runs the command there: the client is told the pieces of output of that run and its
    answer, after what it was told of a first attempt; the peer on the new connection was sent the
    login and exactly the three messages of one run, under the next nonces; the session is connected
    with the peer's new details, no service id is kept, and the connection stays a terminal
    connection.  So a command whose first attempt had reached the peer is run a second time. *)
Theorem exec_on_new_connection (C : CryptoLib) (CL : CryptoLaws C) (P : ProtoCodec RendezvousMessage) (PL : ProtoLaws P)
    (PM : ProtoCodec Message) (PML : ProtoLaws PM) (PI : ProtoCodec IdPk) (K : ServerKeyLib) (Zs : Zstd)
    `{ImageLib Img} `{CommandLib} (w : World) config command timeout_secs sc payload flag
    k sn t (d : Daemon NetTransport) t1 d1 rs u more :
  let t2 := connected_at config sn (retried_at k t1) in
  (lk_conn_type (dm_link d) <> ConnTerminal /\ t1 = t /\ d1 = d /\ rs = [] \/
   lk_conn_type (dm_link d) = ConnTerminal /\
   exists e, run (run_command w (CmdExec command timeout_secs)) t d = (Fail e, t1, d1) /\ should_reconnect e = true) ->
  wrote rs d1 -> comes_back C P PM PI K w config ConnTerminal k sn t1 d1 u more ->
  pr_rest (sn_peer sn) = script_msgs sc ->
  peer_runs PM Zs w command timeout_secs sc payload flag t2 ->
  exists d', run (serve_command w config (CmdExec command timeout_secs)) t d =
      (Done (inl tt), ended_at timeout_secs sc t2, d') /\
    ran C P PM w config command sc payload flag ConnTerminal k sn t2 rs d1 d'.
Proof.
  intros t2 [(Hct & -> & -> & ->)|(Hct & e & E & He)] Hw Hb Hrest Hp.
  - by apply (exec_switches C P PM PI K Zs w config command timeout_secs sc payload flag k sn t d u more).
  - by apply (exec_retries C P PM PI K Zs w config command timeout_secs sc payload flag k sn t d e t1 d1 rs u more).
Qed.

(** *** Evaluating a retry *)

#[local] Instance toy_crypto_t : CryptoLib := toy_crypto.
#[local] Instance toy_messages_t : ProtoCodec Message := toy_codec MessageUnion.
#[local] Instance toy_rendezvous_t : ProtoCodec RendezvousMessage := toy_codec RendezvousUnion.
#[local] Instance toy_idpk_t : ProtoCodec IdPk := toy_idpk.
#[local] Instance toy_keys_t : ServerKeyLib := toy_keys.
#[local] Instance toy_zstd_t : Zstd := toy_zstd.
#[local] Instance toy_image_t : ImageLib (Z * Z) := toy_image.
#[local] Instance toy_commands_t : CommandLib := toy_commands.

Definition toy_steady_world : World :=
  mkWorld (fun _ => toy_random) (fun _ => Ok tt) (fun _ => toy_nanos) 4242 (fun _ => toy_file).
Definition toy_code : string := ("5" ++ String LF "$ ")%string.
(** The peer opens a terminal, shows the echo of the command, and its connection is reset. *)
Definition toy_cut_short : inbox :=
  [(20, terminal_msg (TROpened toy_opened)); (3000, terminal_msg (TRData (mkTerminalData 3 (as_bytes toy_echo) false)))].
Definition toy_again : ExecScript := toy_script_at 12500 toy_code [].
Definition toy_cut_daemon : Daemon NetTransport :=
  let u := mkNet (plain_inbox (toy_codec RendezvousUnion) (udp_inbox toy_servers_script)) Never [] [] false in
  let s := es_new (mkNet (sealed_arrivals [x01] 0 (wire_items toy_cut_short))
                     (ClosedAt 3200 (anyhow "connection reset by peer")) [] [] false) [x01] 0 in
  with_net (mkConnEnv u (scene_dials toy_crypto (toy_codec RendezvousUnion) (toy_codec MessageUnion) toy_random
                           (toy_scene_then (script_msgs toy_again)) []), O)
    (toy_daemon s ConnTerminal []).
Definition toy_lost : outcome SessionResponse * Z * Daemon NetTransport :=
  run (run_command toy_steady_world (CmdExec "ls" (Some 30))) 0 toy_cut_daemon.
Definition toy_lost_error : Error := match toy_lost.1.1 with Fail e => e | _ => anyhow "" end.


Lemma toy_again_sendable : Forall (fun i => sendable i.2) (wire_items (script_msgs toy_again)).
Proof. repeat (apply Forall_cons_2 || apply Forall_nil_2); first [exact I | vm_compute; congruence]. Qed.

Lemma toy_comes_back :
  comes_back toy_crypto (toy_codec RendezvousUnion) (toy_codec MessageUnion) toy_idpk toy_keys toy_steady_world toy_conn_config
    ConnTerminal 0 (toy_scene_then (script_msgs toy_again)) 3200 toy_lost.2
    (mkNet (plain_inbox (toy_codec RendezvousUnion) (udp_inbox toy_servers_script)) Never [] [] false) [].
Proof.
  constructor.
  - cbn. lia.
  - intros i Hi. lia.
  - reflexivity.
  - vm_compute. reflexivity.
  - reflexivity.
  - reflexivity.
  - apply toy_scene_then_ok; [by right|right; split; vm_compute; reflexivity|apply toy_again_sendable].
  - apply Forall_nil_2.
Qed.

(** The client sees the echo of both runs, and the answer of the second; the peer was sent the command
    on both connections. *)
Lemma exec_on_new_connection_witness :
  let rs := [exec_output_chunk_response (as_bytes toy_echo)] in
  exists d', run (serve_command toy_steady_world toy_conn_config (CmdExec "ls" (Some 30))) 0 toy_cut_daemon =
      (Done (inl tt), 15600, d') /\
    wrote (rs ++ map exec_output_chunk_response (pieces toy_again) ++
           [exec_answer toy_nanos "ls" toy_again]) d' /\
    length (net_out (es_inner (lk_stream (dm_link toy_lost.2)))) = 3%nat /\
    length (net_out (es_inner (lk_stream (dm_link d')))) = 6%nat.
Proof.
  intros rs.
  destruct (exec_on_new_connection toy_crypto toy_crypto_laws (toy_codec RendezvousUnion) (toy_codec_laws RendezvousUnion)
    (toy_codec MessageUnion) (toy_codec_laws MessageUnion) toy_idpk toy_keys toy_zstd toy_steady_world toy_conn_config "ls"
    (Some 30) toy_again (as_bytes (sent_command toy_nanos "ls")) false 0 (toy_scene_then (script_msgs toy_again)) 0
    toy_cut_daemon 3200 toy_lost.2 rs
    (mkNet (plain_inbox (toy_codec RendezvousUnion) (udp_inbox toy_servers_script)) Never [] [] false) [])
    as (d' & E & Hran).
  - right. split; [reflexivity|]. exists toy_lost_error. split; vm_compute; reflexivity.
  - vm_compute. reflexivity.
  - apply toy_comes_back.
  - reflexivity.
  - constructor.
    + change (connected_at toy_conn_config (toy_scene_then (script_msgs toy_again)) (retried_at 0 3200)) with 12500.
      apply toy_script_at_ok. vm_compute. by eexists.
    + vm_compute. reflexivity.
    + repeat (apply Forall_cons_2 || apply Forall_nil_2); vm_compute; congruence.
  - exists d'. split_and!.
    + exact E.
    + exact (ra_client _ _ _ _ _ _ _ _ _ _ _ _ _ _ _ _ Hran).
    + vm_compute. reflexivity.
    + rewrite (ra_sent _ _ _ _ _ _ _ _ _ _ _ _ _ _ _ _ Hran). vm_compute. reflexivity.
Defined.

(** A client that goes away makes its command run twice.  The peer and its connection are well, but the
    client's socket is closed when the first piece of output comes: the failed write to the client is
    taken for a lost connection, and the daemon connects anew and, behind the login, sends the command once more.  On
    neither connection is the terminal closed. *)
Example hangup_runs_twice :
  let gone := anyhow "Broken pipe (os error 32)" in
  let sends := take 2 (exec_sends toy_again (as_bytes (sent_command toy_nanos "ls")) false) in
  let d := with_client (mkUdsReader [] None, mkUdsWriter [] [Some gone; Some gone; Some gone])
             (with_stream (toy_stream (script_msgs (toy_script toy_code []))) toy_cut_daemon) in
  let first := run (run_command toy_steady_world (CmdExec "ls" (Some 30))) 0 d in
  let all := run (serve_command toy_steady_world toy_conn_config (CmdExec "ls" (Some 30))) 0 d in
  first.1 = (Fail gone, 3000) /\
  net_out (es_inner (lk_stream (dm_link first.2))) = sealed_frames [x01] 0 (sent_items (toy_codec MessageUnion) sends) /\
  all.1.1 = Done (inl tt) /\
  drop 3 (net_out (es_inner (lk_stream (dm_link all.2)))) =
    sealed_frames (rnd_session_key toy_random) 1 (sent_items (toy_codec MessageUnion) sends) /\
  uw_sent (dm_client all.2).2 = [].
Proof. repeat (split; [vm_compute; reflexivity|]). vm_compute. reflexivity. Qed.
