(* ===== verification/TextSession.v ===== *)
(** * Text sessions (src/text_session.rs)

    Connecting with a terminal, running a command until the terminal goes quiet, disconnecting. *)

From Stdlib Require Import ZArith Lia.
From Stdlib Require Import Strings.Byte Strings.Ascii Strings.String.
From stdpp Require Import base list option numbers.
From S2P Require Import Prelude RustStr Async Transport Crypto Proto Inbox Terminal Rendezvous Connection.

Local Open Scope Z_scope.
Local Open Scope async_scope.

Record TextSession (T : Type) : Type := mkTextSession {
  ts_peer_info : PeerInfo;
  ts_terminal : TerminalInfo;
  ts_encrypted : EncryptedStream T
}.
Arguments mkTextSession {T} _ _ _.
Arguments ts_peer_info {T} _.
Arguments ts_terminal {T} _.
Arguments ts_encrypted {T} _.

Record ExecOutput : Type := mkExecOutput {
  eo_data : bytes;
  eo_closed : option Z
}.

(** [ExecOutput::as_str] *)
Definition exec_output_as_str (o : ExecOutput) : string := from_utf8_lossy (eo_data o).

(** [ImageQuality::Low], [BoolOption::NotSet] *)
Definition ImageQuality_Low : Z := 2.
Definition BoolOption_NotSet : Z := 0.

(** The options of [send_option_message]; everything it does not name is at its default. *)
Definition text_option_message : OptionMessage :=
  mkOptionMessage ImageQuality_Low 0 BoolOption_Yes BoolOption_NotSet BoolOption_Yes BoolOption_Yes None [].

Section text.
Context {T : Type} `{Transport T} `{CryptoLib} `{ProtoCodec Message} `{Zstd} `{ProtoCodec IdPk}
  `{ProtoCodec RendezvousMessage} `{ServerKeyLib}.

(** [send_option_message] *)
Definition send_text_options : M (EncryptedStream T) unit :=
  context "sending OptionMessage" (es_send (encode (Some (UMisc (Some (MOption text_option_message)))))).

Definition text_connect (rnd : ConnRandom) (udp_socket : Res unit) (config : ConnConfig)
    : M (ConnEnv T) (TextSession T) :=
  let* '(peer_info, encrypted) := context "connection failed" (connect rnd udp_socket config) in
  let* '(_, encrypted) := locally encrypted send_text_options in
  let* '(terminal, encrypted) :=
    locally encrypted (context "failed to open terminal" (open_terminal 24 80)) in
  ret (mkTextSession peer_info terminal encrypted).

Definition on_session_stream {A} (m : M (EncryptedStream T) A) : M (TextSession T) A :=
  zoom ts_encrypted (fun x s => mkTextSession (ts_peer_info s) (ts_terminal s) x) m.

(** One round of collecting output. *)
Definition text_step (idle_timeout : Z) (output : ExecOutput)
    : M (EncryptedStream T) (ExecOutput + ExecOutput) :=
  let* r := timeout idle_timeout recv_terminal_data in
  match r with
  | Some (Ok (TData chunk)) => ret (inl (mkExecOutput (eo_data output ++ chunk) (eo_closed output)))
  | Some (Ok (TClosed exit_code)) => ret (inr (mkExecOutput (eo_data output) (Some exit_code)))
  | Some (Ok (TError msg)) => fail (anyhow ("terminal error during exec: " ++ msg)%string)
  | Some (Err e) => fail (add_context "receiving terminal output" e)
  | None => ret (inr output)
  end.

(** [command], with a newline at its end. *)
Definition text_command (command : string) : string :=
  if ends_with_char "010" command then command else (command ++ String "010" "")%string.

Definition text_exec (command : string) (idle_timeout : Z) : M (TextSession T) ExecOutput :=
  let* session := get in
  on_session_stream
    (context "sending command"
       (send_terminal_data (ti_terminal_id (ts_terminal session)) (as_bytes (text_command command)))) ;;;
  on_session_stream (loop es_pending (text_step idle_timeout) (mkExecOutput [] None)).

Definition text_disconnect : M (TextSession T) unit :=
  let* session := get in
  on_session_stream
    (context "closing terminal" (close_terminal (ti_terminal_id (ts_terminal session)))) ;;;
  on_session_stream (context "closing transport" es_close).
End text.

(** ** Collecting output *)

(** How long a round waits: the idle timeout, or the terminal layer's own timeout. *)
Definition patience (idle : Z) : Z := Z.min idle TERMINAL_RESPONSE_TIMEOUT.

Section collect.
Context (C : CryptoLib) {L : CryptoLaws C} (P : ProtoCodec Message) {PL : ProtoLaws P} (Zs : Zstd).
Abbreviation S_ := (EncryptedStream NetTransport).
Context (I : S_ -> Prop) (HI : forall i l t s, I s -> I (after_recv C i l t s)).

Definition add_data (o : ExecOutput) (data : bytes) : ExecOutput :=
  mkExecOutput (eo_data o ++ data) (eo_closed o).

(** A response in time ends the wait of a round. *)
Lemma text_recv_response idle noise a r rest t s :
  terminal_noise (t + patience idle) noise -> a <= t + patience idle ->
  delivers_msgs C P (noise ++ (a, Some (Some (UTerminalResponse (Some r)))) :: rest) s -> I s ->
  exists s', recv_terminal_response TERMINAL_RESPONSE_TIMEOUT (Some (t + idle)) t s =
      (Done r, Z.max (arrival t noise) a, s') /\ delivers_msgs C P rest s' /\ I s'.
Proof.
  intros Hn Ha Hd HIs. unfold patience in *.
  apply (recv_terminal_response_at C P I (Some (t + idle)) TERMINAL_RESPONSE_TIMEOUT noise a r rest t s HI);
    try done; by rewrite Z.add_min_distr_l.
Qed.

Lemma text_step_chunk idle out c data rest t s :
  by_time (t + patience idle) c -> terminal_data (ck_data c) = Ok data -> True ->
  delivers_msgs C P (chunk_msgs c ++ rest) s -> I s ->
  exists s', text_step idle out None t s = (Done (inl (add_data out data)), chunk_clock t c, s') /\
    delivers_msgs C P rest s' /\ I s'.
Proof.
  intros Hc Hx _ Hd HIs. unfold patience in Hc. rewrite <- Z.add_min_distr_l in Hc.
  destruct (recv_data_chunk C P Zs I (Some (t + idle)) TERMINAL_RESPONSE_TIMEOUT c data rest t s HI Hc Hx Hd HIs)
    as (s' & E & Hd' & HI').
  exists s'. split; [|done]. unfold text_step, timeout, recv_terminal_data, bind. by rewrite E.
Qed.

Lemma add_datas out datas : foldl add_data out datas = add_data out (concat datas).
Proof.
  revert out. induction datas as [|d l IH]; intros out; unfold add_data; cbn.
  - rewrite app_nil_r. by destruct out.
  - rewrite IH. unfold add_data. cbn. by rewrite <- app_assoc.
Qed.

(** The whole loop, up to the round after the last piece. *)
Lemma text_loop_run idle l datas rest t s :
  paced (patience idle) t l -> chunk_texts Zs l datas ->
  delivers_msgs C P (concat (map chunk_msgs l) ++ rest) s -> I s ->
  exists s' fuel, loop es_pending (text_step idle) (mkExecOutput [] None) None t s =
      iter (S fuel) (text_step idle) (mkExecOutput (concat datas) None) None (clock_after t l) s' /\
    delivers_msgs C P rest s' /\ I s'.
Proof.
  intros Hp Hx Hd HIs.
  destruct (loop_chunks C P Zs (fun s => s) (text_step idle) add_data _ (fun _ _ => True) (fun _ _ => I)
    (fun _ => text_step_chunk idle) es_pending l datas rest t s (mkExecOutput [] None)) as (s' & fuel & E & _ & Hd' & HI');
    try done.
  { clear. generalize (mkExecOutput [] None). by induction datas; cbn. }
  rewrite add_datas in E. eauto.
Qed.
End collect.

(** ** Running a command *)

Section run_command.
Context (C : CryptoLib) {L : CryptoLaws C} (P : ProtoCodec Message) {PL : ProtoLaws P} (Zs : Zstd).
Context (command : string) (idle t : Z) (ts : TextSession NetTransport) (l : list Chunk) (datas : list bytes)
  (rest : inbox).

(** The command goes out on a working connection, and the pieces of its output come in time. *)
Record command_runs : Prop := {
  cr_idle : 0 <= idle;
  cr_faults : net_faults (es_inner (ts_encrypted ts)) = [];
  cr_payload : exists payload flag,
    terminal_payload (as_bytes (text_command command)) = Ok (payload, flag) /\
    Z.of_nat (length (encode (Some (UTerminalAction (Some (TAData
      (mkTerminalData (ti_terminal_id (ts_terminal ts)) payload flag))))))) + 16 <= max_frame;
  cr_end : net_end (es_inner (ts_encrypted ts)) = Never;
  cr_paced : paced (patience idle) t l;
  cr_data : chunk_texts Zs l datas;
  cr_inbox : delivers_msgs C P (concat (map chunk_msgs l) ++ rest) (ts_encrypted ts)
}.

Definition waits_on (s : EncryptedStream NetTransport) : Prop := net_end (es_inner s) = Never.
Definition keeps_session (ts' : TextSession NetTransport) : Prop :=
  ts_peer_info ts' = ts_peer_info ts /\ ts_terminal ts' = ts_terminal ts.

(** The state of the session when the last piece has come. *)
Lemma text_exec_chunks :
  command_runs ->
  exists s' fuel, delivers_msgs C P rest s' /\ waits_on s' /\
    forall o t' s2,
      iter (S fuel) (text_step idle) (mkExecOutput (concat datas) None) None (clock_after t l) s' = (o, t', s2) ->
      exists ts', run (text_exec command idle) t ts = (o, t', ts') /\ keeps_session ts' /\ ts_encrypted ts' = s2.
Proof.
  intros [Hi Hf (payload & flag & Hp & Hl) He Hpace Hx Hd].
  set (s := ts_encrypted ts) in *. set (tid := ti_terminal_id (ts_terminal ts)) in *.
  set (out := encode (Some (UTerminalAction (Some (TAData (mkTerminalData tid payload flag)))))) in *.
  set (s1 := set_inner (net_sent (sealed_frames (es_key s) (send_seq s) [Some out]) (es_inner s))
               (set_send_seq (wrap 64 (send_seq s + 1)) s)).
  assert (delivers_msgs C P (concat (map chunk_msgs l) ++ rest) s1) as Hd1 by (by eapply delivers_same_inbox).
  destruct (text_loop_run C P Zs waits_on ltac:(done) idle l datas rest t s1 Hpace Hx Hd1 He)
    as (s' & fuel & E & Hd' & Hw). exists s', fuel. split_and!; [done..|]. intros o t' s2 Eo.
  rewrite Eo in E. exists (mkTextSession (ts_peer_info ts) (ts_terminal ts) s2). split; [|done].
  unfold run, text_exec, bind at 1. cbn [get]. unfold bind at 1, on_session_stream at 1, zoom at 1.
  unfold context at 1, send_terminal_data, bind at 1. fold s tid. rewrite Hp. cbn [lift ret].
  unfold context at 1, send_action. fold out. rewrite es_send_run by done. cbn beta iota.
  unfold on_session_stream, zoom. cbn [ts_encrypted]. fold s1. by rewrite E.
Qed.
End run_command.

(** ** Properties of text sessions *)

(** C30: a command's output is collected whole.  When the pieces of output come within the idle timeout
    of each other (and of the sending), [text_exec] returns exactly their concatenation: at the
    moment the terminal closes, with its exit code, or, when the terminal goes quiet, one idle
    timeout after the last piece, provided that timeout is shorter than fifteen seconds. *)
Theorem text_exec_collects (C : CryptoLib) (L : CryptoLaws C) (P : ProtoCodec Message) (PL : ProtoLaws P)
    (Zs : Zstd) command idle t (ts : TextSession NetTransport) l datas noise rest :
  command_runs C P Zs command idle t ts l datas (noise ++ rest) ->
  let t1 := clock_after t l in
  (forall a tid code more, rest = (a, Some (Some (UTerminalResponse (Some (TRClosed tid code))))) :: more ->
     terminal_noise (t1 + patience idle) noise -> a <= t1 + patience idle ->
     exists ts', run (text_exec command idle) t ts =
       (Done (mkExecOutput (concat datas) (Some code)), Z.max (arrival t1 noise) a, ts')) /\
  (idle < 15000 -> terminal_noise (t1 + idle) noise ->
     match rest with [] => True | (a, _) :: _ => t1 + idle < a end ->
     exists ts', run (text_exec command idle) t ts =
       (Done (mkExecOutput (concat datas) None), t1 + idle, ts')).
Proof.
  intros Hr t1. pose proof (cr_idle _ _ _ _ _ _ _ _ _ _ Hr) as Hi.
  destruct (text_exec_chunks C P Zs command idle t ts l datas (noise ++ rest) Hr) as (s & fuel & Hd & Hw & Hk).
  split.
  - intros a tid code more -> Hn Ha.
    destruct (text_recv_response C P waits_on ltac:(done) idle noise a _ more t1 s Hn Ha Hd Hw) as (s' & E & _ & _).
    destruct (Hk (Done (mkExecOutput (concat datas) (Some code))) (Z.max (arrival t1 noise) a) s')
      as (ts' & Hrun & _); [|by exists ts'].
    rewrite iter_S. unfold bind at 1, text_step at 1, bind at 1, timeout, recv_terminal_data,
      recv_terminal_data_with_timeout, bind at 1, context. fold t1. by rewrite E.
  - intros Hlt Hn Hlate.
    destruct (recv_terminal_response_cut C P waits_on TERMINAL_RESPONSE_TIMEOUT (t1 + idle) noise rest t1 s)
      as (s' & E & _ & _); try done; [lia|unfold TERMINAL_RESPONSE_TIMEOUT; lia|].
    destruct (Hk (Done (mkExecOutput (concat datas) None)) (t1 + idle) s') as (ts' & Hrun & _); [|by exists ts'].
    rewrite iter_S. unfold bind at 1, text_step at 1, bind at 1, timeout, recv_terminal_data,
      recv_terminal_data_with_timeout, bind at 1, context. fold t1. by rewrite E, Z.leb_refl.
Qed.

(** A patient caller loses the output.  With an idle timeout of fifteen seconds or more the receive
    timeout of the terminal layer fires first: when the terminal goes quiet, as it does after every
    command that leaves the shell running, [text_exec] fails fifteen seconds after the last piece
    and the output collected so far is gone. *)
Theorem text_exec_long_idle_fails (C : CryptoLib) (L : CryptoLaws C) (P : ProtoCodec Message) (PL : ProtoLaws P)
    (Zs : Zstd) command idle t (ts : TextSession NetTransport) l datas noise rest :
  command_runs C P Zs command idle t ts l datas (noise ++ rest) ->
  let t1 := clock_after t l in
  15000 <= idle -> terminal_noise (t1 + 15000) noise ->
  match rest with [] => True | (a, _) :: _ => t1 + 15000 < a end ->
  exists ts', run (text_exec command idle) t ts =
    (Fail ["receiving terminal output"; "receiving terminal data";
           "timed out waiting for TerminalResponse after 15s"]%string, t1 + 15000, ts').
Proof.
  intros Hr t1 Hge Hn Hlate.
  destruct (text_exec_chunks C P Zs command idle t ts l datas (noise ++ rest) Hr) as (s & fuel & Hd & Hw & Hk).
  destruct (recv_terminal_response_times_out C P TERMINAL_RESPONSE_TIMEOUT noise rest t1 s ltac:(done) Hn Hlate
    Hd Hw (Some (t1 + idle))) as (s' & E & _); [unfold TERMINAL_RESPONSE_TIMEOUT; lia|].
  destruct (Hk (Fail ["receiving terminal output"; "receiving terminal data";
    "timed out waiting for TerminalResponse after 15s"]%string) (t1 + 15000) s') as (ts' & Hrun & _); [|by exists ts'].
  rewrite iter_S. unfold bind at 1, text_step at 1, bind at 1, timeout, recv_terminal_data,
    recv_terminal_data_with_timeout, bind at 1, context. fold t1. by rewrite E.
Qed.

(** A session with a terminal, its peer's answers to come. *)
Definition toy_session (l : inbox) : TextSession NetTransport :=
  mkTextSession toy_info (mkTerminalInfo 3 42 "svc")
    (es_new (mkNet (@sealed_arrivals toy_crypto [x01] 0 (@wire_items (toy_codec MessageUnion) l)) Never [] [] false)
       [x01] 0).
Definition toy_output : list Chunk :=
  [mkChunk [(5, None)] 10 (mkTerminalData 3 [x61; x62] false); mkChunk [] 90 (mkTerminalData 3 [x63] false)].

Lemma toy_command_runs idle :
  0 <= idle -> 100 <= patience idle ->
  command_runs toy_crypto (toy_codec MessageUnion) toy_zstd "ls" idle 0
    (toy_session (concat (map chunk_msgs toy_output))) toy_output [[x61; x62]; [x63]] ([] ++ []).
Proof.
  intros Hi Hp. constructor; try done.
  - eexists _, _. split; [reflexivity|]. vm_compute. congruence.
  - cbn. unfold chunk_clock. cbn. repeat split; try lia; repeat constructor; cbn; lia.
  - repeat constructor.
  - split; [vm_compute; reflexivity|]. repeat constructor; vm_compute; congruence.
Defined.

Lemma text_exec_collects_witness :
  exists ts', run (@text_exec _ _ toy_crypto (toy_codec MessageUnion) toy_zstd "ls" 200) 0
    (toy_session (concat (map chunk_msgs toy_output))) =
    (Done (mkExecOutput [x61; x62; x63] None), 290, ts').
Proof.
  destruct (text_exec_collects toy_crypto toy_crypto_laws (toy_codec MessageUnion) (toy_codec_laws MessageUnion)
    toy_zstd "ls" 200 0 _ toy_output [[x61; x62]; [x63]] [] []
    (toy_command_runs 200 ltac:(lia) ltac:(vm_compute; congruence))) as [_ H].
  apply H; [lia|constructor|exact I].
Defined.

Lemma text_exec_long_idle_fails_witness :
  exists ts', run (@text_exec _ _ toy_crypto (toy_codec MessageUnion) toy_zstd "ls" 20000) 0
    (toy_session (concat (map chunk_msgs toy_output))) =
    (Fail ["receiving terminal output"; "receiving terminal data";
           "timed out waiting for TerminalResponse after 15s"]%string, 15090, ts').
Proof.
  apply (text_exec_long_idle_fails toy_crypto toy_crypto_laws (toy_codec MessageUnion)
    (toy_codec_laws MessageUnion) toy_zstd "ls" 20000 0 _ toy_output [[x61; x62]; [x63]] [] []
    (toy_command_runs 20000 ltac:(lia) ltac:(vm_compute; congruence))); [lia|constructor|exact I].
Defined.
