(* ===== verification/Direct.v ===== *)
(** * One-shot connections without the daemon (src/main.rs, src/terminal.rs)

    The configuration of a direct connection, [direct_exec], [direct_push], [connect_terminal] and
    the interactive terminal session. *)

From Stdlib Require Import ZArith Lia.
From Stdlib Require Import Strings.Byte Strings.Ascii Strings.String.
From stdpp Require Import base list option numbers.
From S2P Require Import Prelude RustStr Async Transport Crypto Proto Inbox Terminal FileTransfer.
From S2P Require Import Rendezvous Connection Json Session Exec Daemon.

Local Open Scope Z_scope.
Local Open Scope async_scope.

(** ** Configuration *)

(** The relay's host, and the port below the relay's when that is a port. *)
Definition infer_id_server_from_relay (relay : string) : string :=
  let port := match rsplit_once ":" relay with
              | Some (_, port) => Z.max 0 <$> ((fun p => p - 1) <$> parse_u16 port)
              | None => None
              end in
  let port := match port with Some p => if 0 <? p then p else 21116 | None => 21116 end in
  (host_of relay ++ ":" ++ show_Z port)%string.

Definition build_direct_connection_config (peer : string)
    (pw server id_srv relay_srv key : option string) : ConnConfig :=
  let id :=
    match id_srv with
    | Some s => s
    | None => match server with
              | Some s => (host_of s ++ ":21116")%string
              | None => match relay_srv with
                        | Some s => infer_id_server_from_relay s
                        | None => "localhost:21116"%string
                        end
              end
    end in
  let relay :=
    match relay_srv with
    | Some s => s
    | None => match server with
              | Some s => (host_of s ++ ":21117")%string
              | None => "localhost:21117"%string
              end
    end in
  mkConnConfig id relay (default ""%string key) peer (default ""%string pw) 2.

Definition MAX_EXEC_TIMEOUT_SECS : Z := 3600.
(** [exec_timeout_duration], in milliseconds *)
Definition exec_timeout_duration (timeout_secs : Z) : Z := 1000 * Z.min timeout_secs MAX_EXEC_TIMEOUT_SECS.

Section direct.
Context {T : Type} `{Transport T} `{CryptoLib} `{ProtoCodec Message} `{Zstd} `{ProtoCodec IdPk}
  `{ProtoCodec RendezvousMessage} `{ServerKeyLib}.

(** ** Executing a command *)

(** One round of the prompt drain; [inr (Some code)] when the terminal closed. *)
Definition direct_drain_step (tid : Z) (_ : unit) : M (EncryptedStream T) (unit + option Z) :=
  let* r := try (recv_terminal_data_with_timeout 500) in
  match r with
  | Ok (TData _) => ret (inl tt)
  | Ok (TClosed exit_code) => ret (inr (Some exit_code))
  | Ok (TError msg) =>
    quietly (close_terminal tid) ;;;
    fail (anyhow ("terminal error during prompt drain: " ++ msg)%string)
  | Err e =>
    if is_terminal_response_timeout e then ret (inr None)
    else quietly (close_terminal tid) ;;;
         fail (anyhow ("recv error during prompt drain: " ++ error_render e)%string)
  end.

(** One round of collecting: [inr (inl r)] ends the command with [r], [inr (inr (b, timed_out))]
    ends the collection. *)
Definition direct_collect_step (sentinel : string) (tid deadline : Z) (collected : bytes)
    : M (EncryptedStream T) (bytes + (string * Z * bool + bytes * bool)) :=
  let* t := now in
  let remaining := Z.max 0 (deadline - t) in
  if remaining =? 0 then ret (inr (inr (collected, true)))
  else
    let* r := try (recv_terminal_data_with_timeout remaining) in
    match r with
    | Ok (TData data) =>
      let collected := collected ++ data in
      match find_sentinel_output (from_utf8_lossy collected) sentinel with
      | Some _ => ret (inr (inr (collected, false)))
      | None => ret (inl collected)
      end
    | Ok (TClosed exit_code) =>
      let stdout := trim (from_utf8_lossy collected) in
      quietly (close_terminal tid) ;;;
      ret (inr (inl (stdout, exit_code, false)))
    | Ok (TError msg) =>
      quietly (close_terminal tid) ;;;
      fail (anyhow ("terminal error during exec: " ++ msg)%string)
    | Err e =>
      if is_terminal_response_timeout e then ret (inr (inr (collected, true)))
      else quietly (close_terminal tid) ;;;
           fail (anyhow ("recv error during exec: " ++ error_render e)%string)
    end.

(** [direct_exec] on its connection, at a given clock reading in nanoseconds. *)
Definition direct_exec_session (nanos : Z) (timeout_secs : Z) (command : string)
    : M (EncryptedStream T) (string * Z * bool) :=
  let* info := timeout_or 15000 (anyhow "terminal open timed out") (open_terminal 24 80) in
  let tid := ti_terminal_id info in
  let* closed := loop es_pending (direct_drain_step tid) tt in
  match closed with
  | Some exit_code => ret (""%string, exit_code, false)
  | None =>
    let sentinel := exec_sentinel nanos in
    let wrapped := (command ++ String LF "" ++ "echo '" ++ sentinel ++ "'$?" ++ String LF "")%string in
    send_terminal_data tid (as_bytes wrapped) ;;;
    let* t := now in
    let deadline := t + exec_timeout_duration timeout_secs in
    let* outcome := loop es_pending (direct_collect_step sentinel tid deadline) [] in
    match outcome with
    | inl r => ret r
    | inr (collected, timed_out) =>
      quietly (close_terminal tid) ;;;
      quietly es_close ;;;
      let '(stdout, exit_code) := parse_direct_exec_output (from_utf8_lossy collected) sentinel in
      ret (stdout, exit_code, timed_out)
    end
  end.

(** [direct_exec] *)
Definition direct_exec (rnd : ConnRandom) (udp_socket : Res unit) (nanos : Z) (config : ConnConfig)
    (timeout_secs : Z) (command : string) : M (ConnEnv T) (string * Z * bool) :=
  let* '(_, encrypted) :=
    timeout_or (exec_timeout_duration timeout_secs)
      (anyhow ("direct exec timed out after " ++ show_Z timeout_secs ++ "s")%string)
      (connect_with_mode rnd udp_socket config ConnTerminal (Some (LTerminal ""%string))) in
  let* '(r, _) := locally encrypted (direct_exec_session nanos timeout_secs command) in
  ret r.

(** ** Pushing a file *)

(** The stream, and the progress shown so far. *)
Definition PushState : Type := EncryptedStream T * list PushProgress.
Definition on_push {A} (m : M (EncryptedStream T) A) : M PushState A := zoom fst (fun x s => (x, s.2)) m.

Definition render_push_progress (json_mode : bool) (p : PushProgress) : M PushState unit :=
  if json_mode then ret tt else modify (fun s => (s.1, s.2 ++ [p])).

Definition direct_push_step (json_mode : bool) (_ : unit) : M (PushTransfer * PushState) (unit + unit) :=
  let* more := zoom (fun st => (st.1, st.2.1)) (fun x st => (x.1, (x.2, st.2.2))) send_next_block in
  if (more : bool) then
    let* st := get in
    zoom snd (fun x st => (st.1, x)) (render_push_progress json_mode (progress st.1)) ;;;
    ret (inl tt)
  else ret (inr tt).

Definition direct_push_left (st : PushTransfer * PushState) : nat :=
  length (fh_content (pt_file st.1)) - fh_pos (pt_file st.1).

Definition direct_push_session (lf : LocalFile) (nanos : Z) (local_path remote_path : string)
    (json_mode : bool) : M PushState PushResult :=
  let* transfer := on_push (begin_push lf nanos local_path remote_path) in
  render_push_progress json_mode (progress transfer) ;;;
  let* '(_, transfer) := threaded transfer (loop direct_push_left (direct_push_step json_mode) tt) in
  on_push (wait_for_done transfer) ;;;
  let result := push_result transfer in
  on_push (quietly es_close) ;;;
  ret result.

(** [direct_push]: (sent, total, resumed) bytes. *)
Definition direct_push (rnd : ConnRandom) (udp_socket : Res unit) (lf : LocalFile) (nanos : Z)
    (config : ConnConfig) (timeout_secs : Z) (local_path remote_path : string) (json_mode : bool)
    : M (ConnEnv T * list PushProgress) (Z * Z * Z) :=
  let* remote_dir := lift (remote_target_dir remote_path local_path) in
  let* '(_, encrypted) := zoom fst (fun x s => (x, s.2))
    (timeout_or (1000 * timeout_secs)
       (anyhow ("direct push timed out after " ++ show_Z timeout_secs ++ "s")%string)
       (connect_with_mode rnd udp_socket config ConnFileTransfer (Some (LFileTransfer remote_dir false)))) in
  let* '(result, _) := zoom snd (fun x s => (s.1, x))
    (threaded encrypted (direct_push_session lf nanos local_path remote_path json_mode)) in
  ret (pr_sent_bytes result, pr_total_bytes result, pr_resumed_bytes result).

(** ** The interactive terminal *)

(** [connect_terminal], given the environment variables LINES and COLUMNS. *)
Definition connect_terminal (rnd : ConnRandom) (udp_socket : Res unit) (config : ConnConfig)
    (lines columns : option string) : M (ConnEnv T) (PeerInfo * TerminalInfo * EncryptedStream T) :=
  let* '(peer_info, encrypted) :=
    connect_with_mode rnd udp_socket config ConnTerminal (Some (LTerminal ""%string)) in
  let* '(terminal_info, encrypted) := locally encrypted (settle_terminal lines columns) in
  ret (peer_info, terminal_info, encrypted).

(** The local terminal: what the stdin task puts into its channel and when, when it ends, what was
    written to stdout, and what the coming writes and flushes do. *)
Record LocalTerm : Type := mkLocalTerm {
  lt_stdin : list (Z * bytes);
  lt_eof : option Z;
  lt_stdout : list bytes;
  lt_faults : list (option Error)
}.
Definition TermState : Type := EncryptedStream T * LocalTerm.
Definition on_remote {A} (m : M (EncryptedStream T) A) : M TermState A := zoom fst (fun x s => (x, s.2)) m.

(** A call on stdout: it fails with the next fault or does its work. *)
Definition stdout_call (f : LocalTerm -> LocalTerm) : M LocalTerm unit := fun _ t s =>
  match lt_faults s with
  | Some e :: fs => (Fail e, t, mkLocalTerm (lt_stdin s) (lt_eof s) (lt_stdout s) fs)
  | fs => (Done tt, t, f (mkLocalTerm (lt_stdin s) (lt_eof s) (lt_stdout s) (tail fs)))
  end.
Definition print_data (data : bytes) (s : LocalTerm) : LocalTerm :=
  mkLocalTerm (lt_stdin s) (lt_eof s) (lt_stdout s ++ [data]) (lt_faults s).

(** When [stdin_rx.recv()] is ready next. *)
Definition stdin_at (s : LocalTerm) : option Z :=
  match lt_stdin s with (a, _) :: _ => Some a | [] => lt_eof s end.

(** One turn of the loop; [inr] leaves it.  When both are ready the terminal goes first. *)
Definition terminal_step (tid : Z) (_ : unit) : M TermState (unit + unit) :=
  let* st := get in
  let* event := match stdin_at st.2 with
                | Some a => race a (on_remote recv_terminal_data)
                | None => let* r := try (on_remote recv_terminal_data) in ret (Some r)
                end in
  match event with
  | None =>
    match lt_stdin st.2 with
    | (_, data) :: rest =>
      modify (fun st => (st.1, mkLocalTerm rest (lt_eof st.2) (lt_stdout st.2) (lt_faults st.2))) ;;;
      on_remote (send_terminal_data tid data) ;;;
      ret (inl tt)
    | [] => on_remote (quietly (close_terminal tid)) ;;; ret (inr tt)
    end
  | Some (Ok (TData data)) =>
    zoom snd (fun x st => (st.1, x))
      (context "writing terminal stdout" (stdout_call (print_data data)) ;;;
       context "flushing terminal stdout" (stdout_call id)) ;;;
    ret (inl tt)
  | Some (Ok (TClosed _)) => ret (inr tt)
  | Some (Ok (TError msg)) => fail (anyhow ("terminal error: " ++ msg)%string)
  | Some (Err e) => fail (add_context "receiving terminal output" e)
  end.

Definition terminal_left (st : TermState) : nat := length (lt_stdin st.2) + es_pending st.1.

(** [run_terminal_session] *)
Definition run_terminal_session (rnd : ConnRandom) (udp_socket : Res unit) (config : ConnConfig)
    (lines columns : option string) : M (ConnEnv T * LocalTerm) unit :=
  let* '(_, info, encrypted) := zoom fst (fun x s => (x, s.2))
    (connect_terminal rnd udp_socket config lines columns) in
  let* _ := zoom snd (fun x s => (s.1, x))
    (threaded encrypted (loop terminal_left (terminal_step (ti_terminal_id info)) tt)) in
  ret tt.
End direct.

(** ** The connection flow under a deadline *)

Lemma timely_instant {S A} (m : M S A) : instant m -> timely m.
Proof.
  intros Hm. timely_start. specialize (Hm (Some d) t s). destruct (m (Some d) t s) as [[[a|e| | |] t'] s']; lia.
Qed.
Lemma spinless_instant {S A} (m : M S A) : instant m -> spinless m.
Proof. intros Hm dl t s. specialize (Hm dl t s). by destruct (m dl t s) as [[[a|e| | |] t'] s']. Qed.

(** A computation that is both. *)
Definition bounded {S A} (m : M S A) : Prop := timely m /\ spinless m.

Lemma bounded_instant {S A} (m : M S A) : instant m -> bounded m.
Proof. intros Hm. split; [by apply timely_instant|by apply spinless_instant]. Qed.
Lemma bounded_bind {S A B} (m : M S A) (f : A -> M S B) :
  bounded m -> (forall a, bounded (f a)) -> bounded (bind m f).
Proof.
  intros [H1 H2] Hf. split; [apply timely_bind|apply spinless_bind]; auto; intros a; apply Hf.
Qed.
Lemma bounded_try {S A} (m : M S A) : bounded m -> bounded (try m).
Proof. intros []. split; [by apply timely_try|by apply spinless_try]. Qed.
Lemma bounded_context {S A} c (m : M S A) : bounded m -> bounded (context c m).
Proof. intros []. split; [by apply timely_context|by apply spinless_context]. Qed.
Lemma bounded_timeout {S A} d (m : M S A) : 0 <= d -> bounded m -> bounded (timeout d m).
Proof. intros Hd []. split; [by apply timely_timeout|by apply spinless_timeout]. Qed.
Lemma bounded_zoom {S T A} g p (m : M T A) : bounded m -> bounded (@zoom S T A g p m).
Proof. intros []. split; [by apply timely_zoom|by apply spinless_zoom]. Qed.
Lemma bounded_loop {S St A} (meas : S -> nat) (body : St -> M S (St + A)) x :
  (forall x, bounded (body x)) ->
  (forall x dl t s x' t' s', body x dl t s = (Done (inl x'), t', s') -> (meas s' < meas s)%nat) ->
  bounded (loop meas body x).
Proof.
  intros Hb Hm. split; [apply timely_loop; intros; apply Hb|apply spinless_loop; [intros; apply Hb|done]].
Qed.
Lemma bounded_own {T S A} (x : S) (m : M S A) : bounded m -> bounded (@on_own T S A x m).
Proof.
  intros [H1 H2]. split.
  - timely_start. unfold on_own. specialize (H1 d t x ltac:(lia)).
    by destruct (m (Some d) t x) as [[[a|e| | |] t'] x'].
  - intros dl t s. unfold on_own. specialize (H2 dl t x). by destruct (m dl t x) as [[[a|e| | |] t'] x'].
Qed.
Lemma bounded_locally {S X A} (x : X) (m : M X A) : bounded m -> bounded (@locally S X A x m).
Proof.
  intros [H1 H2]. split.
  - timely_start. unfold locally. specialize (H1 d t x ltac:(lia)).
    by destruct (m (Some d) t x) as [[[a|e| | |] t'] x'].
  - intros dl t s. unfold locally. specialize (H2 dl t x). by destruct (m dl t x) as [[[a|e| | |] t'] x'].
Qed.
Lemma bounded_stream {T A} key (m : M (EncryptedStream T) A) : bounded m -> bounded (over_stream key m).
Proof.
  intros [H1 H2]. split.
  - timely_start. unfold over_stream. specialize (H1 d t (es_new s key t) ltac:(lia)).
    by destruct (m (Some d) t (es_new s key t)) as [[[a|e| | |] t'] x'].
  - intros dl t s. unfold over_stream. specialize (H2 dl t (es_new s key t)).
    by destruct (m dl t (es_new s key t)) as [[[a|e| | |] t'] x'].
Qed.

Section connect_bounds.
Context (C : CryptoLib) (P : ProtoCodec Message) (PI : ProtoCodec IdPk) (PR : ProtoCodec RendezvousMessage)
  (K : ServerKeyLib).
Abbreviation N := NetTransport.

Lemma bounded_send b : bounded (t_send b : M N unit).
Proof. split; [apply send_timely|apply send_spinless]. Qed.
Lemma bounded_recv : bounded (t_recv : M N bytes).
Proof. split; [apply recv_timely|apply recv_spinless]. Qed.
Lemma bounded_sleep {S} d : bounded (@sleep S d).
Proof. split; [apply timely_sleep|apply spinless_sleep]. Qed.
Lemma bounded_wait {S} d : bounded (@wait_until S d).
Proof. split; [apply timely_wait_until|apply spinless_wait_until]. Qed.
Lemma bounded_es_recv : bounded (es_recv : M (EncryptedStream N) bytes).
Proof. split; [apply es_recv_timely|apply es_recv_spinless]. Qed.
Lemma bounded_es_send b : bounded (es_send b : M (EncryptedStream N) unit).
Proof. split; [apply es_send_timely|apply es_send_spinless]. Qed.
Lemma bounded_link_recv : bounded (link_recv : M (TcpLink N) bytes).
Proof. split; [apply link_recv_timely|apply link_recv_spinless]. Qed.

Lemma bounded_recv_within {S} (recv : M S bytes) d c1 c2 :
  0 <= d -> bounded recv -> bounded (recv_within recv d c1 c2).
Proof.
  intros Hd Hr. apply bounded_bind; [by apply bounded_timeout|].
  intros [[raw|e]|]; apply bounded_instant; auto with instant.
Qed.

Ltac bounded_step :=
  first
    [ solve [apply bounded_instant; auto with instant]
    | apply bounded_send | apply bounded_recv | apply bounded_es_recv | apply bounded_es_send
    | apply bounded_link_recv | apply bounded_sleep | apply bounded_wait
    | apply bounded_context | apply bounded_try | apply bounded_zoom | apply bounded_own | apply bounded_stream
    | apply bounded_bind; intros | apply bounded_recv_within; [lia|] | apply bounded_timeout; [lia|]
    | case_match ].
Ltac bounded_tac := repeat bounded_step.

Lemma udp_recv_uses dl t (s : N) b t' s' : udp_recv dl t s = (Done b, t', s') -> (t_pending s' < t_pending s)%nat.
Proof.
  intros E. apply bind_done_inv in E as (raw & t1 & s1 & E1 & E). apply recv_uses in E1. cbn in E. by simplify_eq.
Qed.

Lemma bounded_register_pk my_id uuid pk : bounded (register_pk my_id uuid pk : M N _).
Proof.
  unfold register_pk, send_request. bounded_tac. apply bounded_loop.
  - intros []. unfold request_step, udp_recv. bounded_tac.
  - intros [] dl t s x' t' s' E. apply bind_done_inv in E as (b & t1 & s1 & E1 & E).
    apply udp_recv_uses in E1. apply bind_done_inv in E as (r & t2 & s2 & E2 & E).
    assert (s2 = s1) as -> by (destruct (decode b); cbn in E2; by simplify_eq).
    destruct r as [[]|]; cbn in E; by simplify_eq.
Qed.

Lemma lift_state {S A} (r : Res A) dl t (s : S) a t' s' : lift r dl t s = (Done a, t', s') -> s' = s.
Proof. destruct r; cbn; by intros; simplify_eq. Qed.

(** A value that comes out of a [timeout] came out of the computation. *)
Lemma timeout_ok_inv {S A} d (m : M S A) dl t s a t' s' :
  timeout d m dl t s = (Done (Some (Ok a)), t', s') -> exists dl', m dl' t s = (Done a, t', s').
Proof.
  unfold timeout. eexists. destruct (m _ t s) as [[[b|e| | |] t1] s1] eqn:E; simplify_eq; [exact E|].
  by destruct (_ <=? _).
Qed.

Lemma punch_step_uses eph key lic req D d acc dl t (l : TcpLink N) acc' t' l' :
  punch_step eph key lic req D d acc dl t l = (Done (inl acc'), t', l') ->
  (link_pending l' < link_pending l)%nat.
Proof.
  unfold punch_step. destruct acc as [pr resent]. intros E.
  apply bind_done_inv in E as (t0 & t1 & l1 & E1 & E). cbn in E1. simplify_eq.
  destruct (_ =? 0). { apply bind_done_inv in E as (r & t2 & l2 & _ & E). by cbn in E. }
  apply bind_done_inv in E as ([[b|e]|] & t2 & l2 & E2 & E).
  - apply timeout_ok_inv in E2 as [dl' E2]. apply link_recv_uses in E2.
    apply bind_done_inv in E as (m & t3 & l3 & E3 & E).
    assert (l3 = l2) as -> by (destruct (decode b); cbn in E3; by simplify_eq).
    destruct m as [[p|rp|q|r|k|kr|rr|rl|keys|tag o]|]; cbn in E; try (by simplify_eq).
    destruct (is_secure l2 || resent); [done|].
    apply bind_done_inv in E as (u & t5 & l5 & E5 & E). cbn in E. simplify_eq.
    apply switch_keeps in E5. lia.
  - done.
  - apply bind_done_inv in E as (r & t3 & l3 & _ & E). by cbn in E.
Qed.

Lemma bounded_punch eph key port target lic ct d :
  bounded (punch_hole_via_tcp_with_conn_type eph key port target lic ct d : M (TcpLink N) _).
Proof.
  unfold punch_hole_via_tcp_with_conn_type. apply bounded_bind.
  { apply bounded_instant. intros dl t [x|s|]; try done.
    pose proof (net_send_instant (encode (punch_hole_request target lic ct port)) dl t x) as Hi.
    cbn [t_send NetTransport_transport]. by destruct (net_send _ dl t x) as [[[u|e| | |] t'] x']. }
  intros _. apply bounded_bind; [bounded_tac|]. intros t0. apply bounded_loop.
  - intros [pr resent]. unfold punch_step. bounded_tac. apply bounded_instant, switch_instant.
  - intros acc dl t l acc' t' l'. apply punch_step_uses.
Qed.

Lemma login_step_uses D dl t (s : EncryptedStream N) x t' s' :
  login_step D tt dl t s = (Done (inl x), t', s') -> (es_pending s' < es_pending s)%nat.
Proof.
  unfold login_step. intros E. apply bind_done_inv in E as (t0 & t1 & s1 & E1 & E). cbn in E1. simplify_eq.
  destruct (_ =? 0); [done|]. apply bind_done_inv in E as (raw & t2 & s2 & E2 & E).
  apply bind_done_inv in E2 as ([[b|e]|] & t3 & s3 & E2 & E3); [|done..].
  apply timeout_ok_inv in E2 as [dl' E2]. apply es_recv_uses in E2. cbn in E3. simplify_eq.
  apply bind_done_inv in E as (m & t4 & s4 & E4 & E).
  assert (s4 = s2) as -> by (destruct (decode raw); cbn in E4; by simplify_eq).
  destruct m as [[| | | |lr| | | | | | | | | |]|]; cbn in E; try (by simplify_eq).
  by destruct (lresp_union lr) as [[]|]; cbn in E; simplify_eq.
Qed.

Lemma bounded_handshake r pw peer client ct lu :
  bounded (handshake_and_auth r pw peer client ct lu : M N _).
Proof.
  unfold handshake_and_auth, authenticate. bounded_tac. apply bounded_loop.
  - intros []. unfold login_step. bounded_tac.
  - intros [] dl t s x' t' s'. apply login_step_uses.
Qed.

Lemma bounded_dial : bounded (dial : M (ConnEnv N) N).
Proof.
  split.
  - timely_start. unfold dial. destruct (ce_dials s) as [|[a r] rest].
    + by apply timely_pending.
    + apply (timely_bind (wait_until a) _ (timely_wait_until a)
        (fun _ => timely_bind _ _ (timely_modify _) (fun _ => timely_lift r)) d t s Ht).
  - intros dl t s. unfold dial. destruct (ce_dials s) as [|[a r] rest].
    + apply spinless_pending.
    + apply (spinless_bind (wait_until a) _ (spinless_wait_until a)
        (fun _ => spinless_bind _ _ (spinless_modify _) (fun _ => spinless_lift r)) dl t s).
Qed.

(** Connecting, under a deadline, ends by it, whatever the servers and the peer do. *)
Lemma bounded_connect rnd udp config ct lu : bounded (connect_with_mode rnd udp config ct lu : M (ConnEnv N) _).
Proof.
  unfold connect_with_mode, on_udp, register_peer, udp_recv, punch_over_tcp, relay_over_tcp, relay_connect_with_type,
    request_relay_via_tcp_with_conn_type.
  repeat first [ apply bounded_register_pk | apply bounded_dial | apply bounded_punch | apply bounded_handshake
               | bounded_step ].
Qed.
End connect_bounds.

(** ** Bounds of a direct command *)

Section direct_run.
Context (C : CryptoLib) (P : ProtoCodec Message) (Zs : Zstd).
Abbreviation St := (EncryptedStream NetTransport).

Lemma wp_quietly_instant {S A} (m : M S A) t s (Q : unit -> Z -> S -> Prop) R :
  instant m -> (forall s', Q tt t s') -> wp (quietly m) t s Q R.
Proof.
  intros Hm HQ. apply wp_bind, wp_try. unfold wp, run. specialize (Hm None t s).
  destruct (m None t s) as [[[a|e| | |] t'] s']; try done; subst; apply HQ.
Qed.

Lemma wp_terminal_recv d t (s : St) (Q : Res TerminalEvent -> Z -> St -> Prop) R :
  0 <= d ->
  (forall ev t' s', t <= t' <= t + d -> (es_pending s' < es_pending s)%nat -> Q (Ok ev) t' s') ->
  (forall e t' s', t <= t' <= t + d -> Q (Err e) t' s') ->
  wp (try (recv_terminal_data_with_timeout d)) t s Q R.
Proof.
  intros Hd Hok Herr. apply wp_try. unfold wp.
  pose proof (recv_terminal_data_takes d Hd t s) as B. unfold run in *.
  destruct (recv_terminal_data_with_timeout d None t s) as [[[ev|e| | |] t'] s'] eqn:E; try done; [|by apply Herr].
  apply Hok; [done|]. by apply recv_terminal_data_uses in E.
Qed.

(** Draining: every round takes at most half a second and uses up a message. *)
Lemma direct_drain_wp tid t (s : St) :
  let budget := 500 * (1 + Z.of_nat (es_pending s)) in
  wp (loop es_pending (direct_drain_step tid) tt) t s
    (fun _ t' _ => t <= t' <= t + budget) (fun _ t' _ => t <= t' <= t + budget).
Proof.
  intros budget. apply (wp_loop _ _ (fun _ t' s' => t <= t' /\
    t' + 500 * (1 + Z.of_nat (es_pending s')) <= t + budget)); [|lia].
  intros [] t1 s1 [H1 H2]. unfold direct_drain_step. apply wp_bind, wp_terminal_recv; [lia| |].
  - intros [b|c|m] t2 s2 Ht Hp; [apply wp_ret; lia..|].
    apply wp_bind, wp_quietly_instant; [apply close_terminal_instant|]. intros s3. apply wp_fail. lia.
  - intros e t2 s2 Ht. destruct (is_terminal_response_timeout e); [apply wp_ret; lia|].
    apply wp_bind, wp_quietly_instant; [apply close_terminal_instant|]. intros s3. apply wp_fail. lia.
Qed.

(** Collecting ends by its deadline. *)
Lemma direct_collect_wp sentinel tid D t (s : St) :
  t <= D ->
  wp (loop es_pending (direct_collect_step sentinel tid D) []) t s
    (fun _ t' _ => t <= t' <= D) (fun _ t' _ => t <= t' <= D).
Proof.
  intros HD. apply (wp_loop _ _ (fun _ t' _ => t <= t' <= D)); [|lia].
  intros collected t1 s1 Ht1. unfold direct_collect_step. apply wp_bind.
  change (wp now t1 s1 ?Q ?R) with (Q t1 t1 s1). cbv beta. rewrite Z.max_r by lia.
  destruct (D - t1 =? 0) eqn:E0; rd_bool; [apply wp_ret; lia|].
  assert (forall s3 t3 e, t1 <= t3 <= D -> wp (quietly (close_terminal tid) ;;; fail e) t3 s3
    (fun r t' s' => match r : bytes + (string * Z * bool + bytes * bool) with
       | inl _ => t <= t' <= D /\ (es_pending s' < es_pending s1)%nat | inr _ => t <= t' <= D end)
    (fun _ t' _ => t <= t' <= D)) as Hfail.
  { intros s3 t3 e Ht3. apply wp_bind, wp_quietly_instant; [apply close_terminal_instant|]. intros s4.
    apply wp_fail. lia. }
  apply wp_bind, wp_terminal_recv; [lia| |].
  - intros [data|c|m] t2 s2 Ht Hp; [|apply wp_bind, wp_quietly_instant; [apply close_terminal_instant|];
      intros s3; apply wp_ret; lia|apply Hfail; lia].
    destruct (find_sentinel_output _ _); apply wp_ret; lia.
  - intros e t2 s2 Ht. destruct (is_terminal_response_timeout e); [apply wp_ret; lia|apply Hfail; lia].
Qed.

Lemma direct_session_wp nanos secs command t (s : St) :
  0 <= secs ->
  let budget := 15000 + 500 * (1 + Z.of_nat (es_pending s)) + exec_timeout_duration secs in
  wp (direct_exec_session nanos secs command) t s
    (fun _ t' _ => t <= t' <= t + budget) (fun _ t' _ => t <= t' <= t + budget).
Proof.
  intros Hs budget. assert (0 <= exec_timeout_duration secs) as Hd
    by (unfold exec_timeout_duration, MAX_EXEC_TIMEOUT_SECS; lia).
  unfold direct_exec_session. apply wp_bind. unfold wp at 1.
  pose proof (timeout_or_bounded 15000 (anyhow "terminal open timed out") (open_terminal 24 80) t s ltac:(lia)
    (open_terminal_timely 24 80) (open_terminal_spinless 24 80)) as B.
  destruct (run _ t s) as [[[info|e| | |] t1] s1] eqn:E; try done; [|unfold budget; lia].
  apply timeout_or_done_inv in E as [dl E]. apply open_terminal_uses in E.
  apply wp_bind. eapply wp_mono; [apply direct_drain_wp| |unfold budget; intros; lia].
  intros [code|] t2 s2 Ht2; [apply wp_ret; unfold budget; lia|].
  apply wp_bind. unfold wp at 1, run.
  pose proof (send_terminal_data_instant (ti_terminal_id info)
    (as_bytes (command ++ String LF "" ++ "echo '" ++ exec_sentinel nanos ++ "'$?" ++ String LF "")%string) None t2 s2) as Hi.
  destruct (send_terminal_data _ _ None t2 s2) as [[[u|e| | |] t3] s3]; try done; [|unfold budget; lia].
  subst t3. apply wp_bind. change (wp now t2 s3 ?Q ?R) with (Q t2 t2 s3). cbv beta.
  apply wp_bind. eapply wp_mono; [apply direct_collect_wp; lia| |unfold budget; intros; lia].
  intros [r|[collected timed_out]] t4 s4 Ht4; [apply wp_ret; unfold budget; lia|].
  apply wp_bind, wp_quietly_instant; [apply close_terminal_instant|]. intros s5.
  apply wp_bind, wp_quietly_instant; [apply es_close_instant|]. intros s6.
  destruct (parse_direct_exec_output _ _). apply wp_ret. unfold budget; lia.
Qed.
End direct_run.

(** ** How much a connection can still receive *)

Section frames.
Context (C : CryptoLib) (P : ProtoCodec Message) (PI : ProtoCodec IdPk) (PR : ProtoCodec RendezvousMessage)
  (K : ServerKeyLib).
Abbreviation N := NetTransport.

(** The most frames any of the TCP connections to come will deliver. *)
Definition dial_frames (env : ConnEnv N) : nat :=
  foldr (fun x n => Nat.max (match x.2 with Ok c => t_pending c | Err _ => 0 end) n) 0%nat (ce_dials env).

Lemma recv_within_shrinks {S} (meas : S -> nat) recv d c1 c2 :
  shrinks meas recv -> shrinks meas (recv_within recv d c1 c2).
Proof. intros Hr. apply shrinks_bind; [by apply shrinks_timeout|]. intros [[raw|e]|] dl t s; done. Qed.

Lemma authenticate_shrinks r pw peer client ct lu :
  shrinks es_pending (authenticate r pw peer client ct lu : M (EncryptedStream N) _).
Proof.
  unfold authenticate. apply shrinks_bind; [apply recv_within_shrinks, es_recv_shrinks|]. intros raw.
  apply shrinks_bind; [auto with shrinks|]. intros [[]|]; auto with shrinks.
  apply shrinks_bind; [intros dl t s; by rewrite es_send_keeps|]. intros _.
  apply shrinks_bind; [by intros dl t s|]. intros t0. apply shrinks_loop. intros [].
  unfold login_step. apply shrinks_bind; [by intros dl t s|]. intros t1. case_match; [auto with shrinks|].
  apply shrinks_bind; [apply recv_within_shrinks, es_recv_shrinks|]. intros b.
  apply shrinks_bind; [auto with shrinks|]. intros m. repeat case_match; auto with shrinks.
Qed.

Lemma handshake_frames r pw peer client ct lu dl t (x : N) info s t' x' :
  handshake_and_auth r pw peer client ct lu dl t x = (Done (info, s), t', x') ->
  (es_pending s <= t_pending x)%nat.
Proof.
  intros E. unfold handshake_and_auth in E.
  apply bind_done_inv in E as (raw & t1 & x1 & E1 & E).
  pose proof (recv_within_shrinks t_pending t_recv 30000 "timed out waiting for SignedId from peer (30s)"
    "waiting for SignedId" recv_shrinks dl t x) as H1. rewrite E1 in H1. cbn [snd] in H1.
  apply bind_done_inv in E as (msg & t2 & x2 & E2 & E). apply lift_state in E2 as ->.
  apply bind_done_inv in E as (pk & t3 & x3 & E3 & E). apply lift_state in E3 as ->.
  apply bind_done_inv in E as (kx & t4 & x4 & E4 & E). apply lift_state in E4 as ->.
  apply bind_done_inv in E as (u & t5 & x5 & E5 & E).
  pose proof (send_keeps (encode (Some (UPublicKey (mkPublicKey (ephemeral_pk kx) (sealed_key kx))))) dl t4 x1) as H5.
  rewrite E5 in H5. cbn [snd] in H5. unfold over_stream in E.
  pose proof (authenticate_shrinks r pw peer client ct lu dl t5 (es_new x5 (session_key kx) t5)) as H6.
  destruct (authenticate _ _ _ _ _ _ dl t5 _) as [[[a|e| | |] t6] s6]; simplify_eq. cbn [snd] in H6.
  change (es_pending (es_new x5 (session_key kx) t5)) with (t_pending x5) in H6. lia.
Qed.

Definition within (n : nat) (env : ConnEnv N) : Prop := (dial_frames env <= n)%nat.

(** Nothing on the way adds frames. *)
Lemma within_shrinks n {A} (m : M (ConnEnv N) A) (E : ConnEnv N -> Prop) :
  shrinks dial_frames m -> (forall env, within n env -> E env) -> triple (within n) m (fun _ => within n) E.
Proof.
  intros Hm HE dl t env Hn. unfold within in *. specialize (Hm dl t env).
  destruct (m dl t env) as [[[a|e| | |] t'] env']; cbn in Hm; try done; [lia|]. apply HE. lia.
Qed.

Lemma own_shrinks {S A} (x : S) (m : M S A) : shrinks dial_frames (on_own x m).
Proof. intros dl t env. unfold on_own. by destruct (m dl t x) as [[o t'] x']. Qed.
Lemma udp_shrinks {A} (m : M N A) : shrinks dial_frames (on_udp m).
Proof. intros dl t env. unfold on_udp, zoom. by destruct (m dl t (ce_udp env)) as [[o t'] x']. Qed.
Lemma sleep_shrinks d : shrinks dial_frames (sleep d).
Proof. intros dl t env. apply shrinks_wait_until. Qed.
Lemma dial_shrinks : shrinks dial_frames dial.
Proof.
  intros dl t env. unfold dial. destruct (ce_dials env) as [|[a r] rest] eqn:Ed; [by destruct dl|].
  assert (dial_frames (mkConnEnv (ce_udp env) rest) <= dial_frames env)%nat as Hle.
  { unfold dial_frames. rewrite Ed. cbn. lia. }
  unfold bind at 1, wait_until. destruct r; repeat case_match; simplify_eq; cbn; done.
Qed.

Hint Resolve own_shrinks udp_shrinks sleep_shrinks dial_shrinks : shrinks.
Ltac shrinks_tac :=
  repeat first [solve [auto 3 with shrinks] | apply shrinks_bind; intros | apply shrinks_context
               | apply shrinks_try | apply shrinks_timeout | case_match].

(** A connection that was dialled, and what comes of it. *)
Lemma frames_dial n c : triple (within n) (context c dial)
  (fun x env => (t_pending x <= n)%nat /\ within n env) (fun _ => True).
Proof.
  intros dl t env Hn. pose proof (dial_shrinks dl t env) as Hs. unfold within in *.
  unfold context. destruct (dial dl t env) as [[[x|e| | |] t'] env'] eqn:E; try done. cbn in Hs.
  split; [|lia]. unfold dial in E. destruct (ce_dials env) as [|[a r] rest] eqn:Ed; [by destruct dl|].
  apply bind_done_inv in E as (u & t1 & env1 & _ & E). cbn in E.
  destruct r as [y|]; cbn in E; simplify_eq. unfold dial_frames in Hn. rewrite Ed in Hn. cbn in Hn.
  change (t_pending x) with (length (net_in x)). lia.
Qed.

Lemma frames_own n {S A} (x : S) (m : M S A) (Q : A -> Prop) :
  (forall dl t a t' x', m dl t x = (Done a, t', x') -> Q a) ->
  triple (within n) (on_own x m) (fun a env => Q a /\ within n env) (fun _ => True).
Proof.
  intros HQ dl t env Hn. unfold on_own. destruct (m dl t x) as [[[a|e| | |] t'] x'] eqn:E; try done.
  split; [by eapply HQ|done].
Qed.

Lemma frames_relay n addr uuid peer lic :
  triple (within n) (relay_connect_with_type addr uuid peer lic)
    (fun c env => (t_pending c <= n)%nat /\ within n env) (fun _ => True).
Proof.
  unfold relay_connect_with_type. eapply triple_bind; [apply frames_dial|]. intros x dl t env [Hx Hn].
  apply (frames_own n x _ (fun c => (t_pending c <= n)%nat)); [|done].
  intros dl0 t0 c t' x' E. apply bind_done_inv in E as (u & t1 & x1 & E1 & E). cbn in E. simplify_eq.
  pose proof (send_keeps (encode (relay_request peer uuid [] "" lic DefaultConn)) dl0 t0 x) as Hk.
  rewrite E1 in Hk. cbn [snd] in Hk. lia.
Qed.

(** The connection that is made can receive no more than the one it was made of. *)
Lemma connect_frames n rnd udp config ct lu :
  triple (within n) (connect_with_mode rnd udp config ct lu)
    (fun r _ => (es_pending r.2 <= n)%nat) (fun _ => True).
Proof.
  unfold connect_with_mode, punch_over_tcp, relay_over_tcp.
  do 5 (eapply triple_bind; [apply (within_shrinks n); [shrinks_tac|done]|]; intros ?).
  eapply triple_bind; [apply (within_shrinks n); [shrinks_tac|done]|]. intros [[received uuid] hint].
  do 3 (eapply triple_bind; [apply (within_shrinks n); [shrinks_tac|done]|]; intros ?).
  eapply triple_bind; [apply frames_relay|]. intros c dl t env [Hc Hn].
  assert (triple (within n) (on_own c (handshake_and_auth rnd (password config) (peer_id config)
    ("cli-" ++ show_Z (env_pid rnd))%string ct lu)) (fun r env => (es_pending r.2 <= n)%nat /\ within n env)
    (fun _ => True)) as Ho.
  { apply (frames_own n c). intros dl0 t0 [info s] t' x' E. apply handshake_frames in E.
    cbn [snd]. lia. }
  specialize (Ho dl t env Hn). destruct (on_own _ _ dl t env) as [[[r|e| | |] t'] env']; try done. by apply Ho.
Qed.
End frames.

(** ** Properties of direct connections *)

(** C31: a direct command always ends.  Whatever the servers and the peer do, [direct_exec] returns a
    result or an error.  Connecting is cut off after the command's timeout, at most an hour; on the
    connection the command takes at most 15 seconds to open the terminal, half a second for every
    message that can still arrive while the prompt is drained, and the timeout once more. *)
Theorem direct_exec_ends (C : CryptoLib) (P : ProtoCodec Message) (Zs : Zstd) (PI : ProtoCodec IdPk)
    (PR : ProtoCodec RendezvousMessage) (K : ServerKeyLib) rnd udp nanos config secs command t
    (env : ConnEnv NetTransport) :
  0 <= secs ->
  let limit := exec_timeout_duration secs in
  limit <= 3600000 /\
  match run (direct_exec rnd udp nanos config secs command) t env with
  | (Done _, t', _) | (Fail _, t', _) =>
    t <= t' <= t + 2 * limit + 15000 + 500 * (1 + Z.of_nat (dial_frames env))
  | _ => False
  end.
Proof.
  intros Hs limit. assert (0 <= limit <= 3600000) as Hl
    by (unfold limit, exec_timeout_duration, MAX_EXEC_TIMEOUT_SECS; lia).
  split; [lia|]. set (budget := 2 * limit + 15000 + 500 * (1 + Z.of_nat (dial_frames env))).
  enough (wp (direct_exec rnd udp nanos config secs command) t env
    (fun _ t' _ => t <= t' <= t + budget) (fun _ t' _ => t <= t' <= t + budget)) as H.
  { unfold wp in H. destruct (run _ t env) as [[[r|e| | |] t'] env']; try done; unfold budget in H; lia. }
  unfold direct_exec. apply wp_bind. unfold wp at 1. set (m := connect_with_mode _ _ _ _ _). fold limit.
  destruct (bounded_connect C P PI PR K rnd udp config ConnTerminal (Some (LTerminal ""%string))) as [Bt Bs].
  pose proof (timeout_or_bounded limit (anyhow ("direct exec timed out after " ++ show_Z secs ++ "s")%string)
    m t env ltac:(lia) Bt Bs) as B.
  destruct (run _ t env) as [[[[info s]|e| | |] t1] env1] eqn:E; try done; [|unfold budget; lia].
  apply timeout_or_done_inv in E as [dl E].
  pose proof (connect_frames C P PI PR K (dial_frames env) rnd udp config ConnTerminal
    (Some (LTerminal ""%string)) dl t env (le_n _)) as Hf.
  fold m in Hf. rewrite E in Hf. cbn [snd] in Hf.
  pose proof (direct_session_wp C P Zs nanos secs command t1 s Hs) as W. fold limit in W. unfold wp, run in W.
  apply wp_bind. unfold wp, run, locally.
  destruct (direct_exec_session nanos secs command None t1 s) as [[[r|e| | |] t2] s2]; try done;
    cbn; unfold budget; lia.
Qed.

(** No server key is known. *)
Definition toy_server_keys : ServerKeyLib := {|
  verifying_key := fun _ => None; ed25519_verify := fun _ _ _ => false; base64_standard := fun _ => Ok []
|}.

Lemma direct_exec_ends_witness :
  let env := mkConnEnv (mkNet [] Never [] [] false) [] in
  match run (@direct_exec NetTransport _ toy_crypto (toy_codec MessageUnion) toy_zstd toy_idpk
               (toy_codec RendezvousUnion) toy_server_keys toy_random (Ok tt) 7
               (mkConnConfig "s:1" "r:2" "" "9" "pw" 2) 5 "ls") 100 env with
  | (Done _, t', _) | (Fail _, t', _) => 100 <= t' <= 25600
  | _ => False
  end.
Proof.
  intros env.
  destruct (direct_exec_ends toy_crypto (toy_codec MessageUnion) toy_zstd toy_idpk
    (toy_codec RendezvousUnion) toy_server_keys toy_random (Ok tt) 7
    (mkConnConfig "s:1" "r:2" "" "9" "pw" 2) 5 "ls" 100 env) as [_ H]; [lia|].
  exact H.
Defined.

(** ** The configuration *)

(** Where a direct connection goes.  [build_direct_connection_config] makes the configuration the
    daemon would make, except when only the relay is given: then it takes the ID server to be on
    the relay's host, one port below, while the daemon's [build_connection_config] looks for it on
    localhost. *)
Theorem direct_config_spec peer pw server id_srv relay key :
  (is_Some id_srv \/ is_Some server \/ relay = None ->
   build_direct_connection_config peer pw server id_srv relay key =
   build_connection_config peer pw server id_srv relay key) /\
  (forall host port, count_char ":" host = O -> 1 < port < 65536 ->
     let relay := Some (host ++ ":" ++ show_Z port)%string in
     id_server (build_direct_connection_config peer pw None None relay key) =
       (host ++ ":" ++ show_Z (port - 1))%string /\
     id_server (build_connection_config peer pw None None relay key) = "localhost:21116"%string).
Proof.
  split.
  - intros H. unfold build_direct_connection_config, build_connection_config.
    destruct id_srv, server, relay; try done. by destruct H as [[]|[[]|]].
  - intros host port Hh Hp relay0. split; [|done]. cbn [id_server build_direct_connection_config relay0].
    unfold infer_id_server_from_relay, rsplit_once, host_of.
    change (host ++ ":" ++ show_Z port)%string with (host ++ String ":" (show_Z port))%string.
    rewrite rfind_char_app, split_char_app by done.
    rewrite rfind_count by (by apply show_Z_no_char). rewrite Nat.add_0_r.
    replace (String.length host) with (String.length host + 0)%nat by lia.
    rewrite <- Nat.add_succ_r, str_drop_app_plus. cbn [str_drop].
    unfold parse_u16. rewrite parse_show_Z by lia. cbn.
    destruct (Z.ltb_spec 0 (Z.max 0 (port - 1))); [|lia]. by rewrite Z.max_r by lia.
Qed.

Lemma direct_config_spec_witness :
  id_server (build_direct_connection_config "9" None None None (Some "relay.example:21117"%string) None)
  = "relay.example:21116"%string.
Proof.
  destruct (direct_config_spec "9" None None None None None) as [_ H].
  destruct (H "relay.example"%string 21117) as [E _]; [reflexivity|lia|]. exact E.
Defined.

(** ** The interactive session to its end *)

Section terminal_run.
Context (C : CryptoLib) (P : ProtoCodec Message) (Zs : Zstd).
Abbreviation St := (TermState (T := NetTransport)).
Abbreviation recv_remote := (on_remote recv_terminal_data : M St TerminalEvent).

Lemma recv_remote_facts dl t (st : St) o t' st' :
  recv_remote dl t st = (o, t', st') ->
  st'.2 = st.2 /\ (es_pending st'.1 <= es_pending st.1)%nat /\
  (forall ev, o = Done ev -> (es_pending st'.1 < es_pending st.1)%nat).
Proof.
  unfold on_remote, zoom. intros E.
  pose proof (recv_terminal_data_shrinks TERMINAL_RESPONSE_TIMEOUT dl t st.1) as Hs. unfold recv_terminal_data in E.
  destruct (recv_terminal_data_with_timeout _ dl t st.1) as [[o1 t1] x] eqn:E1.
  simplify_eq. split_and!; try done. intros ev ->. by apply recv_terminal_data_uses in E1.
Qed.

(** Waiting for the next event always ends. *)
Lemma wp_terminal_event t (st : St) Q (R : Error -> Z -> St -> Prop) :
  (forall ev t' st', st'.2 = st.2 -> (es_pending st'.1 < es_pending st.1)%nat -> Q (Some (Ok ev)) t' st') ->
  (forall e t' st', Q (Some (Err e)) t' st') ->
  (forall t' st', st'.2 = st.2 -> (es_pending st'.1 <= es_pending st.1)%nat -> Q None t' st') ->
  wp (match stdin_at st.2 with
      | Some a => race a recv_remote
      | None => let* r := try recv_remote in ret (Some r)
      end) t st Q R.
Proof.
  intros Hok Herr Hin. destruct (stdin_at st.2) as [a|].
  - unfold race. change (wp (timeout (Z.max 0 (a - t)) recv_remote) t st Q R).
    apply wp_timeout; [lia|by apply timely_zoom, recv_terminal_data_timely
      |apply spinless_zoom, recv_terminal_data_spinless|..].
    + intros ev t' st' _ E. apply recv_remote_facts in E as (? & ? & H). eauto.
    + auto.
    + intros st' E. apply recv_remote_facts in E as (? & ? & H). eauto.
  - apply wp_bind, wp_try. unfold wp.
    pose proof (recv_terminal_data_takes TERMINAL_RESPONSE_TIMEOUT ltac:(done) t st.1) as B.
    unfold run in *. unfold on_remote at 1, zoom, recv_terminal_data.
    destruct (recv_terminal_data_with_timeout _ None t st.1) as [[[ev|e| | |] t'] x] eqn:E; try done.
    + apply wp_ret, Hok; [done|]. by apply recv_terminal_data_uses in E.
    + apply wp_ret, Herr.
Qed.

Lemma terminal_step_wp tid t (st : St) :
  wp (terminal_step tid tt) t st
    (fun r _ st' => match r with inl _ => (terminal_left st' < terminal_left st)%nat | inr _ => True end)
    (fun _ _ _ => True).
Proof.
  unfold terminal_step. apply wp_bind. change (wp get t st ?Q ?R) with (Q st t st). cbv beta.
  apply wp_bind, wp_terminal_event.
  - intros [data|c|m] t' st' H2 Hp; [|by apply wp_ret|by apply wp_fail].
    apply wp_bind, wp_zoom. unfold wp, run, bind, context, stdout_call. unfold terminal_left in *.
    destruct (lt_faults st'.2) as [|[e|] [|[e'|] fs]]; cbn -[es_pending]; try done; rewrite <- H2; lia.
  - intros e t' st'. by apply wp_fail.
  - intros t' st' H2 Hp. destruct (lt_stdin st.2) as [|[a data] rest] eqn:El.
    + apply wp_bind, wp_zoom, wp_quietly_instant; [apply close_terminal_instant|]. intros s'. by apply wp_ret.
    + apply wp_bind. unfold wp at 1, run. cbn [modify]. apply wp_bind, wp_zoom. unfold wp at 1, run.
      pose proof (send_terminal_data_instant tid data None t' st'.1) as Hi.
      pose proof (send_terminal_data_keeps tid data None t' st'.1) as Hk. cbn [fst].
      destruct (send_terminal_data tid data None t' st'.1) as [[[u|e| | |] t2] x]; try done.
      apply wp_ret. unfold terminal_left in *. cbn in *. rewrite El. cbn. lia.
Qed.
End terminal_run.

(** The interactive terminal comes to an end, and too soon.  Whatever is typed and whatever the peer
    sends, the session's loop ends.  But when the terminal prints nothing and nothing is typed for
    fifteen seconds it ends with an error, although both ends are still there, and the peer is not
    told to close the terminal. *)
Theorem terminal_session_cut (C : CryptoLib) (L : CryptoLaws C) (P : ProtoCodec Message) (PL : ProtoLaws P)
    (Zs : Zstd) tid t (st : TermState (T := NetTransport)) :
  match run (loop terminal_left (terminal_step tid) tt) t st with
  | (Done _, _, _) | (Fail _, _, _) => True
  | _ => False
  end /\
  (forall noise late, net_end (es_inner st.1) = Never -> terminal_noise (t + 15000) noise ->
     match late with [] => True | (a, _) :: _ => t + 15000 < a end ->
     delivers_msgs C P (noise ++ late) st.1 ->
     match stdin_at st.2 with Some a => t + 15000 <= a | None => True end ->
     exists st', run (loop terminal_left (terminal_step tid) tt) t st =
       (Fail ["receiving terminal output"; "receiving terminal data";
              "timed out waiting for TerminalResponse after 15s"]%string, t + 15000, st') /\
       net_out (es_inner st'.1) = net_out (es_inner st.1) /\ lt_stdout st'.2 = lt_stdout st.2).
Proof.
  split.
  - change (wp (loop terminal_left (terminal_step tid) tt) t st (fun _ _ _ => True) (fun _ _ _ => True)).
    apply (wp_loop _ _ (fun _ _ _ => True)); [|done]. intros [] t1 st1 _.
    eapply wp_mono; [apply terminal_step_wp| |done]. intros [u|u] t' st' H'; [|done]. by split.
  - intros noise late He Hn Hlate Hd Hin.
    assert (forall dl, match dl with Some o => t + 15000 <= o | None => True end ->
      exists x, on_remote recv_terminal_data dl t st =
        (Fail (add_context "receiving terminal data" (terminal_response_timeout_error 15000)), t + 15000,
         (x, st.2)) /\ net_out (es_inner x) = net_out (es_inner st.1)) as Hrecv.
    { intros dl Hdl. destruct (recv_terminal_response_times_out C P 15000 noise late t st.1 ltac:(lia) Hn Hlate
        Hd He dl Hdl) as (x & E & _ & _ & Ho & _). exists x. split; [|done].
      unfold on_remote, zoom, recv_terminal_data, recv_terminal_data_with_timeout, bind, context.
      change TERMINAL_RESPONSE_TIMEOUT with 15000. by rewrite E. }
    unfold run, loop. rewrite iter_S. unfold bind at 1. unfold terminal_step. unfold bind at 1. cbn [get].
    unfold bind at 1. destruct (stdin_at st.2) as [a|].
    + unfold race, timeout. replace (t + Z.max 0 (a - t)) with a by lia.
      destruct (Hrecv (Some a) Hin) as (x & -> & Ho). eexists. split; [reflexivity|]. done.
    + destruct (Hrecv None I) as (x & E & Ho). unfold bind at 1, try. rewrite E.
      eexists. split; [reflexivity|]. done.
Qed.

Lemma terminal_session_cut_witness :
  let st := (es_new (mkNet [] Never [] [] false) [x01] 0, mkLocalTerm [(20000, [x61])] None [] []) in
  exists st', run (loop terminal_left (@terminal_step _ _ toy_crypto (toy_codec MessageUnion) toy_zstd 3) tt) 7 st
    = (Fail ["receiving terminal output"; "receiving terminal data";
              "timed out waiting for TerminalResponse after 15s"]%string, 15007, st').
Proof.
  intros st.
  destruct (terminal_session_cut toy_crypto toy_crypto_laws (toy_codec MessageUnion)
    (toy_codec_laws MessageUnion) toy_zstd 3 7 st) as [_ H].
  destruct (H [] []) as (st' & E & _); [reflexivity|constructor|exact I| |vm_compute; congruence|].
  - split; [vm_compute; reflexivity|constructor].
  - exists st'. exact E.
Defined.
