(* ===== verification/Batch.v ===== *)
(** * The arguments of the command line (src/main.rs)

    The value types of the options, the capture region with its parser, and the parser of the
    steps of [do].  A position in the tokens is the list of the tokens from there on. *)

From Stdlib Require Import ZArith Lia.
From Stdlib Require Import Strings.Byte Strings.Ascii Strings.String.
From stdpp Require Import base list option numbers strings pretty.
From S2P Require Import Prelude RustStr Json Session.

Local Open Scope string_scope.

(** ** Option values *)

Inductive CaptureFormat : Type := Png | Jpg.
Definition format_as_str (f : CaptureFormat) : string :=
  match f with Png => "png" | Jpg => "jpg" end.

Inductive Modifier : Type := Ctrl | Shift | Alt | Meta.
Definition modifier_as_str (m : Modifier) : string :=
  match m with Ctrl => "ctrl" | Shift => "shift" | Alt => "alt" | Meta => "meta" end.

Inductive MouseButton : Type := ButtonLeft | ButtonRight | ButtonMiddle.
Definition button_as_str (b : MouseButton) : string :=
  match b with ButtonLeft => "left" | ButtonRight => "right" | ButtonMiddle => "middle" end.

Definition parse_capture_format (value : string) : option CaptureFormat :=
  if String.eqb value "png" then Some Png
  else if String.eqb value "jpg" || String.eqb value "jpeg" then Some Jpg
  else None.

Definition parse_mouse_button (value : string) : option MouseButton :=
  if String.eqb value "left" then Some ButtonLeft
  else if String.eqb value "right" then Some ButtonRight
  else if String.eqb value "middle" then Some ButtonMiddle
  else None.

Definition parse_modifier_list (value : string) : list Modifier :=
  omap (fun item => if String.eqb item "ctrl" then Some Ctrl
                    else if String.eqb item "shift" then Some Shift
                    else if String.eqb item "alt" then Some Alt
                    else None) (split_char "," value).

(** The extension is what follows the last dot, the whole name without one. *)
Definition infer_format (file : string) : CaptureFormat :=
  let ext := match rsplit_once "." file with Some (_, e) => e | None => file end in
  if eq_ignore_ascii_case ext "jpg" || eq_ignore_ascii_case ext "jpeg" then Jpg else Png.

(** ** The capture region *)

Record Region : Type := mkRegion {
  rg_x : Z;
  rg_y : Z;
  rg_w : Z;
  rg_h : Z
}.

Definition region_to_json (r : Region) : Value :=
  object [("x", Number (rg_x r)); ("y", Number (rg_y r)); ("w", Number (rg_w r)); ("h", Number (rg_h r))].

Definition region_as_text (r : Region) : string :=
  show_Z (rg_x r) ++ "," ++ show_Z (rg_y r) ++ "," ++ show_Z (rg_w r) ++ "," ++ show_Z (rg_h r).

(** [self.x as u32] and so on. *)
Definition to_capture_region (r : Region) : CaptureRegion :=
  mkCaptureRegion (wrap 32 (rg_x r)) (wrap 32 (rg_y r)) (wrap 32 (rg_w r)) (wrap 32 (rg_h r)).

(** [Region::from_str] *)
Definition region_from_str (value : string) : result string Region :=
  match split_char "," value with
  | [px; py; pw; ph] =>
    x ← ok_or (parse_i32 px) "invalid region x coordinate";
    y ← ok_or (parse_i32 py) "invalid region y coordinate";
    w ← ok_or (parse_i32 pw) "invalid region width";
    h ← ok_or (parse_i32 ph) "invalid region height";
    if ((w <=? 0) || (h <=? 0))%Z then Err "region width and height must be positive"
    else Ok (mkRegion x y w h)
  | _ => Err "region must be in x,y,w,h format"
  end.

(** ** Steps *)

Record BatchStep : Type := mkBatchStep {
  bs_command : string;
  bs_args : list string
}.

Definition is_step_command (token : string) : bool :=
  existsb (String.eqb token)
    ["connect"; "disconnect"; "shell"; "exec"; "clipboard"; "status"; "displays"; "capture"; "type";
     "key"; "click"; "scroll"; "move"; "drag"].
Arguments is_step_command : simpl never.

(** [args.windows(2).find(|w| w[0] == flag)] *)
Fixpoint flag_value (args : list string) (flag : string) : option string :=
  match args with
  | a :: ((b :: _) as rest) => if String.eqb a flag then Some b else flag_value rest flag
  | _ => None
  end.

Definition flag_present (args : list string) (flag : string) : bool := existsb (String.eqb flag) args.

(** The loops of [first_non_flag_arg] and [positional_args], with [skip_next]. *)
Fixpoint first_non_flag_from (skip_next : bool) (args : list string) : option string :=
  match args with
  | [] => None
  | arg :: rest =>
    if skip_next then first_non_flag_from false rest
    else if starts_with "--" arg then first_non_flag_from true rest
    else Some arg
  end.
Definition first_non_flag_arg (args : list string) : option string := first_non_flag_from false args.

Fixpoint positional_from (skip_next : bool) (args : list string) : list string :=
  match args with
  | [] => []
  | arg :: rest =>
    if skip_next then positional_from false rest
    else if starts_with "--" arg then positional_from true rest
    else arg :: positional_from false rest
  end.
Definition positional_args (args : list string) : list string := positional_from false args.

(** The loop of [parse_flagged_step]: the arguments and the count of positionals so far. *)
Fixpoint flagged_loop (value_flags : list string) (required positional : nat)
    (args tokens : list string) : result string (list string * nat * list string) :=
  match tokens with
  | [] => Ok (args, positional, [])
  | token :: rest =>
    if (required <=? positional)%nat && is_step_command token then Ok (args, positional, tokens)
    else if existsb (String.eqb token) value_flags then
      match rest with
      | [] => Err ("flag '" ++ token ++ "' requires a value")
      | value :: rest' =>
        flagged_loop value_flags required positional (args ++ [token; value])%list rest'
      end
    else if starts_with "--" token then Err ("unsupported flag '" ++ token ++ "'")
    else flagged_loop value_flags required (S positional) (args ++ [token])%list rest
  end.

Definition parse_flagged_step (tokens value_flags : list string) (required_positionals : nat)
    : result string (list string * list string) :=
  '(args, positional, rest) ← flagged_loop value_flags required_positionals 0 [] tokens;
  if (positional <? required_positionals)%nat then Err "missing required positional argument"
  else Ok (args, rest).

(** The loop of [parse_click_step]. *)
Fixpoint click_loop (positional : nat) (args tokens : list string)
    : result string (list string * nat * list string) :=
  match tokens with
  | [] => Ok (args, positional, [])
  | token :: rest =>
    if (2 <=? positional)%nat && is_step_command token then Ok (args, positional, tokens)
    else if String.eqb token "--button" then
      match rest with
      | [] => Err "click flag --button requires a value"
      | value :: rest' => click_loop positional (args ++ [token; value])%list rest'
      end
    else if String.eqb token "--double" then click_loop positional (args ++ [token])%list rest
    else if starts_with "--" token then Err ("unsupported click flag '" ++ token ++ "'")
    else
      let args := (args ++ [token])%list in
      let positional := S positional in
      if (2 <=? positional)%nat && match rest with next :: _ => is_step_command next | [] => false end
      then Ok (args, positional, rest)
      else click_loop positional args rest
  end.

Definition parse_click_step (tokens : list string) : result string (list string * list string) :=
  '(args, positional, rest) ← click_loop 0 [] tokens;
  if (positional <? 2)%nat then Err "click requires x and y" else Ok (args, rest).

Definition parse_clipboard_step (tokens : list string) : result string (list string * list string) :=
  match tokens with
  | [] => Err "clipboard requires an action"
  | action :: rest =>
    if String.eqb action "get" then Ok ([action], rest)
    else if String.eqb action "set" then
      '(args, rest') ← parse_flagged_step rest ["--text"] 0;
      match flag_value args "--text" with
      | None => Err "clipboard set requires --text <TEXT>"
      | Some _ => Ok (action :: args, rest')
      end
    else Err ("unknown clipboard action '" ++ action ++ "'")
  end.

(** A step with a fixed number of arguments: [index + n >= tokens.len()] is an error. *)
Definition fixed_step (n : nat) (message : string) (tokens : list string)
    : result string (list string * list string) :=
  if (length tokens <? n)%nat then Err message else Ok (take n tokens, drop n tokens).

(** The match of [parse_batch_steps]: the arguments of a command and what follows them. *)
Definition parse_step_args (command : string) (rest : list string)
    : result string (list string * list string) :=
  let cmd_is := String.eqb command in
  if cmd_is "disconnect" || cmd_is "status" || cmd_is "displays" || cmd_is "shell" then Ok ([], rest)
  else if cmd_is "type" then fixed_step 1 "type requires one text argument" rest
  else if cmd_is "scroll" then fixed_step 3 "scroll requires x y delta" rest
  else if cmd_is "move" then fixed_step 2 "move requires x and y" rest
  else if cmd_is "drag" then fixed_step 4 "drag requires x1 y1 x2 y2" rest
  else if cmd_is "click" then parse_click_step rest
  else if cmd_is "clipboard" then parse_clipboard_step rest
  else if cmd_is "connect" then parse_flagged_step rest ["--password"; "--server"; "--timeout"] 1
  else if cmd_is "exec" then
    '(args, rest') ← parse_flagged_step rest ["--command"] 0;
    match flag_value args "--command" with
    | None => Err "exec requires --command <CMD>"
    | Some _ => Ok (args, rest')
    end
  else if cmd_is "key" then parse_flagged_step rest ["--modifiers"] 1
  else if cmd_is "capture" then
    parse_flagged_step rest ["--display"; "--format"; "--quality"; "--region"; "--timeout"] 0
  else Err ("unknown batch command '" ++ command ++ "'").

(** The loop of [parse_batch_steps]; [None] when it runs out of rounds. *)
Fixpoint parse_batch_from (fuel : nat) (tokens : list string) (steps : list BatchStep)
    : option (result string (list BatchStep)) :=
  match fuel with
  | O => None
  | S fuel' =>
    match tokens with
    | [] => Some (Ok steps)
    | command :: rest =>
      if negb (is_step_command command) then Some (Err ("unknown batch command '" ++ command ++ "'"))
      else match parse_step_args command rest with
           | Err e => Some (Err e)
           | Ok (args, rest') => parse_batch_from fuel' rest' (steps ++ [mkBatchStep command args])%list
           end
    end
  end.

(** A round takes at least one token. *)
Definition parse_batch_steps (tokens : list string) : option (result string (list BatchStep)) :=
  parse_batch_from (S (length tokens)) tokens [].

(** ** The grammar of the steps *)

(** Arguments with value flags: [n] positionals were seen before these, and a positional that is
    not needed any more is not the name of a command. *)
Inductive flagged_args (flags : list string) (required : nat) : nat -> list string -> Prop :=
| flagged_end n : (required <= n)%nat -> flagged_args flags required n []
| flagged_flag n flag value rest :
    flag ∈ flags -> flagged_args flags required n rest ->
    flagged_args flags required n (flag :: value :: rest)
| flagged_pos n arg rest :
    arg ∉ flags -> starts_with "--" arg = false ->
    ((required <= n)%nat -> is_step_command arg = false) ->
    flagged_args flags required (S n) rest -> flagged_args flags required n (arg :: rest).

(** The same for a click: one flag with a value, one without. *)
Inductive click_args : nat -> list string -> Prop :=
| click_end n : (2 <= n)%nat -> click_args n []
| click_button n value rest : click_args n rest -> click_args n ("--button" :: value :: rest)
| click_double n rest : click_args n rest -> click_args n ("--double" :: rest)
| click_pos n arg rest :
    starts_with "--" arg = false -> ((2 <= n)%nat -> is_step_command arg = false) ->
    click_args (S n) rest -> click_args n (arg :: rest).

Inductive step_grammar : BatchStep -> Prop :=
| step_plain c : c ∈ ["disconnect"; "status"; "displays"; "shell"] -> step_grammar (mkBatchStep c [])
| step_type text : step_grammar (mkBatchStep "type" [text])
| step_scroll x y d : step_grammar (mkBatchStep "scroll" [x; y; d])
| step_move x y : step_grammar (mkBatchStep "move" [x; y])
| step_drag x1 y1 x2 y2 : step_grammar (mkBatchStep "drag" [x1; y1; x2; y2])
| step_click args : click_args 0 args -> step_grammar (mkBatchStep "click" args)
| step_clip_get : step_grammar (mkBatchStep "clipboard" ["get"])
| step_clip_set args :
    flagged_args ["--text"] 0 0 args -> is_Some (flag_value args "--text") ->
    step_grammar (mkBatchStep "clipboard" ("set" :: args))
| step_connect args :
    flagged_args ["--password"; "--server"; "--timeout"] 1 0 args ->
    step_grammar (mkBatchStep "connect" args)
| step_exec args :
    flagged_args ["--command"] 0 0 args -> is_Some (flag_value args "--command") ->
    step_grammar (mkBatchStep "exec" args)
| step_key args : flagged_args ["--modifiers"] 1 0 args -> step_grammar (mkBatchStep "key" args)
| step_capture args :
    flagged_args ["--display"; "--format"; "--quality"; "--region"; "--timeout"] 0 0 args ->
    step_grammar (mkBatchStep "capture" args).

(** What was typed for a list of steps. *)
Definition step_tokens (s : BatchStep) : list string := bs_command s :: bs_args s.
Definition batch_tokens (steps : list BatchStep) : list string := concat (map step_tokens steps).

(** Nothing is left, or the next step begins. *)
Definition at_step (rest : list string) : Prop :=
  match rest with [] => True | token :: _ => is_step_command token = true end.

Lemma existsb_eqb_elem x l : existsb (String.eqb x) l = true <-> x ∈ l.
Proof.
  rewrite existsb_exists. setoid_rewrite String.eqb_eq. setoid_rewrite <- list_elem_of_In. naive_solver.
Qed.
Lemma existsb_eqb_not x l : existsb (String.eqb x) l = false <-> x ∉ l.
Proof. rewrite <- existsb_eqb_elem. by destruct (existsb _ l). Qed.

(** The flagged loop takes exactly the arguments of the grammar, up to the next step. *)
Lemma flagged_loop_iff flags required n acc tokens args rest :
  Forall (fun f => is_step_command f = false) flags ->
  (exists m, flagged_loop flags required n acc tokens = Ok (args, m, rest) /\ (required <= m)%nat) <->
  (exists a, args = (acc ++ a)%list /\ tokens = (a ++ rest)%list /\ flagged_args flags required n a
             /\ at_step rest).
Proof.
  intros Hflags. revert n acc. induction tokens as [tokens IH] using (induction_ltof1 _ length).
  intros n acc. split.
  - intros (m & E & Hm). destruct tokens as [|token tokens]; cbn [flagged_loop] in E.
    { simplify_eq. exists []. rewrite app_nil_r. by repeat (split || constructor). }
    destruct (_ && _) eqn:Eb.
    { simplify_eq. exists []. rewrite app_nil_r. apply andb_true_iff in Eb as [Eb1 Eb2].
      apply Nat.leb_le in Eb1. by repeat (split || constructor). }
    destruct (existsb _ _) eqn:Ef.
    { destruct tokens as [|value tokens]; [done|].
      destruct (IH tokens ltac:(unfold ltof; simpl; lia) n (acc ++ [token; value])%list) as [H _].
      destruct H as (a & -> & -> & Ha & Hr); [eauto|].
      exists (token :: value :: a). rewrite <- app_assoc. apply existsb_eqb_elem in Ef.
      by repeat (split || constructor). }
    destruct (starts_with "--" token) eqn:Es; [done|].
    destruct (IH tokens ltac:(unfold ltof; simpl; lia) (S n) (acc ++ [token])%list) as [H _].
    destruct H as (a & -> & -> & Ha & Hr); [eauto|].
    exists (token :: a). rewrite <- app_assoc. apply existsb_eqb_not in Ef.
    repeat (split || constructor || done). intros Hn. apply andb_false_iff in Eb as [Eb|Eb]; [|done].
    apply Nat.leb_gt in Eb. lia.
  - intros (a & -> & -> & Ha & Hr). destruct Ha as [n Hn|n flag value a Hf Ha|n arg a Hf Hs Hc Ha].
    + exists n. rewrite app_nil_r. split; [|done]. destruct rest as [|token rest]; [done|].
      cbn in Hr. cbn [app flagged_loop]. apply Nat.leb_le in Hn as ->. by rewrite Hr.
    + cbn [app flagged_loop]. rewrite Forall_forall in Hflags.
      rewrite (Hflags flag) by done. rewrite andb_false_r.
      apply existsb_eqb_elem in Hf as ->.
      destruct (IH (a ++ rest)%list ltac:(unfold ltof; simpl; lia) n (acc ++ [flag; value])%list) as [_ H].
      apply H. exists a. by rewrite <- app_assoc.
    + cbn [app flagged_loop].
      replace ((required <=? n)%nat && is_step_command arg) with false.
      2: { symmetry. apply andb_false_iff. destruct (Nat.leb_spec required n); auto. }
      apply existsb_eqb_not in Hf as ->. rewrite Hs.
      destruct (IH (a ++ rest)%list ltac:(unfold ltof; simpl; lia) (S n) (acc ++ [arg])%list) as [_ H].
      apply H. exists a. by rewrite <- app_assoc.
Qed.

Lemma parse_flagged_iff tokens flags required args rest :
  Forall (fun f => is_step_command f = false) flags ->
  parse_flagged_step tokens flags required = Ok (args, rest) <->
  tokens = (args ++ rest)%list /\ flagged_args flags required 0 args /\ at_step rest.
Proof.
  intros Hf. pose proof (flagged_loop_iff flags required 0 [] tokens args rest Hf) as H.
  unfold parse_flagged_step. transitivity
    (exists m, flagged_loop flags required 0 [] tokens = Ok (args, m, rest) /\ (required <= m)%nat).
  - destruct (flagged_loop _ _ _ _ _) as [[[a m] r]|e]; cbn -[Nat.ltb];
      [|by split; [|intros (? & ? & _)]].
    destruct (Nat.ltb_spec m required); split.
    + done.
    + intros (m' & E & ?). simplify_eq. lia.
    + intros E. simplify_eq. eauto.
    + intros (m' & E & _). by simplify_eq.
  - rewrite H. cbn [app]. split; [by intros (a & -> & ?)|eauto].
Qed.

(** The click loop takes exactly the arguments of a click, up to the next step. *)
Lemma click_loop_iff n acc tokens args rest :
  (exists m, click_loop n acc tokens = Ok (args, m, rest) /\ (2 <= m)%nat) <->
  (exists a, args = (acc ++ a)%list /\ tokens = (a ++ rest)%list /\ click_args n a /\ at_step rest).
Proof.
  revert n acc. induction tokens as [tokens IH] using (induction_ltof1 _ length). intros n acc. split.
  - intros (m & E & Hm). destruct tokens as [|token tokens]; cbn [click_loop] in E.
    { simplify_eq. exists []. rewrite app_nil_r. by repeat (split || constructor). }
    destruct ((2 <=? n)%nat && is_step_command token) eqn:Eb.
    { simplify_eq. exists []. rewrite app_nil_r. apply andb_true_iff in Eb as [Eb1 Eb2].
      apply Nat.leb_le in Eb1. by repeat (split || constructor). }
    destruct (String.eqb_spec token "--button") as [->|Hb].
    { destruct tokens as [|value tokens]; [done|].
      destruct (IH tokens ltac:(unfold ltof; simpl; lia) n (acc ++ ["--button"; value])%list) as [H _].
      destruct H as (a & -> & -> & Ha & Hr); [eauto|].
      exists ("--button" :: value :: a). rewrite <- app_assoc. by repeat (split || constructor). }
    destruct (String.eqb_spec token "--double") as [->|Hd].
    { destruct (IH tokens ltac:(unfold ltof; simpl; lia) n (acc ++ ["--double"])%list) as [H _].
      destruct H as (a & -> & -> & Ha & Hr); [eauto|].
      exists ("--double" :: a). rewrite <- app_assoc. by repeat (split || constructor). }
    destruct (starts_with "--" token) eqn:Es; [done|].
    assert ((2 <= n)%nat -> is_step_command token = false) as Hc.
    { intros Hn. apply andb_false_iff in Eb as [Eb|Eb]; [|done]. apply Nat.leb_gt in Eb. lia. }
    clear Eb. destruct (_ && _) eqn:En.
    { simplify_eq. exists [token]. apply andb_true_iff in En as [En1 En2]. apply Nat.leb_le in En1.
      split_and!; [done..| |by destruct rest]. apply click_pos; [done..|by apply click_end]. }
    destruct (IH tokens ltac:(unfold ltof; simpl; lia) (S n) (acc ++ [token])%list) as [H _].
    destruct H as (a & -> & -> & Ha & Hr); [eauto|].
    exists (token :: a). rewrite <- app_assoc. by repeat (split || constructor).
  - intros (a & -> & -> & Ha & Hr). destruct Ha as [n Hn|n value a Ha|n a Ha|n arg a Hs Hc Ha].
    + exists n. rewrite app_nil_r. split; [|done]. destruct rest as [|token rest]; [done|].
      cbn in Hr. cbn [app click_loop]. apply Nat.leb_le in Hn as ->. by rewrite Hr.
    + cbn [app click_loop]. rewrite andb_false_r.
      apply (IH (a ++ rest)%list ltac:(unfold ltof; simpl; lia) n (acc ++ ["--button"; value])%list).
      exists a. by rewrite <- app_assoc.
    + cbn [app click_loop]. rewrite andb_false_r.
      apply (IH (a ++ rest)%list ltac:(unfold ltof; simpl; lia) n (acc ++ ["--double"])%list).
      exists a. by rewrite <- app_assoc.
    + cbn [app click_loop].
      replace ((2 <=? n)%nat && is_step_command arg) with false.
      2: { symmetry. apply andb_false_iff. destruct (Nat.leb_spec 2 n); auto. }
      destruct (String.eqb_spec arg "--button") as [->|_]; [done|].
      destruct (String.eqb_spec arg "--double") as [->|_]; [done|]. rewrite Hs.
      pose proof (IH (a ++ rest)%list ltac:(unfold ltof; simpl; lia) (S n) (acc ++ [arg])%list) as [_ H].
      destruct H as (m & E & Hm); [exists a; by rewrite <- app_assoc|].
      destruct (_ && _) eqn:En; [|eauto]. exists (S n). apply andb_true_iff in En as [En1 En2].
      apply Nat.leb_le in En1. split; [|done].
      destruct a as [|next a]; [done|]. exfalso. cbn [app] in En2.
      inversion Ha; subst; try done. by rewrite H3 in En2 by done.
Qed.

Lemma parse_click_iff tokens args rest :
  parse_click_step tokens = Ok (args, rest) <->
  tokens = (args ++ rest)%list /\ click_args 0 args /\ at_step rest.
Proof.
  pose proof (click_loop_iff 0 [] tokens args rest) as H. unfold parse_click_step. transitivity
    (exists m, click_loop 0 [] tokens = Ok (args, m, rest) /\ (2 <= m)%nat).
  - destruct (click_loop _ _ _) as [[[a m] r]|e]; cbn -[Nat.ltb];
      [|by split; [|intros (? & ? & _)]].
    destruct (Nat.ltb_spec m 2); split.
    + done.
    + intros (m' & E & ?). simplify_eq. lia.
    + intros E. simplify_eq. eauto.
    + intros (m' & E & _). by simplify_eq.
  - rewrite H. cbn [app]. split; [by intros (a & -> & ?)|eauto].
Qed.

Lemma fixed_step_iff n message tokens args rest :
  fixed_step n message tokens = Ok (args, rest) <-> tokens = (args ++ rest)%list /\ length args = n.
Proof.
  unfold fixed_step. destruct (Nat.ltb_spec (length tokens) n); split.
  - done.
  - intros [-> <-]. rewrite length_app in H. lia.
  - intros [= <- <-]. by rewrite take_drop, length_take, Nat.min_l.
  - intros [-> <-]. by rewrite take_app_length, drop_app_length.
Qed.

Ltac flag_list := repeat constructor.

(** The arguments a step is given are the ones of its grammar. *)
Lemma parse_step_args_sound c tokens args rest :
  parse_step_args c tokens = Ok (args, rest) ->
  tokens = (args ++ rest)%list /\ step_grammar (mkBatchStep c args).
Proof.
  unfold parse_step_args. intros E.
  repeat match goal with
  | H : (if ?b then _ else _) = Ok _ |- _ => let F := fresh "F" in destruct b eqn:F
  end; try done;
    rewrite ?orb_true_iff, ?String.eqb_eq in *; try subst c.
  - simplify_eq. split; [done|]. constructor. rewrite !elem_of_cons. naive_solver.
  - apply fixed_step_iff in E as [-> Hl]. destruct args as [|? [|]]; try done. split; [done|constructor].
  - apply fixed_step_iff in E as [-> Hl]. destruct args as [|? [|? [|? [|]]]]; try done.
    split; [done|constructor].
  - apply fixed_step_iff in E as [-> Hl]. destruct args as [|? [|? [|]]]; try done.
    split; [done|constructor].
  - apply fixed_step_iff in E as [-> Hl]. destruct args as [|? [|? [|? [|? [|]]]]]; try done.
    split; [done|constructor].
  - apply parse_click_iff in E as (-> & Ha & _). by split; [|constructor].
  - unfold parse_clipboard_step in E. destruct tokens as [|action tokens]; [done|].
    destruct (String.eqb_spec action "get") as [->|_]; [simplify_eq; by split; [|constructor]|].
    destruct (String.eqb_spec action "set") as [->|_]; [|done].
    apply bind_ok_inv in E as ([a r] & E1 & E2). apply parse_flagged_iff in E1 as (-> & Ha & _); [|flag_list].
    destruct (flag_value a "--text") eqn:Ev; [|done]. simplify_eq. split; [done|]. by constructor.
  - apply parse_flagged_iff in E as (-> & Ha & _); [|flag_list]. by split; [|constructor].
  - apply bind_ok_inv in E as ([a r] & E1 & E2). apply parse_flagged_iff in E1 as (-> & Ha & _); [|flag_list].
    destruct (flag_value a "--command") eqn:Ev; [|done]. simplify_eq. split; [done|]. by constructor.
  - apply parse_flagged_iff in E as (-> & Ha & _); [|flag_list]. by split; [|constructor].
  - apply parse_flagged_iff in E as (-> & Ha & _); [|flag_list]. by split; [|constructor].
Qed.

(** Every step of the grammar is taken whole, and nothing of what follows. *)
Lemma parse_step_args_complete s rest :
  step_grammar s -> at_step rest ->
  is_step_command (bs_command s) = true /\
  parse_step_args (bs_command s) (bs_args s ++ rest) = Ok (bs_args s, rest).
Proof.
  intros Hs Hr. destruct Hs as [c Hc| | | | |args Ha| |args Ha [v Hv]|args Ha|args Ha [v Hv]|args Ha|args Ha];
    cbn [bs_command bs_args]; try (split; [reflexivity|]).
  - repeat (apply elem_of_cons in Hc as [->|Hc]; [by split|]). by apply not_elem_of_nil in Hc.
  - done.
  - done.
  - done.
  - done.
  - by apply parse_click_iff.
  - done.
  - cbn [parse_step_args String.eqb Ascii.eqb Bool.eqb orb app parse_clipboard_step].
    rewrite (proj2 (parse_flagged_iff _ ["--text"] 0 args rest ltac:(flag_list))) by done.
    cbn -[flag_value]. by rewrite Hv.
  - apply parse_flagged_iff; [flag_list|done].
  - unfold parse_step_args. cbn [String.eqb Ascii.eqb Bool.eqb orb].
    rewrite (proj2 (parse_flagged_iff _ ["--command"] 0 args rest ltac:(flag_list))) by done.
    cbn -[flag_value]. by rewrite Hv.
  - apply parse_flagged_iff; [flag_list|done].
  - apply parse_flagged_iff; [flag_list|done].
Qed.

Lemma batch_at_step steps : Forall step_grammar steps -> at_step (batch_tokens steps).
Proof.
  intros [|s l Hs _]; [done|]. by destruct (parse_step_args_complete s [] Hs I).
Qed.

Lemma parse_batch_from_iff fuel tokens steps out :
  (length tokens < fuel)%nat ->
  parse_batch_from fuel tokens steps = Some (Ok out) <->
  exists l, out = (steps ++ l)%list /\ tokens = batch_tokens l /\ Forall step_grammar l.
Proof.
  revert tokens steps. induction fuel as [|fuel IH]; intros tokens steps Hf; [lia|]. split.
  - intros E. destruct tokens as [|command rest]; cbn [parse_batch_from] in E.
    { simplify_eq. exists []. by rewrite app_nil_r. }
    destruct (is_step_command command); [|done]. cbn [negb] in E.
    destruct (parse_step_args command rest) as [[args rest']|e] eqn:Ep; [|done].
    apply parse_step_args_sound in Ep as [-> Hg]. cbn in Hf. rewrite length_app in Hf.
    apply IH in E as (l & -> & -> & Hl); [|lia]. exists (mkBatchStep command args :: l).
    rewrite <- app_assoc. auto.
  - intros (l & -> & -> & Hl). destruct Hl as [|s l Hs Hl].
    { by rewrite app_nil_r. }
    change (batch_tokens (s :: l)) with (bs_command s :: bs_args s ++ batch_tokens l)%list in *.
    cbn [parse_batch_from].
    destruct (parse_step_args_complete s (batch_tokens l) Hs (batch_at_step l Hl)) as [-> ->]. cbn [negb].
    cbn in Hf. rewrite length_app in Hf. apply IH; [lia|].
    exists l. destruct s. by rewrite <- app_assoc.
Qed.

Lemma parse_batch_from_total fuel tokens steps :
  (length tokens < fuel)%nat -> is_Some (parse_batch_from fuel tokens steps).
Proof.
  revert tokens steps. induction fuel as [|fuel IH]; intros tokens steps Hf; [lia|].
  destruct tokens as [|command rest]; cbn [parse_batch_from]; [eauto|].
  destruct (is_step_command command); cbn [negb]; [|eauto].
  destruct (parse_step_args command rest) as [[args rest']|e] eqn:Ep; [|eauto].
  apply parse_step_args_sound in Ep as [-> _]. cbn in Hf. rewrite length_app in Hf. apply IH. lia.
Qed.

(** ** Properties of the argument parsers *)

(** C27: the batch parser decides its grammar.  It always ends; it accepts a list of tokens with the
    steps [steps] exactly when each of them is a step of the grammar and the tokens are their
    commands and arguments one after the other.  So no token is lost, added or moved, and a list of
    tokens has at most one reading. *)
Theorem batch_parser_exact tokens :
  is_Some (parse_batch_steps tokens) /\
  forall steps, parse_batch_steps tokens = Some (Ok steps) <->
    tokens = batch_tokens steps /\ Forall step_grammar steps.
Proof.
  split; [apply parse_batch_from_total; lia|]. intros steps. unfold parse_batch_steps.
  rewrite parse_batch_from_iff by lia. cbn [app]. split; [by intros (l & -> & ?)|eauto].
Qed.

Example batch_parser_example :
  parse_batch_steps ["connect"; "type"; "--password"; "x"; "type"; "connect"; "click"; "1"; "2"; "--double";
                     "status"] =
  Some (Ok [mkBatchStep "connect" ["type"; "--password"; "x"]; mkBatchStep "type" ["connect"];
            mkBatchStep "click" ["1"; "2"; "--double"]; mkBatchStep "status" []]).
Proof. reflexivity. Qed.

Lemma region_text_parses r :
  (i32_min <= rg_x r <= i32_max)%Z -> (i32_min <= rg_y r <= i32_max)%Z ->
  (0 < rg_w r <= i32_max)%Z -> (0 < rg_h r <= i32_max)%Z -> region_from_str (region_as_text r) = Ok r.
Proof.
  destruct r as [x y w h]. cbn. intros Hx Hy Hw Hh. unfold region_as_text, region_from_str.
  cbn [rg_x rg_y rg_w rg_h String.append].
  rewrite !split_char_app, split_char_absent by (by apply show_Z_no_char).
  unfold parse_i32. rewrite !parse_show_Z by (unfold i32_min, i32_max in *; lia). cbn.
  destruct (Z.leb_spec w 0), (Z.leb_spec h 0); try lia. done.
Qed.

(** C32: regions read back.  The text of a region with coordinates of 32 bits and a positive size parses
    to the region itself; and whatever parses has coordinates of 32 bits and a positive size. *)
Theorem region_roundtrip :
  (forall r, i32_min <= rg_x r <= i32_max -> i32_min <= rg_y r <= i32_max ->
     0 < rg_w r <= i32_max -> 0 < rg_h r <= i32_max ->
     region_from_str (region_as_text r) = Ok r)%Z /\
  (forall s r, region_from_str s = Ok r ->
     i32_min <= rg_x r <= i32_max /\ i32_min <= rg_y r <= i32_max /\
     0 < rg_w r <= i32_max /\ 0 < rg_h r <= i32_max)%Z.
Proof.
  split.
  - intros r. apply region_text_parses.
  - intros s [x y w h]. unfold region_from_str. destruct (split_char "," s) as [|px [|py [|pw [|ph [|]]]]]; try done.
    intros E. repeat (apply bind_ok_inv in E as (? & ? & E)).
    destruct (_ || _) eqn:Ew; [done|]. apply orb_false_iff in Ew as [Ew Eh].
    apply Z.leb_gt in Ew, Eh. simplify_eq. cbn.
    repeat match goal with H : ok_or ?o _ = Ok _ |- _ =>
      destruct o eqn:?; cbn in H; simplify_eq end.
    repeat match goal with H : parse_i32 _ = Some _ |- _ => apply parse_int_range in H end. lia.
Qed.

Lemma region_roundtrip_witness :
  region_from_str (region_as_text (mkRegion (-5) 0 640 480)) = Ok (mkRegion (-5) 0 640 480).
Proof. apply region_roundtrip; vm_compute; split; congruence. Defined.
