(* ===== verification/Response.v ===== *)
(** * What the command line prints (src/main.rs)

    The response of every command as text and JSON with its exit code, the printing of responses,
    and the responses of the steps of [do]. *)

From Stdlib Require Import ZArith Lia.
From Stdlib Require Import Strings.Byte Strings.Ascii Strings.String.
From stdpp Require Import base list option numbers strings pretty.
From S2P Require Import Prelude RustStr Json Session Batch.

Local Open Scope string_scope.

Definition EXIT_SUCCESS : Z := 0.
Definition EXIT_CONNECTION : Z := 1.
Definition EXIT_SESSION : Z := 2.
Definition EXIT_INPUT : Z := 3.
Definition EXIT_PERMISSION : Z := 4.

Definition DEFAULT_WIDTH : Z := 1920.
Definition DEFAULT_HEIGHT : Z := 1080.

Record Response : Type := mkResponse {
  rp_text : string;
  rp_json : Value;
  rp_exit_code : Z
}.

Record BatchResponse : Type := mkBatchResponse {
  br_lines : list string;
  br_json : Value;
  br_exit_code : Z
}.

(** [serde_json::Value] printed with [{}]. *)
Class JsonText : Type := { json_text : Value -> string }.

(** ** Responses *)

Definition error_response (command code message : string) (exit_code : Z) : Response :=
  mkResponse (code ++ ": " ++ message)
    (object [("ok", Bool false); ("command", Str command);
             ("error", object [("code", Str code); ("message", Str message)])])
    exit_code.

Definition connect_response (id : string) (server : option string) : Response :=
  mkResponse
    ("connected id=" ++ id ++ match server with Some s => " server=" ++ s | None => "" end
       ++ " width=" ++ show_Z DEFAULT_WIDTH ++ " height=" ++ show_Z DEFAULT_HEIGHT)
    (object [("ok", Bool true); ("command", Str "connect"); ("id", Str id); ("server", opt_value Str server);
             ("connected", Bool true); ("width", Number DEFAULT_WIDTH); ("height", Number DEFAULT_HEIGHT)])
    EXIT_SUCCESS.

Definition disconnect_response (was_connected : bool) : Response :=
  mkResponse "disconnected"
    (object [("ok", Bool true); ("command", Str "disconnect"); ("was_connected", Bool was_connected)])
    EXIT_SUCCESS.

Definition shell_response : Response :=
  mkResponse "shell mode=interactive"
    (object [("ok", Bool true); ("command", Str "shell"); ("mode", Str "interactive")])
    EXIT_SUCCESS.

Definition exec_response (command stdout stderr : string) (exit_code : Z) : Response :=
  mkResponse ("exec exit_code=" ++ show_Z exit_code ++ " stdout=" ++ stdout)
    (object [("ok", Bool true); ("command", Str "exec"); ("requested", Str command); ("stdout", Str stdout);
             ("stderr", Str stderr); ("exit_code", Number exit_code)])
    EXIT_SUCCESS.

Definition exec_streaming_response (exit_code : Z) (timed_out : bool) : Response :=
  mkResponse ("exec exit_code=" ++ show_Z exit_code ++ (if timed_out then " timed_out=true" else ""))
    (object [("ok", Bool true); ("command", Str "exec"); ("exit_code", Number exit_code);
             ("timed_out", Bool timed_out)])
    EXIT_SUCCESS.

Definition push_response (local_path remote_path : string) (sent total resumed : Z) : Response :=
  mkResponse ("push sent_bytes=" ++ show_Z sent ++ " total_bytes=" ++ show_Z total
                ++ " resumed_bytes=" ++ show_Z resumed ++ " remote=" ++ remote_path)
    (object [("ok", Bool true); ("command", Str "push"); ("local_path", Str local_path);
             ("remote_path", Str remote_path); ("sent_bytes", Number sent); ("total_bytes", Number total);
             ("resumed_bytes", Number resumed)])
    EXIT_SUCCESS.

Definition clipboard_get_response (text : string) : Response :=
  mkResponse ("clipboard text=" ++ text)
    (object [("ok", Bool true); ("command", Str "clipboard"); ("action", Str "get"); ("text", Str text)])
    EXIT_SUCCESS.

Definition clipboard_set_response (text : string) : Response :=
  let chars := Z.of_nat (chars_count text) in
  mkResponse ("clipboard_set chars=" ++ show_Z chars)
    (object [("ok", Bool true); ("command", Str "clipboard"); ("action", Str "set"); ("chars", Number chars);
             ("redacted", Bool true)])
    EXIT_SUCCESS.

Definition status_response : Response :=
  mkResponse "disconnected"
    (object [("ok", Bool true); ("command", Str "status"); ("connected", Bool false)])
    EXIT_SUCCESS.

Definition status_connected_response (peer_id : string) : Response :=
  mkResponse ("connected id=" ++ peer_id ++ " width=" ++ show_Z DEFAULT_WIDTH ++ " height="
                ++ show_Z DEFAULT_HEIGHT)
    (object [("ok", Bool true); ("command", Str "status"); ("connected", Bool true); ("id", Str peer_id);
             ("width", Number DEFAULT_WIDTH); ("height", Number DEFAULT_HEIGHT)])
    EXIT_SUCCESS.

(** [d["key"]]: [Null] for a missing key. *)
Definition json_index (key : string) (d : Value) : Value := default Null (json_get key d).

(** The line of a display, up to its name; [displays_response] adds two more fields. *)
Definition display_line `{JsonText} (d : Value) : string :=
  let field key := json_text (json_index key d) in
  "display " ++ field "idx" ++ " " ++ field "width" ++ "x" ++ field "height" ++ " at (" ++ field "x" ++ ","
    ++ field "y" ++ ") name=" ++ default "" (as_str (json_index "name" d)).

Definition displays_text (lines : list string) : string :=
  match lines with [] => "no displays" | _ => join (String "010" "") lines end.

Definition displays_response `{JsonText} (displays : list Value) : Response :=
  let line d :=
    let flag key := show_bool (default false (as_bool (json_index key d))) in
    display_line d ++ " online=" ++ flag "online" ++ " cursor_embedded=" ++ flag "cursor_embedded" in
  mkResponse (displays_text (map line displays))
    (object [("ok", Bool true); ("command", Str "displays"); ("displays", Array displays)])
    EXIT_SUCCESS.

Definition fake_capture_bytes (format : CaptureFormat) (width height : Z) : Z :=
  let pixels := wrap 64 (wrap 64 width * wrap 64 height) in
  match format with
  | Png => pixels / 8 + 8193
  | Jpg => pixels / 12 + 4821
  end.

Definition obj_add (key : string) (v : Value) (json : Value) : Value :=
  match json with Object m => Object (obj_insert key v m) | _ => json end.
Definition opt_add {A} (key : string) (f : A -> Value) (o : option A) (json : Value) : Value :=
  match o with Some a => obj_add key (f a) json | None => json end.
Definition opt_text {A} (f : A -> string) (o : option A) : string :=
  match o with Some a => f a | None => "" end.

Definition capture_response (file : string) (format : CaptureFormat) (region : option Region)
    (display : option Z) (timeout : Z) : Response :=
  let '(width, height) := match region with
                          | Some r => (rg_w r, rg_h r)
                          | None => (DEFAULT_WIDTH, DEFAULT_HEIGHT)
                          end in
  let bytes := fake_capture_bytes format width height in
  let text := "captured file=" ++ file ++ " format=" ++ format_as_str format ++ " width=" ++ show_Z width
                ++ " height=" ++ show_Z height ++ " bytes=" ++ show_Z bytes
                ++ opt_text (fun r => " region=" ++ region_as_text r) region
                ++ opt_text (fun d => " display=" ++ show_Z d) display
                ++ " timeout=" ++ show_Z timeout in
  let base := [("ok", Bool true); ("command", Str "capture"); ("file", Str file);
               ("format", Str (format_as_str format)); ("width", Number width); ("height", Number height);
               ("bytes", Number bytes)] in
  let json := match region with
              | Some r => object (base ++ [("region", region_to_json r)])%list
              | None => object base
              end in
  mkResponse text (obj_add "timeout" (Number timeout) (opt_add "display" Number display json)) EXIT_SUCCESS.

Definition capture_result_response (file : option string) (format : CaptureFormat) (region : option Region)
    (display : option Z) (timeout bytes : Z) : Response :=
  let json := object [("ok", Bool true); ("command", Str "capture"); ("format", Str (format_as_str format));
                      ("bytes", Number bytes)] in
  let text := match file with
              | Some file => "captured file=" ++ file ++ " format=" ++ format_as_str format ++ " bytes="
                               ++ show_Z bytes
              | None => "captured stdout format=" ++ format_as_str format ++ " bytes=" ++ show_Z bytes
              end in
  mkResponse text
    (obj_add "timeout" (Number timeout)
       (opt_add "display" Number display (opt_add "region" region_to_json region (opt_add "file" Str file json))))
    EXIT_SUCCESS.

Definition type_response (text : string) : Response :=
  let chars := Z.of_nat (chars_count text) in
  mkResponse ("typed chars=" ++ show_Z chars)
    (object [("ok", Bool true); ("command", Str "type"); ("chars", Number chars); ("redacted", Bool true)])
    EXIT_SUCCESS.

Definition key_response (key : string) (modifiers : list Modifier) : Response :=
  let modifier_names := map modifier_as_str modifiers in
  mkResponse
    (match modifier_names with
     | [] => "key key=" ++ key
     | _ => "key key=" ++ key ++ " modifiers=" ++ join "," modifier_names
     end)
    (object [("ok", Bool true); ("command", Str "key"); ("key", Str key);
             ("modifiers", Array (map Str modifier_names))])
    EXIT_SUCCESS.

Definition click_response (button : MouseButton) (x y : Z) (double : bool) : Response :=
  mkResponse ("clicked button=" ++ button_as_str button ++ " x=" ++ show_Z x ++ " y=" ++ show_Z y
                ++ " double=" ++ show_bool double)
    (object [("ok", Bool true); ("command", Str "click"); ("button", Str (button_as_str button));
             ("x", Number x); ("y", Number y); ("double", Bool double)])
    EXIT_SUCCESS.

Definition scroll_response (x y delta : Z) : Response :=
  mkResponse ("scrolled x=" ++ show_Z x ++ " y=" ++ show_Z y ++ " delta=" ++ show_Z delta)
    (object [("ok", Bool true); ("command", Str "scroll"); ("x", Number x); ("y", Number y);
             ("delta", Number delta)])
    EXIT_SUCCESS.

Definition move_response (x y : Z) : Response :=
  mkResponse ("moved x=" ++ show_Z x ++ " y=" ++ show_Z y)
    (object [("ok", Bool true); ("command", Str "move"); ("x", Number x); ("y", Number y)])
    EXIT_SUCCESS.

Definition drag_response (x1 y1 x2 y2 : Z) : Response :=
  mkResponse ("dragged x1=" ++ show_Z x1 ++ " y1=" ++ show_Z y1 ++ " x2=" ++ show_Z x2 ++ " y2=" ++ show_Z y2)
    (object [("ok", Bool true); ("command", Str "drag"); ("x1", Number x1); ("y1", Number y1);
             ("x2", Number x2); ("y2", Number y2); ("button", Str "left")])
    EXIT_SUCCESS.

(** ** Printing *)

(** What goes to the terminal: lines, JSON values as one line, raw text and bytes, files, and the
    push progress (its percentage left out). *)
Inductive Output : Type :=
| OutLine (s : string)
| ErrLine (s : string)
| OutJson (v : Value)
| OutText (s : string)
| OutBytes (b : bytes)
| OutFile (path : string) (b : bytes)
| ErrProgress (sent total resumed : Z).

Definition emit_response (json_mode : bool) (r : Response) : list Output :=
  let is_error := negb (rp_exit_code r =? EXIT_SUCCESS)%Z in
  if json_mode then [OutJson (rp_json r)]
  else if negb (is_empty (rp_text r))
       then [if is_error then ErrLine (rp_text r) else OutLine (rp_text r)]
       else [].

Definition emit_batch_response (json_mode : bool) (r : BatchResponse) : list Output :=
  let is_error := negb (br_exit_code r =? EXIT_SUCCESS)%Z in
  if json_mode then [OutJson (br_json r)]
  else map (fun line => if is_error then ErrLine line else OutLine line) (br_lines r).

(** ** The steps of a batch *)

Definition arg_i32 (args : list string) (n : nat) : Z := default 0%Z (args !! n ≫= parse_i32).

Definition unknown_step (text command message : string) : Response :=
  mkResponse text
    (object [("ok", Bool false); ("command", Str command);
             ("error", object [("code", Str "connection_error"); ("message", Str message)])])
    EXIT_CONNECTION.

Definition step_to_response `{JsonText} (s : BatchStep) : Response :=
  let args := bs_args s in
  let cmd_is := String.eqb (bs_command s) in
  if cmd_is "connect" then
    connect_response (default "unknown" (first_non_flag_arg args)) (flag_value args "--server")
  else if cmd_is "disconnect" then disconnect_response false
  else if cmd_is "shell" then shell_response
  else if cmd_is "exec" then
    exec_response (default "" (flag_value args "--command")) "stub exec output" "" 0
  else if cmd_is "clipboard" then
    let action := default "get" (first_non_flag_arg args) in
    if String.eqb action "get" then clipboard_get_response "stub clipboard text"
    else if String.eqb action "set" then clipboard_set_response (default "" (flag_value args "--text"))
    else unknown_step "unknown clipboard action" "clipboard" "unknown clipboard action"
  else if cmd_is "status" then status_response
  else if cmd_is "displays" then displays_response []
  else if cmd_is "capture" then
    let file := default "screenshot.png" (first_non_flag_arg args) in
    let format := default (infer_format file) (flag_value args "--format" ≫= parse_capture_format) in
    let region := flag_value args "--region" ≫= fun raw => ok (region_from_str raw) in
    let display := flag_value args "--display" ≫= parse_i32 in
    let timeout := default 10%Z (flag_value args "--timeout" ≫= parse_u64) in
    capture_response file format region display timeout
  else if cmd_is "type" then type_response (default "" (head args))
  else if cmd_is "key" then
    key_response (default "enter" (first_non_flag_arg args))
      (default [] (parse_modifier_list <$> flag_value args "--modifiers"))
  else if cmd_is "click" then
    let button := default ButtonLeft (flag_value args "--button" ≫= parse_mouse_button) in
    let double := flag_present args "--double" in
    let coords := positional_args args in
    click_response button (arg_i32 coords 0) (arg_i32 coords 1) double
  else if cmd_is "scroll" then scroll_response (arg_i32 args 0) (arg_i32 args 1) (arg_i32 args 2)
  else if cmd_is "move" then move_response (arg_i32 args 0) (arg_i32 args 1)
  else if cmd_is "drag" then
    drag_response (arg_i32 args 0) (arg_i32 args 1) (arg_i32 args 2) (arg_i32 args 3)
  else unknown_step ("unknown command " ++ bs_command s) (bs_command s) "unknown batch command".

(** The loop of [do_response], from the step number [index] on. *)
Fixpoint do_steps `{JsonText} (index : nat) (steps : list BatchStep) : list string * list Value :=
  match steps with
  | [] => ([], [])
  | s :: rest =>
    let r := step_to_response s in
    let '(lines, jsons) := do_steps (S index) rest in
    ((show_nat (S index) ++ " " ++ rp_text r) :: lines,
     obj_add "index" (Number (Z.of_nat (S index))) (rp_json r) :: jsons)
  end.

Definition do_response `{JsonText} (steps : list BatchStep) : BatchResponse :=
  let '(lines, json_steps) := do_steps 0 steps in
  mkBatchResponse (lines ++ [("ok steps=" ++ show_nat (length steps))%string])%list
    (object [("ok", Bool true); ("command", Str "do"); ("steps", Array json_steps)])
    EXIT_SUCCESS.

Definition batch_error_response (message : string) : BatchResponse :=
  mkBatchResponse ["connection error: " ++ message]
    (object [("ok", Bool false); ("command", Str "do");
             ("error", object [("code", Str "connection_error"); ("message", Str message)])])
    EXIT_CONNECTION.

(** ** Commands as steps *)

(** The commands of a batch with their values, the way they are typed, and what is to be reported
    for each. *)
Inductive Verb : Type :=
| VConnect (id : string) (server : option string)
| VDisconnect
| VShell
| VExec (command : string)
| VClipGet
| VClipSet (text : string)
| VStatus
| VDisplays
| VCapture (file : string) (format : option CaptureFormat) (region : option Region) (display : option Z)
           (timeout : option Z)
| VType (text : string)
| VKey (key : string) (modifiers : list Modifier)
| VClick (button : MouseButton) (x y : Z) (double : bool)
| VScroll (x y delta : Z)
| VMove (x y : Z)
| VDrag (x1 y1 x2 y2 : Z).

Definition opt_flag {A} (flag : string) (f : A -> string) (o : option A) : list string :=
  match o with Some a => [flag; f a] | None => [] end.

Definition verb_step (v : Verb) : BatchStep :=
  match v with
  | VConnect id server => mkBatchStep "connect" (id :: opt_flag "--server" (fun s => s) server)
  | VDisconnect => mkBatchStep "disconnect" []
  | VShell => mkBatchStep "shell" []
  | VExec command => mkBatchStep "exec" ["--command"; command]
  | VClipGet => mkBatchStep "clipboard" ["get"]
  | VClipSet text => mkBatchStep "clipboard" ["set"; "--text"; text]
  | VStatus => mkBatchStep "status" []
  | VDisplays => mkBatchStep "displays" []
  | VCapture file format region display timeout =>
    mkBatchStep "capture"
      (file :: opt_flag "--format" format_as_str format ++ opt_flag "--region" region_as_text region
         ++ opt_flag "--display" show_Z display ++ opt_flag "--timeout" show_Z timeout)%list
  | VType text => mkBatchStep "type" [text]
  | VKey key modifiers =>
    mkBatchStep "key" (key :: match modifiers with
                              | [] => []
                              | _ => ["--modifiers"; join "," (map modifier_as_str modifiers)]
                              end)
  | VClick button x y double =>
    mkBatchStep "click" ([show_Z x; show_Z y; "--button"; button_as_str button]
                           ++ if double then ["--double"] else [])%list
  | VScroll x y delta => mkBatchStep "scroll" [show_Z x; show_Z y; show_Z delta]
  | VMove x y => mkBatchStep "move" [show_Z x; show_Z y]
  | VDrag x1 y1 x2 y2 => mkBatchStep "drag" [show_Z x1; show_Z y1; show_Z x2; show_Z y2]
  end.

Definition verb_response `{JsonText} (v : Verb) : Response :=
  match v with
  | VConnect id server => connect_response id server
  | VDisconnect => disconnect_response false
  | VShell => shell_response
  | VExec command => exec_response command "stub exec output" "" 0
  | VClipGet => clipboard_get_response "stub clipboard text"
  | VClipSet text => clipboard_set_response text
  | VStatus => status_response
  | VDisplays => displays_response []
  | VCapture file format region display timeout =>
    capture_response file (default (infer_format file) format) region display (default 10%Z timeout)
  | VType text => type_response text
  | VKey key modifiers => key_response key modifiers
  | VClick button x y double => click_response button x y double
  | VScroll x y delta => scroll_response x y delta
  | VMove x y => move_response x y
  | VDrag x1 y1 x2 y2 => drag_response x1 y1 x2 y2
  end.

Definition is_i32 (z : Z) : Prop := (i32_min <= z <= i32_max)%Z.
Definition region_ok (r : Region) : Prop :=
  is_i32 (rg_x r) /\ is_i32 (rg_y r) /\ (0 < rg_w r <= i32_max)%Z /\ (0 < rg_h r <= i32_max)%Z.
Definition plain_word (s : string) : Prop := starts_with "--" s = false.

(** The values that fit: 32-bit coordinates, names that are no flags, no [meta]. *)
Definition verb_ok (v : Verb) : Prop :=
  match v with
  | VConnect id _ => plain_word id
  | VCapture file _ region display timeout =>
    plain_word file /\ is_step_command file = false /\
    (forall r, region = Some r -> region_ok r) /\ (forall d, display = Some d -> is_i32 d) /\
    (forall t, timeout = Some t -> (0 <= t < 2 ^ 64)%Z)
  | VKey key modifiers => plain_word key /\ Meta ∉ modifiers
  | VClick _ x y _ | VMove x y => is_i32 x /\ is_i32 y
  | VScroll x y delta => is_i32 x /\ is_i32 y /\ is_i32 delta
  | VDrag x1 y1 x2 y2 => is_i32 x1 /\ is_i32 y1 /\ is_i32 x2 /\ is_i32 y2
  | _ => True
  end.

(** Printed numbers are no flags and no commands. *)
Lemma show_Z_head z : exists c d, show_Z z = String c d /\ count_char "-" d = O /\
  (is_ascii_digit c = true \/ c = "-"%char).
Proof.
  change (show_Z z) with (pretty_Z z). unfold pretty_Z. destruct z as [|p|p].
  - exists "0"%char, "". auto.
  - change (pretty p) with (pretty (N.pos p)). destruct (show_N_digits (N.pos p)) as (c & d & -> & Hc & Hv).
    exists c, d. split_and!; auto.
    pose proof (digits_no_char "-" _ _ _ Hv eq_refl) as H. cbn [count_char] in H.
    destruct (digit_not_sign c Hc) as [_ Hm]. rewrite Ascii.eqb_sym, Hm in H. done.
  - change (pretty p) with (pretty (N.pos p)). destruct (show_N_digits (N.pos p)) as (c & d & -> & Hc & Hv).
    exists "-"%char, (String c d). split_and!; [done| |by right].
    exact (digits_no_char "-" _ _ _ Hv eq_refl).
Qed.

Lemma show_Z_plain z : plain_word (show_Z z).
Proof.
  destruct (show_Z_head z) as (c & d & -> & Hd & Hc). unfold plain_word, starts_with.
  cbn [String.prefix]. destruct (ascii_dec "-" c) as [<-|]; [|done].
  destruct d as [|x d]; [done|]. cbn [String.prefix]. by destruct (ascii_dec "-" x) as [<-|].
Qed.

Lemma show_Z_no_command z : is_step_command (show_Z z) = false.
Proof.
  destruct (show_Z_head z) as (c & d & -> & _ & Hc). unfold is_step_command.
  apply existsb_eqb_not. rewrite !elem_of_cons. intros Hin.
  assert (forall x, is_ascii_digit x = true \/ x = "-"%char ->
    x <> "c"%char /\ x <> "d"%char /\ x <> "s"%char /\ x <> "e"%char /\ x <> "t"%char /\ x <> "k"%char
    /\ x <> "m"%char) as Hx by (intros x Hx; split_and!; intros ->; by destruct Hx).
  apply Hx in Hc as (? & ? & ? & ? & ? & ? & ?).
  repeat (destruct Hin as [[= -> _]|Hin]; [done|]). by apply not_elem_of_nil in Hin.
Qed.

Lemma flags_not_plain a flags : plain_word a -> Forall (fun f => starts_with "--" f = true) flags -> a ∉ flags.
Proof. unfold plain_word. intros Ha Hf Hin. rewrite Forall_forall in Hf. apply Hf in Hin. congruence. Qed.

Lemma flagged_word flags required n arg rest :
  plain_word arg -> Forall (fun f => starts_with "--" f = true) flags ->
  ((required <= n)%nat -> is_step_command arg = false) ->
  flagged_args flags required (S n) rest -> flagged_args flags required n (arg :: rest).
Proof. intros Ha Hf Hc Hr. apply flagged_pos; auto using flags_not_plain. Qed.

Lemma flagged_opt {A} flags required n flag (f : A -> string) o rest :
  flag ∈ flags -> flagged_args flags required n rest ->
  flagged_args flags required n (opt_flag flag f o ++ rest).
Proof. intros Hf Hr. destruct o; [by apply flagged_flag|done]. Qed.

Lemma flagged_opt_last {A} flags required n flag (f : A -> string) o :
  flag ∈ flags -> (required <= n)%nat -> flagged_args flags required n (opt_flag flag f o).
Proof. intros Hf Hn. rewrite <- (app_nil_r (opt_flag _ _ _)). apply flagged_opt; [done|by constructor]. Qed.

Ltac in_flags := rewrite !elem_of_cons; auto 10.

(** A command with values that fit is a step of the grammar. *)
Lemma verb_step_grammar v : verb_ok v -> step_grammar (verb_step v).
Proof.
  destruct v as [id server| | |command| |text| | |file format region display timeout|text|key modifiers
                |button x y double|x y d|x y|x1 y1 x2 y2]; cbn [verb_step verb_ok]; intros Hv.
  - apply step_connect, flagged_word; [done|repeat constructor|lia|]. apply flagged_opt_last; [in_flags|lia].
  - apply step_plain. in_flags.
  - apply step_plain. in_flags.
  - apply step_exec; [|by eexists]. apply flagged_flag; [in_flags|by constructor].
  - constructor.
  - apply step_clip_set; [|by eexists]. apply flagged_flag; [in_flags|by constructor].
  - apply step_plain. in_flags.
  - apply step_plain. in_flags.
  - destruct Hv as (Hp & Hc & _). apply step_capture, flagged_word; [done|repeat constructor|done|].
    do 3 (apply flagged_opt; [in_flags|]). apply flagged_opt_last; [in_flags|lia].
  - constructor.
  - destruct Hv as [Hp _]. apply step_key, flagged_word; [done|repeat constructor|lia|].
    destruct modifiers; [by constructor|]. apply flagged_flag; [in_flags|by constructor].
  - apply step_click. do 2 (apply click_pos; [apply show_Z_plain|by rewrite show_Z_no_command|]).
    apply click_button. destruct double; [apply click_double|]; by apply click_end.
  - constructor.
  - constructor.
  - constructor.
Qed.

Lemma plain_app a b : plain_word a -> (exists c c' d, a = String c (String c' d)) \/ starts_with "-" b = false ->
  plain_word (a ++ b).
Proof.
  unfold plain_word, starts_with. intros Ha Hb.
  destruct a as [|c [|c' d]]; cbn [String.append String.prefix] in *.
  - destruct Hb as [(? & ? & ? & ?)|Hb]; [done|]. destruct b as [|x b]; [done|]. cbn [String.prefix] in *.
    destruct (ascii_dec "-" x); [|done]. by destruct b.
  - destruct Hb as [(? & ? & ? & ?)|Hb]; [done|]. destruct (ascii_dec "-" c); [|done].
    destruct b; [done|]. cbn [String.prefix] in *. by destruct (ascii_dec _ _); destruct b.
  - destruct (ascii_dec "-" c); [|done]. destruct (ascii_dec "-" c'); [|done]. by destruct d.
Qed.

Lemma region_text_plain r : plain_word (region_as_text r).
Proof. apply plain_app; [apply show_Z_plain|by right]. Qed.

Lemma format_plain f : plain_word (format_as_str f).
Proof. by destruct f. Qed.

Lemma flag_value_skip a rest flag :
  plain_word a -> starts_with "--" flag = true -> flag_value (a :: rest) flag = flag_value rest flag.
Proof.
  intros Ha Hf. destruct rest as [|b rest]; [done|]. cbn [flag_value].
  destruct (String.eqb_spec a flag) as [->|_]; [|done]. unfold plain_word in Ha. congruence.
Qed.

Lemma flag_not_word a : plain_word a -> String.eqb "--double" a = false.
Proof. intros Ha. by destruct (String.eqb_spec "--double" a) as [<-|]. Qed.

Lemma flag_value_opt {A} f (g : A -> string) o rest flag :
  (forall a, plain_word (g a)) -> starts_with "--" flag = true ->
  flag_value (opt_flag f g o ++ rest) flag =
  if String.eqb f flag then match o with Some a => Some (g a) | None => flag_value rest flag end
  else flag_value rest flag.
Proof.
  intros Hg Hf. destruct o as [a|]; cbn [opt_flag app]; [|by destruct (String.eqb f flag)].
  cbn [flag_value]. destruct (String.eqb f flag); [done|]. by apply flag_value_skip.
Qed.

Lemma split_join c l : l <> [] -> Forall (fun s => count_char c s = O) l ->
  split_char c (join (String c "") l) = l.
Proof.
  intros Hne Hl. induction Hl as [|s l Hs Hl IH]; [done|]. destruct l as [|s' l].
  - by apply split_char_absent.
  - change (join (String c "") (s :: s' :: l)) with (s ++ String c (join (String c "") (s' :: l))).
    rewrite split_char_app by done. by rewrite IH.
Qed.

Lemma parse_modifiers modifiers : modifiers <> [] -> Meta ∉ modifiers ->
  parse_modifier_list (join "," (map modifier_as_str modifiers)) = modifiers.
Proof.
  intros Hne Hm. unfold parse_modifier_list. rewrite split_join.
  - clear Hne. induction modifiers as [|m l IH]; [done|]. apply not_elem_of_cons in Hm as [Hm Hl].
    cbn [map omap list_omap]. destruct m; cbn; try done; f_equal; by apply IH.
  - by destruct modifiers.
  - clear. induction modifiers as [|[] l IH]; by constructor.
Qed.

Lemma parse_i32_show z : is_i32 z -> parse_i32 (show_Z z) = Some z.
Proof. intros Hz. apply parse_show_Z; [done|]. unfold i32_min. lia. Qed.

(** What is reported for a command with values that fit. *)
Lemma verb_step_response `{JsonText} v : verb_ok v -> step_to_response (verb_step v) = verb_response v.
Proof.
  destruct v as [id server| | |command| |text| | |file format region display timeout|text|key modifiers
                |button x y double|x y d|x y|x1 y1 x2 y2]; cbn [verb_ok]; intros Hv; try done;
    unfold step_to_response; cbn [verb_step bs_command bs_args verb_response String.eqb Ascii.eqb Bool.eqb].
  - unfold first_non_flag_arg. cbn [first_non_flag_from]. unfold plain_word in Hv. rewrite Hv.
    rewrite flag_value_skip by done. by destruct server.
  - destruct Hv as (Hp & _ & Hr & Hd & Ht). unfold first_non_flag_arg. cbn [first_non_flag_from].
    pose proof Hp as Hp'. unfold plain_word in Hp'. rewrite Hp'. clear Hp'. cbn [default from_option].
    rewrite !flag_value_skip by done. rewrite <- (app_nil_r (opt_flag "--timeout" _ _)).
    rewrite !flag_value_opt by (done || apply format_plain || apply region_text_plain || apply show_Z_plain).
    cbn [String.eqb Ascii.eqb Bool.eqb]. f_equal.
    + destruct format as [[]|]; done.
    + destruct region as [r|]; [|done]. cbn. destruct (Hr r eq_refl) as (? & ? & ? & ?).
      by rewrite region_text_parses.
    + destruct display as [d|]; [|done]. apply parse_i32_show. by apply Hd.
    + destruct timeout as [t|]; [|done]. cbn. unfold parse_u64. specialize (Ht t eq_refl).
      by rewrite parse_show_Z by lia.
  - destruct Hv as [Hp Hm]. unfold first_non_flag_arg. cbn [first_non_flag_from].
    pose proof Hp as Hp'. unfold plain_word in Hp'. rewrite Hp'. rewrite flag_value_skip by done.
    destruct modifiers as [|m l]; [done|]. cbn [flag_value]. cbn [String.eqb Ascii.eqb Bool.eqb fmap option_fmap option_map default from_option].
    by rewrite parse_modifiers.
  - destruct Hv as [Hx Hy]. unfold positional_args. cbn [app positional_from].
    pose proof (show_Z_plain x) as Px. pose proof (show_Z_plain y) as Py. unfold plain_word in Px, Py.
    rewrite Px, Py, !flag_value_skip by apply show_Z_plain || done. unfold arg_i32.
    replace (positional_from false _) with ([] : list string) by (by destruct double).
    cbn [lookup list_lookup mbind option_bind]. rewrite !parse_i32_show by done.
    cbn [default from_option]. f_equal.
    + by destruct button, double.
    + unfold flag_present. cbn [existsb]. rewrite !flag_not_word by apply show_Z_plain.
      by destruct button, double.
  - destruct Hv as (? & ? & ?). unfold arg_i32. cbn. by rewrite !parse_i32_show.
  - destruct Hv as (? & ?). unfold arg_i32. cbn. by rewrite !parse_i32_show.
  - destruct Hv as (? & ? & ? & ?). unfold arg_i32. cbn. by rewrite !parse_i32_show.
Qed.

(** ** Properties of the batch *)

(** The parser inverts the rendering of commands. *)
Lemma parse_verbs vs : Forall verb_ok vs ->
  parse_batch_steps (batch_tokens (map verb_step vs)) = Some (Ok (map verb_step vs)).
Proof.
  intros Hv. unfold parse_batch_steps. apply parse_batch_from_iff; [lia|].
  exists (map verb_step vs). split_and!; [done..|]. apply Forall_map.
  eapply Forall_impl; [exact Hv|]. apply verb_step_grammar.
Qed.

(** C28: commands survive a batch.  A list of commands whose values fit (32-bit coordinates, names that
    are no flags, no [meta]), typed one after the other with the options behind the coordinates, is
    read back as exactly these commands, and each is reported with the values it was given. *)
Theorem batch_commands_roundtrip `{JsonText} vs :
  Forall verb_ok vs ->
  exists steps, parse_batch_steps (batch_tokens (map verb_step vs)) = Some (Ok steps) /\
    map step_to_response steps = map verb_response vs.
Proof.
  intros Hv. exists (map verb_step vs). split; [by apply parse_verbs|].
  rewrite map_map. apply map_ext_Forall. eapply Forall_impl; [exact Hv|]. intros v. apply verb_step_response.
Qed.

(** A printer for the fields of a display. *)
Definition toy_text : JsonText := {| json_text := fun v => match v with Number z => show_Z z | _ => "null" end |}.

Lemma batch_commands_roundtrip_witness :
  let vs := [VConnect "123" (Some "h"); VClick ButtonRight 10 (-20) true; VKey "a" [Ctrl; Alt]; VStatus] in
  exists steps, parse_batch_steps (batch_tokens (map verb_step vs)) = Some (Ok steps) /\
    map (@step_to_response toy_text) steps = map (@verb_response toy_text) vs.
Proof.
  apply (@batch_commands_roundtrip toy_text).
  repeat constructor; cbn; try done. rewrite !elem_of_cons, elem_of_nil. naive_solver.
Defined.

(** Options in front of the coordinates shift them.  [click --double X Y] is accepted as a click,
    but the reader of positional arguments takes X for the value of [--double]: the click is
    reported at (Y, 0).  And [key K --modifiers meta] is reported without a modifier. *)
Theorem batch_misreads `{JsonText} x y k :
  is_i32 x -> is_i32 y -> plain_word k ->
  (let s := mkBatchStep "click" ["--double"; show_Z x; show_Z y] in
   parse_batch_steps (step_tokens s) = Some (Ok [s]) /\
   step_to_response s = click_response ButtonLeft y 0 true) /\
  (let s := mkBatchStep "key" [k; "--modifiers"; "meta"] in
   parse_batch_steps (step_tokens s) = Some (Ok [s]) /\ step_to_response s = key_response k []).
Proof.
  intros Hx Hy Hk. split.
  - split.
    + apply parse_batch_from_iff; [cbn; lia|]. eexists [_]. split_and!; [done..|].
      constructor; [|done]. apply step_click, click_double.
      do 2 (apply click_pos; [apply show_Z_plain|by rewrite show_Z_no_command|]). by apply click_end.
    + unfold step_to_response. cbn [bs_command bs_args String.eqb Ascii.eqb Bool.eqb].
      pose proof (show_Z_plain y) as Py. unfold plain_word in Py.
      unfold positional_args. cbn [positional_from]. rewrite Py.
      change (starts_with "--" "--double") with true. unfold arg_i32.
      cbn [lookup list_lookup mbind option_bind]. rewrite parse_i32_show by done.
      assert (flag_value ["--double"; show_Z x; show_Z y] "--button" = None) as ->; [|done].
      change (flag_value [show_Z x; show_Z y] "--button" = None).
      by rewrite !flag_value_skip by (done || apply show_Z_plain).
  - split.
    + apply parse_batch_from_iff; [cbn; lia|]. eexists [_]. split_and!; [done..|].
      constructor; [|done]. apply step_key, flagged_word; [done|repeat constructor|lia|].
      apply flagged_flag; [in_flags|by constructor].
    + unfold step_to_response. cbn [bs_command bs_args String.eqb Ascii.eqb Bool.eqb].
      unfold first_non_flag_arg. cbn [first_non_flag_from].
      rewrite flag_value_skip by done. unfold plain_word in Hk. by rewrite Hk.
Qed.

Lemma batch_misreads_witness :
  @step_to_response toy_text (mkBatchStep "click" ["--double"; "10"; "20"]) =
  click_response ButtonLeft 20 0 true.
Proof.
  apply (@batch_misreads toy_text 10 20 "a"); [vm_compute; split; congruence..|reflexivity].
Defined.

Lemma capture_response_ok file format region display timeout :
  json_get "ok" (rp_json (capture_response file format region display timeout)) = Some (Bool true).
Proof. by destruct region, display. Qed.

(** Every accepted batch is reported as done. *)
Lemma step_reports_ok `{JsonText} s :
  step_grammar s -> json_get "ok" (rp_json (step_to_response s)) = Some (Bool true).
Proof.
  intros Hs. destruct Hs as [c Hc| | | | | | |args Ha Hv| | | |]; try reflexivity.
  - repeat (apply elem_of_cons in Hc as [->|Hc]; [reflexivity|]). by apply not_elem_of_nil in Hc.
  - apply capture_response_ok.
Qed.
