(* ===== verification/Cli.v ===== *)
(** * The command line process (src/main.rs, with [send_command] of src/daemon.rs)

    [run] after the command line was parsed: permissions, the exchange with the daemon, direct
    connections and what is printed.  clap is not modelled; a command line is its parsed form. *)

From Stdlib Require Import ZArith Lia.
From Stdlib Require Import Strings.Byte Strings.Ascii Strings.String.
From stdpp Require Import base list option numbers.
From S2P Require Import Prelude RustStr Async Transport Crypto Base64 Permissions Json Session Proto.
From S2P Require Import Inbox Terminal Capture FileTransfer Rendezvous Connection Exec Lockfile Daemon.
From S2P Require Import Direct Batch Response.

Local Open Scope Z_scope.
Local Open Scope async_scope.

(** ** The parsed command line *)

(** Where to connect, and as whom. *)
Record Servers : Type := mkServers {
  sv_password : option string;
  sv_server : option string;
  sv_id_server : option string;
  sv_relay_server : option string;
  sv_key : option string
}.

Inductive Commands : Type :=
| CConnect (id : string) (terminal password_stdin : bool) (servers : Servers) (timeout : Z)
| CDisconnect
| CShell
| CExec (command : string) (timeout : Z) (peer : option string) (servers : Servers)
| CPush (local_path remote_path : string) (peer : option string) (servers : Servers) (timeout : Z)
| CClipboardGet
| CClipboardSet (text : string)
| CStatus
| CDisplays
| CCapture (file : option string) (display : option Z) (format : option CaptureFormat) (quality timeout : Z)
           (region : option Region)
| CType (text : string)
| CKey (key : string) (modifiers : list Modifier)
| CClick (button : MouseButton) (double : bool) (x y : Z)
| CScroll (x y delta : Z)
| CMove (x y : Z)
| CDrag (x1 y1 x2 y2 : Z)
| CDo (steps : list string).

Record Cli : Type := mkCli {
  cli_json : bool;
  cli_skip_permissions : bool;
  cli_sandbox : bool;
  cli_command : Commands
}.

(** ** The world of the process *)

(** A connection to the daemon's socket: whether it opens, takes the command and the end of it, the
    lines that come back (each with its line end) and when, and when the daemon closes it, if ever. *)
Record Exchange : Type := mkExchange {
  xc_connect : Res unit;
  xc_write : Res unit;
  xc_shutdown : Res unit;
  xc_lines : list (Z * Res string);
  xc_eof : option Z
}.

(** What does not change: the sandbox files, what the n-th confirmation meets, the password line on
    stdin, the outcome of starting the daemon, where captures go, randomness, clocks, local files
    and the terminal's size. *)
Record CliWorld : Type := mkCliWorld {
  cw_sandbox : SandboxEnv;
  cw_prompt : nat -> Prompt;
  cw_stdin : Res string;
  cw_child : Res unit;
  cw_sinks : OutputSinks;
  cw_rnd : ConnRandom;
  cw_udp : Res unit;
  cw_nanos : Z -> Z;
  cw_file : string -> LocalFile;
  cw_size : option string * option string
}.

Record Host (T : Type) : Type := mkHost {
  h_files : SpawnWorld;
  h_exchanges : list Exchange;      (* the connections to the daemon to come *)
  h_sent : list SessionCommand;     (* what the daemon was sent *)
  h_net : ConnEnv T;                (* the network of direct connections *)
  h_term : LocalTerm;
  h_out : list Output
}.
Arguments mkHost {T} _ _ _ _ _ _.
Arguments h_files {T} _.
Arguments h_exchanges {T} _.
Arguments h_sent {T} _.
Arguments h_net {T} _.
Arguments h_term {T} _.
Arguments h_out {T} _.

(** What [serde_json::from_str::<SessionResponse>] makes of a line. *)
Class ResponseLib : Type := { resp_from_str : string -> Res SessionResponse }.

Section cli.
Context {T : Type} `{Transport T} `{CryptoLib} `{ProtoCodec Message} `{ProtoCodec IdPk}
  `{ProtoCodec RendezvousMessage} `{ServerKeyLib} `{Zstd} `{LockLib} `{ResponseLib} `{JsonText}.
Context (w : CliWorld).

Definition set_files (f : SpawnWorld) (h : Host T) : Host T :=
  mkHost f (h_exchanges h) (h_sent h) (h_net h) (h_term h) (h_out h).
Definition set_exchanges (x : list Exchange) (h : Host T) : Host T :=
  mkHost (h_files h) x (h_sent h) (h_net h) (h_term h) (h_out h).
Definition add_sent (c : SessionCommand) (h : Host T) : Host T :=
  mkHost (h_files h) (h_exchanges h) (h_sent h ++ [c]) (h_net h) (h_term h) (h_out h).
Definition set_net (n : ConnEnv T) (h : Host T) : Host T :=
  mkHost (h_files h) (h_exchanges h) (h_sent h) n (h_term h) (h_out h).
Definition set_net_term (x : ConnEnv T * LocalTerm) (h : Host T) : Host T :=
  mkHost (h_files h) (h_exchanges h) (h_sent h) x.1 x.2 (h_out h).
Definition add_out (o : list Output) (h : Host T) : Host T :=
  mkHost (h_files h) (h_exchanges h) (h_sent h) (h_net h) (h_term h) (h_out h ++ o).

Definition print (o : list Output) : M (Host T) unit := modify (add_out o).
Definition emit (json : bool) (r : Response) : M (Host T) Z :=
  print (emit_response json r) ;;; ret (rp_exit_code r).
Definition emit_error (json : bool) (command code message : string) (exit_code : Z) : M (Host T) Z :=
  emit json (error_response command code message exit_code).

(** ** Talking to the daemon *)

Definition daemon_running : M (Host T) bool := zoom h_files set_files (on_disk is_daemon_running).

(** Open the socket named by the lock file and write the command; the exchange is what follows.
    [c] is the context given to a failed connection. *)
Definition open_exchange (c : option string) (cmd : SessionCommand) : M (Host T) Exchange :=
  let* _ := zoom h_files set_files (on_disk lock_read) in
  let* h := get in
  match h_exchanges h with
  | [] => pending
  | x :: rest =>
    modify (set_exchanges rest) ;;;
    lift (match c with Some c => map_err (add_context c) (xc_connect x) | None => xc_connect x end) ;;;
    lift (xc_write x) ;;;
    modify (add_sent cmd) ;;;
    lift (xc_shutdown x) ;;;
    ret x
  end.

(** [read_line]: the next line, or the empty line at the end of the stream. *)
Definition read_line (x : Exchange) : M (Host T) (string * Exchange) :=
  match xc_lines x with
  | (a, r) :: rest =>
    wait_until a ;;;
    let* line := lift r in
    ret (line, mkExchange (xc_connect x) (xc_write x) (xc_shutdown x) rest (xc_eof x))
  | [] => match xc_eof x with
          | Some a => wait_until a ;;; ret (""%string, x)
          | None => pending
          end
  end.

(** [send_command] *)
Definition send_command (cmd : SessionCommand) : M (Host T) SessionResponse :=
  let* x := open_exchange (Some "Failed to connect to daemon socket. Is the session still alive?"%string) cmd in
  let* '(line, _) := read_line x in
  lift (resp_from_str (trim line)).

(** [send_to_daemon_streaming]; [on_response] returns its own variable. *)
Definition stream_step {X} (on_response : X -> SessionResponse -> M (Host T) X)
    (st : X * option SessionResponse * Exchange)
    : M (Host T) (X * option SessionResponse * Exchange + X * option SessionResponse) :=
  let '(v, last_response, x) := st in
  let* '(line, x) := read_line x in
  if is_empty line then ret (inr (v, last_response))
  else if is_empty (trim line) then ret (inl (v, last_response, x))
  else
    let* response := lift (resp_from_str (trim line)) in
    let* v := on_response v response in
    ret (inl (v, Some response, x)).

Definition send_to_daemon_streaming {X} (v : X) (cmd : SessionCommand)
    (on_response : X -> SessionResponse -> M (Host T) X) : M (Host T) (X * SessionResponse) :=
  let* x := open_exchange None cmd in
  let* '(v, last_response) :=
    iter (S (S (length (xc_lines x)))) (stream_step on_response) (v, None, x) in
  match last_response with
  | Some r => ret (v, r)
  | None => fail (anyhow "daemon closed without sending a response")
  end.

(** The three outcomes of a command sent to the daemon. *)
Definition on_reply (json : bool) (name failed : string) (r : Res SessionResponse)
    (k : SessionResponse -> M (Host T) Z) : M (Host T) Z :=
  match r with
  | Ok resp =>
    if sr_success resp then k resp
    else emit_error json name "connection_error" (default failed (sr_message resp)) EXIT_CONNECTION
  | Err e => emit_error json name "connection_error" (error_to_string e) EXIT_CONNECTION
  end.
Definition ask_daemon (json : bool) (name failed : string) (cmd : SessionCommand)
    (k : SessionResponse -> M (Host T) Z) : M (Host T) Z :=
  let* r := try (send_command cmd) in on_reply json name failed r k.

(** [resp.data.unwrap_or_else(|| json!({}))] and a field of it. *)
Definition resp_data (resp : SessionResponse) : Value := default (object []) (sr_data resp).
Definition data_str (key : string) (d : Value) : option string := json_get key d ≫= as_str.
Definition data_u64 (key : string) (d : Value) : Z := default 0 (json_get key d ≫= as_u64).

(** A permission check; a refusal is printed and ends the command. *)
Definition permitted (json : bool) (name : string) (check : Res unit) (k : M (Host T) Z) : M (Host T) Z :=
  match check with
  | Err e => emit_error json name "permission_error" (error_to_string e) EXIT_PERMISSION
  | Ok _ => k
  end.

(** ** The commands *)

Definition direct_config (peer : string) (sv : Servers) : ConnConfig :=
  build_direct_connection_config peer (sv_password sv) (sv_server sv) (sv_id_server sv) (sv_relay_server sv)
    (sv_key sv).

Definition run_connect (json : bool) (pm : PermissionManager) (id : string) (terminal_mode password_stdin : bool)
    (sv : Servers) (timeout : Z) : M (Host T) Z :=
  match sv_password sv, password_stdin with
  | Some _, true =>
    print [ErrLine "error: --password and --password-stdin are mutually exclusive"%string] ;;; ret EXIT_INPUT
  | _, _ =>
    let password :=
      if password_stdin then
        match cw_stdin w with
        | Ok line => if is_empty line then None else Some (Some (trim_end_matches [LF] line))
        | Err _ => None
        end
      else Some (sv_password sv) in
    match password with
    | None => print [ErrLine "error: failed to read password from stdin"%string] ;;; ret EXIT_INPUT
    | Some password =>
      let sv := mkServers password (sv_server sv) (sv_id_server sv) (sv_relay_server sv) (sv_key sv) in
      permitted json "connect" (ensure_connect_allowed pm (cw_prompt w 0) id)
        (if terminal_mode then
           if json then
             emit_error json "connect" "input_error"
               "--json is not supported with interactive --terminal mode" EXIT_INPUT
           else
             let* r := try (zoom (fun h => (h_net h, h_term h)) set_net_term
                              (run_terminal_session (cw_rnd w) (cw_udp w) (direct_config id sv)
                                 (cw_size w).1 (cw_size w).2)) in
             match r with
             | Ok _ => ret EXIT_SUCCESS
             | Err e => emit_error json "connect" "connection_error" (error_to_string e) EXIT_CONNECTION
             end
         else
           let* r := try (zoom h_files set_files (spawn_daemon (cw_child w) (Some timeout))) in
           match r with
           | Ok _ => emit json (connect_response id (sv_server sv))
           | Err e => emit_error json "connect" "connection_error" (error_to_string e) EXIT_CONNECTION
           end)
    end
  end.

Definition run_disconnect (json : bool) : M (Host T) Z :=
  let* was_connected := daemon_running in
  if negb was_connected then emit_error json "disconnect" "session_error" "No active session" EXIT_SESSION
  else
    let* _ := try (send_command CmdDisconnect) in
    emit json (disconnect_response true).

Definition run_shell (json : bool) (pm : PermissionManager) : M (Host T) Z :=
  permitted json "shell" (ensure_shell_allowed pm (cw_prompt w 0))
    (ask_daemon json "shell" "shell failed" CmdShell (fun _ => emit json shell_response)).

(** What is printed for a streamed response of [exec]; the flag is [streamed_output]. *)
Definition on_exec_response (json streamed : bool) (resp : SessionResponse) : M (Host T) bool :=
  match sr_data resp with
  | None => ret streamed
  | Some data =>
    if bool_decide (data_str "kind" data <> Some "chunk"%string) then ret streamed
    else if json then ret streamed
    else match data_str "chunk" data with
         | Some chunk => print [OutText chunk] ;;; ret true
         | None => ret streamed
         end
  end.

(** The response of a direct command. *)
Definition direct_exec_response (command stdout : string) (exit_code : Z) (timed_out : bool) : Response :=
  mkResponse ("exec exit_code=" ++ show_Z exit_code ++ " stdout=" ++ stdout)%string
    (object [("ok", Bool true); ("command", Str "exec");
             ("data", object [("command", Str command); ("stdout", Str stdout); ("stderr", Str "");
                              ("exit_code", Number exit_code); ("timed_out", Bool timed_out)])]%string)
    EXIT_SUCCESS.

Definition run_exec (json : bool) (pm : PermissionManager) (command : string) (timeout : Z)
    (peer : option string) (sv : Servers) : M (Host T) Z :=
  permitted json "exec" (ensure_exec_allowed pm (cw_prompt w 0) command)
    match peer with
    | Some peer_id =>
      permitted json "exec" (ensure_connect_allowed pm (cw_prompt w 1) peer_id)
        (let* t := now in
         let* r := try (zoom h_net set_net (direct_exec (cw_rnd w) (cw_udp w) (cw_nanos w t)
                          (direct_config peer_id sv) timeout command)) in
         match r with
         | Ok (stdout, exit_code, timed_out) =>
           emit json (direct_exec_response command stdout exit_code timed_out)
         | Err e => emit_error json "exec" "connection_error" (error_to_string e) EXIT_CONNECTION
         end)
    | None =>
      let* r := try (send_to_daemon_streaming false (CmdExec command (Some timeout)) (on_exec_response json)) in
      let streamed := match r with Ok (v, _) => v | Err _ => false end in
      on_reply json "exec" "exec failed" (snd <$> r) (fun resp =>
        let data := resp_data resp in
        let stdout := default ""%string (data_str "stdout" data) in
        let stderr := default ""%string (data_str "stderr" data) in
        let exit_code := swrap 32 (default 0 (json_get "exit_code" data ≫= as_i64)) in
        if json then emit json (exec_response command stdout stderr exit_code)
        else if (streamed : bool) then
          emit json (exec_streaming_response exit_code (default false (json_get "timed_out" data ≫= as_bool)))
        else emit json (exec_response command stdout stderr exit_code))
    end.

Definition on_push_response (json : bool) (_ : unit) (resp : SessionResponse) : M (Host T) unit :=
  if json then ret tt
  else match sr_data resp with
       | None => ret tt
       | Some data =>
         if bool_decide (data_str "kind" data <> Some "progress"%string) then ret tt
         else print [ErrProgress (data_u64 "sent_bytes" data) (data_u64 "total_bytes" data)
                       (data_u64 "resumed_bytes" data)]
       end.

(** [eprintln!()] unless in JSON mode. *)
Definition end_progress (json : bool) : M (Host T) unit := if json then ret tt else print [ErrLine ""].

Definition show_progress (p : PushProgress) : Output :=
  ErrProgress (pp_sent_bytes p) (pp_total_bytes p) (pp_resumed_bytes p).

(** [direct_push] ends the progress line itself when it succeeds; that line end is printed here. *)
Definition run_push (json : bool) (pm : PermissionManager) (local_path remote_path : string)
    (peer : option string) (sv : Servers) (timeout : Z) : M (Host T) Z :=
  permitted json "push" (ensure_push_allowed pm (cw_prompt w 0) local_path remote_path)
    match peer with
    | Some peer_id =>
      permitted json "push" (ensure_connect_allowed pm (cw_prompt w 1) peer_id)
        (let* t := now in
         let* r := try (zoom (fun h => (h_net h, []))
             (fun x h => add_out (map show_progress x.2) (set_net x.1 h))
             (direct_push (cw_rnd w) (cw_udp w) (cw_file w local_path) (cw_nanos w t)
                (direct_config peer_id sv) timeout local_path remote_path json)) in
         match r with
         | Ok (sent, total, resumed) =>
           end_progress json ;;;
           emit json (push_response local_path remote_path sent total resumed)
         | Err e => emit_error json "push" "connection_error" (error_to_string e) EXIT_CONNECTION
         end)
    | None =>
      let* r := try (send_to_daemon_streaming tt (CmdPush local_path remote_path) (on_push_response json)) in
      end_progress json ;;;
      on_reply json "push" "push failed" (snd <$> r) (fun resp =>
        let data := resp_data resp in
        emit json (push_response local_path remote_path (data_u64 "sent_bytes" data)
                     (data_u64 "total_bytes" data) (data_u64 "resumed_bytes" data)))
    end.

Definition run_status (json : bool) : M (Host T) Z :=
  let* running := daemon_running in
  if negb running then emit json status_response
  else
    let* r := try (send_command CmdStatus) in
    match r with
    | Ok resp =>
      if sr_success resp
      then emit json (status_connected_response (default "unknown"%string (data_str "peer_id" (resp_data resp))))
      else emit json status_response
    | Err _ => emit json status_response
    end.

Definition displays_listing (displays : list Value) : Response :=
  mkResponse (displays_text (map display_line displays))
    (object [("ok", Bool true); ("command", Str "displays"); ("displays", Array displays)]%string) EXIT_SUCCESS.

Definition run_displays (json : bool) : M (Host T) Z :=
  ask_daemon json "displays" "displays failed" CmdDisplays (fun resp =>
    emit json (displays_listing (default [] (json_get "displays" (resp_data resp) ≫= as_array)))).

(** One-pixel images. *)
Definition fake_capture_payload (format : CaptureFormat) : bytes :=
  map byte_of_Z
    match format with
    | Png =>
      [0x89; 0x50; 0x4E; 0x47; 0x0D; 0x0A; 0x1A; 0x0A; 0x00; 0x00; 0x00; 0x0D; 0x49; 0x48; 0x44; 0x52; 0x00; 0x00;
       0x00; 0x01; 0x00; 0x00; 0x00; 0x01; 0x08; 0x06; 0x00; 0x00; 0x00; 0x1F; 0x15; 0xC4; 0x89; 0x00; 0x00; 0x00;
       0x0D; 0x49; 0x44; 0x41; 0x54; 0x78; 0x9C; 0x63; 0xF8; 0xCF; 0xC0; 0xF0; 0x1F; 0x00; 0x05; 0x00; 0x01; 0xFF;
       0x89; 0x99; 0x3D; 0x1D; 0x00; 0x00; 0x00; 0x00; 0x49; 0x45; 0x4E; 0x44; 0xAE; 0x42; 0x60; 0x82]
    | Jpg =>
      [0xFF; 0xD8; 0xFF; 0xE0; 0x00; 0x10; 0x4A; 0x46; 0x49; 0x46; 0x00; 0x01; 0x01; 0x01; 0x00; 0x48; 0x00; 0x48;
       0x00; 0x00; 0xFF; 0xD9]
    end.

(** [write_capture_output], recording what was written. *)
Definition write_capture (data : bytes) (file : option string) : M (Host T) unit :=
  lift (write_capture_output (cw_sinks w) data file) ;;;
  print [match file with Some f => OutFile f data | None => OutBytes data end].

Definition run_capture (json : bool) (file : option string) (display : option Z) (format : option CaptureFormat)
    (quality timeout : Z) (region : option Region) : M (Host T) Z :=
  let error message := emit_error json "capture" "connection_error" message EXIT_CONNECTION in
  let* running := daemon_running in
  if negb running then
    match file with
    | Some f => emit json (capture_response f (default (infer_format f) format) region display timeout)
    | None =>
      let* r := try (write_capture (fake_capture_payload Png) None) in
      match r with
      | Ok _ => ret EXIT_SUCCESS
      | Err e => error (error_to_string e)
      end
    end
  else
    let response_format := match format with
                           | Some f => f
                           | None => match file with Some f => infer_format f | None => Png end
                           end in
    ask_daemon json "capture" "capture failed"
      (CmdCapture (default ""%string file) (Some (format_as_str response_format)) (Some quality)
         (to_capture_region <$> region) display (Some timeout))
      (fun resp =>
        match sr_data resp with
        | None => error "capture response missing image bytes"%string
        | Some data =>
          match Base64.Capture.base64_decode (default ""%string (data_str "bytes_b64" data)) with
          | Err e => error ("invalid capture payload: " ++ error_to_string e)%string
          | Ok bytes =>
            let* r := try (write_capture bytes file) in
            match r with
            | Err e => error (error_to_string e)
            | Ok _ =>
              match file with
              | None => if negb json then ret EXIT_SUCCESS
                        else emit json (capture_result_response file response_format region display timeout
                                          (Z.of_nat (length bytes)))
              | Some _ => emit json (capture_result_response file response_format region display timeout
                                       (Z.of_nat (length bytes)))
              end
            end
          end
        end).

Definition run_do (json : bool) (steps : list string) : M (Host T) Z :=
  let emit_batch (r : BatchResponse) := print (emit_batch_response json r) ;;; ret (br_exit_code r) in
  let* running := daemon_running in
  if negb running then
    emit_batch (mkBatchResponse ["session_error: No active session"%string]
      (object [("ok", Bool false); ("command", Str "do");
               ("error", object [("code", Str "session_error"); ("message", Str "No active session")])]%string)
      EXIT_SESSION)
  else match parse_batch_steps steps with
       | Some (Ok parsed) => emit_batch (do_response parsed)
       | Some (Err message) => emit_batch (batch_error_response message)
       | None => fun _ t h => (Spin, t, h)
       end.

Definition run_clipboard_get (json : bool) : M (Host T) Z :=
  ask_daemon json "clipboard" "clipboard get failed" CmdClipboardGet (fun resp =>
    emit json (clipboard_get_response (default "stub clipboard text"%string (data_str "text" (resp_data resp))))).

Definition run_clipboard_set (json : bool) (text : string) : M (Host T) Z :=
  ask_daemon json "clipboard" "clipboard set failed" (CmdClipboardSet text)
    (fun _ => emit json (clipboard_set_response text)).

Definition run_type (json : bool) (text : string) : M (Host T) Z :=
  ask_daemon json "type" "type failed" (CmdType text) (fun _ => emit json (type_response text)).

(** The modifiers are reported and not sent. *)
Definition run_key (json : bool) (key : string) (modifiers : list Modifier) : M (Host T) Z :=
  ask_daemon json "key" "key failed" (CmdKey key) (fun _ => emit json (key_response key modifiers)).

Definition run_click (json : bool) (button : MouseButton) (double : bool) (x y : Z) : M (Host T) Z :=
  ask_daemon json "click" "click failed" (CmdClick x y (button_as_str button) double)
    (fun _ => emit json (click_response button x y double)).

Definition run_scroll (json : bool) (x y delta : Z) : M (Host T) Z :=
  ask_daemon json "scroll" "scroll failed" (CmdScroll x y delta) (fun _ => emit json (scroll_response x y delta)).

Definition run_move (json : bool) (x y : Z) : M (Host T) Z :=
  ask_daemon json "move" "move failed" (CmdMove x y) (fun _ => emit json (move_response x y)).

Definition run_drag (json : bool) (x1 y1 x2 y2 : Z) : M (Host T) Z :=
  ask_daemon json "drag" "drag failed" (CmdDrag x1 y1 x2 y2 "left") (fun _ => emit json (drag_response x1 y1 x2 y2)).

(** [run], after parsing: the exit code. *)
Definition run_cli (cli : Cli) : M (Host T) Z :=
  let json := cli_json cli in
  match from_flags (cw_sandbox w) (cli_skip_permissions cli) (cli_sandbox cli) with
  | Err e => emit_error json "permissions" "permission_error" (error_to_string e) EXIT_PERMISSION
  | Ok pm =>
    match cli_command cli with
    | CConnect id terminal password_stdin sv timeout =>
      run_connect json pm id terminal password_stdin sv timeout
    | CDisconnect => run_disconnect json
    | CShell => run_shell json pm
    | CExec command timeout peer sv => run_exec json pm command timeout peer sv
    | CPush local remote peer sv timeout => run_push json pm local remote peer sv timeout
    | CClipboardGet => run_clipboard_get json
    | CClipboardSet text => run_clipboard_set json text
    | CStatus => run_status json
    | CDisplays => run_displays json
    | CCapture file display format quality timeout region =>
      run_capture json file display format quality timeout region
    | CType text => run_type json text
    | CKey key modifiers => run_key json key modifiers
    | CClick button double x y => run_click json button double x y
    | CScroll x y delta => run_scroll json x y delta
    | CMove x y => run_move json x y
    | CDrag x1 y1 x2 y2 => run_drag json x1 y1 x2 y2
    | CDo steps => run_do json steps
    end
  end.
End cli.
