(* ===== verification/Wire.v ===== *)
(** * The lines on the daemon's socket

    Requests and responses travel as one line of JSON each, written and read by serde.  What the
    program relies on is stated as laws of the two directions; a small codec of our own satisfies
    them. *)

From Stdlib Require Import ZArith Lia.
From Stdlib Require Import Strings.Byte Strings.Ascii Strings.String.
From stdpp Require Import base list option numbers countable strings.
From S2P Require Import Prelude RustStr Json Session Exec DaemonLoop Cli.

Local Open Scope Z_scope.

(** The serializing half of serde for the two kinds of line, and what a line gives back. *)
Class WireLib : Type := {
  cmd_to_string : SessionCommand -> string;
  resp_to_string : SessionResponse -> string
}.
Definition newline (s : string) : string := (s ++ String LF "")%string.
Class WireLaws (W : WireLib) (C : CommandLib) (R : ResponseLib) : Prop := {
  cmd_round : forall c, cmd_from_str (cmd_to_string c) = Ok c;
  cmd_trim : forall c, trim (newline (cmd_to_string c)) = cmd_to_string c;
  resp_round : forall r, resp_from_str (resp_to_string r) = Ok r;
  resp_trim : forall r, trim (newline (resp_to_string r)) = resp_to_string r;
  resp_text : forall r, is_empty (resp_to_string r) = false
}.

(** ** Values as trees, and trees as digits *)

Fixpoint value_tree (v : Value) : gen_tree (string + Z) :=
  match v with
  | Null => GenNode 0 []
  | Bool b => GenNode (if b then 2 else 1) []
  | Number z => GenLeaf (inr z)
  | Str s => GenLeaf (inl s)
  | Array l => GenNode 3 (map value_tree l)
  | Object m => GenNode 4 (map (fun kv => GenNode 5 [GenLeaf (inl kv.1); value_tree kv.2]) m)
  end.
Fixpoint tree_value (t : gen_tree (string + Z)) : Value :=
  match t with
  | GenLeaf (inl s) => Str s
  | GenLeaf (inr z) => Number z
  | GenNode 0 _ => Null
  | GenNode 1 _ => Bool false
  | GenNode 2 _ => Bool true
  | GenNode 3 l => Array (map tree_value l)
  | GenNode _ l =>
    Object (map (fun t => match t with
                          | GenNode _ [GenLeaf (inl k); v] => (k, tree_value v)
                          | _ => (""%string, Null)
                          end) l)
  end.

Fixpoint tree_value_tree (v : Value) : tree_value (value_tree v) = v.
Proof.
  destruct v as [|[]| | |l|m]; try reflexivity; cbn [value_tree tree_value]; rewrite map_map; f_equal.
  - induction l as [|v l IH]; [reflexivity|]. cbn [map]. f_equal; [apply tree_value_tree|exact IH].
  - induction m as [|[k v] m IH]; [reflexivity|]. cbn [map fst snd].
    f_equal; [f_equal; apply tree_value_tree|exact IH].
Qed.

Fixpoint digits (p : positive) : list ascii :=
  match p with xH => ["2"%char] | xO p => "0"%char :: digits p | xI p => "1"%char :: digits p end.
Fixpoint of_digits (l : list ascii) : option positive :=
  match l with
  | [] => None
  | c :: l =>
    if Ascii.eqb c "2" then Some xH
    else if Ascii.eqb c "0" then xO <$> of_digits l
    else xI <$> of_digits l
  end.
Lemma of_digits_digits p : of_digits (digits p) = Some p.
Proof. by induction p as [p IH|p IH|]; cbn; rewrite ?IH. Qed.

Definition value_line (v : Value) : string := string_of_list_ascii (digits (encode (value_tree v))).
Definition line_value (s : string) : option Value := tree_value <$> (of_digits (list_ascii_of_string s) ≫= decode).

Lemma line_value_line v : line_value (value_line v) = Some v.
Proof.
  unfold line_value, value_line. rewrite list_ascii_of_string_of_list_ascii, of_digits_digits.
  cbn [mbind option_bind]. rewrite decode_encode. cbn. by rewrite tree_value_tree.
Qed.

(** *** Digits are not white space *)

Lemma chars_plain l : Forall (fun c => ascii_Z c < 128) l ->
  chars (string_of_list_ascii l) = map (fun c => String c "") l.
Proof.
  unfold chars. intros Hl. induction Hl as [|c l Hc _ IH]; [done|]. cbn.
  unfold char_width. replace (ascii_Z c <? 128) with true by lia. cbn [str_take str_drop]. by rewrite IH.
Qed.
Lemma concat_plain l : concat_str (map (fun c => String c "") l) = string_of_list_ascii l.
Proof. unfold concat_str. induction l as [|c l IH]; [done|]. cbn. by rewrite IH. Qed.
Lemma append_ascii l c : (string_of_list_ascii l ++ String c "")%string = string_of_list_ascii (l ++ [c]).
Proof. induction l as [|x l IH]; [done|]. cbn. by rewrite IH. Qed.

Lemma trim_plain l : l <> [] ->
  Forall (fun c => ascii_Z c < 128 /\ is_whitespace (String c "") = false) l ->
  trim (newline (string_of_list_ascii l)) = string_of_list_ascii l.
Proof.
  intros Hn Hl. unfold newline, trim. rewrite append_ascii, chars_plain.
  2:{ apply Forall_app. split; [|by repeat constructor]. eapply Forall_impl; [exact Hl|]. by intros c []. }
  rewrite map_app. cbn [map].
  assert (forall l r, l <> [] -> Forall (fun c => ascii_Z c < 128 /\ is_whitespace (String c "") = false) l ->
    drop_while is_whitespace (map (fun c => String c "") l ++ r) = map (fun c => String c "") l ++ r) as Hd.
  { intros l0 r Hn0 Hl0. destruct Hl0 as [|c l0 [_ Hc] _]; [done|]. cbn [map app drop_while]. by rewrite Hc. }
  rewrite Hd by done. rewrite rev_app_distr. cbn [rev app drop_while].
  change (is_whitespace (String LF "")) with true. cbv iota.
  rewrite <- map_rev, <- (app_nil_r (map _ (rev l))), Hd.
  - rewrite app_nil_r, map_rev, rev_involutive. apply concat_plain.
  - intros E. apply (f_equal (@rev _)) in E. rewrite rev_involutive in E. done.
  - by apply Forall_rev.
Qed.

Lemma value_line_trim v : trim (newline (value_line v)) = value_line v.
Proof.
  unfold value_line. generalize (encode (value_tree v)) as p. intros p. apply trim_plain; [by destruct p|].
  induction p as [p IH|p IH|]; constructor; try done; repeat constructor.
Qed.
Lemma value_line_text v : is_empty (value_line v) = false.
Proof. unfold value_line. by destruct (encode (value_tree v)). Qed.

(** ** Requests and responses as values *)

Definition opt_list {A} (f : A -> Value) (o : option A) : Value :=
  Array (match o with Some a => [f a] | None => [] end).
Definition un_opt {A} (f : Value -> option A) (v : Value) : option (option A) :=
  match v with Array [] => Some None | Array [x] => Some <$> f x | _ => None end.
Definition un_number (v : Value) : option Z := match v with Number z => Some z | _ => None end.
Definition region_value (r : CaptureRegion) : Value :=
  Array [Number (region_x r); Number (region_y r); Number (region_w r); Number (region_h r)].
Definition un_region (v : Value) : option CaptureRegion :=
  match v with
  | Array [Number x; Number y; Number w; Number h] => Some (mkCaptureRegion x y w h)
  | _ => None
  end.

Lemma un_opt_list {A} (f : A -> Value) g o : (forall a, g (f a) = Some a) -> un_opt g (opt_list f o) = Some o.
Proof. intros Hg. destruct o; cbn; by rewrite ?Hg. Qed.

Definition resp_value (r : SessionResponse) : Value :=
  Array [Bool (sr_success r); opt_list Str (sr_message r); opt_list id (sr_data r)].
Definition value_resp (v : Value) : option SessionResponse :=
  match v with
  | Array [Bool b; m; d] =>
    m ← un_opt as_str m; d ← un_opt Some d; Some (mkSessionResponse b m d)
  | _ => None
  end.

Definition cmd_value (c : SessionCommand) : Value :=
  match c with
  | CmdConnect p pw s => Array [Number 0; Str p; opt_list Str pw; opt_list Str s]
  | CmdDisconnect => Number 1
  | CmdShell => Number 2
  | CmdExec s t => Array [Number 3; Str s; opt_list Number t]
  | CmdPush l r => Array [Number 4; Str l; Str r]
  | CmdClipboardGet => Number 5
  | CmdClipboardSet s => Array [Number 6; Str s]
  | CmdCapture o f q r d t =>
    Array [Number 7; Str o; opt_list Str f; opt_list Number q; opt_list region_value r; opt_list Number d;
           opt_list Number t]
  | CmdType s => Array [Number 8; Str s]
  | CmdKey s => Array [Number 9; Str s]
  | CmdClick x y b dbl => Array [Number 10; Number x; Number y; Str b; Bool dbl]
  | CmdDrag x y x2 y2 b => Array [Number 11; Number x; Number y; Number x2; Number y2; Str b]
  | CmdScroll x y z => Array [Number 12; Number x; Number y; Number z]
  | CmdMove x y => Array [Number 13; Number x; Number y]
  | CmdStatus => Number 14
  | CmdDisplays => Number 15
  end.
Definition value_cmd (v : Value) : option SessionCommand :=
  match v with
  | Number 1 => Some CmdDisconnect
  | Number 2 => Some CmdShell
  | Number 5 => Some CmdClipboardGet
  | Number 14 => Some CmdStatus
  | Number 15 => Some CmdDisplays
  | Array [Number 0; Str p; pw; s] =>
    pw ← un_opt as_str pw; s ← un_opt as_str s; Some (CmdConnect p pw s)
  | Array [Number 3; Str s; t] => CmdExec s <$> un_opt un_number t
  | Array [Number 4; Str l; Str r] => Some (CmdPush l r)
  | Array [Number 6; Str s] => Some (CmdClipboardSet s)
  | Array [Number 7; Str o; f; q; r; d; t] =>
    f ← un_opt as_str f; q ← un_opt un_number q; r ← un_opt un_region r; d ← un_opt un_number d;
    t ← un_opt un_number t; Some (CmdCapture o f q r d t)
  | Array [Number 8; Str s] => Some (CmdType s)
  | Array [Number 9; Str s] => Some (CmdKey s)
  | Array [Number 10; Number x; Number y; Str b; Bool dbl] => Some (CmdClick x y b dbl)
  | Array [Number 11; Number x; Number y; Number x2; Number y2; Str b] => Some (CmdDrag x y x2 y2 b)
  | Array [Number 12; Number x; Number y; Number z] => Some (CmdScroll x y z)
  | Array [Number 13; Number x; Number y] => Some (CmdMove x y)
  | _ => None
  end.

Lemma value_resp_value r : value_resp (resp_value r) = Some r.
Proof. destruct r as [b [m|] [d|]]; reflexivity. Qed.
Lemma value_cmd_value c : value_cmd (cmd_value c) = Some c.
Proof.
  destruct c as [p pw s| | |s t| | | |o f q r d t| | | | | | | |]; try reflexivity;
    unfold value_cmd, cmd_value; rewrite ?un_opt_list by (by intros []); cbn [mbind option_bind fmap option_fmap option_map];
    rewrite ?un_opt_list by (by intros []); reflexivity.
Qed.

Definition toy_wire : WireLib := {|
  cmd_to_string := fun c => value_line (cmd_value c);
  resp_to_string := fun r => value_line (resp_value r)
|}.
Definition read_as {A} (f : Value -> option A) (s : string) : Res A :=
  match line_value s ≫= f with Some a => Ok a | None => Err (anyhow "expected value at line 1 column 1") end.
Definition toy_wire_commands : CommandLib := {| cmd_from_str := read_as value_cmd |}.
Definition toy_wire_responses : ResponseLib := {| resp_from_str := read_as value_resp |}.

Lemma toy_wire_laws : WireLaws toy_wire toy_wire_commands toy_wire_responses.
Proof.
  constructor.
  - intros c. cbn. unfold read_as. rewrite line_value_line. cbn [mbind option_bind]. by rewrite value_cmd_value.
  - intros c. apply value_line_trim.
  - intros r. cbn. unfold read_as. rewrite line_value_line. cbn [mbind option_bind]. by rewrite value_resp_value.
  - intros r. apply value_line_trim.
  - intros r. apply value_line_text.
Qed.
