(* ===== verification/CliSpec.v ===== *)
(** * What the command line process guarantees

    Permissions stand before everything a command line sends or connects to; in JSON mode it
    prints one object whose [ok] agrees with the exit code; what a plain command reports. *)

From Stdlib Require Import ZArith Lia.
From Stdlib Require Import Strings.Byte Strings.Ascii Strings.String.
From stdpp Require Import base list option numbers gmap strings.
From S2P Require Import Prelude RustStr Async Transport Crypto Base64 Permissions Json Session.
From S2P Require Import Proto Inbox Terminal Capture FileTransfer Rendezvous Connection Exec.
From S2P Require Import Lockfile Daemon DaemonLoop Direct Batch Response Cli Wire.

Local Open Scope Z_scope.
Local Open Scope async_scope.

(** ** The gate *)

Section gate.
Context {T : Type} `{Transport T} `{CryptoLib} `{ProtoCodec Message} `{ProtoCodec IdPk}
  `{ProtoCodec RendezvousMessage} `{ServerKeyLib} `{Zstd} `{LockLib} `{ResponseLib} `{JsonText}.
Context (w : CliWorld) (pm : PermissionManager).

(** A command that may be sent: the ones that run something or write a file are checked. *)
Definition cmd_permitted (c : SessionCommand) : Prop :=
  match c with
  | CmdExec command _ => ensure_exec_allowed pm (cw_prompt w 0) command = Ok tt
  | CmdShell => ensure_shell_allowed pm (cw_prompt w 0) = Ok tt
  | CmdPush local remote => ensure_push_allowed pm (cw_prompt w 0) local remote = Ok tt
  | _ => True
  end.

(** What a command line asks of the daemon. *)
Definition daemon_command (c : Commands) : option SessionCommand :=
  match c with
  | CDisconnect => Some CmdDisconnect
  | CShell => Some CmdShell
  | CExec command timeout None _ => Some (CmdExec command (Some timeout))
  | CPush local remote None _ _ => Some (CmdPush local remote)
  | CClipboardGet => Some CmdClipboardGet
  | CClipboardSet text => Some (CmdClipboardSet text)
  | CStatus => Some CmdStatus
  | CDisplays => Some CmdDisplays
  | CCapture file display format quality timeout region =>
    let format := match format, file with
                  | Some f, _ => f
                  | None, Some f => infer_format f
                  | None, None => Png
                  end in
    Some (CmdCapture (default ""%string file) (Some (format_as_str format)) (Some quality)
            (to_capture_region <$> region) display (Some timeout))
  | CType text => Some (CmdType text)
  | CKey key _ => Some (CmdKey key)
  | CClick button double x y => Some (CmdClick x y (button_as_str button) double)
  | CScroll x y delta => Some (CmdScroll x y delta)
  | CMove x y => Some (CmdMove x y)
  | CDrag x1 y1 x2 y2 => Some (CmdDrag x1 y1 x2 y2 "left")
  | CConnect _ _ _ _ _ | CExec _ _ (Some _) _ | CPush _ _ (Some _) _ _ | CDo _ => None
  end.
Definition sendable (c : Commands) (cmd : SessionCommand) : Prop :=
  daemon_command c = Some cmd /\ cmd_permitted cmd.

(** The peer a command line connects to by itself is allowed, and so is what it wants there. *)
Definition direct_permitted (c : Commands) : Prop :=
  match c with
  | CConnect id true _ _ _ => ensure_connect_allowed pm (cw_prompt w 0) id = Ok tt
  | CExec command _ (Some peer) _ =>
    ensure_exec_allowed pm (cw_prompt w 0) command = Ok tt /\
    ensure_connect_allowed pm (cw_prompt w 1) peer = Ok tt
  | CPush local remote (Some peer) _ _ =>
    ensure_push_allowed pm (cw_prompt w 0) local remote = Ok tt /\
    ensure_connect_allowed pm (cw_prompt w 1) peer = Ok tt
  | _ => False
  end.

Definition gated (c : Commands) (n0 : ConnEnv T) (h : Host T) : Prop :=
  Forall (sendable c) (h_sent h) /\ (h_net h = n0 \/ direct_permitted c).

Context (c : Commands) (n0 : ConnEnv T).
Abbreviation J := (gated c n0).

Lemma gated_out o h : J h -> J (add_out o h).
Proof. done. Qed.
Lemma gated_files f h : J h -> J (set_files f h).
Proof. done. Qed.
Lemma gated_exchanges x h : J h -> J (set_exchanges x h).
Proof. done. Qed.
Lemma gated_sent cmd h : sendable c cmd -> J h -> J (add_sent cmd h).
Proof. intros Hc [Hs Hn]. split; [|done]. apply Forall_app. auto. Qed.
Lemma gated_net x h : direct_permitted c -> J h -> J (set_net x h).
Proof. intros Hd [Hs Hn]. split; auto. Qed.
Lemma gated_net_term x h : direct_permitted c -> J h -> J (set_net_term x h).
Proof. intros Hd [Hs Hn]. split; auto. Qed.

Ltac sendable_tac := split; [match goal with Hc : c = _ |- _ => by rewrite Hc end|done].
Hint Extern 1 (sendable c _) => sendable_tac : stays.
Hint Resolve gated_out gated_files gated_exchanges gated_sent gated_net gated_net_term : stays.

Lemma gated_emit json r : stays J (emit json r).
Proof. unfold emit, print. stays_tac. Qed.
Lemma gated_running : stays J daemon_running.
Proof. unfold daemon_running. stays_tac. Qed.
Lemma gated_open ctx cmd : sendable c cmd -> stays J (open_exchange ctx cmd).
Proof. intros Hc. unfold open_exchange. stays_tac. Qed.
Lemma gated_read x : stays J (read_line x).
Proof. unfold read_line. stays_tac. Qed.
Hint Resolve gated_emit gated_running gated_open gated_read : stays.

Lemma gated_send cmd : sendable c cmd -> stays J (send_command cmd).
Proof. intros Hc. unfold send_command. stays_tac. Qed.
Hint Resolve gated_send : stays.

Lemma gated_stream {X} (v : X) cmd f :
  sendable c cmd -> (forall v r, stays J (f v r)) -> stays J (send_to_daemon_streaming v cmd f).
Proof.
  intros Hc Hf. unfold send_to_daemon_streaming. apply stays_bind; [by apply gated_open|]. intros x.
  apply stays_bind; [|intros [v1 last]; stays_tac].
  apply stays_iter. intros [[v1 last] x1]. unfold stream_step.
  apply stays_bind; [apply gated_read|]. intros [line x2]. do 2 (case_match; [stays_tac|]).
  apply stays_bind; [stays_tac|]. intros resp. apply stays_bind; [apply Hf|stays_tac].
Qed.

Lemma gated_reply json name failed r k :
  (forall resp, stays J (k resp)) -> stays J (on_reply json name failed r k).
Proof. intros Hk. unfold on_reply, emit_error. destruct r; [case_match; [apply Hk|]|]; stays_tac. Qed.
Lemma gated_ask json name failed cmd k :
  sendable c cmd -> (forall resp, stays J (k resp)) -> stays J (ask_daemon json name failed cmd k).
Proof.
  intros Hc Hk. unfold ask_daemon. apply stays_bind; [stays_tac|]. intros r. by apply gated_reply.
Qed.

(** What stands behind a check may rely on it. *)
Lemma gated_permitted json name check k :
  (check = Ok tt -> stays J k) -> stays J (permitted json name check k).
Proof. unfold permitted, emit_error. destruct check as [[]|e]; [auto|intros _; stays_tac]. Qed.
Hint Resolve gated_reply gated_ask gated_permitted : stays.

Lemma gated_connect json id terminal_mode password_stdin sv timeout :
  c = CConnect id terminal_mode password_stdin sv timeout ->
  stays J (run_connect w json pm id terminal_mode password_stdin sv timeout).
Proof.
  intros Hc.
  assert (Hd : terminal_mode = true -> ensure_connect_allowed pm (cw_prompt w 0) id = Ok tt -> direct_permitted c)
    by (rewrite Hc; intros ->; done).
  unfold run_connect, emit_error, print.
  repeat match goal with |- stays _ (permitted _ _ _ _) => fail 1 | _ => case_match end.
  all: try solve [stays_tac].
  all: apply gated_permitted; intros Hok; clear Hc; destruct terminal_mode; stays_tac.
Qed.
Lemma gated_exec json command timeout peer sv :
  c = CExec command timeout peer sv -> stays J (run_exec w json pm command timeout peer sv).
Proof.
  intros Hc. apply gated_permitted. intros He. unfold emit_error. destruct peer as [peer|].
  - apply gated_permitted. intros Hp. assert (direct_permitted c) by by rewrite Hc. stays_tac.
  - apply stays_bind.
    + apply stays_try, gated_stream; [sendable_tac|]. intros v r. unfold on_exec_response, print. stays_tac.
    + intros r. apply gated_reply. intros resp. stays_tac.
Qed.
Lemma gated_push json local remote peer sv timeout :
  c = CPush local remote peer sv timeout -> stays J (run_push w json pm local remote peer sv timeout).
Proof.
  intros Hc. apply gated_permitted. intros He. unfold emit_error, end_progress, print.
  destruct peer as [peer|].
  - apply gated_permitted. intros Hp. assert (direct_permitted c) by by rewrite Hc. stays_tac.
  - apply stays_bind.
    + apply stays_try, gated_stream; [sendable_tac|]. intros v r. unfold on_push_response, print. stays_tac.
    + intros r. apply stays_bind; [stays_tac|]. intros _. apply gated_reply. intros resp. stays_tac.
Qed.
Lemma gated_capture json file display format quality timeout region :
  c = CCapture file display format quality timeout region ->
  stays J (run_capture w json file display format quality timeout region).
Proof.
  intros Hc. unfold run_capture, emit_error, write_capture, print. apply stays_bind; [stays_tac|]. intros running.
  destruct (negb running); [stays_tac|].
  apply gated_ask; [rewrite Hc; by destruct format, file|]. intros resp. stays_tac.
Qed.

Lemma gated_run json_ skip sandbox :
  from_flags (cw_sandbox w) skip sandbox = Ok pm -> stays J (run_cli w (mkCli json_ skip sandbox c)).
Proof.
  intros Hpm. unfold run_cli. cbn [cli_json cli_skip_permissions cli_sandbox cli_command]. rewrite Hpm.
  destruct c eqn:Hc; rewrite <- Hc.
  all: try (apply gated_ask; [sendable_tac|intros resp; stays_tac]).
  - by apply gated_connect.
  - unfold run_disconnect, emit_error. stays_tac.
  - apply gated_permitted. intros Hs. apply gated_ask; [sendable_tac|]. intros resp. stays_tac.
  - by apply gated_exec.
  - by apply gated_push.
  - unfold run_status. stays_tac.
  - by apply gated_capture.
  - unfold run_do, print. stays_tac.
Qed.
End gate.


(** ** What is printed in JSON mode *)

Section report.
Context {T : Type} `{Transport T} `{CryptoLib} `{ProtoCodec Message} `{ProtoCodec IdPk}
  `{ProtoCodec RendezvousMessage} `{ServerKeyLib} `{Zstd} `{LockLib} `{ResponseLib} `{JsonText}.
Context (w : CliWorld).
Implicit Types (h : Host T).

(** What goes to standard output. *)
Definition on_stdout (o : Output) : bool :=
  match o with OutLine _ | OutJson _ | OutText _ | OutBytes _ => true | _ => false end.
Definition stdout h : list Output := List.filter on_stdout (h_out h).

(** The daemon takes the connection that comes next, if it is made, and closes it some time. *)
Definition answered h : Prop :=
  match h_exchanges h with x :: _ => is_Some (xc_eof x) | [] => False end.

(** From [h] to [h'], one JSON object was printed, and its [ok] is what the exit code says. *)
Definition reported h (code : Z) h' : Prop :=
  exists v, stdout h' = stdout h ++ [OutJson v] /\ json_get "ok" v = Some (Bool (code =? EXIT_SUCCESS)).

Definition quiet {A} (m : M (Host T) A) : Prop := forall t h, answered h ->
  wp m t h (fun _ _ h' => stdout h' = stdout h) (fun _ _ h' => stdout h' = stdout h).
Definition reports (m : M (Host T) Z) t h0 h : Prop :=
  wp m t h (fun code _ h' => reported h0 code h') (fun _ _ _ => False).

Lemma stdout_app h o : stdout (add_out o h) = stdout h ++ List.filter on_stdout o.
Proof. apply List.filter_app. Qed.

(** A step on the files of the lock keeps the rest. *)
Lemma files_wp {A} (m : M Disk A) t h (Q : A -> Z -> Host T -> Prop) (R : Error -> Z -> Host T -> Prop) :
  instant m -> (forall a f, Q a t (set_files f h)) -> (forall e f, R e t (set_files f h)) ->
  wp (zoom h_files set_files (on_disk m)) t h Q R.
Proof.
  intros Hm HQ HR. apply wp_zoom. unfold wp, run, on_disk.
  destruct (settle t _ _) as [d l]. specialize (Hm None t d).
  destruct (m None t d) as [[[a|e| | |] t'] d']; try done; subst; auto.
Qed.
Lemma lock_read_instant : instant lock_read.
Proof.
  unfold lock_read. apply instant_bind; [apply instant_context, syscall_instant|].
  intros d. apply instant_lift.
Qed.
Lemma running_wp t h (Q : bool -> Z -> Host T -> Prop) R :
  (forall b f, Q b t (set_files f h)) -> wp daemon_running t h Q R.
Proof.
  intros HQ. unfold daemon_running. apply wp_zoom. unfold wp, run, on_disk.
  destruct (settle t _ _) as [d l]. unfold is_daemon_running, bind, get, try.
  destruct (is_socket_alive SOCKET_PATH d); [apply HQ|]. pose proof (lock_read_instant None t d).
  destruct (lock_read None t d) as [[[a|e| | |] t'] d']; try done; subst; apply HQ.
Qed.

Lemma open_wp c cmd t h : answered h ->
  wp (open_exchange c cmd) t h (fun x _ h' => is_Some (xc_eof x) /\ stdout h' = stdout h)
    (fun _ _ h' => stdout h' = stdout h).
Proof.
  intros Ha. unfold open_exchange. apply wp_bind, files_wp; [apply lock_read_instant| |done].
  intros _ f. apply wp_bind, wp_get. unfold answered in Ha.
  replace (h_exchanges (set_files f h)) with (h_exchanges h) by done.
  destruct (h_exchanges h) as [|x rest]; [done|]. apply wp_bind, wp_modify.
  do 2 (apply wp_bind, wp_lift; [intros _ _|done]). apply wp_bind, wp_modify.
  apply wp_bind, wp_lift; [intros _ _|done]. by apply wp_ret.
Qed.

Lemma read_wp x t h : is_Some (xc_eof x) ->
  wp (read_line x) t h (fun r _ h' => h' = h /\ is_Some (xc_eof r.2) /\
      (r.1 = ""%string \/ (length (xc_lines r.2) < length (xc_lines x))%nat))
    (fun _ _ h' => h' = h).
Proof.
  intros [a Ha]. unfold read_line. destruct (xc_lines x) as [|[b r] rest].
  - rewrite Ha. apply wp_bind, wp_wait_until. intros t' _. apply wp_ret. cbn. eauto.
  - apply wp_bind, wp_wait_until. intros t' _. apply wp_bind, wp_lift; [|done].
    intros line _. apply wp_ret. cbn. rewrite Ha. eauto.
Qed.

Lemma send_quiet cmd : quiet (send_command cmd).
Proof.
  intros t h Ha. unfold send_command. apply wp_bind. eapply wp_mono; [by apply open_wp| |done].
  intros x t1 h1 [Hx Ho]. apply wp_bind. eapply wp_mono; [by apply read_wp| |by intros ??? ->].
  intros [line x'] t2 h2 (-> & _). by apply wp_lift.
Qed.

(** Streaming ends with the stream, when what is done with each response prints nothing. *)
Lemma stream_quiet {X} (v : X) cmd f :
  (forall v r t h, exists v', f v r None t h = (Done v', t, h)) ->
  quiet (send_to_daemon_streaming v cmd f).
Proof.
  intros Hf t h Ha. unfold send_to_daemon_streaming. apply wp_bind.
  eapply wp_mono; [by apply open_wp| |done]. intros x t1 h1 [Hx Ho]. rewrite <- Ho. clear Ho.
  apply wp_bind. generalize (@None SessionResponse) as last.
  assert (length (xc_lines x) < S (S (length (xc_lines x))))%nat as Hn by lia.
  revert Hn. generalize (S (S (length (xc_lines x)))) as fuel. intros fuel. revert v x t1 Hx.
  induction fuel as [|fuel IH]; intros v x t1 Hx Hn last; [lia|].
  cbn [iter]. apply wp_bind. unfold stream_step. apply wp_bind.
  eapply wp_mono; [by apply read_wp| |by intros ??? ->].
  intros [line x'] t2 h2 (-> & Hx' & Hl). cbn [fst snd] in *.
  destruct (is_empty line) eqn:El.
  { apply wp_ret. destruct last; done. }
  assert (length (xc_lines x') < fuel)%nat as Hn' by (destruct Hl as [->|]; [done|lia]).
  destruct (is_empty (trim line)).
  { apply wp_ret. by apply IH. }
  apply wp_bind, wp_lift; [|done]. intros resp _. apply wp_bind.
  destruct (Hf v resp t2 h1) as [v' Hv]. unfold wp at 1, run. rewrite Hv.
  apply wp_ret. by apply IH.
Qed.

(** A response whose [ok] is what its exit code says. *)
Definition coherent (r : Response) : Prop :=
  json_get "ok" (rp_json r) = Some (Bool (rp_exit_code r =? EXIT_SUCCESS)).

Lemma coherent_error command code message e : e <> EXIT_SUCCESS -> coherent (error_response command code message e).
Proof. intros He. unfold coherent. cbn [error_response rp_exit_code]. by apply Z.eqb_neq in He as ->. Qed.
Lemma coherent_capture file format region display timeout :
  coherent (capture_response file format region display timeout).
Proof. by destruct region, display. Qed.
Lemma coherent_capture_result file format region display timeout n :
  coherent (capture_result_response file format region display timeout n).
Proof. by destruct file, region, display. Qed.

Lemma reports_emit r t h0 h : coherent r -> stdout h = stdout h0 -> reports (emit true r) t h0 h.
Proof.
  intros Hr Hh. unfold emit, print. apply wp_bind, wp_modify, wp_ret. exists (rp_json r).
  split; [|done]. by rewrite stdout_app, Hh.
Qed.
Lemma reports_error command code message e t h0 h :
  e <> EXIT_SUCCESS -> stdout h = stdout h0 -> reports (emit_error true command code message e) t h0 h.
Proof. intros He. apply reports_emit. by apply coherent_error. Qed.
Lemma reports_reply name failed r k t h0 h :
  stdout h = stdout h0 -> (forall resp, reports (k resp) t h0 h) -> reports (on_reply true name failed r k) t h0 h.
Proof. intros Hh Hk. unfold on_reply. repeat case_match; [apply Hk| |]; by apply reports_error. Qed.

(** What comes after a quiet exchange reports, if it does from any state with that output. *)
Lemma reports_after {A} (m : M (Host T) A) k t h0 h :
  quiet m -> answered h -> stdout h = stdout h0 ->
  (forall r t h, stdout h = stdout h0 -> reports (k r) t h0 h) -> reports (bind (try m) k) t h0 h.
Proof.
  intros Hm Ha Hh Hk. apply wp_bind, wp_try. eapply wp_mono; [by apply Hm| |];
    intros x t' h' Ho; apply Hk; by rewrite Ho.
Qed.
Lemma reports_ask name failed cmd k t h0 h :
  answered h -> stdout h = stdout h0 -> (forall resp t h, stdout h = stdout h0 -> reports (k resp) t h0 h) ->
  reports (ask_daemon true name failed cmd k) t h0 h.
Proof.
  intros Ha Hh Hk. apply reports_after; [apply send_quiet|done..|]. intros r t' h' Hh'.
  apply reports_reply; auto.
Qed.
Lemma reports_permitted name check k t h :
  reports k t h h -> reports (permitted true name check k) t h h.
Proof. intros Hk. unfold permitted. destruct check; [done|]. by apply reports_error. Qed.
(** The choice on whether a daemon runs. *)
Lemma reports_running k t h :
  answered h -> (forall b h1, answered h1 -> stdout h1 = stdout h -> reports (k b) t h h1) ->
  reports (bind daemon_running k) t h h.
Proof. intros Ha Hk. apply wp_bind, running_wp. intros b f. by apply Hk. Qed.

Lemma capture_reports file display format quality timeout region t h :
  answered h -> reports (run_capture w true (Some file) display format quality timeout region) t h h.
Proof.
  intros Ha. unfold run_capture. apply reports_running; [done|]. intros running h1 Ha1 Hh1.
  destruct (negb running); [by apply reports_emit; [apply coherent_capture|]|].
  apply reports_ask; [done..|]. intros resp t2 h2 Hh2.
  destruct (sr_data resp); [|by apply reports_error]. case_match; [|by apply reports_error].
  apply wp_bind, wp_try. unfold write_capture. apply wp_bind, wp_lift; intros ? _; [|by apply reports_error].
  apply wp_modify, reports_emit; [apply coherent_capture_result|]. rewrite stdout_app, Hh2. apply app_nil_r.
Qed.

Lemma do_reports steps t h : answered h -> reports (run_do true steps) t h h.
Proof.
  intros Ha. unfold run_do. apply reports_running; [done|]. intros running h1 _ Hh1.
  assert (forall r, json_get "ok" (br_json r) = Some (Bool (br_exit_code r =? EXIT_SUCCESS)) ->
    reports (print (emit_batch_response true r) ;;; ret (br_exit_code r)) t h h1) as Hr.
  { intros r Hr. apply wp_bind, wp_modify, wp_ret. exists (br_json r). by rewrite stdout_app, Hh1. }
  destruct (negb running); [by apply Hr|].
  destruct (parse_batch_from_total (S (length steps)) steps []) as [[parsed|e] Hp]; [lia| |];
    unfold parse_batch_steps; rewrite Hp; apply Hr; [|done].
  unfold do_response. by destruct (do_steps 0 parsed).
Qed.

(** The commands that answer with one object: not [connect], which has plain messages of its own,
    nor a capture to standard output, nor those that talk to the peer themselves. *)
Definition one_object (c : Commands) : Prop :=
  match c with
  | CConnect _ _ _ _ _ | CExec _ _ (Some _) _ | CPush _ _ (Some _) _ _ | CCapture None _ _ _ _ _ => False
  | _ => True
  end.

Lemma cli_reports skip sandbox c t h :
  one_object c -> answered h -> reports (run_cli w (mkCli true skip sandbox c)) t h h.
Proof.
  intros Hc Ha. unfold run_cli. cbn [cli_json cli_skip_permissions cli_sandbox cli_command].
  destruct (from_flags _ _ _) as [pm|e]; [|by apply reports_error].
  destruct c as [| | |command timeout [p|] sv|local remote [p|] sv timeout| | | | |[f|]| | | | | | |];
    try done; try (apply reports_ask; [done..|]; intros resp t' h' Hh'; by apply reports_emit).
  - apply reports_running; [done|]. intros b h1 Ha1 Hh1. destruct (negb b); [by apply reports_error|].
    apply reports_after; [apply send_quiet|done..|]. intros _ t2 h2 Hh2. by apply reports_emit.
  - apply reports_permitted, reports_ask; [done..|]. intros resp t' h' Hh'. by apply reports_emit.
  - apply reports_permitted, reports_after; [|done..|].
    + apply stream_quiet. intros v r t1 h1. unfold on_exec_response. repeat case_match; eauto.
    + intros r t1 h1 Hh1. apply reports_reply; [done|]. intros resp. by apply reports_emit.
  - apply reports_permitted, reports_after; [|done..|].
    + apply stream_quiet. intros v r t1 h1. exists tt. by destruct v.
    + intros r t1 h1 Hh1. apply reports_reply; [done|]. intros resp. by apply reports_emit.
  - apply reports_running; [done|]. intros b h1 Ha1 Hh1. destruct (negb b); [by apply reports_emit|].
    apply reports_after; [apply send_quiet|done..|]. intros r t2 h2 Hh2.
    repeat case_match; by apply reports_emit.
  - by apply capture_reports.
  - by apply do_reports.
Qed.
End report.


(** ** Without a daemon *)

Section no_daemon.
Context {T : Type} `{Transport T} `{CryptoLib} `{ProtoCodec Message} `{ProtoCodec IdPk}
  `{ProtoCodec RendezvousMessage} `{ServerKeyLib} `{Zstd} `{LockLib} `{ResponseLib} `{JsonText}.
Context (w : CliWorld).
Implicit Types (h : Host T).

(** Nobody listens, and there is no lock file. *)
Definition no_daemon h : Prop :=
  sw_changes (h_files h) = [] /\ healthy (sw_disk (h_files h)) /\
  is_socket_alive SOCKET_PATH (sw_disk (h_files h)) = false /\
  dk_files (sw_disk (h_files h)) !! LOCK_PATH = None.

Definition no_session : string :=
  "No active session (lock file not found). Run `rustdesk-cli connect` first.".

(** What is printed then, and the exit code. *)
Definition no_daemon_answer (json : bool) (c : Commands) : option (list Output * Z) :=
  let says r := Some (emit_response json r, rp_exit_code r) in
  let error name := says (error_response name "connection_error" no_session EXIT_CONNECTION) in
  match c with
  | CDisconnect => says (error_response "disconnect" "session_error" "No active session" EXIT_SESSION)
  | CStatus => says status_response
  | CCapture (Some f) display format _ timeout region =>
    says (Response.capture_response f (default (infer_format f) format) region display timeout)
  | CShell => error "shell"%string
  | CExec _ _ None _ => error "exec"%string
  | CPush _ _ None _ _ =>
    (fun x => ((if json then [] else [ErrLine ""]) ++ x.1, x.2)) <$> error "push"%string
  | CClipboardGet | CClipboardSet _ => error "clipboard"%string
  | CDisplays => error "displays"%string
  | CType _ => error "type"%string
  | CKey _ _ => error "key"%string
  | CClick _ _ _ _ => error "click"%string
  | CScroll _ _ _ => error "scroll"%string
  | CMove _ _ => error "move"%string
  | CDrag _ _ _ _ => error "drag"%string
  | CConnect _ _ _ _ _ | CExec _ _ (Some _) _ | CPush _ _ (Some _) _ _ | CCapture None _ _ _ _ _ | CDo _ => None
  end.

Lemma add_out_app a b h : add_out b (add_out a h) = add_out (a ++ b) h.
Proof. unfold add_out. cbn. by rewrite <- app_assoc. Qed.
Lemma capture_exit f format region display timeout :
  rp_exit_code (Response.capture_response f format region display timeout) = EXIT_SUCCESS.
Proof. by destruct region, display. Qed.
(** A response is text or JSON. *)
Definition no_file (o : Output) : Prop := match o with OutFile _ _ => False | _ => True end.
Lemma emit_no_file json r : Forall no_file (emit_response json r).
Proof. unfold emit_response. repeat case_match; repeat constructor; by case_match. Qed.
Lemma no_files h k : sw_disk (h_files h) = k -> sw_changes (h_files h) = [] -> set_files (mkSpawnWorld k []) h = h.
Proof. destruct h as [[k' l] ? ? ? ? ?]. cbn. by intros -> ->. Qed.

Lemma no_lock dl t k : healthy k -> dk_files k !! LOCK_PATH = None ->
  lock_read dl t k = (Fail [no_session; "No such file or directory (os error 2)"%string], t, k).
Proof.
  intros Hk Hl. unfold lock_read, bind, context, Lockfile.read_to_string, syscall.
  rewrite Hk. cbn [tail dk_files]. rewrite Hl. cbn. destruct k. unfold healthy in Hk. cbn in Hk. by subst.
Qed.
Lemma no_running t h : no_daemon h -> daemon_running None t h = (Done false, t, h).
Proof.
  intros (Hc & Hh & Ha & Hl). unfold daemon_running, zoom, on_disk. rewrite Hc. cbn [settle].
  unfold is_daemon_running, bind, get, try. rewrite Ha, no_lock by done. cbn. f_equal. by apply no_files.
Qed.
Lemma no_open c cmd t h : no_daemon h ->
  open_exchange c cmd None t h = (Fail [no_session; "No such file or directory (os error 2)"%string], t, h).
Proof.
  intros (Hc & Hh & Ha & Hl). unfold open_exchange, bind at 1, zoom, on_disk. rewrite Hc. cbn [settle].
  rewrite no_lock by done. f_equal. by apply no_files.
Qed.
Lemma no_ask json name failed cmd k t h : no_daemon h ->
  ask_daemon json name failed cmd k None t h =
  (Done EXIT_CONNECTION, t,
   add_out (emit_response json (error_response name "connection_error" no_session EXIT_CONNECTION)) h).
Proof. intros Hn. unfold ask_daemon, bind at 1, try, send_command, bind at 1. by rewrite no_open. Qed.

Lemma no_daemon_run json skip sandbox pm c out code t h :
  from_flags (cw_sandbox w) skip sandbox = Ok pm -> no_daemon h ->
  (forall cmd, daemon_command c = Some cmd -> cmd_permitted w pm cmd) ->
  no_daemon_answer json c = Some (out, code) ->
  run (run_cli w (mkCli json skip sandbox c)) t h = (Done code, t, add_out out h).
Proof.
  intros Hpm Hn Hp Ha. unfold run, run_cli. cbn [cli_json cli_skip_permissions cli_sandbox cli_command].
  rewrite Hpm.
  destruct c as [| | |command timeout [p|] sv|local remote [p|] sv timeout| | | | |[f|]| | | | | | |];
    try discriminate Ha; cbn [no_daemon_answer fmap option_fmap option_map fst snd] in Ha; simplify_eq;
    try (by apply no_ask).
  - unfold run_disconnect, bind at 1. by rewrite no_running.
  - specialize (Hp _ eq_refl). cbn in Hp. unfold run_shell, permitted. rewrite Hp. by apply no_ask.
  - specialize (Hp _ eq_refl). cbn in Hp. unfold run_exec, permitted. rewrite Hp.
    unfold bind at 1, try, send_to_daemon_streaming, bind at 1. by rewrite no_open.
  - specialize (Hp _ eq_refl). cbn in Hp. unfold run_push, permitted. rewrite Hp.
    unfold bind at 1, try, send_to_daemon_streaming, bind at 1. rewrite no_open by done.
    destruct json; [done|]. by rewrite <- add_out_app.
  - unfold run_status, bind at 1. by rewrite no_running.
  - unfold run_capture, bind at 1. by rewrite no_running.
Qed.
End no_daemon.


(** ** Evaluating the process *)

#[local] Instance toy_crypto_c : CryptoLib := toy_crypto.
#[local] Instance toy_messages_c : ProtoCodec Message := toy_codec MessageUnion.
#[local] Instance toy_rendezvous_c : ProtoCodec RendezvousMessage := toy_codec RendezvousUnion.
#[local] Instance toy_idpk_c : ProtoCodec IdPk := toy_idpk.
#[local] Instance toy_server_keys_c : ServerKeyLib := DaemonLoop.toy_server_keys.
#[local] Instance toy_zstd_c : Zstd := toy_zstd.
#[local] Instance toy_lock_c : LockLib := toy_lock.
#[local] Instance toy_text_c : JsonText := {| json_text := fun _ => "{}"%string |}.
#[local] Instance toy_responses_c : ResponseLib := toy_wire_responses.

Definition toy_cli : CliWorld :=
  mkCliWorld (mkSandboxEnv None None (fun _ => false) (fun _ => Err (anyhow "no file")) (fun _ => Err (anyhow "no file")))
    (fun _ => mkPrompt true (Ok tt) (Ok "y"%string)) (Err (anyhow "closed")) (Ok tt)
    (mkOutputSinks (fun _ _ => Ok tt) (fun _ => Ok tt)) toy_random (Ok tt) (fun t => t) (fun _ => toy_file) (None, None).
(** A host with a daemon that serves the connections [xs]. *)
Definition toy_host (xs : list Exchange) : Host NetTransport :=
  mkHost (mkSpawnWorld (mkDisk (<[SOCKET_PATH := mkFile "" (Some owner_only)]>
      (<[LOCK_PATH := mkFile "7 /tmp/rustdesk-cli.sock" None]> ∅)) {[SOCKET_PATH]} []) []) xs []
    (mkConnEnv (mkNet [] Never [] [] false) []) (mkLocalTerm [] None [] []) [].
(** A daemon that hangs up without an answer. *)
Definition toy_hangup : Exchange := mkExchange (Ok tt) (Ok tt) (Ok tt) [] (Some 20).



