(* ===== verification/Main.v ===== *)
(** * The process from its arguments to its exit (src/main.rs, [main]; src/daemon.rs)

    [main] is the daemon or the command line, by its arguments.  The life of a daemon, from the
    command line [spawn_daemon] gives it to its exit code: stale files, the socket, the connection
    under its time limit, the lock file, the event loop, and the files when it is gone. *)

From Stdlib Require Import ZArith Lia.
From Stdlib Require Import Strings.Byte Strings.Ascii Strings.String.
From stdpp Require Import base list option numbers gmap strings.
From S2P Require Import CliSpec Prelude RustStr Async Transport Crypto Base64 Permissions Json Session Proto.
From S2P Require Import Inbox Terminal Capture FileTransfer Rendezvous Connection Steady ConnectRun Exec Lockfile.
From S2P Require Import Daemon DaemonLoop Serving Recover Direct Batch Response Cli.

Local Open Scope Z_scope.
Local Open Scope async_scope.

(** ** [main] *)

(** What [Cli::try_parse] makes of the arguments: the command line, or an error with its text. *)
Inductive ErrorKind : Type := DisplayHelp | DisplayVersion | OtherKind.
Record ParseError : Type := mkParseError { pe_kind : ErrorKind; pe_text : string }.
Class ClapLib : Type := { try_parse : list string -> Cli + ParseError }.

(** [err.print()]: help and version go to stdout, the other errors to stderr. *)
Definition parse_error_output (e : ParseError) : list Output :=
  match pe_kind e with DisplayHelp | DisplayVersion => [OutText (pe_text e)] | OtherKind => [ErrLine (pe_text e)] end.
Definition parse_error_code (e : ParseError) : Z :=
  match pe_kind e with DisplayHelp | DisplayVersion => EXIT_SUCCESS | OtherKind => EXIT_INPUT end.

(** How the process ends. *)
Inductive ExitStatus : Type :=
| Exited (code : Z)
| Panicked (message : string).

(** The process as a command line, and as a daemon. *)
Record Program (T : Type) : Type := mkProgram {
  pg_host : Host T;
  pg_daemon : Process (T := T)
}.
Arguments mkProgram {T} _ _.
Arguments pg_host {T} _.
Arguments pg_daemon {T} _.

Section main.
Context {T : Type} `{Transport T} `{CryptoLib} `{ProtoCodec Message} `{ProtoCodec IdPk}
  `{ProtoCodec RendezvousMessage} `{ServerKeyLib} `{Zstd} {Img : Type} `{ImageLib Img} `{LockLib} `{CommandLib}
  `{ResponseLib} `{JsonText} `{ClapLib}.
Context (cw : CliWorld) (dw : World).

Definition on_host {A} (m : M (Host T) A) : M (Program T) A :=
  zoom pg_host (fun h p => mkProgram h (pg_daemon p)) m.
Definition as_daemon {A} (m : M (Process (T := T)) A) : M (Program T) A :=
  zoom pg_daemon (fun d p => mkProgram (pg_host p) d) m.

(** [run] *)
Definition run_process (args : list string) : M (Host T) Z :=
  match try_parse args with
  | inl cli => run_cli cw cli
  | inr err => print (parse_error_output err) ;;; ret (parse_error_code err)
  end.

(** [run_daemon_mode], serving at most [fuel] events. *)
Definition run_daemon_mode (fuel : nat) (args : list string) : M (Program T) ExitStatus :=
  match daemon_args args with
  | None => ret (Panicked "--daemon requires --peer-id")
  | Some da =>
    let* r := try (as_daemon (run_daemon dw fuel da)) in
    match r with
    | Err e => on_host (print [ErrLine ("daemon error: " ++ error_to_string e)%string]) ;;; ret (Exited 1)
    | Ok _ => ret (Exited 0)
    end
  end.

(** [main] *)
Definition main (fuel : nat) (args : list string) : M (Program T) ExitStatus :=
  if existsb (fun a => String.eqb a "--daemon") args then run_daemon_mode fuel args
  else let* code := on_host (run_process args) in ret (Exited code).
End main.

(** ** Starting up *)

Section start.
Context (C : CryptoLib) {CL : CryptoLaws C} (P : ProtoCodec RendezvousMessage) {PL : ProtoLaws P}
  (PM : ProtoCodec Message) {PML : ProtoLaws PM} (PI : ProtoCodec IdPk) (K : ServerKeyLib) {Zs : Zstd}
  {Img : Type} {IL : ImageLib Img} (LL : LockLib) {CC : CommandLib}.
Context (w : World) (args : DaemonArgs) (sn : Scene) (n : nat) (u : NetTransport) (more : list (Z * Res NetTransport)).
Abbreviation config := (config_of args).
Abbreviation rnd := (w_rnd w n).
Abbreviation start := (Startup (T := NetTransport)).

Lemma lock_write_run pid socket dl t k : healthy k ->
  lock_write pid socket dl t k =
  (Done tt, t, mkDisk (<[LOCK_PATH := mkFile (lock_to_string (mkLockFile pid socket)) (Some owner_only)]> (dk_files k))
                 (dk_live k) []).
Proof.
  intros Hk. unfold lock_write, bind, fs_write_file, syscall. rewrite Hk. cbn [tail dk_files dk_live].
  unfold set_permissions, syscall. cbn [dk_faults tail dk_files]. rewrite lookup_insert_eq. cbn.
  by rewrite insert_insert_eq.
Qed.

(** The peer and the servers are there for the daemon's first connection, within its time limit. *)
Record can_connect (t : Z) : Prop := {
  cc_udp : w_udp w n = Ok tt;
  cc_faults : net_faults u = [];
  cc_inbox : net_in u = plain_inbox P (udp_inbox (sn_servers sn));
  cc_scene : scene_ok C P PM PI K rnd config DefaultConn None sn t;
  cc_in_time : connected_at config sn t <= t + 1000 * default 30 (da_connect_timeout args);
  cc_fits : Forall (fits PM) (init_msgs DefaultConn)
}.

(** The link the daemon starts to serve with. *)
Record linked (t : Z) (lk : Link NetTransport) : Prop := {
  ln_session : lk_session lk = initial_session args (pr_info (sn_peer sn));
  ln_type : lk_conn_type lk = DefaultConn;
  ln_out : net_out (es_inner (lk_stream lk)) = scene_sends C P PM rnd config DefaultConn None sn ++
    sealed_frames (rnd_session_key rnd) 1 (sent_items PM (init_msgs DefaultConn));
  ln_key : es_key (lk_stream lk) = rnd_session_key rnd;
  ln_seq : send_seq (lk_stream lk) = seq_after 1 (sent_items PM (init_msgs DefaultConn));
  ln_faults : net_faults (es_inner (lk_stream lk)) = [];
  ln_end : net_end (es_inner (lk_stream lk)) = Never;
  ln_heard : last_recv_at (lk_stream lk) = connected_at config sn t;
  ln_rest : delivers_msgs C PM (pr_rest (sn_peer sn)) (lk_stream lk)
}.

Lemma first_connection t : can_connect t ->
  exists es net, connect_with_timeout w config (default 30 (da_connect_timeout args)) DefaultConn None t
      (mkConnEnv u (scene_dials C P PM rnd sn more), n) =
    (Done (inl (Ok (pr_info (sn_peer sn), es))), connected_at config sn t, net) /\
    established C P PM rnd config DefaultConn None sn t es.
Proof.
  intros [Hu Hf Hin Hsc Ht Hfit].
  destruct (connect_run C P PM PI K rnd config DefaultConn None sn CL PL PML t u more Hsc Hf Hin)
    as (t' & es & E & [_ ->] & Hest & _).
  eexists es, _. split; [|exact Hest].
  unfold connect_with_timeout, bind. erewrite timeout_in_time; [reflexivity| | |exact Ht].
  - unfold connect_attempt. apply steady_bind; [apply steady_get|]. intros s.
    apply steady_bind; [apply steady_modify|]. intros _. apply steady_zoom, steady_connect.
  - unfold connect_attempt, bind at 1. cbn [get]. unfold bind at 1. cbn [modify]. unfold zoom. cbn [fst snd].
    rewrite Hu. change (login_union_for_conn_type DefaultConn None) with (@None LoginUnion).
    unfold run in E. rewrite E. reflexivity.
Qed.

(** The daemon's files while it serves. *)
Definition lock_text : string := lock_to_string (mkLockFile (w_pid w) SOCKET_PATH).
Definition serving_disk (k : Disk) : Disk :=
  mkDisk (<[LOCK_PATH := mkFile lock_text (Some owner_only)]>
            (<[SOCKET_PATH := mkFile "" (Some owner_only)]> (dk_files k))) ({[SOCKET_PATH]} ∪ dk_live k) [].
Definition bound_disk (k : Disk) : Disk :=
  mkDisk (<[SOCKET_PATH := mkFile "" None]> (dk_files k)) ({[SOCKET_PATH]} ∪ dk_live k) [].

Lemma start_up_run t k events : can_connect t -> healthy k ->
  exists lk net, start_up w args None t
      (mkStartup (mkConnEnv u (scene_dials C P PM rnd sn more), n) (bound_disk k) events) =
    (Done (Some lk), connected_at config sn t, mkStartup net (serving_disk k) events) /\ linked t lk.
Proof.
  intros Hcc Hk. destruct (first_connection t Hcc) as (es & net & E & Hest).
  destruct (initialize_run C PM DefaultConn (connected_at config sn t) es [] es
    (has_sent_nil C PM es (est_faults _ _ _ _ _ _ _ _ _ _ Hest) (est_end _ _ _ _ _ _ _ _ _ _ Hest))
    (cc_fits _ Hcc)) as (es' & Ei & [Hk' Hft Hend Hq Ho] & Hinb).
  exists (mkLink es' (initial_session args (pr_info (sn_peer sn))) DefaultConn None), net. split.
  - unfold start_up, bind at 1, on_st_disk, zoom at 1. cbn [st_disk].
    unfold set_permissions, syscall. cbn [bound_disk dk_faults dk_files tail]. rewrite lookup_insert_eq. cbn [f_content].
    unfold bind at 1, on_st_net, zoom at 1. cbn [st_net st_disk st_events]. rewrite E.
    unfold bind at 1, locally, try. rewrite Ei. unfold bind, zoom. cbn [st_disk st_net st_events].
    rewrite lock_write_run by done. cbn. by rewrite insert_insert_eq.
  - destruct Hest as [Hkey Hseq Hout _ _ Hheard Hrest]. constructor; try done; cbn [lk_stream].
    + by rewrite Ho, Hout, Hkey, Hseq.
    + by rewrite Hk'.
    + by rewrite Hq, Hseq.
    + destruct Hinb as (_ & _ & _ & ->). done.
    + by eapply delivers_same_inbox.
Qed.

(** ** The life of a daemon *)

Context (l : list Happening) (ending : option (Z * string)) (later : inbox).
Abbreviation idle := (idle_timeout_of args).

(** What happens to the daemon once it is connected. *)
Record will_serve (t : Z) (events : list (Z * External)) : Prop := {
  ws_rest : pr_rest (sn_peer sn) = said_by_peer l ++ later;
  ws_events : events = externals l ++ last_events ending;
  ws_order : let tc := connected_at config sn t in
    in_order PM idle (initial_session args (pr_info (sn_peer sn))) ending later tc tc tc l;
  ws_close : sendable (close_item PM)
}.

Lemma first_ready t lk net k events : linked t lk -> will_serve t events ->
  ready C PM idle ending later l (connected_at config sn t)
    (first_state lk (connected_at config sn t) (mkStartup net k events)).
Proof.
  intros Hl [Hr He Ho _]. destruct Hl as [Hs Hty _ _ _ Hf Hend Hheard Hrest].
  constructor; cbn [first_state dm_link dm_events dm_last_activity]; try done.
  - by rewrite Hs.
  - by rewrite <- Hr.
  - by rewrite Hs, Hheard.
Qed.

(** Everything the peer is sent on the connection. *)
Definition sent_in_life : list bytes :=
  scene_sends C P PM rnd config DefaultConn None sn ++
  sealed_frames (rnd_session_key rnd) 1 (sent_items PM (init_msgs DefaultConn) ++ items PM l ++ [close_item PM]).

Lemma daemon_life fuel t k events :
  can_connect t -> will_serve t events -> healthy k -> daemon_alive SOCKET_PATH LOCK_PATH k = false ->
  (length l < fuel)%nat ->
  exists d, run_daemon w fuel args None t
      (Starting (mkStartup (mkConnEnv u (scene_dials C P PM rnd sn more), n) k events)) =
    (Done tt, ends_at idle ending (active_after (connected_at config sn t) l), Serving d) /\
    net_out (es_inner (lk_stream (dm_link d))) = sent_in_life /\
    net_shut (es_inner (lk_stream (dm_link d))) = true /\
    (forall p, dk_files (dm_disk d) !! p =
       if decide (p ∈ [LOCK_PATH; ERROR_PATH; SOCKET_PATH]) then None else dk_files k !! p).
Proof.
  intros Hcc Hws Hk Ha Hfuel. set (k1 := without [ERROR_PATH; LOCK_PATH; SOCKET_PATH] k).
  destruct (start_up_run t k1 events Hcc Hk) as (lk & net & E & Hl).
  destruct (agenda_served C PM w config idle ending later l fuel (connected_at config sn t)
    (first_state lk (connected_at config sn t) (mkStartup net (serving_disk k1) events)))
    as (d & Ed & Ho & Hs & Hdk); [by apply first_ready|done|apply Hws|done|].
  cbn [first_state dm_last_activity dm_link dm_disk st_disk] in Ed, Ho, Hdk.
  exists (with_disk (without [LOCK_PATH; ERROR_PATH; SOCKET_PATH] (dm_disk d)) d). split_and!.
  - unfold run_daemon, bind at 1, starting at 1, on_st_disk, zoom. cbn [st_disk st_net st_events].
    rewrite (stale_run LL) by done. fold k1. unfold bind at 1, starting at 1, context. cbn [st_disk st_net st_events].
    assert (bind_socket SOCKET_PATH None t k1 = (Done tt, t, bound_disk k1)) as ->.
    { unfold bind_socket, syscall. change (dk_faults k1) with (dk_faults k). rewrite Hk. cbn [tail dk_files].
      assert (dk_files k1 !! SOCKET_PATH = None) as -> by (apply without_lookup; set_solver). reflexivity. }
    unfold guarded, bind at 1, starting. rewrite E. cbn [serve]. unfold serve. rewrite Ed.
    cbn [proc_disk set_proc_disk zoom]. unfold zoom. cbn [proc_disk]. rewrite cleanup_run by (by rewrite Hdk). done.
  - cbn. rewrite Ho. destruct Hl as [_ _ Hout Hkey Hseq _ _ _ _]. rewrite Hout, Hkey, Hseq. unfold sent_in_life.
    by rewrite (sealed_frames_app C _ _ (sent_items _ _)), <- (assoc_L (++)).
  - done.
  - intros p. cbn [dm_disk with_disk]. rewrite Hdk. case_decide as Hp; [by apply (without_lookup [LOCK_PATH; ERROR_PATH; SOCKET_PATH] _ p)|].
    rewrite (without_keeps [LOCK_PATH; ERROR_PATH; SOCKET_PATH] _ p Hp), without_keeps by done.
    unfold serving_disk. cbn [dk_files]. rewrite !lookup_insert_ne by (intros <-; set_solver).
    apply without_keeps. set_solver.
Qed.
End start.

Lemma daemon_args_exe exe l : exe ∉ flags -> daemon_args (exe :: l) = daemon_args l.
Proof. intros He. unfold daemon_args. rewrite !arg_value_skip by (intros ->; set_solver). done. Qed.

(** ** The properties of the process *)

(** C9: the daemon [spawn_daemon] starts, from its command line to its exit.  The process given the
    arguments [spawn_daemon] builds (for values that are none of the flags) is a daemon for that peer.
    If no daemon is alive, whatever files a dead one left, and the servers and the peer let it log in
    within the time limit it was given, it serves the whole agenda of clients, messages and ticks that
    follows and exits with code 0 at the signal, or when the idle time has passed since the last
    client.  By then its peer was sent the login, the options, the request for a picture, the echoes
    and heartbeats of the agenda and the close reason, in this order and nothing else, and the
    transport is closed; the socket, the lock and the error file are gone, and no other file was
    touched; and nothing was printed on standard output. *)
Theorem spawned_daemon_serves (C : CryptoLib) (CL : CryptoLaws C) (P : ProtoCodec RendezvousMessage) (PL : ProtoLaws P)
    (PM : ProtoCodec Message) (PML : ProtoLaws PM) (PI : ProtoCodec IdPk) (K : ServerKeyLib) `{Zstd} `{ImageLib Img}
    (LL : LockLib) `{CommandLib} `{ResponseLib} `{JsonText} `{ClapLib} (cw : CliWorld) (w : World)
    exe peer_id password server id_server relay_server key timeout
    sn n u more l ending later fuel t h k events :
  let args := mkDaemonArgs peer_id password server id_server relay_server key timeout None in
  let config := config_of args in
  exe ∉ flags -> peer_id ∉ flags ->
  Forall (fun v => v ∉ flags) (omap id [password; server; id_server; relay_server; key]) ->
  match timeout with Some n => 0 <= n < 2 ^ 64 | None => True end ->
  can_connect C P PM PI K w args sn n u t -> will_serve PM args sn l ending later t events ->
  healthy k -> daemon_alive SOCKET_PATH LOCK_PATH k = false -> (length l < fuel)%nat ->
  exists d, run (main cw w fuel (exe :: spawn_args peer_id password server id_server relay_server key timeout)) t
      (mkProgram h (Starting (mkStartup (mkConnEnv u (scene_dials C P PM (w_rnd w n) sn more), n) k events))) =
    (Done (Exited 0), ends_at (idle_timeout_of args) ending (active_after (connected_at config sn t) l),
     mkProgram h (Serving d)) /\
    net_out (es_inner (lk_stream (dm_link d))) = sent_in_life C P PM w args sn n l /\
    net_shut (es_inner (lk_stream (dm_link d))) = true /\
    (forall p, dk_files (dm_disk d) !! p =
       if decide (p ∈ [LOCK_PATH; ERROR_PATH; SOCKET_PATH]) then None else dk_files k !! p).
Proof.
  intros args config Hexe Hp Hv Ht Hcc Hws Hk Ha Hfuel.
  destruct (daemon_life C P PM PI K LL w args sn n u more l ending later fuel t k events Hcc Hws Hk Ha Hfuel)
    as (d & E & Hrest). exists d. split; [|exact Hrest].
  unfold run, main. rewrite (proj2 (existsb_exists _ _)) by (exists "--daemon"%string; split; [by right; left|done]).
  unfold run_daemon_mode. rewrite daemon_args_exe, daemon_args_roundtrip by done. fold args.
  unfold bind, try, as_daemon, zoom. cbn [pg_daemon]. rewrite E. done.
Qed.

(** What is not for the daemon goes to the command line, and what clap refuses ends there: help and
    version with code 0, everything else with code 3; nothing is sent, dialled or written. *)
Theorem usage_ends `{Transport T} `{CryptoLib} `{ProtoCodec Message} `{ProtoCodec IdPk} `{ProtoCodec RendezvousMessage}
    `{ServerKeyLib} `{Zstd} `{ImageLib Img} `{LockLib} `{CommandLib} `{ResponseLib} `{JsonText} `{ClapLib}
    (cw : CliWorld) (w : World) fuel args e t (h : Host T) d :
  "--daemon"%string ∉ args -> try_parse args = inr e ->
  run (main cw w fuel args) t (mkProgram h d) =
    (Done (Exited (parse_error_code e)), t, mkProgram (add_out (parse_error_output e) h) d).
Proof.
  intros Hd He. unfold run, main.
  assert (existsb (fun a => String.eqb a "--daemon") args = false) as ->.
  { apply not_true_is_false. intros (x & Hx & Ex)%existsb_exists. apply String.eqb_eq in Ex as ->.
    by apply Hd, list_elem_of_In. }
  unfold bind, on_host, zoom, run_process. by rewrite He.
Qed.

(** *** Evaluating a daemon's life *)

#[local] Instance toy_crypto_m : CryptoLib := toy_crypto.
#[local] Instance toy_messages_m : ProtoCodec Message := toy_codec MessageUnion.
#[local] Instance toy_rendezvous_m : ProtoCodec RendezvousMessage := toy_codec RendezvousUnion.
#[local] Instance toy_idpk_m : ProtoCodec IdPk := toy_idpk.
#[local] Instance toy_keys_m : ServerKeyLib := toy_keys.
#[local] Instance toy_zstd_m : Zstd := toy_zstd.
#[local] Instance toy_image_m : ImageLib (Z * Z) := toy_image.
#[local] Instance toy_lock_m : LockLib := toy_lock.
#[local] Instance toy_status_m : CommandLib := toy_status.
#[local] Instance toy_responses_m : ResponseLib := {| resp_from_str := fun _ => Err (anyhow "expected value") |}.
#[local] Instance toy_json_m : JsonText := {| json_text := fun _ => ""%string |}.
#[local] Instance toy_clap_m : ClapLib := {| try_parse := fun _ => inr (mkParseError OtherKind "error: unrecognized subcommand") |}.
Definition toy_up_world : World :=
  mkWorld (fun _ => toy_random) (fun _ => Ok tt) (fun t => 1000000 * t) 4242 (fun _ => toy_file).
Definition toy_life_args : DaemonArgs := mkDaemonArgs "peer" (Some "pw"%string) (Some "s"%string) None None None (Some 30) None.

(** An echo request, a client that asks for the status, a tick; then nothing, until the idle timeout. *)
Definition toy_life_status : list SessionResponse :=
  default [] (answers_of (initial_session toy_life_args toy_info) (Ok "status"%string)).
Definition toy_life : list Happening :=
  [Hears 9000 (Some (Some (UTestDelay (mkTestDelay 7 false 1 2))));
   Calls 9100 9100 (Ok "status"%string) (mkUdsReader [] None) toy_life_status; Ticks 9200].
Definition toy_udp : NetTransport :=
  mkNet (plain_inbox (toy_codec RendezvousUnion) (udp_inbox toy_servers_script)) Never [] [] false.

Lemma toy_can_connect :
  can_connect toy_crypto (toy_codec RendezvousUnion) (toy_codec MessageUnion) toy_idpk toy_keys toy_up_world toy_life_args
    (toy_scene_then (said_by_peer toy_life)) 0 toy_udp 0.
Proof.
  constructor.
  - reflexivity.
  - reflexivity.
  - reflexivity.
  - change (config_of toy_life_args) with toy_conn_config.
    apply toy_scene_then_ok; [by left; left|by left|].
    repeat (apply Forall_cons_2 || apply Forall_nil_2); vm_compute; congruence.
  - vm_compute. congruence.
  - repeat (apply Forall_cons_2 || apply Forall_nil_2); vm_compute; congruence.
Qed.
Lemma toy_will_serve :
  will_serve (toy_codec MessageUnion) toy_life_args (toy_scene_then (said_by_peer toy_life)) toy_life None [] 0
    (externals toy_life).
Proof.
  constructor.
  - reflexivity.
  - reflexivity.
  - change (connected_at (config_of toy_life_args) (toy_scene_then (said_by_peer toy_life)) 0) with 8900.
    change (idle_timeout_of toy_life_args) with 300000. cbn [in_order toy_life]. unfold KEEPALIVE_TIMEOUT. cbn.
    repeat split; try lia; repeat (apply Forall_cons_2 || apply Forall_nil_2); try (vm_compute; congruence).
  - vm_compute. congruence.
Qed.

Lemma spawned_daemon_serves_witness :
  let files := <["/home/user/notes"%string := mkFile "text" None]> (<[LOCK_PATH := mkFile "7 dead" None]> ∅) in
  let net := mkConnEnv toy_udp (scene_dials toy_crypto (toy_codec RendezvousUnion) (toy_codec MessageUnion) toy_random
                                  (toy_scene_then (said_by_peer toy_life)) []) in
  exists d, run (main toy_cli toy_up_world 4 ("rustdesk-cli" :: spawn_args "peer" (Some "pw") (Some "s") None None None (Some 30))%string)
      0 (mkProgram (toy_host []) (Starting (mkStartup (net, O) (mkDisk files ∅ []) (externals toy_life)))) =
    (Done (Exited 0), 309100, mkProgram (toy_host []) (Serving d)) /\
    dk_files (dm_disk d) !! LOCK_PATH = None /\
    dk_files (dm_disk d) !! "/home/user/notes"%string = Some (mkFile "text" None).
Proof.
  intros files net.
  destruct (spawned_daemon_serves toy_crypto toy_crypto_laws (toy_codec RendezvousUnion) (toy_codec_laws RendezvousUnion)
    (toy_codec MessageUnion) (toy_codec_laws MessageUnion) toy_idpk toy_keys toy_lock toy_cli toy_up_world
    "rustdesk-cli" "peer" (Some "pw"%string) (Some "s"%string) None None None (Some 30)
    (toy_scene_then (said_by_peer toy_life)) 0 toy_udp [] toy_life None [] 4 0 (toy_host []) (mkDisk files ∅ [])
    (externals toy_life)) as (d & E & _ & _ & Hf).
  - set_solver.
  - set_solver.
  - repeat constructor; set_solver.
  - lia.
  - exact toy_can_connect.
  - exact toy_will_serve.
  - reflexivity.
  - vm_compute. reflexivity.
  - cbn. lia.
  - exists d. split; [exact E|]. rewrite !Hf. split; vm_compute; reflexivity.
Defined.

(** [main] looks for [--daemon] among all arguments, the operands of a command included: a command line
    that types this text is taken for the daemon's and panics. *)
Example operand_taken_for_flag (h : Host NetTransport) d :
  (run (main toy_cli toy_up_world 4 ["rustdesk-cli"; "type"; "--"; "--daemon"]%string) 0 (mkProgram h d)) =
    (Done (Panicked "--daemon requires --peer-id"), 0, mkProgram h d).
Proof. reflexivity. Qed.
