(* ===== verification/EndToEnd.v ===== *)
(** * The command line process and the daemon together

    The daemon's event handler serves the connection the command line process opens.  The two are
    composed through the lines on the socket: what the daemon wrote for a request is what the
    process reads. *)

From Stdlib Require Import ZArith Lia.
From Stdlib Require Import Strings.Byte Strings.Ascii Strings.String.
From stdpp Require Import base list option numbers gmap strings.
From S2P Require Import Prelude RustStr Async Transport Crypto Base64 Permissions Json Session.
From S2P Require Import Proto Inbox Terminal Capture FileTransfer Rendezvous Connection Exec ExecStream.
From S2P Require Import Lockfile Daemon DaemonLoop Serving Direct Batch Response Cli CliSpec.
From S2P Require Import Wire.

Local Open Scope Z_scope.
Local Open Scope async_scope.

(** ** The socket *)

Section wire.
Context {T : Type} `{Transport T} `{CryptoLib} `{ProtoCodec Message} `{ProtoCodec IdPk}
  `{ProtoCodec RendezvousMessage} `{ServerKeyLib} `{Zstd} {Img : Type} `{ImageLib Img} `{LockLib} `{JsonText}.
Context {C : CommandLib} {R : ResponseLib} {W : WireLib} {L : WireLaws W C R}.
Context (dw : World) (config : ConnConfig).

(** The client the daemon sees: the request in one line, and nothing behind it. *)
Definition client_of (t : Z) (cmd : SessionCommand) : Client :=
  mkClient (Some (t, Ok (newline (cmd_to_string cmd)))) (mkUdsReader [] (Some t)) [].

Definition line_of (i : UdsItem) : string :=
  match i with ULine r => newline (resp_to_string r) | URaw b => string_of_list_byte b end.

(** The daemon [d] serves the request [cmd] at time [t]; what the process gets to read is what was
    written, and the end of the stream when the daemon is done. *)
Definition serve_client (t : Z) (cmd : SessionCommand) (d : Daemon T) : Exchange * Daemon T :=
  let '(_, t', d') := on_accept dw config (client_of t cmd) None t d in
  (mkExchange (Ok tt) (Ok tt) (Ok tt) (map (fun i => (t', Ok (line_of i))) (uw_sent (dm_client d').2)) (Some t'),
   d').

(** The daemon when it has accepted a client. *)
Definition accepted (t : Z) (cmd : SessionCommand) (d : Daemon T) : Daemon T :=
  mkDaemon (dm_link d) (dm_net d) (dm_disk d) (cl_reader (client_of t cmd), mkUdsWriter [] []) t
    (dm_heartbeat d) (dm_events d).

Lemma reply_run resp rs t (d : Daemon T) : wrote rs d ->
  exists d', reply resp None t d = (Done tt, t, d') /\ wrote (rs ++ [resp]) d' /\ dm_link d' = dm_link d.
Proof. intros Hw. exists (replied (rs ++ [resp]) d). by rewrite (reply_exact resp rs). Qed.

(** A request that gets an answer on the connection as it is. *)
Lemma serve_client_answer t cmd (d d1 : Daemon T) resp rs t' :
  conn_type_for_command cmd = lk_conn_type (dm_link d) -> cmd <> CmdShell -> cmd <> CmdDisconnect ->
  run_command dw cmd None t (accepted t cmd d) = (Done resp, t', d1) -> wrote rs d1 ->
  exists d', serve_client t cmd d =
    (mkExchange (Ok tt) (Ok tt) (Ok tt) (map (fun r => (t', Ok (newline (resp_to_string r)))) (rs ++ [resp]))
       (Some t'), d') /\ dm_link d' = dm_link d1.
Proof.
  intros Ht Hs Hd Hr Hw. unfold serve_client, on_accept.
  unfold bind at 1. cbn [now]. unfold bind at 1. cbn [modify client_of cl_faults].
  change (mkDaemon (dm_link d) _ _ _ t _ _) with (accepted t cmd d).
  unfold bind at 1, try at 1, read_first_line. cbn [cl_line client_of].
  unfold bind at 1, wait_until. rewrite Z.leb_refl. cbn [lift ret]. rewrite cmd_trim, cmd_round.
  unfold serve_command, bind at 1, ensure_conn_type, bind at 1. cbn [get].
  rewrite decide_True by done. cbn [ret negb].
  destruct (reply_run resp rs t' d1 Hw) as (d' & Hp & Hw' & Hl).
  assert ((let* response := with_retry dw config (command_name cmd) (run_command dw cmd) in
           reply response ;;; (ret (inl tt) : M (Daemon T) (unit + unit))) None t (accepted t cmd d)
          = (Done (inl tt), t', d')) as E.
  { unfold bind at 1, with_retry, bind at 1, try at 1. rewrite Hr. cbn [ret].
    unfold bind. by rewrite Hp. }
  exists d'. split; [|done].
  destruct cmd; try done; rewrite E, Hw'; cbn [uw_sent]; by rewrite !map_map.
Qed.

(** *** The process *)

(** A daemon listens, and its lock file can be read. *)
Definition daemon_up (h : Host T) : Prop :=
  sw_changes (h_files h) = [] /\ healthy (sw_disk (h_files h)) /\
  is_socket_alive SOCKET_PATH (sw_disk (h_files h)) = true /\
  exists f l, dk_files (sw_disk (h_files h)) !! LOCK_PATH = Some f /\ lock_from_str (f_content f) = Ok l.

Lemma set_files_same (h : Host T) k :
  sw_disk (h_files h) = k -> sw_changes (h_files h) = [] -> set_files (mkSpawnWorld k []) h = h.
Proof. destruct h as [[k' l] ? ? ? ? ?]. cbn. by intros -> ->. Qed.

Lemma lock_read_up t (h : Host T) : daemon_up h ->
  exists l, zoom h_files set_files (on_disk lock_read) None t h = (Done l, t, h).
Proof.
  intros (Hc & Hh & _ & f & l & Hf & Hl). exists l. unfold zoom, on_disk. rewrite Hc. cbn [settle].
  unfold lock_read, bind, context, read_to_string, syscall. rewrite Hh. cbn. rewrite Hf. cbn. rewrite Hl. cbn.
  f_equal. apply set_files_same; [|done]. destruct (sw_disk (h_files h)) eqn:E.
  unfold healthy in Hh. cbn in Hh. by subst.
Qed.
Lemma running_up t (h : Host T) : daemon_up h -> daemon_running None t h = (Done true, t, h).
Proof.
  intros (Hc & Hh & Ha & _). unfold daemon_running, zoom, on_disk. rewrite Hc. cbn [settle].
  unfold is_daemon_running, bind, get. rewrite Ha. cbn. f_equal. by apply set_files_same.
Qed.

(** The lines [rs] at time [a], and the end of the stream. *)
Definition speaks (a : Z) (rs : list SessionResponse) : Exchange :=
  mkExchange (Ok tt) (Ok tt) (Ok tt) (map (fun r => (a, Ok (newline (resp_to_string r)))) rs) (Some a).

(** The host after the request [cmd] was sent on the next connection. *)
Definition asked (cmd : SessionCommand) (h : Host T) : Host T :=
  add_sent cmd (set_exchanges (tail (h_exchanges h)) h).

Lemma open_up c cmd t a rs rest (h : Host T) :
  daemon_up h -> h_exchanges h = speaks a rs :: rest ->
  open_exchange c cmd None t h = (Done (speaks a rs), t, asked cmd h).
Proof.
  intros Hu Hx. destruct (lock_read_up t h Hu) as [l Hl]. unfold open_exchange, bind at 1. rewrite Hl.
  unfold bind at 1. cbn [get]. unfold asked. rewrite Hx. by destruct c.
Qed.

Lemma read_up a r rs t (h : Host T) :
  read_line (speaks a (r :: rs)) None t h =
  (Done (newline (resp_to_string r), speaks a rs), Z.max a t, h).
Proof. unfold read_line, bind. cbn [speaks xc_lines map]. by rewrite wait_until_run. Qed.
Lemma read_up_end a t (h : Host T) :
  read_line (speaks a []) None t h = (Done (""%string, speaks a []), Z.max a t, h).
Proof. unfold read_line, bind. cbn [speaks xc_lines map xc_eof]. by rewrite wait_until_run. Qed.

Lemma send_up cmd t a r rs rest (h : Host T) :
  daemon_up h -> h_exchanges h = speaks a (r :: rs) :: rest ->
  send_command cmd None t h = (Done r, Z.max a t, asked cmd h).
Proof.
  intros Hu Hx. unfold send_command, bind at 1. erewrite open_up by done.
  unfold bind at 1. rewrite read_up, resp_trim, resp_round. done.
Qed.

(** One request, one answer: what the process does with it. *)
Lemma ask_up json name failed cmd k t a r rs rest (h : Host T) :
  daemon_up h -> h_exchanges h = speaks a (r :: rs) :: rest -> sr_success r = true ->
  ask_daemon json name failed cmd k None t h = k r None (Z.max a t) (asked cmd h).
Proof.
  intros Hu Hx Hr. unfold ask_daemon, bind at 1, try at 1. erewrite send_up by done.
  unfold on_reply. by rewrite Hr.
Qed.

(** ** Commands the session answers by itself *)

(** What the process prints for a command, from the session of the daemon. *)
Definition cli_answer (c : Commands) (s : Session) : option Response :=
  match c with
  | CStatus => (fun cc => status_connected_response (cc_peer_id cc)) <$> s_config s
  | CDisplays => Some (displays_listing (imap indexed_display (default [] (pis_displays <$> s_peer_info s))))
  | CType text => Some (type_response text)
  | CKey key modifiers => Some (key_response key modifiers)
  | CClick button double x y => Some (click_response button x y double)
  | CScroll x y delta => Some (scroll_response x y delta)
  | CMove x y => Some (move_response x y)
  | CDrag x1 y1 x2 y2 => Some (drag_response x1 y1 x2 y2)
  | _ => None
  end.

(** Served by the session, the request leaves the connection as it was. *)
Lemma serve_by_session t cmd (d : Daemon T) resp msgs :
  by_session cmd = true -> lk_conn_type (dm_link d) = DefaultConn ->
  dispatch (lk_session (dm_link d)) cmd = (lk_session (dm_link d), Ok (resp, msgs)) ->
  exists d', serve_client t cmd d = (speaks t [resp], d') /\ dm_link d' = dm_link d.
Proof.
  intros Hb Ht Hd.
  destruct (serve_client_answer t cmd d (accepted t cmd d) resp [] t) as (d' & E & Hl);
    [by destruct cmd|by destruct cmd|by destruct cmd| |done|eauto].
  by apply (run_by_session dw cmd resp msgs).
Qed.

Lemma displays_data l :
  json_get "displays" (resp_data (resp_ok_with_data (show_nat (length l) ++ " display(s)")
    (object [("displays", Array l)]%string))) ≫= as_array = Some l.
Proof. reflexivity. Qed.

Lemma plain_run (w : CliWorld) json skip sandbox pm c cmd r t (d : Daemon T) rest (h : Host T) :
  from_flags (cw_sandbox w) skip sandbox = Ok pm ->
  s_state (lk_session (dm_link d)) = Connected -> lk_conn_type (dm_link d) = DefaultConn ->
  daemon_command c = Some cmd -> cli_answer c (lk_session (dm_link d)) = Some r ->
  daemon_up h -> h_exchanges h = (serve_client t cmd d).1 :: rest ->
  run (run_cli w (mkCli json skip sandbox c)) t h =
    (Done (rp_exit_code r), t, add_out (emit_response json r) (asked cmd h)) /\
  dm_link (serve_client t cmd d).2 = dm_link d.
Proof.
  intros Hpm Hc Ht Hcmd Hr Hu Hx. set (s := lk_session (dm_link d)) in *.
  assert (by_session cmd = true) as Hb by (destruct c; try done; cbn in Hcmd; by simplify_eq).
  destruct (by_session_dispatch s cmd Hc Hb) as (resp & msgs & Hd & Hs).
  destruct (serve_by_session t cmd d resp msgs Hb Ht Hd) as (d' & E & Hl).
  rewrite E in Hx |- *. cbn [fst snd] in Hx |- *. split; [|done].
  unfold run, run_cli. cbn [cli_json cli_skip_permissions cli_sandbox cli_command]. rewrite Hpm.
  destruct c; try done; cbn in Hcmd, Hr; simplify_eq.
  all: unfold run_type, run_key, run_click, run_scroll, run_move, run_drag.
  all: try (erewrite ask_up by done; rewrite Z.max_id; reflexivity).
  - unfold run_status, bind at 1. rewrite running_up by done. cbn [negb]. unfold bind at 1, try.
    erewrite send_up by done. rewrite Hs, Z.max_id. cbn in Hd. unfold dispatch_status in Hd.
    destruct (s_config s) as [cc|]; [|done]. cbn in Hr. by simplify_eq.
  - unfold run_displays. erewrite ask_up by done. rewrite Z.max_id. cbn [dispatch] in Hd.
    unfold dispatch_displays in Hd. rewrite require_connected_ok in Hd by done. cbn in Hd. by simplify_eq.
Qed.
(** ** Streamed responses *)

Lemma stream_iter {X} (f : X -> SessionResponse -> M (Host T) X) (g : X -> SessionResponse -> X)
    (o : SessionResponse -> list Output) :
  (forall v r t h, f v r None t h = (Done (g v r), t, add_out (o r) h)) ->
  forall rs v last a t fuel h, (length rs < fuel)%nat ->
  iter fuel (stream_step f) (v, last, speaks a rs) None t h =
  (Done (foldl g v rs, foldl (fun _ r => Some r) last rs), Z.max a t, add_out (concat (map o rs)) h).
Proof.
  intros Hf. induction rs as [|r rs IH]; intros v last a t fuel h Hfuel;
    (destruct fuel as [|fuel]; [cbn in Hfuel; lia|]); rewrite iter_S; unfold stream_step at 1.
  - unfold bind at 1, bind at 1. rewrite read_up_end. cbn. unfold add_out.
    destruct h. cbn. by rewrite app_nil_r.
  - unfold bind at 1, bind at 1. rewrite read_up.
    replace (is_empty (newline (resp_to_string r))) with false by (by destruct (resp_to_string r)).
    rewrite resp_trim, resp_text. unfold bind at 1. rewrite resp_round. cbn [lift ret].
    unfold bind at 1. rewrite Hf. cbn [ret]. rewrite IH by (cbn in Hfuel; lia).
    rewrite Z.max_assoc, Z.max_id. unfold add_out. cbn. rewrite <- app_assoc.
    done.
Qed.

Lemma stream_up {X} (f : X -> SessionResponse -> M (Host T) X) (g : X -> SessionResponse -> X)
    (o : SessionResponse -> list Output) v cmd t a rs r rest (h : Host T) :
  (forall v r t h, f v r None t h = (Done (g v r), t, add_out (o r) h)) ->
  daemon_up h -> h_exchanges h = speaks a (rs ++ [r]) :: rest ->
  send_to_daemon_streaming v cmd f None t h =
  (Done (foldl g v (rs ++ [r]), r), Z.max a t, add_out (concat (map o (rs ++ [r]))) (asked cmd h)).
Proof.
  intros Hf Hu Hx. unfold send_to_daemon_streaming, bind at 1. erewrite open_up by done.
  unfold bind at 1. rewrite (stream_iter f g o) by (done || (cbn [speaks xc_lines]; rewrite length_map; lia)).
  by rewrite (foldl_app (fun _ r => Some r)).
Qed.

(** What [exec] shows of a response before the last line, and whether that is output. *)
Definition exec_shown (json : bool) (r : SessionResponse) : option string :=
  if json then None
  else match sr_data r with
       | Some data => if bool_decide (data_str "kind" data <> Some "chunk"%string) then None
                      else data_str "chunk" data
       | None => None
       end.
Lemma on_exec_response_run json v r t (h : Host T) :
  on_exec_response json v r None t h =
  (Done (v || bool_decide (is_Some (exec_shown json r))), t,
   add_out (from_option (fun s => [OutText s]) [] (exec_shown json r)) h).
Proof.
  assert (forall h : Host T, add_out [] h = h) as Hn by (intros []; unfold add_out; cbn; by rewrite app_nil_r).
  unfold on_exec_response, exec_shown. destruct (sr_data r) as [data|]; cbn; [|destruct json; cbn; by rewrite orb_false_r, Hn].
  case_match; [by destruct json; cbn; rewrite orb_false_r, Hn|].
  destruct json; [by cbn; rewrite orb_false_r, Hn|]. destruct (data_str "chunk" data); cbn; [by rewrite orb_true_r|].
  by rewrite orb_false_r, Hn.
Qed.

(** The daemon's side of [exec]. *)
Lemma exec_served command timeout t (d d1 : Daemon T) resp t' :
  run_command dw (CmdExec command timeout) None t (accepted t (CmdExec command timeout) d) = (Done resp, t', d1) ->
  exists ps, wrote (map exec_output_chunk_response ps) d1 /\
    exec_says command (exec_sentinel (w_nanos dw t)) ps resp.
Proof.
  unfold run_command, bind at 1. cbn [now]. unfold on_exec, on_shell, in_exec, zoom. cbn.
  set (x := mkExecState _ _ _). intros E.
  pose proof (exec_streams (w_nanos dw t) command timeout None t x eq_refl) as Hs.
  destruct (exec_command_inner _ _ _ _ None t x) as [[[r|e| | |] t2] x2]; try done.
  simplify_eq. destruct Hs as (ps & Hp & Hr). exists ps. split; [|done]. unfold wrote, told in *. cbn.
  rewrite Hp. by rewrite map_map.
Qed.

(** The exit code as it comes out of the response. *)
Definition shown_code (code : Z) : Z := swrap 32 (default 0 (as_i64 (Number code))).
Definition exec_final (json : bool) (command stdout : string) (code : Z) (timed_out streamed : bool) : Response :=
  if negb json && streamed then exec_streaming_response (shown_code code) timed_out
  else Response.exec_response command stdout "" (shown_code code).
Definition pieces_shown (json : bool) (ps : list bytes) : list Output :=
  if json then [] else map (fun b => OutText (from_utf8_lossy b)) ps.

Lemma exec_shown_pieces json ps msg command stdout code timed_out :
  let rs := map exec_output_chunk_response ps ++ [Exec.exec_response msg command stdout code timed_out] in
  concat (map (fun r => from_option (fun s => [OutText s]) [] (exec_shown json r)) rs) = pieces_shown json ps /\
  foldl (fun v r => v || bool_decide (is_Some (exec_shown json r))) false rs =
    negb json && negb (bool_decide (ps = [])).
Proof.
  cbv zeta. rewrite foldl_app, map_app, concat_app. cbn [map concat foldl].
  replace (exec_shown json (Exec.exec_response msg command stdout code timed_out)) with (@None string)
    by (by destruct json).
  change (from_option (fun s => [OutText s]) [] None) with (@nil Output). rewrite !app_nil_r.
  replace (bool_decide (is_Some (@None string))) with false by done. rewrite orb_false_r.
  assert (forall v, foldl (fun v r => v || bool_decide (is_Some (exec_shown json r))) v
    (map exec_output_chunk_response ps) = v || negb json && negb (bool_decide (ps = []))) as Hf.
  { destruct json; induction ps as [|p ps IH]; intros v; cbn [map foldl]; try rewrite IH; cbn;
      by rewrite ?orb_false_r, ?orb_true_r. }
  split; [|apply (Hf false)]. unfold pieces_shown. clear Hf.
  destruct json; (induction ps as [|p ps IH]; [done|]); cbn [map concat]; by rewrite IH.
Qed.

(** What the process does with the pieces and the response the daemon wrote. *)
Lemma exec_process (w : CliWorld) json skip sandbox pm command timeout sv t (d d1 : Daemon T) ps msg stdout code
    timed_out t' rest (h : Host T) :
  let cmd := CmdExec command (Some timeout) in
  from_flags (cw_sandbox w) skip sandbox = Ok pm -> ensure_exec_allowed pm (cw_prompt w 0) command = Ok tt ->
  lk_conn_type (dm_link d) = ConnTerminal ->
  run_command dw cmd None t (accepted t cmd d) =
    (Done (Exec.exec_response msg command stdout code timed_out), t', d1) ->
  wrote (map exec_output_chunk_response ps) d1 ->
  daemon_up h -> h_exchanges h = (serve_client t cmd d).1 :: rest ->
  run (run_cli w (mkCli json skip sandbox (CExec command timeout None sv))) t h =
    (Done EXIT_SUCCESS, Z.max t' t,
     add_out (emit_response json (exec_final json command stdout code timed_out (negb (bool_decide (ps = [])))))
       (add_out (pieces_shown json ps) (asked cmd h))) /\
  dm_link (serve_client t cmd d).2 = dm_link d1.
Proof.
  intros cmd Hpm Hp Ht Hr Hw Hu Hx.
  destruct (serve_client_answer t cmd d d1 (Exec.exec_response msg command stdout code timed_out)
    (map exec_output_chunk_response ps) t') as (d' & E & Hl); try done.
  rewrite E in Hx |- *. cbn [fst snd] in Hx |- *. split; [|done].
  unfold run, run_cli. cbn [cli_json cli_skip_permissions cli_sandbox cli_command]. rewrite Hpm.
  unfold run_exec, permitted. rewrite Hp. unfold bind at 1, try at 1.
  erewrite (stream_up (on_exec_response json)) by (done || (intros; apply on_exec_response_run)).
  destruct (exec_shown_pieces json ps msg command stdout code timed_out) as [-> ->].
  cbn [fmap result_fmap snd on_reply]. unfold exec_final, shown_code.
  by destruct json, (bool_decide (ps = [])).
Qed.

Lemma exec_run (w : CliWorld) json skip sandbox pm command timeout sv t (d d1 : Daemon T) resp t' rest (h : Host T) :
  let cmd := CmdExec command (Some timeout) in
  from_flags (cw_sandbox w) skip sandbox = Ok pm -> ensure_exec_allowed pm (cw_prompt w 0) command = Ok tt ->
  lk_conn_type (dm_link d) = ConnTerminal ->
  run_command dw cmd None t (accepted t cmd d) = (Done resp, t', d1) ->
  daemon_up h -> h_exchanges h = (serve_client t cmd d).1 :: rest ->
  exists ps msg stdout code timed_out,
    exec_says command (exec_sentinel (w_nanos dw t)) ps resp /\
    resp = Exec.exec_response msg command stdout code timed_out /\
    run (run_cli w (mkCli json skip sandbox (CExec command timeout None sv))) t h =
    (Done EXIT_SUCCESS, Z.max t' t,
     add_out (emit_response json (exec_final json command stdout code timed_out (negb (bool_decide (ps = [])))))
       (add_out (pieces_shown json ps) (asked cmd h))).
Proof.
  intros cmd Hpm Hp Ht Hr Hu Hx. destruct (exec_served _ _ _ _ _ _ _ Hr) as (ps & Hw & Hsay).
  pose proof Hsay as (msg & stdout & code & timed_out & -> & _).
  exists ps, msg, stdout, code, timed_out. split_and!; [done..|].
  by eapply exec_process.
Qed.

(** ** Screenshots *)

Lemma on_control_client {A} (m : M (Session * EncryptedStream T) A) dl t (d : Daemon T) :
  dm_client (on_control m dl t d).2 = dm_client d.
Proof. unfold on_control, zoom. by destruct (m dl t _) as [[o t'] x]. Qed.

Lemma capture_data data : exists v, sr_data (Daemon.capture_response data) = Some v /\
  data_str "bytes_b64" v = Some (base64_encode data).
Proof. by eexists. Qed.

Lemma capture_run (w : CliWorld) json skip sandbox pm f display format quality timeout region cmd data t t'
    (d d1 : Daemon T) rest (h : Host T) :
  let c := CCapture (Some f) display format quality timeout region in
  from_flags (cw_sandbox w) skip sandbox = Ok pm -> daemon_command c = Some cmd ->
  lk_conn_type (dm_link d) = DefaultConn ->
  run_command dw cmd None t (accepted t cmd d) = (Done (Daemon.capture_response data), t', d1) ->
  fs_write (cw_sinks w) f data = Ok tt ->
  daemon_up h -> h_exchanges h = (serve_client t cmd d).1 :: rest ->
  run (run_cli w (mkCli json skip sandbox c)) t h =
  (Done EXIT_SUCCESS, Z.max t' t,
   add_out (emit_response json (capture_result_response (Some f) (default (infer_format f) format) region display
              timeout (Z.of_nat (length data))))
     (add_out [OutFile f data] (asked cmd h))).
Proof.
  intros c Hpm Hc Ht Hr Hf Hu Hx.
  assert (wrote [] d1) as Hw.
  { pose proof (on_control_client (execute_daemon_command (w_pid dw) (w_nanos dw t) cmd) None t (accepted t cmd d)) as Hcl.
    cbn in Hc. simplify_eq. unfold run_command, bind at 1 in Hr. cbn [now] in Hr. rewrite Hr in Hcl.
    unfold wrote. cbn [snd] in Hcl. by rewrite Hcl. }
  destruct (serve_client_answer t cmd d d1 (Daemon.capture_response data) [] t') as (d' & E & _);
    try (cbn in Hc; by simplify_eq).
  rewrite E in Hx. cbn [fst] in Hx.
  unfold run, run_cli. cbn [cli_json cli_skip_permissions cli_sandbox cli_command c]. rewrite Hpm.
  unfold run_capture, bind at 1. rewrite running_up by done. cbn [negb].
  assert (match format with Some f0 => f0 | None => infer_format f end = default (infer_format f) format) as ->
    by by destruct format.
  assert (cmd = CmdCapture f (Some (format_as_str (default (infer_format f) format))) (Some quality)
    (to_capture_region <$> region) display (Some timeout)) as -> by (cbn in Hc; by destruct format; simplify_eq).
  cbn [default from_option id]. erewrite ask_up by done.
  destruct (capture_data data) as (v & -> & ->). cbn [default from_option id]. rewrite capture_decode_base64.
  unfold write_capture, write_capture_output. rewrite Hf. reflexivity.
Qed.

(** ** Batches *)

Lemma do_run (w : CliWorld) json skip sandbox pm steps t (h : Host T) :
  from_flags (cw_sandbox w) skip sandbox = Ok pm -> Forall step_grammar steps -> daemon_up h ->
  run (run_cli w (mkCli json skip sandbox (CDo (batch_tokens steps)))) t h =
  (Done EXIT_SUCCESS, t, add_out (emit_batch_response json (do_response steps)) h).
Proof.
  intros Hpm Hs Hu. unfold run, run_cli. cbn [cli_json cli_skip_permissions cli_sandbox cli_command]. rewrite Hpm.
  unfold run_do, bind at 1. rewrite running_up by done. cbn [negb].
  assert (parse_batch_steps (batch_tokens steps) = Some (Ok steps)) as ->.
  { apply parse_batch_from_iff; [lia|]. eauto. }
  unfold do_response. by destruct (do_steps 0 steps).
Qed.
End wire.

(** C20: a command line and the daemon it talks to, together.  With a
    connected daemon, [status] prints the peer the daemon was started for, [displays] lists the
    displays of its peer, and a keyboard or mouse command prints its confirmation; the exit code is
    0, exactly that one request was sent, and the daemon's connection to the peer is as it was
    before.  For the keyboard and mouse commands this means that the peer was told nothing. *)
Theorem plain_command_end_to_end {T : Type} `{Transport T} `{CryptoLib} `{ProtoCodec Message} `{ProtoCodec IdPk}
    `{ProtoCodec RendezvousMessage} `{ServerKeyLib} `{Zstd} `{ImageLib Img} `{LockLib} `{JsonText}
    (C : CommandLib) (R : ResponseLib) (W : WireLib) (L : WireLaws W C R)
    dw config args w json skip sandbox pm c cmd r t (d : Daemon T) rest (h : Host T) :
  from_flags (cw_sandbox w) skip sandbox = Ok pm ->
  daemon_ok args d -> lk_conn_type (dm_link d) = DefaultConn ->
  daemon_command c = Some cmd -> cli_answer c (lk_session (dm_link d)) = Some r ->
  daemon_up h -> h_exchanges h = (serve_client dw config t cmd d).1 :: rest ->
  exists h', run (run_cli w (mkCli json skip sandbox c)) t h = (Done EXIT_SUCCESS, t, h') /\
    h_out h' = h_out h ++ emit_response json r /\ h_sent h' = h_sent h ++ [cmd] /\
    (c = CStatus -> r = status_connected_response (da_peer_id args)) /\
    dm_link (serve_client dw config t cmd d).2 = dm_link d.
Proof.
  intros Hpm Hok Ht Hcmd Hr Hu Hx. exists (add_out (emit_response json r) (asked cmd h)).
  destruct (plain_run dw config w json skip sandbox pm c cmd r t d rest h) as [E Hl];
    try done; [apply Hok|].
  split; [|split_and!; [done..| |done]].
  - rewrite E. f_equal. f_equal. f_equal. clear Hcmd Hx E Hl.
    destruct c; try done; cbn in Hr; simplify_eq; try done.
    rewrite (ok_config _ _ Hok) in Hr. cbn in Hr. by simplify_eq.
  - intros ->. cbn in Hr. rewrite (ok_config _ _ Hok) in Hr. cbn in Hr. by simplify_eq.
Qed.

(** An executed command, from the terminal to the screen.  When the daemon
    gets a response for a command that passed the permission check, the process ends with exit code
    0 whatever the command's own exit code.  In text mode it has printed every piece of terminal
    output as it came, and then one line with the exit code the daemon read from those very pieces;
    unless the time was up or the terminal closed, the pieces contain the marker line, so the user
    sees it.  In JSON mode it has printed one object with the output between the markers. *)
Theorem exec_end_to_end {T : Type} `{Transport T} `{CryptoLib} `{ProtoCodec Message} `{ProtoCodec IdPk}
    `{ProtoCodec RendezvousMessage} `{ServerKeyLib} `{Zstd} `{ImageLib Img} `{LockLib} `{JsonText}
    (C : CommandLib) (R : ResponseLib) (W : WireLib) (L : WireLaws W C R)
    dw config w json skip sandbox pm command timeout sv t (d d1 : Daemon T) resp t' rest (h : Host T) :
  let cmd := CmdExec command (Some timeout) in
  from_flags (cw_sandbox w) skip sandbox = Ok pm -> ensure_exec_allowed pm (cw_prompt w 0) command = Ok tt ->
  lk_conn_type (dm_link d) = ConnTerminal ->
  run_command dw cmd None t (accepted t cmd d) = (Done resp, t', d1) ->
  daemon_up h -> h_exchanges h = (serve_client dw config t cmd d).1 :: rest ->
  exists pieces msg stdout code timed_out h',
    resp = Exec.exec_response msg command stdout code timed_out /\
    exec_says command (exec_sentinel (w_nanos dw t)) pieces resp /\
    run (run_cli w (mkCli json skip sandbox (CExec command timeout None sv))) t h =
      (Done EXIT_SUCCESS, Z.max t' t, h') /\
    h_out h' = h_out h ++ pieces_shown json pieces ++
      emit_response json (exec_final json command stdout code timed_out (negb (bool_decide (pieces = [])))) /\
    h_sent h' = h_sent h ++ [cmd].
Proof.
  intros cmd Hpm Hp Ht Hr Hu Hx.
  destruct (exec_run dw config w json skip sandbox pm command timeout sv t d d1 resp t' rest h)
    as (ps & msg & stdout & code & timed_out & Hs & Hresp & E); try done.
  exists ps, msg, stdout, code, timed_out. eexists. split_and!; [done..|exact E| |done].
  cbn. by rewrite <- app_assoc.
Qed.

(** C21: the image the daemon got is the file the user gets.  When the daemon's
    screenshot request returns an image, the process writes exactly its bytes, through base64 and
    back, to the file named on the command line, reports their number and ends with exit code 0. *)
Theorem capture_end_to_end {T : Type} `{Transport T} `{CryptoLib} `{ProtoCodec Message} `{ProtoCodec IdPk}
    `{ProtoCodec RendezvousMessage} `{ServerKeyLib} `{Zstd} `{ImageLib Img} `{LockLib} `{JsonText}
    (C : CommandLib) (R : ResponseLib) (W : WireLib) (L : WireLaws W C R)
    dw config w json skip sandbox pm f display format quality timeout region cmd data t t'
    (d d1 : Daemon T) rest (h : Host T) :
  let c := CCapture (Some f) display format quality timeout region in
  from_flags (cw_sandbox w) skip sandbox = Ok pm -> daemon_command c = Some cmd ->
  lk_conn_type (dm_link d) = DefaultConn ->
  run_command dw cmd None t (accepted t cmd d) = (Done (Daemon.capture_response data), t', d1) ->
  fs_write (cw_sinks w) f data = Ok tt ->
  daemon_up h -> h_exchanges h = (serve_client dw config t cmd d).1 :: rest ->
  exists h', run (run_cli w (mkCli json skip sandbox c)) t h = (Done EXIT_SUCCESS, Z.max t' t, h') /\
    h_out h' = h_out h ++ [OutFile f data] ++
      emit_response json (capture_result_response (Some f) (default (infer_format f) format) region display
                            timeout (Z.of_nat (length data))).
Proof.
  intros c Hpm Hc Ht Hr Hf Hu Hx. eexists. split.
  - by eapply (capture_run dw config w json skip sandbox pm f display format quality timeout region cmd data t t' d d1).
  - cbn. by rewrite <- app_assoc.
Qed.

(** C29: a batch is reported, not run.  With a daemon running, [do] with
    any well-formed steps ends with exit code 0 and a report in which every step succeeded, while no
    request is sent to the daemon and no connection is made: the process has only printed. *)
Theorem do_reports_without_acting {T : Type} `{Transport T} `{CryptoLib} `{ProtoCodec Message} `{ProtoCodec IdPk}
    `{ProtoCodec RendezvousMessage} `{ServerKeyLib} `{Zstd} `{LockLib} `{JsonText} `{ResponseLib}
    w json skip sandbox pm steps t (h : Host T) :
  from_flags (cw_sandbox w) skip sandbox = Ok pm -> Forall step_grammar steps -> daemon_up h ->
  run (run_cli w (mkCli json skip sandbox (CDo (batch_tokens steps)))) t h =
    (Done EXIT_SUCCESS, t, add_out (emit_batch_response json (do_response steps)) h) /\
  Forall (fun s => json_get "ok" (rp_json (step_to_response s)) = Some (Bool true)) steps.
Proof.
  intros Hpm Hs Hu. split; [by eapply do_run|].
  eapply Forall_impl; [exact Hs|]. intros s. apply step_reports_ok.
Qed.

(** ** Evaluating the composition *)

#[local] Instance toy_crypto_e : CryptoLib := toy_crypto.
#[local] Instance toy_messages_e : ProtoCodec Message := toy_codec MessageUnion.
#[local] Instance toy_rendezvous_e : ProtoCodec RendezvousMessage := toy_codec RendezvousUnion.
#[local] Instance toy_idpk_e : ProtoCodec IdPk := toy_idpk.
#[local] Instance toy_server_keys_e : ServerKeyLib := DaemonLoop.toy_server_keys.
#[local] Instance toy_zstd_e : Zstd := toy_zstd.
#[local] Instance toy_image_e : ImageLib (Z * Z) := toy_image.
#[local] Instance toy_lock_e : LockLib := toy_lock.
#[local] Instance toy_text_e : JsonText := {| json_text := fun _ => "{}"%string |}.
#[local] Instance toy_commands_e : CommandLib := toy_wire_commands.
#[local] Instance toy_responses_e : ResponseLib := toy_wire_responses.
#[local] Instance toy_wire_e : WireLib := toy_wire.

Lemma toy_host_up xs : daemon_up (toy_host xs).
Proof.
  split_and!; [done|done|vm_compute; reflexivity|].
  eexists _, _. split; [reflexivity|vm_compute; reflexivity].
Defined.

Abbreviation toy_config := (config_of toy_args).

Lemma plain_command_end_to_end_witness :
  let d := toy_daemon (toy_stream []) DefaultConn [] in
  let h := toy_host [(serve_client toy_world toy_config 9 CmdStatus d).1] in
  exists h', run (run_cli toy_cli (mkCli false true false CStatus)) 9 h = (Done EXIT_SUCCESS, 9, h') /\
    h_out h' = [OutLine "connected id=123 width=1920 height=1080"].
Proof.
  intros d h.
  destruct (plain_command_end_to_end toy_wire_commands toy_wire_responses toy_wire toy_wire_laws toy_world toy_config
    toy_args toy_cli false true false (mkPermissionManager true None) CStatus CmdStatus
    (status_connected_response "123") 9 d [] h) as (h' & E & Ho & _).
  - reflexivity.
  - apply toy_daemon_ok.
  - reflexivity.
  - reflexivity.
  - reflexivity.
  - apply toy_host_up.
  - reflexivity.
  - exists h'. split; [exact E|]. rewrite Ho. vm_compute. reflexivity.
Defined.

Lemma do_reports_without_acting_witness :
  let steps := [mkBatchStep "type" ["x"%string]; mkBatchStep "status" []] in
  exists h', run (run_cli toy_cli (mkCli false true false (CDo (batch_tokens steps)))) 9 (toy_host []) =
    (Done EXIT_SUCCESS, 9, h') /\ h_sent h' = [].
Proof.
  intros steps.
  destruct (do_reports_without_acting toy_cli false true false (mkPermissionManager true None) steps 9 (toy_host []))
    as [E _].
  - reflexivity.
  - repeat constructor.
  - apply toy_host_up.
  - eexists. split; [exact E|reflexivity].
Defined.

(** The terminal opens, is silent while the prompt is awaited, and then prints. *)
Definition toy_marker : string := exec_sentinel (w_nanos toy_world 9).
Definition toy_transcript : string := ("hi" ++ String LF "" ++ toy_marker ++ "3" ++ String LF "")%string.
Definition toy_terminal : inbox :=
  [(20, Some (Some (UTerminalResponse (Some (TROpened (mkTerminalOpened 1 true "" 42 "svc" []))))));
   (5000, Some (Some (UTerminalResponse (Some (TRData (mkTerminalData 1 (as_bytes toy_transcript) false))))))].

Lemma exec_end_to_end_witness :
  let d := toy_daemon (toy_stream toy_terminal) ConnTerminal [] in
  let cmd := CmdExec "ls" (Some 30) in
  let h := toy_host [(serve_client toy_world toy_config 9 cmd d).1] in
  exists h', run (run_cli toy_cli (mkCli false true false (CExec "ls" 30 None (mkServers None None None None None)))) 9 h
               = (Done EXIT_SUCCESS, 5000, h') /\ h_sent h' = [cmd].
Proof.
  intros d cmd h.
  destruct (exec_end_to_end toy_wire_commands toy_wire_responses toy_wire toy_wire_laws toy_world toy_config toy_cli
    false true false (mkPermissionManager true None) "ls" 30 (mkServers None None None None None) 9 d
    (run_command toy_world cmd None 9 (accepted 9 cmd d)).2
    (Exec.exec_response "Executed `ls`" "ls" "hi" 3 false) 5000 [] h)
    as (ps & msg & stdout & code & timed_out & h' & _ & _ & E & _ & Hs).
  - reflexivity.
  - reflexivity.
  - reflexivity.
  - vm_compute. reflexivity.
  - apply toy_host_up.
  - reflexivity.
  - exists h'. split; [exact E|exact Hs].
Defined.

(** The marker is on the screen. *)
Example exec_shows_marker :
  let d := toy_daemon (toy_stream toy_terminal) ConnTerminal [] in
  let h := toy_host [(serve_client toy_world toy_config 9 (CmdExec "ls" (Some 30)) d).1] in
  h_out (run (run_cli toy_cli (mkCli false true false (CExec "ls" 30 None (mkServers None None None None None)))) 9 h).2
  = [OutText toy_transcript; OutLine "exec exit_code=3"] /\ contains toy_marker toy_transcript = true.
Proof. vm_compute. split; reflexivity. Qed.

Definition toy_screen : inbox :=
  [(30, Some (Some (UScreenshotResponse (mkScreenshotResponse "rustdesk-cli-4242-9000000" "" [x02; x03]))))].

Lemma capture_end_to_end_witness :
  let c := CCapture (Some "a.png"%string) None None 90 10 None in
  let cmd := CmdCapture "a.png" (Some "png"%string) (Some 90) None None (Some 10) in
  let d := toy_daemon (toy_stream toy_screen) DefaultConn [] in
  let h := toy_host [(serve_client toy_world toy_config 9 cmd d).1] in
  exists h', run (run_cli toy_cli (mkCli false true false c)) 9 h = (Done EXIT_SUCCESS, 30, h') /\
    h_out h' = [OutFile "a.png" [x89; x02; x03]; OutLine "captured file=a.png format=png bytes=3"].
Proof.
  intros c cmd d h.
  destruct (capture_end_to_end toy_wire_commands toy_wire_responses toy_wire toy_wire_laws toy_world toy_config toy_cli
    false true false (mkPermissionManager true None) "a.png" None None 90 10 None cmd [x89; x02; x03] 9 30 d
    (run_command toy_world cmd None 9 (accepted 9 cmd d)).2 [] h) as (h' & E & Ho).
  - reflexivity.
  - reflexivity.
  - reflexivity.
  - vm_compute. reflexivity.
  - reflexivity.
  - apply toy_host_up.
  - reflexivity.
  - exists h'. split; [exact E|]. rewrite Ho. vm_compute. reflexivity.
Defined.
