(* ===== verification/PeerToScreen.v ===== *)
(** * From the peer to the screen

    The daemon's handler runs a command against a peer whose messages are given, and the command
    line process that asked for it prints the outcome: [exec], [push] and [shell] through both processes
    and the wire. *)

From Stdlib Require Import ZArith Lia.
From Stdlib Require Import Strings.Byte Strings.Ascii Strings.String.
From stdpp Require Import base list option numbers gmap strings.
From S2P Require Import Prelude RustStr Async Transport Crypto Base64 Permissions Json Session.
From S2P Require Import Proto Inbox Terminal Capture FileTransfer Rendezvous Connection Exec ExecStream.
From S2P Require Import ExecRun Lockfile Daemon PushRun ShellRun DaemonLoop Serving Direct Batch Response Cli CliSpec.
From S2P Require Import Wire EndToEnd.

Local Open Scope Z_scope.
Local Open Scope async_scope.

Section screen.
Context (C : CryptoLib) {CL : CryptoLaws C} (P : ProtoCodec Message) {PL : ProtoLaws P}
  (Zs : Zstd) {ZL : ZstdLaws Zs}.
Context `{ProtoCodec IdPk} `{ProtoCodec RendezvousMessage} `{ServerKeyLib} {Img : Type} `{ImageLib Img} `{LockLib}
  `{JsonText}.
Context (CC : CommandLib) (R : ResponseLib) (W : WireLib) {L : WireLaws W CC R}.
Context (dw : World) (config : ConnConfig).
Abbreviation D := (Daemon NetTransport).

(** A daemon on a connection of the given type that works. *)
Record on_connection (ty : ConnType) (d : D) : Prop := {
  oc_type : lk_conn_type (dm_link d) = ty;
  oc_faults : net_faults (es_inner (lk_stream (dm_link d))) = [];
  oc_end : net_end (es_inner (lk_stream (dm_link d))) = Never
}.

(** The part of the daemon a command with a client works on. *)
Definition exec_part (t : Z) (cmd : SessionCommand) (d : D) : ExecState NetTransport :=
  mkExecState (lk_stream (dm_link d)) (lk_service (dm_link d)) (mkUdsWriter [] []).

Lemma on_exec_done {A} (m : M (ExecState NetTransport) A) t cmd d o t' s' :
  m None t (exec_part t cmd d) = (o, t', s') ->
  exists d', on_exec m None t (accepted t cmd d) = (o, t', d') /\
    (dm_client d').2 = ex_writer s' /\ lk_stream (dm_link d') = ex_stream s' /\
    lk_service (dm_link d') = ex_service_id s' /\ lk_session (dm_link d') = lk_session (dm_link d).
Proof.
  intros E. unfold on_exec, on_shell, in_exec, zoom. cbn [accepted dm_link dm_client fst snd].
  unfold exec_part in E. rewrite E. by eexists.
Qed.

(** ** Executing a command *)

Lemma exec_answer_response nanos command sc :
  exists stdout code timed_out, exec_answer nanos command sc = answer command stdout code timed_out.
Proof.
  unfold exec_answer. destruct (sc_ending sc); [| |by eauto]; destruct (parse_exec_output _ _); eauto.
Qed.

Lemma exec_on_screen (w : CliWorld) json skip sandbox pm command timeout sv t (d : D) sc payload flag rest
    (h : Host NetTransport) :
  let cmd := CmdExec command (Some timeout) in
  let nanos := w_nanos dw t in
  from_flags (cw_sandbox w) skip sandbox = Ok pm -> ensure_exec_allowed pm (cw_prompt w 0) command = Ok tt ->
  on_connection ConnTerminal d -> script_ok Zs nanos (Some timeout) sc t ->
  delivers_msgs C P (script_msgs sc) (lk_stream (dm_link d)) ->
  terminal_payload (as_bytes (sent_command nanos command)) = Ok (payload, flag) ->
  Forall (fits P) (exec_sends sc payload flag) ->
  daemon_up h -> h_exchanges h = (serve_client dw config t cmd d).1 :: rest ->
  exists stdout code timed_out,
    exec_answer nanos command sc = answer command stdout code timed_out /\
    run (run_cli w (mkCli json skip sandbox (CExec command timeout None sv))) t h =
      (Done EXIT_SUCCESS, Z.max (ended_at (Some timeout) sc t) t,
       add_out (emit_response json (exec_final json command stdout code timed_out (negb (bool_decide (pieces sc = [])))))
         (add_out (pieces_shown json (pieces sc)) (asked cmd h))) /\
    let d' := (serve_client dw config t cmd d).2 in
    lk_service (dm_link d') = None /\ lk_session (dm_link d') = lk_session (dm_link d) /\
    has_sent C P (lk_stream (dm_link d)) (exec_sends sc payload flag) (lk_stream (dm_link d')) /\
    delivers_msgs C P (sc_rest sc) (lk_stream (dm_link d')).
Proof.
  intros cmd nanos Hpm Hp [Ht Hf He] Hok Hd Hpay Hfit Hu Hx.
  destruct (script_run C P Zs nanos command (Some timeout) true sc (exec_part t cmd d) payload flag Hpay Hfit t Hok)
    as (s' & E & [Hs Hi Hw] & Hd'); [|done|].
  { constructor; [by apply has_sent_nil|done|done]. }
  destruct (on_exec_done _ _ _ _ _ _ _ E) as (d1 & E1 & Hc & Hst & Hsv & Hss).
  destruct (exec_answer_response nanos command sc) as (stdout & code & timed_out & Ea).
  assert (wrote (map exec_output_chunk_response (pieces sc)) d1) as Hwr.
  { unfold wrote. rewrite Hc, Hw. unfold passed. cbn. by rewrite map_map. }
  rewrite Ea in E1. unfold answer in E1.
  destruct (exec_process dw config w json skip sandbox pm command timeout sv t d d1 (pieces sc)
    ("Executed `" ++ command ++ "`") stdout code timed_out (ended_at (Some timeout) sc t) rest h)
    as [Erun Hl]; try done.
  exists stdout, code, timed_out. split_and!; [done|exact Erun|]. cbv zeta. fold cmd in Hl. rewrite Hl, Hsv, Hss, Hst.
  split_and!; [done|done| |done]. by rewrite take_ge in Hs.
Qed.

(** ** Pushing a file *)

(** What the process shows of a response while it waits. *)
Definition push_shown (json : bool) (r : SessionResponse) : list Output :=
  if json then []
  else match sr_data r with
       | None => []
       | Some data =>
         if bool_decide (data_str "kind" data <> Some "progress"%string) then []
         else [ErrProgress (data_u64 "sent_bytes" data) (data_u64 "total_bytes" data) (data_u64 "resumed_bytes" data)]
       end.

Lemma on_push_response_run json v r t (h : Host NetTransport) :
  on_push_response json v r None t h = (Done tt, t, add_out (push_shown json r) h).
Proof.
  assert (forall h : Host NetTransport, add_out [] h = h) as Hn by (intros []; unfold add_out; cbn; by rewrite app_nil_r).
  unfold on_push_response, push_shown. destruct json; [cbn; by rewrite Hn|].
  destruct (sr_data r); [|cbn; by rewrite Hn]. case_match; [cbn; by rewrite Hn|done].
Qed.

Lemma end_progress_run json t (h : Host NetTransport) :
  end_progress json None t h = (Done tt, t, add_out (if json then [] else [ErrLine ""]) h).
Proof. destruct json; [|done]. destruct h. unfold add_out. cbn. by rewrite app_nil_r. Qed.

(** Counts of a file that JSON can carry. *)
Definition u64_counts (p : PushProgress) : Prop :=
  0 <= pp_sent_bytes p < 2 ^ 64 /\ 0 <= pp_total_bytes p < 2 ^ 64 /\ 0 <= pp_resumed_bytes p < 2 ^ 64.

Lemma data_u64_number key d z : json_get key d = Some (Number z) -> 0 <= z < 2 ^ 64 -> data_u64 key d = z.
Proof.
  intros E Hz. unfold data_u64. rewrite E. cbn [mbind option_bind as_u64].
  rewrite (proj2 (Z.leb_le _ _)), (proj2 (Z.ltb_lt _ _)) by lia. done.
Qed.

Lemma push_shown_reports json remote_path reports r :
  Forall u64_counts reports ->
  concat (map (push_shown json) (map (push_progress_response remote_path) reports ++ [push_complete_response r])) =
  if json then [] else map show_progress reports.
Proof.
  intros Hr. rewrite map_app, concat_app. cbn [map concat].
  assert (push_shown json (push_complete_response r) = []) as -> by (by destruct json). rewrite !app_nil_r.
  destruct json; [induction reports as [|p l IH]; [done|]; apply Forall_cons_1 in Hr as [_ Hr]; cbn; by apply IH|].
  induction Hr as [|p l (Hp1 & Hp2 & Hp3) _ IH]; [done|]. cbn [map concat]. rewrite IH. unfold push_shown, push_progress_response.
  cbn [sr_data resp_ok_with_data]. rewrite bool_decide_false by (intros Hn; by apply Hn).
  erewrite !data_u64_number by done. done.
Qed.

Lemma push_on_screen (w : CliWorld) json skip sandbox pm local_path remote_path sv timeout t (d : D)
    content mtime reads target noise a x tail k rest xs (h : Host NetTransport) :
  let cmd := CmdPush local_path remote_path in
  let nanos := w_nanos dw t in
  let total := Z.of_nat (length content) in
  from_flags (cw_sandbox w) skip sandbox = Ok pm ->
  ensure_push_allowed pm (cw_prompt w 0) local_path remote_path = Ok tt ->
  on_connection DefaultConn d -> total < 2 ^ 64 ->
  push_ready C P Zs (w_file dw local_path) nanos local_path remote_path content mtime reads target noise x ->
  delivers_msgs C P (noise ++ (a, Some (answer_msg x)) :: tail) (lk_stream (dm_link d)) ->
  (skips x = false -> tail = ack_msgs k ++ rest /\ ack_ok C P nanos (answered_at noise a t) rest k) ->
  daemon_up h -> h_exchanges h = (serve_client dw config t cmd d).1 :: xs ->
  exists bs, Forall2 (fun c b => compress_chunk c = Ok b) (chunks_sent content reads x) bs /\
    run (run_cli w (mkCli json skip sandbox (CPush local_path remote_path None sv timeout))) t h =
      (Done EXIT_SUCCESS, Z.max (if skips x then answered_at noise a t else acked_at (answered_at noise a t) k) t,
       add_out (emit_response json (push_response local_path remote_path total total (start_of x total)))
         (add_out (if json then [] else [ErrLine ""])
            (add_out (if json then [] else map show_progress (all_told content reads x bs)) (asked cmd h)))) /\
    has_sent C P (lk_stream (dm_link d)) (all_sent nanos content mtime target x bs)
      (lk_stream (dm_link (serve_client dw config t cmd d).2)).
Proof.
  intros cmd nanos total Hpm Hp [Ht Hf He] Hbig Hr Hd Hk Hu Hx.
  destruct (push_run C P Zs (w_file dw local_path) nanos local_path remote_path (exec_part t cmd d) content mtime reads
    target noise a x tail t k rest Hr) as (bs & s' & Hbs & E & [Hs Hi Hw] & _); [|done|done|].
  { constructor; [by apply has_sent_nil|done|done]. }
  destruct (on_exec_done _ _ _ _ _ _ _ E) as (d1 & E1 & Hc & Hst & _).
  pose proof (start_of_range x total ltac:(lia) (pr_answer_ok _ _ _ _ _ _ _ _ _ _ _ _ _ Hr)) as Hrange.
  assert (Forall u64_counts (all_told content reads x bs)) as Hu64.
  { destruct (all_told_spec C P Zs (w_file dw local_path) nanos local_path remote_path content mtime reads target
      noise x bs Hr Hbs) as (reports & -> & Hrep & _).
    apply Forall_cons_2; [unfold u64_counts; cbn; fold total; lia|].
    eapply Forall_impl; [exact Hrep|]. intros q (Hq1 & Hq2 & Hq3). unfold u64_counts. rewrite Hq1, Hq3.
    fold total in Hq2 |- *. lia. }
  destruct (serve_client_answer dw config t cmd d d1 (push_complete_response (pushed nanos local_path remote_path content x bs))
    (map (push_progress_response remote_path) (all_told content reads x bs))
    (if skips x then answered_at noise a t else acked_at (answered_at noise a t) k)) as (d' & Es & Hl); try done.
  { unfold wrote. rewrite Hc, Hw. cbn. by rewrite map_map. }
  rewrite Es in Hx |- *. cbn [fst snd] in Hx |- *. exists bs. split_and!; [done| |by rewrite Hl, Hst].
  unfold run, run_cli. cbn [cli_json cli_skip_permissions cli_sandbox cli_command]. rewrite Hpm.
  unfold run_push, permitted. rewrite Hp. unfold bind at 1, try at 1.
  erewrite (stream_up (on_push_response json) (fun _ _ => tt) (push_shown json))
    by (done || (intros; apply on_push_response_run)).
  rewrite push_shown_reports by done. cbn [fmap result_fmap snd].
  unfold bind at 1. rewrite end_progress_run. unfold on_reply.
  change (sr_success (push_complete_response _)) with true. cbv iota.
  rewrite (data_u64_number "sent_bytes" _ total), (data_u64_number "total_bytes" _ total),
    (data_u64_number "resumed_bytes" _ (start_of x total)) by (reflexivity || lia). done.
Qed.
(** ** The shell command *)

(** The process sends its request and closes its side: the daemon finds no lines behind it. *)
Lemma serve_client_shell t (d : D) r t' st' :
  lk_conn_type (dm_link d) = ConnTerminal ->
  run shell_session t (exec_part t CmdShell d, mkUdsReader [] (Some t)) = (Done tt, t', st') ->
  ex_writer st'.1 = mkUdsWriter [ULine r] [] ->
  exists d', serve_client dw config t CmdShell d = (speaks t' [r], d') /\
    lk_stream (dm_link d') = ex_stream st'.1 /\ lk_service (dm_link d') = ex_service_id st'.1 /\
    lk_session (dm_link d') = lk_session (dm_link d).
Proof.
  intros Ht E Hw. unfold run, exec_part in E. unfold serve_client, on_accept.
  unfold bind at 1. cbn [now]. unfold bind at 1. cbn [modify client_of cl_faults cl_reader].
  unfold bind at 1, try at 1, read_first_line. cbn [cl_line client_of].
  unfold bind at 1, wait_until. rewrite Z.leb_refl. cbn [lift ret]. rewrite cmd_trim, cmd_round.
  unfold serve_command, bind at 1, ensure_conn_type, bind at 1. cbn [get dm_link conn_type_for_command].
  rewrite decide_True by done. cbn [ret negb]. unfold serve_shell, bind, try, on_shell, zoom.
  cbn [dm_link dm_client fst snd]. rewrite E. eexists. split.
  - cbn [dm_client with_client snd]. rewrite Hw. reflexivity.
  - by split_and!.
Qed.

(** The terminal opens, and nothing more was there by then. *)
Definition only_opens (noise : inbox) (a : Z) (opened : TerminalOpened) (t : Z) (rest : inbox) : ShellScript :=
  mkShellScript noise a opened [] (HangsUp []) (mkUdsReader [] (Some t)) rest.

Lemma shell_on_screen (w : CliWorld) json skip sandbox pm t (d : D) noise a opened rest xs (h : Host NetTransport) :
  let sc := only_opens noise a opened t rest in
  let d' := (serve_client dw config t CmdShell d).2 in
  from_flags (cw_sandbox w) skip sandbox = Ok pm -> ensure_shell_allowed pm (cw_prompt w 0) = Ok tt ->
  on_connection ConnTerminal d -> terminal_noise (t + 15000) noise -> a <= t + 15000 -> topen_success opened = true ->
  first_after (shell_opened_at sc t) rest -> t <= shell_opened_at sc t ->
  delivers_msgs C P (shell_msgs sc) (lk_stream (dm_link d)) -> Forall (fits P) (shell_sends Zs sc) ->
  daemon_up h -> h_exchanges h = (serve_client dw config t CmdShell d).1 :: xs ->
  run (run_cli w (mkCli json skip sandbox CShell)) t h =
    (Done EXIT_SUCCESS, shell_opened_at sc t, add_out (emit_response json shell_response) (asked CmdShell h)) /\
  has_sent C P (lk_stream (dm_link d)) (shell_sends Zs sc) (lk_stream (dm_link d')) /\
  lk_service (dm_link d') = None /\ lk_session (dm_link d') = lk_session (dm_link d) /\
  delivers_msgs C P rest (lk_stream (dm_link d')).
Proof.
  intros sc d' Hpm Hp [Ht Hf He] Hn Ha Hok Hrest Hle Hd Hfit Hu Hx. unfold d'. clear d'.
  destruct (shell_run C P Zs sc (exec_part t CmdShell d, mkUdsReader [] (Some t)) t) as (st' & E & [Hs Hi Hw Hr] & Hd').
  - constructor; try done. cbn. unfold leaving_ok. cbn [ss_leaving sc only_opens ss_later ud_lines ud_eof ss_rest].
    split; [done|]. exists t. rewrite Z.max_l by done. split_and!; [done|lia|constructor|done].
  - constructor; try done. by apply has_sent_nil.
  - done.
  - done.
  - destruct (serve_client_shell t d (shell_ack (topen_terminal_id opened)) _ st' Ht E Hw) as (d' & Ed & Hst & Hsv & Hss).
    assert (shell_ended_at sc t = shell_opened_at sc t) as Hend.
    { change (shell_ended_at sc t) with (Z.max (shell_opened_at sc t) t). lia. }
    rewrite Ed in Hx |- *. cbn [fst snd] in Hx |- *. rewrite Hend in Hx. rewrite Hst, Hsv, Hss. split_and!; try done.
    unfold run, run_cli. cbn [cli_json cli_skip_permissions cli_sandbox cli_command]. rewrite Hpm.
    unfold run_shell, permitted. rewrite Hp.
    rewrite (ask_up json "shell" "shell failed" CmdShell _ t _ _ [] xs h Hu Hx eq_refl).
    rewrite Z.max_l by done. by destruct json.
Qed.
End screen.

(** ** The properties *)



(** C13: the [shell] command opens a terminal only to close it.  The process sends its request, closes
    its side of the socket and reads one line, so with a daemon on a terminal connection and a peer
    that opens the terminal in time, [shell] prints that an interactive shell was started and ends
    with exit code 0 the moment the terminal is open; in the same moment the daemon closes it.  The
    peer is sent exactly the request to open and the request to close: no input ever reaches it and
    none of its output is shown, and the daemon is ready for the next command. *)
Theorem shell_closes_at_once (C : CryptoLib) (CL : CryptoLaws C) (P : ProtoCodec Message) (PL : ProtoLaws P)
    (Zs : Zstd) `{ProtoCodec IdPk} `{ProtoCodec RendezvousMessage} `{ServerKeyLib} `{ImageLib Img} `{LockLib} `{JsonText}
    (CC : CommandLib) (R : ResponseLib) (W : WireLib) (L : WireLaws W CC R)
    dw config w json skip sandbox pm t (d : Daemon NetTransport) noise a opened rest xs (h : Host NetTransport) :
  let d' := (serve_client dw config t CmdShell d).2 in
  let now := Z.max (arrival t noise) a in
  let action x := Some (UTerminalAction (Some x)) : Message in
  let sends := [action (TAOpen 0 24 80); action (TAClose (topen_terminal_id opened))] in
  from_flags (cw_sandbox w) skip sandbox = Ok pm -> ensure_shell_allowed pm (cw_prompt w 0) = Ok tt ->
  on_connection ConnTerminal d -> terminal_noise (t + 15000) noise -> t <= a <= t + 15000 ->
  topen_success opened = true -> first_after now rest ->
  delivers_msgs C P (noise ++ (a, terminal_msg (TROpened opened)) :: rest) (lk_stream (dm_link d)) ->
  Forall (fits P) sends -> daemon_up h -> h_exchanges h = (serve_client dw config t CmdShell d).1 :: xs ->
  exists h', run (run_cli w (mkCli json skip sandbox CShell)) t h = (Done EXIT_SUCCESS, now, h') /\
    h_out h' = h_out h ++ emit_response json shell_response /\ h_sent h' = h_sent h ++ [CmdShell] /\
    has_sent C P (lk_stream (dm_link d)) sends (lk_stream (dm_link d')) /\
    lk_service (dm_link d') = None /\ lk_session (dm_link d') = lk_session (dm_link d) /\
    delivers_msgs C P rest (lk_stream (dm_link d')).
Proof.
  intros d' now action sends Hpm Hp Hon Hn Ha Hok Hrest Hd Hfit Hu Hx.
  destruct (shell_on_screen C P Zs CC R W dw config w json skip sandbox pm t d noise a opened rest xs h)
    as (E & Hs & Hsv & Hss & Hd'); try done; [lia|unfold shell_opened_at; cbn; lia|].
  eexists. split; [exact E|]. by split_and!.
Qed.

(** ** Evaluating both processes *)

#[local] Instance toy_crypto_p : CryptoLib := toy_crypto.
#[local] Instance toy_messages_p : ProtoCodec Message := toy_codec MessageUnion.
#[local] Instance toy_rendezvous_p : ProtoCodec RendezvousMessage := toy_codec RendezvousUnion.
#[local] Instance toy_idpk_p : ProtoCodec IdPk := toy_idpk.
#[local] Instance toy_server_keys_p : ServerKeyLib := DaemonLoop.toy_server_keys.
#[local] Instance toy_zstd_p : Zstd := toy_zstd.
#[local] Instance toy_image_p : ImageLib (Z * Z) := toy_image.
#[local] Instance toy_lock_p : LockLib := toy_lock.
#[local] Instance toy_text_p : JsonText := {| json_text := fun _ => "{}"%string |}.
#[local] Instance toy_commands_p : CommandLib := toy_wire_commands.
#[local] Instance toy_responses_p : ResponseLib := toy_wire_responses.
#[local] Instance toy_wire_p : WireLib := toy_wire.

(** A clock that stands at [toy_nanos], and the file of the toy push. *)
Definition toy_peer_world : World :=
  mkWorld (fun _ => toy_random) (fun _ => Err (anyhow "network unreachable")) (fun _ => toy_nanos) 4242
    (fun _ => toy_local).
Definition toy_servers : Servers := mkServers None None None None None.

Lemma toy_on_connection l ty : on_connection ty (toy_daemon (toy_stream l) ty []).
Proof. by split. Defined.



Lemma shell_closes_at_once_witness :
  let l := [(10, None); (20, terminal_msg (TROpened toy_opened)); (90, None)] in
  let d := toy_daemon (toy_stream l) ConnTerminal [] in
  let h := toy_host [(serve_client toy_peer_world (config_of toy_args) 5 CmdShell d).1] in
  exists h', run (run_cli toy_cli (mkCli false true false CShell)) 5 h = (Done EXIT_SUCCESS, 20, h') /\
    h_sent h' = [CmdShell].
Proof.
  intros l d h.
  destruct (shell_closes_at_once toy_crypto toy_crypto_laws (toy_codec MessageUnion) (toy_codec_laws MessageUnion)
    toy_zstd toy_wire_commands toy_wire_responses toy_wire toy_wire_laws toy_peer_world (config_of toy_args) toy_cli
    false true false (mkPermissionManager true None) 5 d [(10, None)] 20 toy_opened [(90, None)] [] h)
    as (h' & E & _ & Hs & _).
  - reflexivity.
  - reflexivity.
  - apply toy_on_connection.
  - repeat constructor; cbv; congruence.
  - lia.
  - reflexivity.
  - reflexivity.
  - split; [vm_compute; reflexivity|].
    repeat (apply Forall_cons_2 || apply Forall_nil_2); first [exact I | vm_compute; congruence].
  - repeat (apply Forall_cons_2 || apply Forall_nil_2); vm_compute; congruence.
  - apply toy_host_up.
  - reflexivity.
  - exists h'. split; [exact E|exact Hs].
Defined.
