(* ===== verification/Conformance.v ===== *)
(** * The repository's own tests, evaluated on the model

    The assertions of the unit tests (the [tests] modules under src/src/) and of tests/cli_test.rs
    and tests/cli_error_regression_test.rs that need no network or library of their own, run on the
    definitions of this development. *)

From Stdlib Require Import ZArith Lia.
From Stdlib Require Import Strings.Byte Strings.Ascii Strings.String.
From stdpp Require Import base list option numbers gmap strings.
From S2P Require Import Prelude RustStr Async Transport Crypto Base64 Permissions Json Session.
From S2P Require Import Proto Inbox Terminal Capture FileTransfer Rendezvous Connection Exec.
From S2P Require Import Lockfile Daemon DaemonLoop.
From S2P Require Import Direct Batch Response Cli Wire CliSpec.

Local Open Scope Z_scope.
Local Open Scope string_scope.

Definition CRLF : string := String CR (String LF "").

(** ** daemon.rs *)

Definition SENTINEL : string := "__RDCLI_00000000000000000000000000000001__".
Definition echo_line : string := "echo '" ++ SENTINEL ++ "'$?" ++ CRLF.

Example find_sentinel_output_matches_digit_suffix :
  let raw := echo_line ++ SENTINEL ++ "0" ++ CRLF ++ "$ " in
  (fun pos => str_take 1 (str_drop (pos + String.length SENTINEL) raw)) <$> find_sentinel_output raw SENTINEL
  = Some "0".
Proof. vm_compute. reflexivity. Qed.
Example find_sentinel_output_skips_echoed_command : find_sentinel_output echo_line SENTINEL = None.
Proof. vm_compute. reflexivity. Qed.
Example parse_exec_output_tests :
  parse_exec_output ("whoami" ++ CRLF ++ echo_line ++ "root" ++ CRLF ++ SENTINEL ++ "0" ++ CRLF ++ "$ ") SENTINEL
    = ("root", 0) /\
  parse_exec_output ("false" ++ CRLF ++ echo_line ++ SENTINEL ++ "1" ++ CRLF ++ "$ ") SENTINEL = ("", 1) /\
  (parse_exec_output ("exit 127" ++ CRLF ++ echo_line ++ SENTINEL ++ "127" ++ CRLF ++ "$ ") SENTINEL).2 = 127 /\
  parse_exec_output ("ls" ++ CRLF ++ echo_line ++ "file1.txt" ++ CRLF ++ "file2.txt" ++ CRLF ++ "file3.txt" ++ CRLF
                       ++ SENTINEL ++ "0" ++ CRLF ++ "$ ") SENTINEL
    = ("file1.txt" ++ CRLF ++ "file2.txt" ++ CRLF ++ "file3.txt", 0) /\
  parse_exec_output ("some partial output" ++ CRLF) SENTINEL = ("some partial output", -1).
Proof. vm_compute. repeat split. Qed.

Example should_reconnect_matches_transport_failures :
  should_reconnect (anyhow "Decryption failed: invalid ciphertext") = true /\
  should_reconnect (anyhow "terminal error during exec: permission denied") = false.
Proof. vm_compute. split; reflexivity. Qed.
Example keepalive_tests :
  map (fun x => is_keepalive_expired x KEEPALIVE_TIMEOUT) [0; 91000; 89000] = [false; true; false] /\
  map (fun x => is_keepalive_expired x 10000) [11000; 5000] = [true; false].
Proof. split; reflexivity. Qed.
Example exec_completion_timeout_uses_override_and_caps_at_max :
  map exec_completion_timeout [None; Some 123; Some 7200] =
  [DEFAULT_EXEC_COMPLETION_TIMEOUT; 123000; MAX_EXEC_COMPLETION_TIMEOUT].
Proof. reflexivity. Qed.
Example exec_output_chunk_response_marks_chunk_kind :
  let resp := exec_output_chunk_response (as_bytes ("hello" ++ String LF "")) in
  sr_success resp = true /\ data_str "kind" (resp_data resp) = Some "chunk" /\
  data_str "chunk" (resp_data resp) = Some ("hello" ++ String LF "").
Proof. vm_compute. repeat split. Qed.
Example login_union_for_terminal_preserves_service_id :
  login_union_for_conn_type ConnTerminal (Some "svc-123") = Some (LTerminal "svc-123").
Proof. reflexivity. Qed.
Example build_option_message_headless_config :
  let opt := build_option_message in
  image_quality opt = ImageQuality_Best /\ custom_fps opt = 0 /\ disable_audio opt = BoolOption_Yes /\
  disable_clipboard opt = BoolOption_Yes /\ disable_camera opt = BoolOption_Yes /\
  terminal_persistent opt = BoolOption_Yes /\ ability_vp9 <$> supported_decoding opt = Some 1.
Proof. repeat split. Qed.

(** ** connection.rs, crypto.rs, file_transfer.rs and permissions.rs *)

Definition punch_response (addr : bytes) (failure : Z) (relay other : string) : PunchHoleResponse :=
  mkPunchHoleResponse addr [] failure relay other [].
Definition fails_with (text : string) (r : Res unit) : bool :=
  match r with Ok _ => false | Err e => contains text (error_to_string e) end.

Example punch_hole_tests :
  check_punch_hole_failure (punch_response (map byte_of_Z [127; 0; 0; 1; 0x20; 0xfb]) 0 "relay.example.com:21117" "")
    = Ok tt /\
  check_punch_hole_failure (punch_response [] 2 "" "") = Ok tt /\
  check_punch_hole_failure (punch_response [] 2 "relay.example.com:21117" "") = Ok tt /\
  fails_with "license mismatch" (check_punch_hole_failure (punch_response [] 3 "" "")) = true /\
  fails_with "license connection limit" (check_punch_hole_failure (punch_response [] 4 "" "")) = true /\
  fails_with "does not exist" (check_punch_hole_failure (punch_response [] 0 "" "")) = true /\
  fails_with "custom server error" (check_punch_hole_failure (punch_response [] 0 "" "custom server error")) = true.
Proof. vm_compute. repeat split. Qed.
Example base64_decode_server_key :
  (fun b => (length b, take 3 b)) <$> ServerKey.decode_server_key "SWc0NIWF0wR7kd8rHdGNaCHXtp7dirUImEtrVmRfQdc="
  = Ok (32%nat, map byte_of_Z [0x49; 0x67; 0x34]).
Proof. vm_compute. reflexivity. Qed.
Example nonce_sequence_layout :
  make_nonce 1 = x01 :: repeat x00 23 /\ make_nonce 256 = x00 :: x01 :: repeat x00 22 /\ make_nonce 0 = repeat x00 24.
Proof. vm_compute. repeat split. Qed.
Example remote_target_parses_file_destination :
  parse_remote_target "/home/evas/rope_op.py" "/tmp/local.bin" = Ok (mkRemoteTarget "/home/evas" "rope_op.py") /\
  parse_remote_target "/home/evas/" "/tmp/local.bin" = Ok (mkRemoteTarget "/home/evas" "local.bin").
Proof. vm_compute. split; reflexivity. Qed.

Definition allows {A} (r : Res A) : bool := match r with Ok _ => true | Err _ => false end.
Definition no_prompt : Prompt := mkPrompt false (Ok tt) (Err (anyhow "closed")).
Example sandbox_tests :
  let peers := mkPermissionManager true (Some (mkSandboxRules ["123"] [] [])) in
  let commands := mkPermissionManager true (Some (mkSandboxRules [] ["python3"; "ls"] ["/etc"])) in
  let paths := mkPermissionManager true (Some (mkSandboxRules [] [] ["/root"])) in
  map (fun p => allows (ensure_connect_allowed peers no_prompt p)) ["123"; "456"] = [true; false] /\
  map (fun c => allows (ensure_exec_allowed commands no_prompt c))
    ["python3 /tmp/test.py"; "rm -rf /tmp"; "python3 /etc/passwd"] = [true; false; false] /\
  map (fun p => allows (ensure_path_allowed paths p)) ["/tmp/file"; "/root/secret.txt"] = [true; false].
Proof. vm_compute. repeat split. Qed.
(** An allowed command is a prefix of the line that is run, not a word of it. *)
Example sandbox_prefix_admits_more :
  let commands := mkPermissionManager true (Some (mkSandboxRules [] ["ls"] ["/etc"])) in
  map (fun c => allows (ensure_exec_allowed commands no_prompt c)) ["lsattr"; "ls; rm -rf ~"] = [true; true].
Proof. vm_compute. reflexivity. Qed.

(** ** The command line, without a session *)

#[local] Instance toy_crypto_t : CryptoLib := toy_crypto.
#[local] Instance toy_messages_t : ProtoCodec Message := toy_codec MessageUnion.
#[local] Instance toy_rendezvous_t : ProtoCodec RendezvousMessage := toy_codec RendezvousUnion.
#[local] Instance toy_idpk_t : ProtoCodec IdPk := toy_idpk.
#[local] Instance toy_server_keys_t : ServerKeyLib := DaemonLoop.toy_server_keys.
#[local] Instance toy_zstd_t : Zstd := toy_zstd.
#[local] Instance toy_lock_t : LockLib := toy_lock.
#[local] Instance toy_text_t : JsonText := toy_text.
#[local] Instance toy_responses_t : ResponseLib := toy_wire_responses.

Definition no_session_host : Host NetTransport :=
  mkHost (mkSpawnWorld (mkDisk ∅ ∅ []) []) [] [] (mkConnEnv (mkNet [] Never [] [] false) [])
    (mkLocalTerm [] None [] []) [].
(** The exit code, and what was printed. *)
Definition cli_run (json : bool) (h : Host NetTransport) (c : Commands) : option Z * list Output :=
  match run (run_cli toy_cli (mkCli json true false c)) 0 h with
  | (Done code, _, h') => (Some code, h_out h')
  | (_, _, h') => (None, h_out h')
  end.
Definition json_of (x : option Z * list Output) : Value :=
  match x.2 with [OutJson v] => v | _ => Null end.
Definition steps_of (v : Value) : list Value :=
  match json_get "steps" v with Some (Array l) => l | _ => [] end.

Example commands_without_daemon_exit_correctly :
  map (fun c => (cli_run false no_session_host c).1) [CDisconnect; CStatus; CDo ["connect"; "123"; "type"; "hello"]]
  = [Some 2; Some 0; Some 2].
Proof. vm_compute. reflexivity. Qed.
Example no_session_errors_go_to_stderr_only :
  let '(code, out) := cli_run false no_session_host (CType "hello") in
  code <> Some 0 /\ List.filter on_stdout out = [] /\
  match out with [ErrLine s] => contains "No active session" s = true | _ => False end.
Proof. vm_compute. repeat split. discriminate. Qed.
Example json_disconnect_matches_contract :
  let v := json_of (cli_run true no_session_host CDisconnect) in
  json_get "ok" v = Some (Bool false) /\ json_get "command" v = Some (Str "disconnect") /\
  json_get "error" v ≫= json_get "code" = Some (Str "session_error").
Proof. vm_compute. repeat split. Qed.
Example json_do_without_session_returns_error :
  let v := json_of (cli_run true no_session_host
             (CDo ["connect"; "123"; "--password"; "pw"; "click"; "500"; "300"])) in
  json_get "ok" v = Some (Bool false) /\ json_get "error" v ≫= json_get "code" = Some (Str "session_error").
Proof. vm_compute. repeat split. Qed.
Example json_capture_contract :
  let v := json_of (cli_run true no_session_host (CCapture (Some "shot.png") (Some 1) None 90 7 None)) in
  json_get "ok" v = Some (Bool true) /\ json_get "file" v = Some (Str "shot.png") /\
  json_get "format" v = Some (Str "png") /\ json_get "display" v = Some (Number 1) /\
  json_get "timeout" v = Some (Number 7).
Proof. vm_compute. repeat split. Qed.
Example password_and_password_stdin_are_mutually_exclusive :
  (cli_run false no_session_host
     (CConnect "123" false true (mkServers (Some "pw") None None None None) 30)).1 = Some 3.
Proof. vm_compute. reflexivity. Qed.
Example capture_region_tests :
  region_from_str "100,200,300,400" = Ok (mkRegion 100 200 300 400) /\
  region_from_str "100,200,300" = Err "region must be in x,y,w,h format" /\
  region_from_str "100,200,0,400" = Err "region width and height must be positive".
Proof. vm_compute. repeat split. Qed.

(** ** Batches *)

Example do_verifies_output_format_for_all_commands :
  let v := json_of (cli_run true (toy_host [])
             (CDo ["capture"; "shot.png"; "click"; "500"; "300"; "move"; "100"; "200"; "drag"; "0"; "0"; "100"; "100";
                   "disconnect"])) in
  json_get "ok" v = Some (Bool true) /\
  map (json_get "command") (steps_of v) =
    [Some (Str "capture"); Some (Str "click"); Some (Str "move"); Some (Str "drag"); Some (Str "disconnect")] /\
  map (json_get "x") (steps_of v) = [None; Some (Number 500); Some (Number 100); None; None].
Proof. vm_compute. repeat split. Qed.
Example do_verifies_output_format_for_text_mode_pivot_commands :
  let v := json_of (cli_run true (toy_host [])
             (CDo ["shell"; "exec"; "--command"; "pwd"; "clipboard"; "get"; "clipboard"; "set"; "--text"; "hello"])) in
  length (steps_of v) = 4%nat /\
  map (json_get "stdout") (steps_of v) = [None; Some (Str "stub exec output"); None; None] /\
  map (json_get "text") (steps_of v) = [None; None; Some (Str "stub clipboard text"); None] /\
  map (json_get "chars") (steps_of v) = [None; None; None; Some (Number 5)].
Proof. vm_compute. repeat split. Qed.
